(** * solar-data-tools: shade and soiling signal decompositions

    A shallow embedding of [solardatatools/algorithms/shade.py] and
    [solardatatools/algorithms/soiling.py].

    Floating-point arrays are idealised as lists of exact rationals ([Q]);
    NaN, where the code tests for it, is an explicit [None].  The numpy,
    scipy, pandas and cvxpy primitives the code calls are modelled by their
    mathematical contract; numpy's [sin], [deg2rad] and [log10] and the
    convex solver are parameters of the development.  A Python exception is
    a [Raise] in the [result] type. *)

From Stdlib Require Import QArith Qabs Qround Qminmax ZArith List Bool String.
From Stdlib Require Import Arith Lia Lqa.
From Stdlib Require Import Reals Qreals Lra Sorted.
Import ListNotations.

Local Open Scope Q_scope.

(** ** Exceptions *)

Inductive exn : Type :=
| ValueError
| TypeError
| KeyError
| IndexError
| AttributeError
| UnboundLocalError
| SolverError (status : string).

Inductive result (A : Type) : Type :=
| Ok (a : A)
| Raise (e : exn).

Arguments Ok {A} a.
Arguments Raise {A} e.

Definition rbind {A B : Type} (c : result A) (k : A -> result B) : result B :=
  match c with
  | Ok a => k a
  | Raise e => Raise e
  end.

Notation "x <- c ;; k" := (rbind c (fun x => k))
  (at level 61, c at next level, right associativity).

Fixpoint foldM {A B : Type} (f : B -> A -> result B) (l : list A) (b : B)
  : result B :=
  match l with
  | [] => Ok b
  | a :: l' => b' <- f b a ;; foldM f l' b'
  end.

Fixpoint mapM {A B : Type} (f : A -> result B) (l : list A) : result (list B) :=
  match l with
  | [] => Ok []
  | a :: l' => b <- f a ;; bs <- mapM f l' ;; Ok (b :: bs)
  end.

(** ** numpy arrays *)

Module Np.

Definition vector := list Q.
Definition matrix := list (list Q).
Definition bmatrix := list (list bool).

Definition Qltb (a b : Q) : bool := negb (Qle_bool b a).

(** [np.sum] of a one-dimensional array. *)
Definition sum (v : vector) : Q := fold_right Qplus 0 v.

(** [int(np.sum(msk))] of a boolean array. *)
Definition count_true (msk : list bool) : nat :=
  List.length (filter (fun b => b) msk).

Definition shape0 {A : Type} (m : list (list A)) : nat := List.length m.

Definition shape1 {A : Type} (m : list (list A)) : nat :=
  match m with
  | [] => 0%nat
  | r :: _ => List.length r
  end.

(** A list of rows is an [r] x [c] array. *)
Definition has_shape {A : Type} (r c : nat) (m : list (list A)) : Prop :=
  List.length m = r /\ Forall (fun row => List.length row = c) m.

(** [m[:, j]] *)
Definition col {A : Type} (d : A) (m : list (list A)) (j : nat) : list A :=
  map (fun row => nth j row d) m.

(** Whether the array has a column [j]: [j] is below the length of its
    rows (the rows of an array are equally long). *)
Definition has_col {A : Type} (m : list (list A)) (j : nat) : bool :=
  existsb (fun row => (j <? List.length row)%nat) m.

(** [m[:, j]] where [j] may lie beyond the columns: an [IndexError]
    then. *)
Definition get_col {A : Type} (d : A) (m : list (list A)) (j : nat)
  : result (list A) :=
  if has_col m j then Ok (col d m j) else Raise IndexError.

Fixpoint set_nth {A : Type} (j : nat) (x : A) (row : list A) : list A :=
  match row, j with
  | [], _ => []
  | _ :: row', O => x :: row'
  | a :: row', S j' => a :: set_nth j' x row'
  end.

(** [m[:, j] = v] *)
Fixpoint set_col {A : Type} (m : list (list A)) (j : nat) (v : list A)
  : list (list A) :=
  match m, v with
  | row :: m', x :: v' => set_nth j x row :: set_col m' j v'
  | _, _ => m
  end.

(** [np.zeros((r, c))] *)
Definition zeros (r c : nat) : matrix := repeat (repeat 0 c) r.

(** [y[msk]] for a boolean [msk] as long as [y]. *)
Fixpoint mask_select {A : Type} (y : list A) (msk : list bool) : list A :=
  match y, msk with
  | a :: y', b :: msk' =>
      if b then a :: mask_select y' msk' else mask_select y' msk'
  | _, _ => []
  end.

Definition bool_index {A : Type} (y : list A) (msk : list bool)
  : result (list A) :=
  if Nat.eqb (List.length y) (List.length msk)
  then Ok (mask_select y msk) else Raise IndexError.

(** [column[msk] = vals]: the values go, in order, to the positions where
    [msk] is true. *)
Fixpoint mask_put (column : list Q) (msk : list bool) (vals : list Q)
  : list Q :=
  match column, msk with
  | c :: column', true :: msk' =>
      match vals with
      | v :: vals' => v :: mask_put column' msk' vals'
      | [] => c :: mask_put column' msk' []
      end
  | c :: column', false :: msk' => c :: mask_put column' msk' vals
  | _, _ => column
  end.

Definition bool_assign (column : list Q) (msk : list bool) (vals : list Q)
  : result (list Q) :=
  if Nat.eqb (List.length column) (List.length msk)
     && Nat.eqb (List.length vals) (count_true msk)
  then Ok (mask_put column msk vals) else Raise ValueError.

(** A float that may be not finite: [None] stands for NaN and for the
    infinities.  A difference is finite when both operands are. *)
Definition minus_float (a b : option Q) : option Q :=
  match a, b with
  | Some x, Some y => Some (x - y)
  | _, _ => None
  end.

(** [np.linspace(start, stop, num)]: [num] evenly spaced points, both ends
    included. *)
Definition linspace (start stop : Q) (num : nat) : vector :=
  map (fun i => start
                + inject_Z (Z.of_nat i)
                  * ((stop - start) / inject_Z (Z.of_nat (num - 1))))
      (seq 0 num).

End Np.

(** ** scipy.interpolate.interp1d (kind = linear) *)

Module Interp.

Import Np.

(** The interpolant keeps its knots sorted by abscissa. *)
Record interp1d_obj : Type := {
  knots : list (Q * Q);
  extrapolate : bool
}.

(** scipy sorts the knots with a stable sort on [x]. *)
Fixpoint insert_knot (p : Q * Q) (l : list (Q * Q)) : list (Q * Q) :=
  match l with
  | [] => [p]
  | q :: l' =>
      if Qle_bool (fst p) (fst q) then p :: l else q :: insert_knot p l'
  end.

Definition sort_knots (l : list (Q * Q)) : list (Q * Q) :=
  fold_right insert_knot [] l.

(** [interp1d(x, y)] with the default [bounds_error], or
    [interp1d(x, y, bounds_error=False, fill_value="extrapolate")].
    Arrays of different lengths, or arrays without an entry, are a
    [ValueError]; a single knot is accepted. *)
Definition interp1d (extrap : bool) (x y : vector) : result interp1d_obj :=
  if negb (Nat.eqb (List.length x) (List.length y)) then Raise ValueError
  else if Nat.ltb (List.length x) 1 then Raise ValueError
  else Ok {| knots := sort_knots (combine x y); extrapolate := extrap |}.

(** [np.searchsorted(x, v)]: the first index whose entry is not below [v]. *)
Fixpoint searchsorted (x : vector) (v : Q) : nat :=
  match x with
  | [] => 0%nat
  | a :: x' => if Qltb a v then S (searchsorted x' v) else 0%nat
  end.

(** [np.clip(i, lo, hi)]: when [lo] exceeds [hi] the result is [hi]. *)
Definition clip (i lo hi : nat) : nat := Nat.min (Nat.max i lo) hi.

(** The line through the two knots of a segment, at [x_new]: the segment
    is found by [searchsorted], clipped to the first and last segments.
    With a single knot both ends of the segment are that knot. *)
Definition interp_value (kn : list (Q * Q)) (x_new : Q) : Q :=
  let xs := map fst kn in
  let hi := clip (searchsorted xs x_new) 1 (List.length kn - 1) in
  let lo := (hi - 1)%nat in
  let '(x_lo, y_lo) := nth lo kn (0, 0) in
  let '(x_hi, y_hi) := nth hi kn (0, 0) in
  let slope := (y_hi - y_lo) / (x_hi - x_lo) in
  slope * (x_new - x_lo) + y_lo.

(** Whether that segment has no width, so that the slope is a division
    by zero. *)
Definition zero_width (kn : list (Q * Q)) (x_new : Q) : bool :=
  let xs := map fst kn in
  let hi := clip (searchsorted xs x_new) 1 (List.length kn - 1) in
  let lo := (hi - 1)%nat in
  Qeq_bool (fst (nth hi kn (0, 0))) (fst (nth lo kn (0, 0))).

Definition out_of_bounds (kn : list (Q * Q)) (x_new : Q) : bool :=
  Qltb x_new (fst (hd (0, 0) kn)) || Qltb (fst (last kn (0, 0))) x_new.

(** [np.interp] on increasing knots, at a point within them: the
    ordinate of the knot when there is a single one, the line of the
    segment otherwise. *)
Definition np_interp (kn : list (Q * Q)) (x_new : Q) : Q :=
  match kn with
  | [(_, y)] => y
  | _ => interp_value kn x_new
  end.

(** The interpolant with [bounds_error] at one point: a [ValueError]
    outside the knots, [np.interp] within. *)
Definition call1 (f : interp1d_obj) (x_new : Q) : result Q :=
  if out_of_bounds (knots f) x_new then Raise ValueError
  else Ok (np_interp (knots f) x_new).

(** [interp_f(x_new)] for an array [x_new] and an interpolant built with
    the default [bounds_error]. *)
Definition call (f : interp1d_obj) (x_new : vector) : result vector :=
  mapM (call1 f) x_new.

(** The extrapolating interpolant at one point: the line of the segment,
    and a value that is not finite when the segment has no width. *)
Definition call1_linear (kn : list (Q * Q)) (x_new : Q) : option Q :=
  if zero_width kn x_new then None else Some (interp_value kn x_new).

(** [interp_f(x_new)] for an array [x_new] and an interpolant built with
    [bounds_error=False, fill_value="extrapolate"]: nothing is raised. *)
Definition call_linear (f : interp1d_obj) (x_new : vector)
  : list (option Q) :=
  map (call1_linear (knots f)) x_new.

End Interp.

(** ** Resampling ([batch_process], [undo_batch_process]) *)

Module Resample.

Import Np Interp.

(** The first statements of the loop body of [batch_process]: the day's
    masked trace interpolated onto the [N]-point grid. *)
Definition resampled_signal (data : matrix) (mask : bmatrix) (N col_ix : nat)
  : result vector :=
  let xs_new := linspace 0 1 N in
  let y := col 0 data col_ix in
  msk <- get_col false mask col_ix ;;
  let xs := linspace 0 1 (count_true msk) in
  y_msk <- bool_index y msk ;;
  interp_f <- interp1d false xs y_msk ;;
  call interp_f xs_new.

(** What the loop body of [batch_process] stores in column [col_ix]. *)
Definition batch_column (data : matrix) (mask : bmatrix) (N col_ix : nat)
  : result vector :=
  let y := col 0 data col_ix in
  let energy := sum y in
  resampled <- resampled_signal data mask N col_ix ;;
  let total := sum resampled in
  if Qltb 0 total
  then Ok (map (fun r => r * energy / total) resampled)
  else Ok (repeat 0 N).

Definition batch_process (data : matrix) (mask : bmatrix) (power : nat)
  : result matrix :=
  let N := (2 ^ power)%nat in
  let output := zeros N (shape1 data) in
  foldM (fun output col_ix =>
           column <- batch_column data mask N col_ix ;;
           Ok (set_col output col_ix column))
        (seq 0 (shape1 data)) output.

(** What the loop body of [undo_batch_process] scatters into the masked
    positions of column [col_ix]. *)
Definition undo_signal (data : matrix) (mask : bmatrix) (col_ix : nat)
  : result vector :=
  let xs_old := linspace 0 1 (shape0 data) in
  msk <- get_col false mask col_ix ;;
  let n_pts := count_true msk in
  let xs_new := linspace 0 1 n_pts in
  interp_f <- interp1d false xs_old (col 0 data col_ix) ;;
  call interp_f xs_new.

(** A resampled column interpolated back onto [n_pts] points: what
    [undo_signal] computes from the column alone. *)
Definition back_interpolated (resampled : vector) (n_pts : nat)
  : result vector :=
  interp_f <- interp1d false (linspace 0 1 (List.length resampled)) resampled ;;
  call interp_f (linspace 0 1 n_pts).

Definition undo_batch_process (data : matrix) (mask : bmatrix)
  : result matrix :=
  let output := zeros (shape0 mask) (shape1 mask) in
  foldM (fun output col_ix =>
           resampled <- undo_signal data mask col_ix ;;
           column <- bool_assign (col 0 output col_ix)
                                 (col false mask col_ix) resampled ;;
           Ok (set_col output col_ix column))
        (seq 0 (shape1 data)) output.

End Resample.

(** ** Knot sequences *)

Module Knots.

Import Np.

(** Consecutive entries increase. *)
Definition increasing (xs : vector) : Prop :=
  forall i, (S i < List.length xs)%nat -> nth i xs 0 < nth (S i) xs 0.

(** A knot with its ordinate rescaled by [e / s]. *)
Definition scale_knot (e s : Q) (p : Q * Q) : Q * Q := (fst p, snd p * e / s).

End Knots.

(** ** pandas: the data frame of [transform_data] *)

Module Pd.

Import Np.

Record DataFrame : Type := {
  index : list Q;
  columns : list Q;
  values : matrix
}.

(** [np.round(x, 0)]: to the nearest integer, ties to the even one. *)
Definition np_round (x : Q) : Q :=
  let f := Qfloor x in
  let d := x - inject_Z f in
  if Qltb d (1 # 2) then inject_Z f
  else if Qltb (1 # 2) d then inject_Z (f + 1)
  else if Z.even f then inject_Z f else inject_Z (f + 1).

(** [np.mean] *)
Definition mean (v : vector) : Q :=
  sum v / inject_Z (Z.of_nat (List.length v)).

(** The distinct keys of a [groupby], in ascending order. *)
Fixpoint insert_key (k : Q) (l : list Q) : list Q :=
  match l with
  | [] => [k]
  | a :: l' =>
      if Qltb k a then k :: l
      else if Qeq_bool k a then l
      else a :: insert_key k l'
  end.

Definition group_keys (keys : list Q) : list Q :=
  fold_right insert_key [] keys.

(** [df.groupby(key).mean()]: one row per distinct key, the column-wise
    mean of the rows that carry it. *)
Definition groupby_mean (keys : list Q) (rows : matrix) (ncols : nat)
  : list (Q * vector) :=
  map (fun k =>
         let group :=
           map snd (filter (fun kr => Qeq_bool (fst kr) k) (combine keys rows))
         in (k, map (fun j => mean (col 0 group j)) (seq 0 ncols)))
      (group_keys keys).

(** [m.T] *)
Definition transpose (m : matrix) : matrix :=
  map (col 0 m) (seq 0 (shape1 m)).

End Pd.

(** ** cvxpy: expressions over two-dimensional variables *)

Module Cvx.

Import Np.

Inductive mexpr : Type :=
| Var (shape : nat * nat) (name : string)
| Const (value : matrix)
| Add (a b : mexpr)
| Sub (a b : mexpr)
| Scale (c : Q) (e : mexpr)
| Abs (e : mexpr)
| Diff (k axis : nat) (e : mexpr)
| Col (j : nat) (e : mexpr).

Inductive sexpr : Type :=
| Sum (e : mexpr)
| SumSquares (e : mexpr)
| SAdd (a b : sexpr)
| SScale (c : Q) (s : sexpr).

(** One side of a comparison: an expression, or a Python number that is
    broadcast against the other side. *)
Inductive operand : Type :=
| Expr (e : mexpr)
| Num (c : Q).

(** [lhs == rhs] and [lhs <= rhs]; cvxpy turns [a >= b] into [b <= a]. *)
Inductive constraint : Type :=
| Equality (lhs rhs : operand)
| Inequality (lhs rhs : operand).

(** The shape cvxpy computes when the expression is built. *)
Fixpoint shape (e : mexpr) : nat * nat :=
  match e with
  | Var s _ => s
  | Const v => (shape0 v, shape1 v)
  | Add a _ => shape a
  | Sub a _ => shape a
  | Scale _ e => shape e
  | Abs e => shape e
  | Diff k axis e =>
      let (r, c) := shape e in
      if Nat.eqb axis 0 then ((r - k)%nat, c) else (r, (c - k)%nat)
  | Col _ e => (fst (shape e), 1%nat)
  end.

(** [cvx.diff(x, k=k, axis=axis)]; cvxpy refuses [k] that is not below the
    length of the axis. *)
Definition diff (x : mexpr) (k axis : nat) : result mexpr :=
  let (r, c) := shape x in
  let m := if Nat.eqb axis 0 then r else c in
  if Nat.leb m k then Raise ValueError else Ok (Diff k axis x).

(** [x[:, j]] with Python's negative indices. *)
Definition index_col (x : mexpr) (j : Z) : result mexpr :=
  let c := Z.of_nat (snd (shape x)) in
  if ((0 <=? j) && (j <? c))%Z then Ok (Col (Z.to_nat j) x)
  else if ((- c <=? j) && (j <? 0))%Z then Ok (Col (Z.to_nat (c + j)) x)
  else Raise IndexError.

(** *** Values *)

Fixpoint zip_with {A B C : Type} (f : A -> B -> C) (a : list A) (b : list B)
  : list C :=
  match a, b with
  | x :: a', y :: b' => f x y :: zip_with f a' b'
  | _, _ => []
  end.

(** First differences of a vector: [x[1:] - x[:-1]]. *)
Definition diff1 (v : vector) : vector := zip_with Qminus (tl v) v.

(** First differences of the rows: [x[1:, :] - x[:-1, :]]. *)
Definition diff1_rows (m : matrix) : matrix :=
  zip_with (zip_with Qminus) (tl m) m.

Definition diff_value (k axis : nat) (m : matrix) : matrix :=
  if Nat.eqb axis 0 then Nat.iter k diff1_rows m
  else map (Nat.iter k diff1) m.

Definition env := string -> matrix.

Fixpoint eval (rho : env) (e : mexpr) : matrix :=
  match e with
  | Var _ name => rho name
  | Const v => v
  | Add a b => zip_with (zip_with Qplus) (eval rho a) (eval rho b)
  | Sub a b => zip_with (zip_with Qminus) (eval rho a) (eval rho b)
  | Scale c e => map (map (Qmult c)) (eval rho e)
  | Abs e => map (map Qabs) (eval rho e)
  | Diff k axis e => diff_value k axis (eval rho e)
  | Col j e => map (fun row => [nth j row 0]) (eval rho e)
  end.

(** The sum of all entries. *)
Definition total (m : matrix) : Q := sum (map sum m).

Fixpoint seval (rho : env) (s : sexpr) : Q :=
  match s with
  | Sum e => total (eval rho e)
  | SumSquares e => total (map (map (fun x => x * x)) (eval rho e))
  | SAdd a b => seval rho a + seval rho b
  | SScale c s => c * seval rho s
  end.

Definition compare (R : Q -> Q -> Prop) (rho : env) (l r : operand) : Prop :=
  match l, r with
  | Expr a, Expr b => Forall2 (Forall2 R) (eval rho a) (eval rho b)
  | Expr a, Num c => Forall (Forall (fun x => R x c)) (eval rho a)
  | Num c, Expr b => Forall (Forall (fun x => R c x)) (eval rho b)
  | Num c, Num d => R c d
  end.

Definition holds (rho : env) (c : constraint) : Prop :=
  match c with
  | Equality l r => compare Qeq rho l r
  | Inequality l r => compare Qle rho l r
  end.

(** *** Problems *)

(** [cvx.Minimize(...)] and [cvx.Maximize(...)] *)
Inductive objective_sense : Type :=
| Minimize
| Maximize.

(** What the sense asks of the solver: a point whose objective is [a] is
    at least as good as one whose objective is [b]. *)
Definition at_least_as_good (s : objective_sense) (a b : Q) : Prop :=
  match s with
  | Minimize => a <= b
  | Maximize => b <= a
  end.

(** A problem object: what was built (the sense of the optimisation, the
    objective and the constraints), and what the last [solve] left in it
    (the status and the value of each variable, by name). *)
Record Problem : Type := {
  sense : objective_sense;
  objective : sexpr;
  constraints : list constraint;
  status : option string;
  solution : list (string * matrix)
}.

Definition feasible (rho : env) (p : Problem) : Prop :=
  Forall (holds rho) (constraints p).

Fixpoint mvars (e : mexpr) : list string :=
  match e with
  | Var _ name => [name]
  | Const _ => []
  | Add a b => mvars a ++ mvars b
  | Sub a b => mvars a ++ mvars b
  | Scale _ e => mvars e
  | Abs e => mvars e
  | Diff _ _ e => mvars e
  | Col _ e => mvars e
  end.

Fixpoint svars (s : sexpr) : list string :=
  match s with
  | Sum e => mvars e
  | SumSquares e => mvars e
  | SAdd a b => svars a ++ svars b
  | SScale _ s => svars s
  end.

Definition ovars (o : operand) : list string :=
  match o with
  | Expr e => mvars e
  | Num _ => []
  end.

Definition cvars (c : constraint) : list string :=
  match c with
  | Equality l r => ovars l ++ ovars r
  | Inequality l r => ovars l ++ ovars r
  end.

(** The names of [problem.variables()]. *)
Definition variables (p : Problem) : list string :=
  svars (objective p) ++ flat_map cvars (constraints p).

Fixpoint assoc (name : string) (l : list (string * matrix)) : option matrix :=
  match l with
  | [] => None
  | (n, v) :: l' => if String.eqb name n then Some v else assoc name l'
  end.

(** [{v.name(): v for v in problem.variables()}[name].value]: a
    [KeyError] when the problem has no such variable, [None] when the
    variable has no value. *)
Definition variable_value (p : Problem) (name : string)
  : result (option matrix) :=
  if existsb (String.eqb name) (variables p)
  then Ok (assoc name (solution p)) else Raise KeyError.

(** What [problem.solve] does: it returns, leaving a status and values in
    the problem (no values when the status is not an optimal one), or it
    raises. *)
Inductive solver_outcome : Type :=
| Returns (status : string) (values : list (string * matrix))
| Raises (e : exn).

End Cvx.

(** ** The shade analysis *)

Module Shade.

Import Np Interp Resample Pd Cvx.

Local Open Scope string_scope.

(** What [ShadeAnalysis] reads of the data handler. *)
Record DataHandler : Type := {
  filled_data_matrix : matrix;
  daytime : bmatrix;
  clear : list bool;
  dayofyear : list Z;
  data_sampling : Q
}.

Record ShadeAnalysis : Type := {
  dh : DataHandler;
  data_normalized : option matrix;
  data_transformed : option DataFrame;
  osd_problem : option Problem;
  daily_shade_loss : option (list (option Q));
  daily_clear_energy : option (list (option Q));
  avg_energy : option (list (Z * Q));
  (* the attributes that are absent until first assigned *)
  clear_sky_component : option (option matrix);
  shade_component : option (option matrix);
  daily_modeled_energy : option (list (option Q))
}.

(** [ShadeAnalysis.__init__] *)
Definition init (data_handler : DataHandler) : ShadeAnalysis := {|
  dh := data_handler;
  data_normalized := None;
  data_transformed := None;
  osd_problem := None;
  daily_shade_loss := None;
  daily_clear_energy := None;
  avg_energy := None;
  clear_sky_component := None;
  shade_component := None;
  daily_modeled_energy := None
|}.

Definition is_not_None {A : Type} (o : option A) : bool :=
  match o with
  | Some _ => true
  | None => false
  end.

Definition has_run (self : ShadeAnalysis) : bool :=
  forallb (fun b => b)
    [is_not_None (data_normalized self);
     is_not_None (data_transformed self);
     is_not_None (osd_problem self)].

(** *** Methods: state, exceptions and the calls made *)

Inductive event : Type :=
| TransformCall
| SolveCall.

(** A method runs on the object and ends normally or with an exception;
    either way the object keeps the assignments made so far. *)
Definition method (A : Type) : Type :=
  ShadeAnalysis -> result A * ShadeAnalysis * list event.

Definition ret {A : Type} (a : A) : method A := fun self => (Ok a, self, []).

Definition bind {A B : Type} (c : method A) (k : A -> method B) : method B :=
  fun self =>
    match c self with
    | (Ok a, self', ev) =>
        let '(r, self'', ev') := k a self' in (r, self'', (ev ++ ev')%list)
    | (Raise e, self', ev) => (Raise e, self', ev)
    end.

Definition lift {A : Type} (r : result A) : method A := fun self => (r, self, []).

Definition gets {A : Type} (f : ShadeAnalysis -> A) : method A :=
  fun self => (Ok (f self), self, []).

Definition assign (f : ShadeAnalysis -> ShadeAnalysis) : method unit :=
  fun self => (Ok tt, f self, []).

Definition emit (e : event) : method unit := fun self => (Ok tt, self, [e]).

Notation "x <~ c ; k" := (bind c (fun x => k))
  (at level 61, c at next level, right associativity).
Notation "c ;; k" := (bind c (fun _ => k))
  (at level 61, right associativity).

Definition set_data_normalized v (s : ShadeAnalysis) : ShadeAnalysis :=
  {| dh := dh s; data_normalized := v; data_transformed := data_transformed s;
     osd_problem := osd_problem s; daily_shade_loss := daily_shade_loss s;
     daily_clear_energy := daily_clear_energy s; avg_energy := avg_energy s;
     clear_sky_component := clear_sky_component s;
     shade_component := shade_component s;
     daily_modeled_energy := daily_modeled_energy s |}.

Definition set_data_transformed v (s : ShadeAnalysis) : ShadeAnalysis :=
  {| dh := dh s; data_normalized := data_normalized s; data_transformed := v;
     osd_problem := osd_problem s; daily_shade_loss := daily_shade_loss s;
     daily_clear_energy := daily_clear_energy s; avg_energy := avg_energy s;
     clear_sky_component := clear_sky_component s;
     shade_component := shade_component s;
     daily_modeled_energy := daily_modeled_energy s |}.

Definition set_osd_problem v (s : ShadeAnalysis) : ShadeAnalysis :=
  {| dh := dh s; data_normalized := data_normalized s;
     data_transformed := data_transformed s;
     osd_problem := v; daily_shade_loss := daily_shade_loss s;
     daily_clear_energy := daily_clear_energy s; avg_energy := avg_energy s;
     clear_sky_component := clear_sky_component s;
     shade_component := shade_component s;
     daily_modeled_energy := daily_modeled_energy s |}.

Definition set_clear_sky_component v (s : ShadeAnalysis) : ShadeAnalysis :=
  {| dh := dh s; data_normalized := data_normalized s;
     data_transformed := data_transformed s;
     osd_problem := osd_problem s; daily_shade_loss := daily_shade_loss s;
     daily_clear_energy := daily_clear_energy s; avg_energy := avg_energy s;
     clear_sky_component := v;
     shade_component := shade_component s;
     daily_modeled_energy := daily_modeled_energy s |}.

Definition set_shade_component v (s : ShadeAnalysis) : ShadeAnalysis :=
  {| dh := dh s; data_normalized := data_normalized s;
     data_transformed := data_transformed s;
     osd_problem := osd_problem s; daily_shade_loss := daily_shade_loss s;
     daily_clear_energy := daily_clear_energy s; avg_energy := avg_energy s;
     clear_sky_component := clear_sky_component s;
     shade_component := v;
     daily_modeled_energy := daily_modeled_energy s |}.

Definition set_yearly loss clear_e modeled avg (s : ShadeAnalysis)
  : ShadeAnalysis :=
  {| dh := dh s; data_normalized := data_normalized s;
     data_transformed := data_transformed s;
     osd_problem := osd_problem s; daily_shade_loss := Some loss;
     daily_clear_energy := Some clear_e; avg_energy := Some avg;
     clear_sky_component := clear_sky_component s;
     shade_component := shade_component s;
     daily_modeled_energy := Some modeled |}.

Section WithNumpy.

(** numpy's [sin] and [deg2rad] on floats. *)
Variable np_sin : Q -> Q.
Variable np_deg2rad : Q -> Q.

(** The solver behind [problem.solve], as a function of the problem
    built. *)
Variable solve : Problem -> solver_outcome.

(** [delta_cooper]: the declination of a day of the year, in degrees. *)
Definition delta_cooper (day_of_year : Z) : Q :=
  (2345 # 100)
  * np_sin (np_deg2rad (360 * (284 + inject_Z day_of_year) / 365)).

Definition my_round (x c : Q) : Q := c * np_round (x / c).

(** [ShadeAnalysis.transform_data] *)
Definition transform_data (self : ShadeAnalysis) (power : nat)
  : result (matrix * DataFrame) :=
  normalized <- batch_process (filled_data_matrix (dh self))
                              (daytime (dh self)) power ;;
  let rows := transpose normalized in
  let cols := linspace 0 1 (2 ^ power) in
  let delta :=
    map (fun d => my_round (delta_cooper d) 1) (dayofyear (dh self)) in
  if negb (Nat.eqb (List.length delta) (List.length rows))
  then Raise ValueError
  else
    (* select only clear days *)
    sel_rows <- bool_index rows (clear (dh self)) ;;
    sel_delta <- bool_index delta (clear (dh self)) ;;
    let agg := rev (groupby_mean sel_delta sel_rows (List.length cols)) in
    Ok (normalized,
        {| index := map fst agg; columns := cols; values := map snd agg |}).

(** [ShadeAnalysis.make_osd_problem] *)
Definition make_osd_problem (self : ShadeAnalysis) : result Problem :=
  match data_transformed self with
  | None => Raise AttributeError
  | Some dt =>
      let y := values dt in
      let y_shape := (shape0 y, shape1 y) in
      let x1 := Var y_shape "residual" in
      let x2 := Var y_shape "clear-sky" in
      let x3 := Var y_shape "shade" in
      let t := 85 # 100 in
      let phi1 := Sum (Add (Scale (5 # 10) (Abs x1)) (Scale (t - (5 # 10)) x1)) in
      d20_x2 <- diff x2 2 0 ;;
      d21_x2 <- diff x2 2 1 ;;
      let phi2 := SAdd (SumSquares d20_x2) (SumSquares d21_x2) in
      d20_x3 <- diff x3 2 0 ;;
      d21_x3 <- diff x3 2 1 ;;
      let phi3 := SAdd (SumSquares d20_x3) (SumSquares d21_x3) in
      let phi4 := Sum x3 in
      first_col <- index_col x2 0 ;;
      last_col <- index_col x2 (-1) ;;
      d41_x2 <- diff x2 4 1 ;;
      d20_x2' <- diff x2 2 0 ;;
      let constraints := [
        Equality (Expr (Const y)) (Expr (Sub (Add x1 x2) x3));
        Inequality (Num 0) (Expr x2);
        Equality (Expr first_col) (Num 0);
        Equality (Expr last_col) (Num 0);
        Inequality (Expr d41_x2) (Num 0);
        Inequality (Expr d20_x2') (Num 0);
        Inequality (Num 0) (Expr x3)
      ] in
      let objective :=
        SAdd (SAdd (SAdd (SScale 20 phi1) (SScale 10 phi2))
                   (SScale 100 phi3))
             (SScale (8 # 10) phi4) in
      Ok {| sense := Minimize; objective := objective;
            constraints := constraints; status := None; solution := [] |}
  end.

(** [self.osd_problem.solve(solver=solver, verbose=verbose)] *)
Definition solve_problem : method unit :=
  fun self =>
    match osd_problem self with
    | None => (Raise AttributeError, self, [])
    | Some p =>
        match solve p with
        | Raises e => (Raise e, self, [SolveCall])
        | Returns st vals =>
            (Ok tt,
             set_osd_problem
               (Some {| sense := sense p; objective := objective p;
                        constraints := constraints p;
                        status := Some st; solution := vals |}) self,
             [SolveCall])
        end
    end.

Definition get_variable (name : string) : method (option matrix) :=
  fun self =>
    match osd_problem self with
    | None => (Raise AttributeError, self, [])
    | Some p => (variable_value p name, self, [])
    end.

(** [ShadeAnalysis.run] *)
Definition run (power : nat) : method unit :=
  hr <~ gets has_run ;
  (if negb hr then
     emit TransformCall ;;
     dn_dt <~ (fun self => lift (transform_data self power) self) ;
     assign (set_data_normalized (Some (fst dn_dt))) ;;
     assign (set_data_transformed (Some (snd dn_dt))) ;;
     problem <~ (fun self => lift (make_osd_problem self) self) ;
     assign (set_osd_problem (Some problem)) ;;
     solve_problem
   else ret tt) ;;
  clear_sky <~ get_variable "clear-sky" ;
  assign (set_clear_sky_component (Some clear_sky)) ;;
  shade <~ get_variable "shade" ;
  assign (set_shade_component (Some shade)).

(** [np.sum(component, axis=1) * scale] *)
Definition row_sums_scaled (component : matrix) (scale : Q) : vector :=
  map (fun row => sum row * scale) component.

Definition get_component (attr : ShadeAnalysis -> option (option matrix))
  : method matrix :=
  fun self =>
    match attr self with
    | None => (Raise AttributeError, self, [])
    | Some None => (Raise TypeError, self, [])
    | Some (Some m) => (Ok m, self, [])
    end.

Definition get_data_transformed : method DataFrame :=
  fun self =>
    match data_transformed self with
    | None => (Raise AttributeError, self, [])
    | Some dt => (Ok dt, self, [])
    end.

(** The days of the year [np.arange(365) + 1]. *)
Definition days_of_year : list Z := map (fun i => Z.of_nat (i + 1)) (seq 0 365).

(** The empirical energy of the clear days, averaged by day of the year. *)
Definition clear_day_energy (d : DataHandler) (scale : Q)
  : result (list (Z * Q)) :=
  let energy := map sum (transpose (filled_data_matrix d)) in
  if negb (Nat.eqb (List.length energy) (List.length (dayofyear d)))
  then Raise ValueError
  else
    rows <- bool_index (combine (dayofyear d) energy) (clear d) ;;
    let doy := map (fun r => inject_Z (fst r)) rows in
    Ok (map (fun kv => (Qfloor (fst kv), nth 0 (snd kv) 0 * scale))
            (groupby_mean doy (map (fun r => [snd r]) rows) 1)).

(** [ShadeAnalysis.analyze_yearly_energy] *)
Definition analyze_yearly_energy : method unit :=
  hr <~ gets has_run ;
  (if negb hr then run 8 else ret tt) ;;
  N <~ gets (fun self => data_sampling (dh self)) ;
  let scale := N / 60 in
  dt <~ get_data_transformed ;
  shade <~ get_component shade_component ;
  f_loss <~ lift (interp1d true (index dt) (row_sums_scaled shade scale)) ;
  clear_sky <~ get_component clear_sky_component ;
  f_clear <~ lift (interp1d true (index dt) (row_sums_scaled clear_sky scale)) ;
  avg <~ (fun self => lift (clear_day_energy (dh self) scale) self) ;
  let loss := call_linear f_loss (map delta_cooper days_of_year) in
  let clear_e := call_linear f_clear (map delta_cooper days_of_year) in
  let modeled := zip_with minus_float clear_e loss in
  assign (set_yearly loss clear_e modeled avg).

End WithNumpy.

End Shade.

(** ** The shade program as the specification words it *)

Module OsdSpec.

Import Np.

(** Entry [(i, j)] of an array. *)
Definition entry (x : matrix) (i j : nat) : Q := nth j (nth i x []) 0.

(** The sum of [f 0], ..., [f (n - 1)]. *)
Definition sum_over (n : nat) (f : nat -> Q) : Q := sum (map f (seq 0 n)).

(** The quantile (pinball) loss at quantile [tau]. *)
Definition pinball (tau u : Q) : Q :=
  if Qle_bool 0 u then tau * u else (tau - 1) * u.

Definition square (d : Q) : Q := d * d.

(** Second differences along axis 0 (down the rows) and along axis 1, and
    fourth differences along axis 1. *)
Definition second_diff_axis0 (x : matrix) (i j : nat) : Q :=
  entry x (i + 2) j - 2 * entry x (i + 1) j + entry x i j.

Definition second_diff_axis1 (x : matrix) (i j : nat) : Q :=
  entry x i (j + 2) - 2 * entry x i (j + 1) + entry x i j.

Definition fourth_diff_axis1 (x : matrix) (i j : nat) : Q :=
  entry x i (j + 4) - 4 * entry x i (j + 3) + 6 * entry x i (j + 2)
  - 4 * entry x i (j + 1) + entry x i j.

Definition phi1 (m n : nat) (x1 : matrix) : Q :=
  sum_over m (fun i => sum_over n (fun j => pinball (85 # 100) (entry x1 i j))).

(** The roughness penalty of [phi2] and [phi3]. *)
Definition roughness (m n : nat) (x : matrix) : Q :=
  sum_over (m - 2)
    (fun i => sum_over n (fun j => square (second_diff_axis0 x i j)))
  + sum_over m
      (fun i => sum_over (n - 2) (fun j => square (second_diff_axis1 x i j))).

Definition phi4 (m n : nat) (x3 : matrix) : Q :=
  sum_over m (fun i => sum_over n (fun j => entry x3 i j)).

Definition spec_objective (m n : nat) (x1 x2 x3 : matrix) : Q :=
  20 * phi1 m n x1 + 10 * roughness m n x2 + 100 * roughness m n x3
  + (8 # 10) * phi4 m n x3.

Definition spec_constraints (m n : nat) (Y x1 x2 x3 : matrix) : Prop :=
  (forall i j, (i < m)%nat -> (j < n)%nat ->
     entry Y i j == entry x1 i j + entry x2 i j - entry x3 i j)
  /\ (forall i j, (i < m)%nat -> (j < n)%nat -> 0 <= entry x2 i j)
  /\ (forall i, (i < m)%nat -> entry x2 i 0 == 0)
  /\ (forall i, (i < m)%nat -> entry x2 i (n - 1) == 0)
  /\ (forall i j, (i < m)%nat -> (j < n - 4)%nat ->
        fourth_diff_axis1 x2 i j <= 0)
  /\ (forall i j, (i < m - 2)%nat -> (j < n)%nat ->
        second_diff_axis0 x2 i j <= 0)
  /\ (forall i j, (i < m)%nat -> (j < n)%nat -> 0 <= entry x3 i j).

(** The assignment of values to the three variables of the program. *)
Definition assignment (x1 x2 x3 : matrix) : Cvx.env :=
  fun name =>
    if String.eqb name "residual" then x1
    else if String.eqb name "clear-sky" then x2
    else x3.

End OsdSpec.

(** ** The shade program in explicit form *)

Module OsdProblem.

Import Np Pd Cvx Shade OsdSpec.

(** [M] is the [r] x [c] array whose entries are given by [f]. *)
Definition entries (r c : nat) (f : nat -> nat -> Q) (M : matrix) : Prop :=
  has_shape r c M
  /\ forall i j, (i < r)%nat -> (j < c)%nat -> entry M i j == f i j.

(** First differences of an array of entries, down the rows and along
    the columns. *)
Definition delta_rows (f : nat -> nat -> Q) : nat -> nat -> Q :=
  fun i j => f (S i) j - f i j.

Definition delta_cols (f : nat -> nat -> Q) : nat -> nat -> Q :=
  fun i j => f i (S j) - f i j.

(** The program [make_osd_problem] builds for an [m] x [n] surface. *)
Definition osd_program (m n : nat) (y : matrix) : Problem :=
  let x1 := Var (m, n) "residual" in
  let x2 := Var (m, n) "clear-sky" in
  let x3 := Var (m, n) "shade" in
  {| Cvx.sense := Minimize;
     Cvx.objective :=
       SAdd (SAdd (SAdd
         (SScale 20
            (Sum (Add (Scale (5 # 10) (Abs x1))
                      (Scale ((85 # 100) - (5 # 10)) x1))))
         (SScale 10
            (SAdd (SumSquares (Diff 2 0 x2)) (SumSquares (Diff 2 1 x2)))))
         (SScale 100
            (SAdd (SumSquares (Diff 2 0 x3)) (SumSquares (Diff 2 1 x3)))))
         (SScale (8 # 10) (Sum x3));
     Cvx.constraints := [
       Equality (Expr (Const y)) (Expr (Sub (Add x1 x2) x3));
       Inequality (Num 0) (Expr x2);
       Equality (Expr (Col 0 x2)) (Num 0);
       Equality (Expr (Col (n - 1) x2)) (Num 0);
       Inequality (Expr (Diff 4 1 x2)) (Num 0);
       Inequality (Expr (Diff 2 0 x2)) (Num 0);
       Inequality (Num 0) (Expr x3)
     ];
     status := None;
     solution := [] |}.

End OsdProblem.

(** ** cvxpy: expressions over one-dimensional variables *)

Module Cvx1.

Import Np.

Inductive vexpr : Type :=
| Var (n : nat) (name : string)
| Param (value : vector)
| Const (value : vector)
| Promote (c : Q) (n : nat)
| Add (a b : vexpr)
| Sub (a b : vexpr)
| Scale (c : Q) (e : vexpr)
| Multiply (a b : vexpr)
| Pos (e : vexpr)
| Neg (e : vexpr)
| Diff (k : nat) (e : vexpr)
| Slice (start stop : option Z) (e : vexpr)
| Index (j : nat) (e : vexpr)
| BoolIndex (msk : list bool) (e : vexpr).

(** The terms of an objective. *)
Inductive cost : Type :=
| Sum (e : vexpr)
| SumSquares (e : vexpr)
| Norm1 (e : vexpr)
| Norm2 (e : vexpr)
| CScale (c : Q) (t : cost)
| CAdd (a b : cost).

(** One side of a comparison: a vector expression, the sum of one, or a
    Python number that is broadcast. *)
Inductive operand : Type :=
| Vec (e : vexpr)
| SumOf (e : vexpr)
| Num (c : Q).

(** [lhs == rhs] and [lhs <= rhs]. *)
Inductive constraint : Type :=
| Equality (lhs rhs : operand)
| Inequality (lhs rhs : operand).

Record Problem : Type := {
  objective : cost;
  constraints : list constraint
}.

(** Python's [v[start:stop]] on a sequence of length [len]. *)
Definition slice_bound (len : nat) (default : nat) (i : option Z) : nat :=
  match i with
  | None => default
  | Some z =>
      if (z <? 0)%Z then Z.to_nat (Z.max 0 (Z.of_nat len + z))
      else Nat.min (Z.to_nat z) len
  end.

Definition py_slice {A : Type} (start stop : option Z) (v : list A) : list A :=
  let len := List.length v in
  let lo := slice_bound len 0 start in
  let hi := slice_bound len len stop in
  firstn (hi - lo) (skipn lo v).

(** The length cvxpy computes when the expression is built. *)
Fixpoint size (e : vexpr) : nat :=
  match e with
  | Var n _ => n
  | Param v => List.length v
  | Const v => List.length v
  | Promote _ n => n
  | Add a _ => size a
  | Sub a _ => size a
  | Scale _ e => size e
  | Multiply a _ => size a
  | Pos e => size e
  | Neg e => size e
  | Diff k e => (size e - k)%nat
  | Slice start stop e =>
      (slice_bound (size e) (size e) stop - slice_bound (size e) 0 start)%nat
  | Index _ _ => 1%nat
  | BoolIndex msk _ => count_true msk
  end.

(** [cvx.diff(x, k=k)]; cvxpy refuses [k] that is not below the length. *)
Definition diff (x : vexpr) (k : nat) : result vexpr :=
  if Nat.leb (size x) k then Raise ValueError else Ok (Diff k x).

(** [x[msk]] for a boolean array [msk]; cvxpy refuses an expression
    without entries. *)
Definition bool_index (x : vexpr) (msk : list bool) : result vexpr :=
  if Nat.eqb (size x) (List.length msk)
  then if Nat.eqb (count_true msk) 0 then Raise ValueError
       else Ok (BoolIndex msk x)
  else Raise IndexError.

(** [x[start:stop]]; an expression without entries is refused here too. *)
Definition slice (start stop : option Z) (x : vexpr) : result vexpr :=
  if Nat.eqb (size (Slice start stop x)) 0 then Raise ValueError
  else Ok (Slice start stop x).

(** *** Values *)

Definition assignment := string -> vector.

Definition diff1 (v : vector) : vector := Cvx.zip_with Qminus (tl v) v.

(** [np.diff(v, n=k)], also the value of [cvx.diff(x, k=k)]. *)
Definition np_diff (k : nat) (v : vector) : vector := Nat.iter k diff1 v.

(** [cvx.pos] and [cvx.neg]: the positive and the negative part. *)
Definition pos_part (x : Q) : Q := Qmax x 0.
Definition neg_part (x : Q) : Q := Qmax (- x) 0.

Fixpoint eval (rho : assignment) (e : vexpr) : vector :=
  match e with
  | Var _ name => rho name
  | Param v => v
  | Const v => v
  | Promote c n => repeat c n
  | Add a b => Cvx.zip_with Qplus (eval rho a) (eval rho b)
  | Sub a b => Cvx.zip_with Qminus (eval rho a) (eval rho b)
  | Scale c e => map (Qmult c) (eval rho e)
  | Multiply a b => Cvx.zip_with Qmult (eval rho a) (eval rho b)
  | Pos e => map pos_part (eval rho e)
  | Neg e => map neg_part (eval rho e)
  | Diff k e => np_diff k (eval rho e)
  | Slice start stop e => py_slice start stop (eval rho e)
  | Index j e => [nth j (eval rho e) 0]
  | BoolIndex msk e => mask_select (eval rho e) msk
  end.

Definition compare (R : Q -> Q -> Prop) (rho : assignment) (l r : operand)
  : Prop :=
  match l, r with
  | Vec a, Vec b => Forall2 R (eval rho a) (eval rho b)
  | Vec a, Num c => Forall (fun x => R x c) (eval rho a)
  | Num c, Vec b => Forall (fun x => R c x) (eval rho b)
  | Vec a, SumOf b => Forall (fun x => R x (sum (eval rho b))) (eval rho a)
  | SumOf a, Vec b => Forall (fun x => R (sum (eval rho a)) x) (eval rho b)
  | SumOf a, SumOf b => R (sum (eval rho a)) (sum (eval rho b))
  | SumOf a, Num c => R (sum (eval rho a)) c
  | Num c, SumOf b => R c (sum (eval rho b))
  | Num c, Num d => R c d
  end.

Definition holds (rho : assignment) (c : constraint) : Prop :=
  match c with
  | Equality l r => compare Qeq rho l r
  | Inequality l r => compare Qle rho l r
  end.

Definition feasible (rho : assignment) (p : Problem) : Prop :=
  Forall (holds rho) (constraints p).

(** The value of an objective is a real number: the 2-norm takes a square
    root. *)
Fixpoint cost_value (rho : assignment) (t : cost) : R :=
  match t with
  | Sum e => Q2R (sum (eval rho e))
  | SumSquares e => Q2R (sum (map (fun x => x * x) (eval rho e)))
  | Norm1 e => Q2R (sum (map Qabs (eval rho e)))
  | Norm2 e => sqrt (Q2R (sum (map (fun x => x * x) (eval rho e))))
  | CScale c t => (Q2R c * cost_value rho t)%R
  | CAdd a b => (cost_value rho a + cost_value rho b)%R
  end.

(** The variables of a problem, with their declared lengths. *)
Fixpoint vvars (e : vexpr) : list (string * nat) :=
  match e with
  | Var n name => [(name, n)]
  | Param _ | Const _ | Promote _ _ => []
  | Add a b | Sub a b | Multiply a b => vvars a ++ vvars b
  | Scale _ e | Pos e | Neg e | Diff _ e | Slice _ _ e | Index _ e
  | BoolIndex _ e => vvars e
  end.

Fixpoint cost_vars (t : cost) : list (string * nat) :=
  match t with
  | Sum e | SumSquares e | Norm1 e | Norm2 e => vvars e
  | CScale _ t => cost_vars t
  | CAdd a b => cost_vars a ++ cost_vars b
  end.

Definition operand_vars (o : operand) : list (string * nat) :=
  match o with
  | Vec e | SumOf e => vvars e
  | Num _ => []
  end.

Definition constraint_vars (c : constraint) : list (string * nat) :=
  match c with
  | Equality l r | Inequality l r => operand_vars l ++ operand_vars r
  end.

Definition variables (p : Problem) : list (string * nat) :=
  cost_vars (objective p) ++ flat_map constraint_vars (constraints p).

(** Every variable has a value of its declared length. *)
Definition well_shaped (rho : assignment) (p : Problem) : Prop :=
  forall name n, In (name, n) (variables p) -> List.length (rho name) = n.

(** What [problem.solve] does: it returns, leaving a status and, when the
    status is an optimal one, a value in every variable; or it raises. *)
Inductive solver_outcome : Type :=
| Returns (status : string) (values : option assignment)
| Raises (e : exn).

(** The contract of a solver: the values it leaves have the declared
    lengths, satisfy the constraints, and no feasible point has a smaller
    objective. *)
Definition is_solution (p : Problem) (rho : assignment) : Prop :=
  well_shaped rho p
  /\ feasible rho p
  /\ forall rho', well_shaped rho' p -> feasible rho' p ->
       (cost_value rho (objective p) <= cost_value rho' (objective p))%R.

Definition solver_contract (solve : Problem -> solver_outcome) : Prop :=
  forall p st rho, solve p = Returns st (Some rho) -> is_solution p rho.

End Cvx1.

(** ** The soiling decompositions *)

Module Soiling.

Import Np Cvx1.

Local Open Scope string_scope.

(** [~np.isnan(observed)] *)
Definition not_nan (observed : list (option Q)) : list bool :=
  map (fun x => match x with Some _ => true | None => false end) observed.

(** [np.logical_and(a, b)]: an array of a single entry is broadcast
    against the other; other lengths that differ are a [ValueError]. *)
Definition logical_and (a b : list bool) : result (list bool) :=
  if Nat.eqb (List.length a) (List.length b)
  then Ok (Cvx.zip_with andb a b)
  else match a, b with
       | [x], _ => Ok (map (andb x) b)
       | _, [y] => Ok (map (fun x => andb x y) a)
       | _, _ => Raise ValueError
       end.

(** The data of a constraint must hold no NaN. *)
Fixpoint as_constant (v : list (option Q)) : result vector :=
  match v with
  | [] => Ok []
  | Some q :: v' => c <- as_constant v' ;; Ok (q :: c)
  | None :: _ => Raise ValueError
  end.

(** The state carried from one iteration to the next. *)
Record loop_state : Type := {
  w : vector;
  zero_set : list bool;
  values : option assignment
}.

Definition value_of (st : loop_state) (name : string) : result vector :=
  match values st with
  | Some rho => Ok (rho name)
  | None => Raise TypeError
  end.

Fixpoint iterate {S : Type} (n : nat) (body : S -> result S) (s : S)
  : result S :=
  match n with
  | O => Ok s
  | S n' => s' <- body s ;; iterate n' body s'
  end.

Section WithSolver.

Variable solve : Problem -> solver_outcome.

(** [problem.solve(...)] followed by reading the values of the variables. *)
Definition solve_values (p : Problem) : result (option assignment) :=
  match solve p with
  | Returns _ vals => Ok vals
  | Raises e => Raise e
  end.

Section Separation.

(** The arguments of [soiling_seperation]. *)
Variable observed : list (option Q).
Variable index_set : option (list bool).
Variable degradation_term : bool.
Variables tau c1 c2 c3 : Q.
Variable iterations : nat.
Variable soiling_max : Q.

Definition n : nat := List.length observed.

(** The index set the constraints use. *)
Definition effective_index_set : result (list bool) :=
  match index_set with
  | None => Ok (not_nan observed)
  | Some ix => logical_and ix (not_nan observed)
  end.

Definition s1 : vexpr := Var n "s1".
Definition s2 : vexpr := Var (Nat.max n 367) "s2".
Definition s3 : vexpr := Var n "s3".
Definition sr : vexpr := Var n "sr".

Definition eps : Q := 1 # 100.

(** The problem one iteration builds from the current weights and
    zero set.  The slices of [s2] are never empty: the variable has 367
    entries or more, and [n] is positive once [cvx.diff] has accepted
    [s1]. *)
Definition build_problem (ix : list bool) (st : loop_state) : result Problem :=
  d2_s2 <- diff (Slice None (Some (Z.of_nat n)) s2) 2 ;;
  d2_s1 <- diff s1 2 ;;
  let cost :=
    CAdd (CAdd (CAdd
      (Sum (Add (Scale tau (Pos sr)) (Scale (1 - tau) (Neg sr))))
      (CScale c3 (Norm2 d2_s2)))
      (CScale c1 (Norm1 (Multiply (Param (w st)) d2_s1))))
      (CScale c2 (Sum (Sub (Promote 1 n) s1))) in
  known <- Np.bool_index observed ix ;;
  known <- as_constant known ;;
  recon <- bool_index (Add (Add (Add s1 (Slice None (Some (Z.of_nat n)) s2)) s3)
                           sr) ix ;;
  let constraints := [
    Equality (Vec (Const known)) (Vec recon);
    Equality (Vec (Sub (Slice (Some 365%Z) None s2)
                       (Slice None (Some (-365)%Z) s2))) (Num 0);
    Equality (SumOf (Slice None (Some 365%Z) s2)) (Num 0);
    Inequality (Vec s1) (Num soiling_max)
  ] in
  constraints <-
    (if degradation_term then
       d2_s3 <- diff s3 2 ;;
       Ok (constraints ++ [Equality (Vec d2_s3) (Num 0);
                           Equality (Vec (Index 0 s3)) (Num 0)])%list
     else
       Ok (constraints ++ [Equality (Vec s3) (Num 0)])%list) ;;
  constraints <-
    (if (0 <? count_true (zero_set st))%nat then
       d1_s1 <- diff s1 1 ;;
       flat <- bool_index d1_s1 (zero_set st) ;;
       Ok (constraints ++ [Equality (Vec flat) (Num 0)])%list
     else Ok constraints) ;;
  let constraints :=
    if Qltb (inject_Z (Z.of_nat n)) ((75 # 100) * 365)
    then (constraints ++ [Equality (Vec s2) (Num 0)])%list
    else constraints in
  Ok {| objective := cost; constraints := constraints |}.

(** The new weights: [1 / (eps + 1e2 * np.abs(d))]. *)
Definition reweight (d : vector) : vector :=
  map (fun x => 1 / (eps + 100 * Qabs x)) d.

(** The new zero set: [np.abs(d) <= 5e-5]. *)
Definition nearly_flat (d : vector) : list bool :=
  map (fun x => Qle_bool (Qabs x) (5 # 100000)) d.

(** One pass through the loop body. *)
Definition iteration (ix : list bool) (st : loop_state) : result loop_state :=
  problem <- build_problem ix st ;;
  vals <- solve_values problem ;;
  let st' := {| w := w st; zero_set := zero_set st; values := vals |} in
  s1_value <- value_of st' "s1" ;;
  let w' := reweight (np_diff 2 s1_value) in
  (* Make nearly flat regions exactly flat (sparse 1st diff) *)
  let zero_set' := nearly_flat (np_diff 1 s1_value) in
  Ok {| w := w'; zero_set := zero_set'; values := vals |}.

(** Before the loop: [np.zeros(n - 1)] refuses a negative length and
    [cvx.Parameter(n - 2)] a length that is not positive. *)
Definition soiling_seperation
  : result (vector * vector * vector * vector) :=
  ix <- effective_index_set ;;
  if (n <? 3)%nat then Raise ValueError
  else
    let st0 := {| w := repeat 1 (n - 2);
                  zero_set := repeat false (n - 1);
                  values := None |} in
    st <- iterate iterations (iteration ix) st0 ;;
    s1_value <- value_of st "s1" ;;
    s2_value <- value_of st "s2" ;;
    s3_value <- value_of st "s3" ;;
    sr_value <- value_of st "sr" ;;
    Ok (s1_value, firstn n s2_value, s3_value, sr_value).

End Separation.

Section AlgorithmV2.

(** numpy's [log10] on floats; [None] is NaN. *)
Variable np_log10 : Q -> option Q.

(** The arguments of [soiling_seperation_algorithm_v2]. *)
Variable observed : list (option Q).
Variable iterations : nat.
Variable weights : option vector.
Variable known_set : option (list bool).
Variables lmbda1 lmbda2 lmbda3 : Q.

Definition n_v2 : nat := List.length observed.

Definition weights_v2 : vector :=
  match weights with
  | None => repeat 1 n_v2
  | Some ws => ws
  end.

Definition known_set_v2 : list bool :=
  match known_set with
  | None => not_nan observed
  | Some ks => ks
  end.

(** [data]: NaN everywhere, [log10(observed)] on the known set. *)
Definition data_v2 : list (option Q) :=
  Cvx.zip_with (fun (o : option Q) (k : bool) =>
                  if k then match o with
                            | Some q => np_log10 q
                            | None => None
                            end
                  else None)
               observed known_set_v2.

Definition eps_v2 : Q := 1 # 100000.

(** [cvx.Parameter(value=v, nonneg=True)] *)
Definition nonneg_parameter (v : Q) : result Q :=
  if Qle_bool 0 v then Ok v else Raise ValueError.

(** [cvx.multiply(x, weights)] for an array [weights]: a single entry
    is promoted to the length of [x]; another length that differs is a
    [ValueError]. *)
Definition multiply_const (x : vexpr) (ws : vector) : result vexpr :=
  if Nat.eqb (List.length ws) (size x) then Ok (Multiply x (Const ws))
  else match ws with
       | [c] => Ok (Multiply x (Const (repeat c (size x))))
       | _ => Raise ValueError
       end.

Definition build_problem_v2 (lam1 lam2 : Q) (w_cur : vector) : result Problem :=
  let s1 := Var n_v2 "s1" in (* error *)
  let s2 := Var n_v2 "s2" in (* seasonal *)
  let s3 := Var n_v2 "s3" in (* soiling *)
  let s4 := Var n_v2 "s4" in (* long term deg *)
  weighted <- multiply_const s1 weights_v2 ;;
  d2_s2 <- diff s2 2 ;;
  d2_s3 <- diff s3 2 ;;
  let cost :=
    CAdd (CAdd (CAdd
      (Norm2 weighted)
      (CScale lam1 (SumSquares d2_s2)))
      (CScale lam2 (Norm1 (Multiply (Const w_cur) d2_s3))))
      (CScale lmbda3 (Norm1 s3)) in
  known <- Np.bool_index data_v2 known_set_v2 ;;
  known <- as_constant known ;;
  k1 <- bool_index s1 known_set_v2 ;;
  k2 <- bool_index s2 known_set_v2 ;;
  k3 <- bool_index s3 known_set_v2 ;;
  k4 <- bool_index s4 known_set_v2 ;;
  s2_late <- slice (Some 365%Z) None s2 ;;
  s2_early <- slice None (Some (-365)%Z) s2 ;;
  s2_year <- slice None (Some 365%Z) s2 ;;
  d2_s4 <- diff s4 2 ;;
  Ok {| objective := cost;
        constraints := [
          Equality (Vec (Const known)) (Vec (Add (Add (Add k1 k2) k3) k4));
          Equality (Vec (Sub s2_late s2_early)) (Num 0);
          Equality (SumOf s2_year) (Num 0);
          Inequality (Vec s3) (Num 0);
          Equality (Vec d2_s4) (Num 0);
          Equality (Vec (Index 0 s4)) (Num 0)
        ] |}.

(** The new weights: [1 / (eps + np.abs(d))]. *)
Definition reweight_v2 (d : vector) : vector :=
  map (fun x => 1 / (eps_v2 + Qabs x)) d.

Definition iteration_v2 (lam1 lam2 : Q) (st : loop_state) : result loop_state :=
  problem <- build_problem_v2 lam1 lam2 (w st) ;;
  vals <- solve_values problem ;;
  let st' := {| w := w st; zero_set := zero_set st; values := vals |} in
  s1_value <- value_of st' "s1" ;;
  (* Reweight the L1 penalty *)
  Ok {| w := reweight_v2 (np_diff 2 s1_value);
        zero_set := zero_set st; values := vals |}.

(** Before the loop: [observed[known_set]] refuses a boolean index of
    another length, [np.ones(n - 2)] a negative length.  The variables
    are created inside the loop: without an iteration the names of the
    [return] statement are unbound. *)
Definition soiling_seperation_algorithm_v2
  : result (vector * vector * vector * vector) :=
  if negb (Nat.eqb (List.length known_set_v2) n_v2) then Raise IndexError
  else if (n_v2 <? 2)%nat then Raise ValueError
  else
    let st0 := {| w := repeat 1 (n_v2 - 2);
                  zero_set := repeat false (n_v2 - 1);
                  values := None |} in
    lam1 <- nonneg_parameter lmbda1 ;;
    lam2 <- nonneg_parameter lmbda2 ;;
    if Nat.eqb iterations 0 then Raise UnboundLocalError
    else
      st <- iterate iterations (iteration_v2 lam1 lam2) st0 ;;
      s1_value <- value_of st "s1" ;;
      s2_value <- value_of st "s2" ;;
      s3_value <- value_of st "s3" ;;
      s4_value <- value_of st "s4" ;;
      Ok (s1_value, s2_value, s3_value, s4_value).

End AlgorithmV2.

End WithSolver.

End Soiling.

(** ** The parts of the problems the soiling decompositions build *)

Module SeparationProblem.

Import Np Cvx1 Soiling.

Section Parts.

Variable observed : list (option Q).
Variables tau c1 c2 c3 soiling_max : Q.

Local Abbreviation n := (Soiling.n observed).
Local Abbreviation s1 := (Soiling.s1 observed).
Local Abbreviation s2 := (Soiling.s2 observed).
Local Abbreviation s3 := (Soiling.s3 observed).
Local Abbreviation sr := (Soiling.sr observed).

(** The first four constraints of every problem built. *)
Definition reconstruction (known : vector) (ix : list bool) : constraint :=
  Equality (Vec (Const known))
    (Vec (BoolIndex ix
            (Add (Add (Add s1 (Slice None (Some (Z.of_nat n)) s2)) s3) sr))).

Definition periodicity : constraint :=
  Equality (Vec (Sub (Slice (Some 365%Z) None s2)
                     (Slice None (Some (-365)%Z) s2))) (Num 0).

Definition zero_mean : constraint :=
  Equality (SumOf (Slice None (Some 365%Z) s2)) (Num 0).

Definition soiling_cap : constraint := Inequality (Vec s1) (Num soiling_max).

Definition seasonal_off : constraint := Equality (Vec s2) (Num 0).

(** The objective of every problem built. *)
Definition separation_cost (w : vector) : cost :=
  CAdd (CAdd (CAdd
    (Sum (Add (Scale tau (Pos sr)) (Scale (1 - tau) (Neg sr))))
    (CScale c3 (Norm2 (Diff 2 (Slice None (Some (Z.of_nat n)) s2)))))
    (CScale c1 (Norm1 (Multiply (Param w) (Diff 2 s1)))))
    (CScale c2 (Sum (Sub (Promote 1 n) s1))).

(** The constraints a problem without degradation term has besides the
    first four. *)
Definition no_degradation : constraint := Equality (Vec s3) (Num 0).

Definition flat_regions (zs : list bool) : list constraint :=
  if (0 <? count_true zs)%nat
  then [Equality (Vec (BoolIndex zs (Diff 1 s1))) (Num 0)]
  else [].

Definition short_series : list constraint :=
  if Qltb (inject_Z (Z.of_nat n)) ((75 # 100) * 365)
  then [seasonal_off] else [].

(** The sign constraint of [soiling_seperation_algorithm_v2]. *)
Definition soiling_sign : constraint :=
  Inequality (Vec (Var (n_v2 observed) "s3")) (Num 0).

End Parts.

(** The variable under the weighted L1 norm of an objective (its third
    term, in both algorithms). *)
Definition l1_penalty_variable (t : cost) : option string :=
  match t with
  | CAdd (CAdd (CAdd _ _)
            (CScale _ (Norm1 (Multiply _ (Diff 2 (Var _ name)))))) _ =>
      Some name
  | _ => None
  end.

(** The weights under that norm. *)
Definition l1_weights (t : cost) : vector :=
  match t with
  | CAdd (CAdd (CAdd _ _) (CScale _ (Norm1 (Multiply (Param wt) _)))) _ => wt
  | _ => []
  end.

End SeparationProblem.

(** ** Checking a candidate solution *)

Module Check.

Import Np Cvx1.

Fixpoint forall2b {A B : Type} (R : A -> B -> bool) (l : list A) (l' : list B)
  : bool :=
  match l, l' with
  | [], [] => true
  | a :: l, b :: l' => R a b && forall2b R l l'
  | _, _ => false
  end.

Definition compare_b (R : Q -> Q -> bool) (rho : assignment) (l r : operand)
  : bool :=
  match l, r with
  | Vec a, Vec b => forall2b R (eval rho a) (eval rho b)
  | Vec a, Num c => forallb (fun x => R x c) (eval rho a)
  | Num c, Vec b => forallb (fun x => R c x) (eval rho b)
  | Vec a, SumOf b => forallb (fun x => R x (sum (eval rho b))) (eval rho a)
  | SumOf a, Vec b => forallb (fun x => R (sum (eval rho a)) x) (eval rho b)
  | SumOf a, SumOf b => R (sum (eval rho a)) (sum (eval rho b))
  | SumOf a, Num c => R (sum (eval rho a)) c
  | Num c, SumOf b => R c (sum (eval rho b))
  | Num c, Num d => R c d
  end.

Definition holds_b (rho : assignment) (c : constraint) : bool :=
  match c with
  | Equality l r => compare_b Qeq_bool rho l r
  | Inequality l r => compare_b Qle_bool rho l r
  end.

Definition feasible_b (rho : assignment) (p : Problem) : bool :=
  forallb (holds_b rho) (constraints p).

Definition well_shaped_b (rho : assignment) (p : Problem) : bool :=
  forallb (fun v => Nat.eqb (List.length (rho (fst v))) (snd v)) (variables p).

(** Every term of the objective vanishes. *)
Fixpoint zero_cost_b (rho : assignment) (t : cost) : bool :=
  match t with
  | Sum e => Qeq_bool (sum (eval rho e)) 0
  | SumSquares e => Qeq_bool (sum (map (fun x => x * x) (eval rho e))) 0
  | Norm1 e => Qeq_bool (sum (map Qabs (eval rho e))) 0
  | Norm2 e => Qeq_bool (sum (map (fun x => x * x) (eval rho e))) 0
  | CScale _ t => zero_cost_b rho t
  | CAdd a b => zero_cost_b rho a && zero_cost_b rho b
  end.

Definition Q_eq_dec (x y : Q) : {x = y} + {x <> y}.
Proof. decide equality; [apply Pos.eq_dec | apply Z.eq_dec]. Defined.

Definition option_Z_eq_dec (x y : option Z) : {x = y} + {x <> y}.
Proof. decide equality. apply Z.eq_dec. Defined.

Definition vexpr_eq_dec (x y : vexpr) : {x = y} + {x <> y}.
Proof.
  decide equality;
    try apply string_dec; try apply Nat.eq_dec; try apply Q_eq_dec;
    try apply (list_eq_dec Q_eq_dec); try apply option_Z_eq_dec;
    try apply (list_eq_dec Bool.bool_dec).
Defined.

Definition cost_eq_dec (x y : cost) : {x = y} + {x <> y}.
Proof. decide equality; try apply vexpr_eq_dec; apply Q_eq_dec. Defined.

Definition operand_eq_dec (x y : operand) : {x = y} + {x <> y}.
Proof. decide equality; try apply vexpr_eq_dec; apply Q_eq_dec. Defined.

Definition constraint_eq_dec (x y : constraint) : {x = y} + {x <> y}.
Proof. decide equality; apply operand_eq_dec. Defined.

Definition problem_eq_dec (x y : Problem) : {x = y} + {x <> y}.
Proof.
  decide equality; [apply (list_eq_dec constraint_eq_dec) | apply cost_eq_dec].
Defined.

(** A solver that knows the solution of the problems of a table and fails
    on every other problem. *)
Fixpoint table_solver (table : list (Problem * assignment)) (p : Problem)
  : solver_outcome :=
  match table with
  | [] => Raises (SolverError "Solver 'MOSEK' failed.")
  | (q, rho) :: rest =>
      if problem_eq_dec p q then Returns "optimal" (Some rho)
      else table_solver rest p
  end.

(** The problem a builder returned. *)
Definition built (r : result Problem) : Problem :=
  match r with
  | Ok p => p
  | Raise _ => {| objective := Sum (Const []); constraints := [] |}
  end.

(** A solver that returns a given candidate on the problems of
    [soiling_seperation] it can certify the candidate for (the candidate
    satisfies the constraints at cost zero, which no point that meets the
    cap can beat), and fails on every other problem. *)
Definition certifying_solver (observed : list (option Q))
           (tau c1 c2 c3 soiling_max : Q) (cand : assignment) (p : Problem)
  : solver_outcome :=
  if cost_eq_dec (objective p)
       (SeparationProblem.separation_cost observed tau c1 c2 c3
          (SeparationProblem.l1_weights (objective p)))
  then
    if in_dec constraint_eq_dec
         (SeparationProblem.soiling_cap observed soiling_max) (constraints p)
    then
      if well_shaped_b cand p && feasible_b cand p
         && zero_cost_b cand (objective p)
      then Returns "optimal" (Some cand)
      else Raises (SolverError "Solver 'MOSEK' failed.")
    else Raises (SolverError "Solver 'MOSEK' failed.")
  else Raises (SolverError "Solver 'MOSEK' failed.").

End Check.

(** ** Concrete data for examples *)

Module Examples.

Import Np Pd Cvx Shade.

(** Bhaskara's rational approximation of the sine of an angle in degrees
    (within 0.002 of it), standing in for numpy's [sin] where an example
    has to compute. *)
Definition sin_deg_approx (deg : Q) : Q :=
  let t := deg - 360 * inject_Z (Qfloor (deg / 360)) in
  if Qltb t 180 then 4 * t * (180 - t) / (40500 - t * (180 - t))
  else let u := t - 180 in - (4 * u * (180 - u) / (40500 - u * (180 - u))).

Definition deg2rad_approx (deg : Q) : Q := deg * (355 # 113) / 180.

Definition sin_approx (rad : Q) : Q := sin_deg_approx (rad * 180 / (355 # 113)).

(** Three clear days (days 1, 80 and 172 of the year) of three daytime
    samples each. *)
Definition three_days : DataHandler := {|
  filled_data_matrix := [[1; 2; 3]; [2; 4; 6]; [1; 2; 3]];
  daytime := [[true; true; true]; [true; true; true]; [true; true; true]];
  clear := [true; true; true];
  dayofyear := [1; 80; 172]%Z;
  data_sampling := 15
|}.

(** A solver that raises, one that reports infeasibility, and one that
    returns values. *)
Definition solver_raising (_ : Problem) : solver_outcome :=
  Raises (SolverError "Solver 'MOSEK' failed.").

Definition solver_infeasible (_ : Problem) : solver_outcome :=
  Returns "infeasible" [].

Definition solver_returning (_ : Problem) : solver_outcome :=
  Returns "optimal"
    [("residual"%string, zeros 3 8);
     ("clear-sky"%string,
      [[0; 2; 3; 4; 4; 3; 2; 0]; [0; 1; 2; 3; 3; 2; 1; 0];
       [0; 1; 1; 2; 2; 1; 1; 0]]);
     ("shade"%string,
      [[0; 0; 0; 1; 1; 0; 0; 0]; [0; 0; 1; 1; 0; 0; 0; 0];
       [0; 0; 0; 0; 0; 0; 0; 0]])].

(** One day of four samples, the last one at night. *)
Definition day_4samples : matrix := [[1]; [2]; [3]; [10]].
Definition mask_4samples : bmatrix := [[true]; [true]; [true]; [false]].

(** One day of three daytime samples, all equal. *)
Definition flat_day : matrix := [[1]; [1]; [1]].
Definition flat_mask : bmatrix := [[true]; [true]; [true]].

(** A declination-indexed surface of three rows and five columns. *)
Definition surface_3x5 : DataFrame := {|
  index := [23; 0; -23];
  columns := linspace 0 1 5;
  values := [[0; 1; 2; 1; 0]; [0; 2; 3; 2; 0]; [0; 1; 1; 1; 0]]
|}.

(** The object after [run(power=3)] on the three example days. *)
Definition solved_three_days : ShadeAnalysis :=
  Eval vm_compute in
    let '(_, self1, _) :=
      run sin_approx deg2rad_approx solver_returning 3 (init three_days) in
    self1.

End Examples.

(** ** Concrete data for the soiling decompositions *)

Module SoilingExamples.

Import Np Cvx1 Soiling SeparationProblem Check.

Local Open Scope string_scope.

(** A candidate whose soiling term is constant at [level], whose seasonal
    term is constant at [seasonal] over the series and continues with
    [s2_tail], and whose other terms are zero. *)
Definition flat_solution (len : nat) (level seasonal : Q) (s2_tail : vector)
  : assignment :=
  fun name =>
    if String.eqb name "s1" then repeat level len
    else if String.eqb name "s2" then (repeat seasonal len ++ s2_tail)%list
    else repeat 0 len.

(** The loop state before the first iteration and after any iteration
    that ended with the given values. *)
Definition state_before (len : nat) : loop_state :=
  {| w := repeat 1 (len - 2); zero_set := repeat false (len - 1);
     values := None |}.

Definition state_after (rho : assignment) : loop_state :=
  {| w := reweight (np_diff 2 (rho "s1"));
     zero_set := nearly_flat (np_diff 1 (rho "s1"));
     values := Some rho |}.

(** The problem [soiling_seperation] builds with its default arguments. *)
Definition default_problem (observed : list (option Q)) (st : loop_state)
  : Problem :=
  built (build_problem observed false (85 # 100) 2 (1 # 100) 100 1
           (not_nan observed) st).

Definition default_solver (observed : list (option Q)) (rho : assignment)
  : Problem -> solver_outcome :=
  table_solver
    [(default_problem observed (state_before (List.length observed)), rho);
     (default_problem observed (state_after rho), rho)].

(** Three days of a performance index equal to 1. *)
Definition pi_three_days : list (option Q) := [Some 1; Some 1; Some 1].

Definition solution_three_days : assignment :=
  flat_solution 3 1 0 (repeat 0 364).

(** Three hundred days of a performance index equal to 2: the soiling
    term sits at its cap 1, the seasonal term is 1 over the series and
    balances the sum of its first 365 entries after the series' end. *)
Definition pi_300_days : list (option Q) := repeat (Some 2) 300.

Definition solution_300_days : assignment :=
  flat_solution 300 1 1 ((- (300 # 1)) :: repeat 0 64 ++ [1; 1])%list.

(** Standing in for numpy's [log10] where an example has to compute:
    exact at 1, 10 and 1/10, NaN elsewhere. *)
Definition log10_exact (q : Q) : option Q :=
  if Qeq_bool q 1 then Some 0
  else if Qeq_bool q 10 then Some 1
  else if Qeq_bool q (1 # 10) then Some (- (1))
  else None.

(** The problem [soiling_seperation_algorithm_v2] builds with its default
    arguments. *)
Definition default_problem_v2 (observed : list (option Q)) (w_cur : vector)
  : Problem :=
  built (build_problem_v2 log10_exact observed None None (1 # 100000)
           500 (1 # 10) w_cur).

Definition zero_solution (len : nat) : assignment := fun _ => repeat 0 len.

(** A year and a day of a performance index equal to 1. *)
Definition pi_366_days : list (option Q) := repeat (Some 1) 366.

(** For [soiling_seperation] on that series: the soiling term sits at 1,
    the seasonal term (of 367 entries) and the other terms are zero. *)
Definition solution_366_days : assignment := flat_solution 366 1 0 [0].

(** A solver for [pi_366_days] that answers with [solution_366_days] in
    every iteration. *)
Definition certifying_366_days : Problem -> solver_outcome :=
  certifying_solver pi_366_days (85 # 100) 2 (1 # 100) 100 1
    solution_366_days.

(** A year and a day of a performance index equal to 1, but for day 100
    where it is 10; the caller gives that day the weight zero. *)
Definition pi_outlier : list (option Q) :=
  (repeat (Some 1) 100 ++ Some 10 :: repeat (Some 1) 265)%list.

Definition weights_outlier : vector :=
  (repeat 1 100 ++ 0 :: repeat 1 265)%list.

(** For [soiling_seperation_algorithm_v2] on that series: the error term
    takes the outlier and the other terms are zero. *)
Definition solution_outlier : assignment :=
  fun name =>
    if String.eqb name "s1" then (repeat 0 100 ++ 1 :: repeat 0 265)%list
    else repeat 0 366.

Definition problem_outlier (w_cur : vector) : Problem :=
  built (build_problem_v2 log10_exact pi_outlier (Some weights_outlier) None
           (1 # 100000) 500 (1 # 10) w_cur).

Definition solver_outlier : Problem -> solver_outcome :=
  table_solver
    [(problem_outlier (repeat 1 364), solution_outlier);
     (problem_outlier (reweight_v2 (np_diff 2 (solution_outlier "s1"))),
      solution_outlier)].

(** A solver for the example runs: [soiling_seperation] on
    [pi_three_days] and [soiling_seperation_algorithm_v2] on
    [pi_366_days]. *)
Definition solver_examples : Problem -> solver_outcome :=
  table_solver
    [(default_problem pi_three_days (state_before 3), solution_three_days);
     (default_problem pi_three_days (state_after solution_three_days),
      solution_three_days);
     (default_problem_v2 pi_366_days (repeat 1 364), zero_solution 366);
     (default_problem_v2 pi_366_days
        (reweight_v2 (np_diff 2 (zero_solution 366 "s1"))),
      zero_solution 366)].

(** A solver for [pi_three_days] that answers with [solution_three_days]
    in every iteration. *)
Definition certifying_three_days : Problem -> solver_outcome :=
  certifying_solver pi_three_days (85 # 100) 2 (1 # 100) 100 1
    solution_three_days.

(** Four days, the second one missing; the caller marks the first, the
    second and the last as valid. *)
Definition pi_with_nan : list (option Q) := [Some 1; None; Some 1; Some 1].
Definition given_index_set : list bool := [true; true; false; true].

(** An objective made of norms and sums of squares with weights that are
    not negative. *)
Fixpoint nonneg_form (t : cost) : bool :=
  match t with
  | Sum _ => false
  | SumSquares _ | Norm1 _ | Norm2 _ => true
  | CScale c t => Qle_bool 0 c && nonneg_form t
  | CAdd a b => nonneg_form a && nonneg_form b
  end.

End SoilingExamples.

(** ** More concrete data *)

Module MoreExamples.

Import Np Pd Cvx Shade Examples.

(** Two days of three samples; the second day has a single daytime
    sample. *)
Definition short_day : DataHandler := {|
  filled_data_matrix := [[1; 1]; [2; 0]; [1; 0]];
  daytime := [[true; true]; [true; false]; [true; false]];
  clear := [true; true];
  dayofyear := [1; 2]%Z;
  data_sampling := 15
|}.

End MoreExamples.

(** ** More parts of the problems of [soiling_seperation] *)

Module SeparationParts.

Import Np Cvx1 Soiling SeparationProblem.

(** What the degradation term adds to the constraints: a line through the
    origin when it is on, zero when it is off. *)
Definition degradation_part (observed : list (option Q))
           (degradation_term : bool) : list constraint :=
  if degradation_term
  then [Equality (Vec (Diff 2 (s3 observed))) (Num 0);
        Equality (Vec (Index 0 (s3 observed))) (Num 0)]
  else [no_degradation observed].

End SeparationParts.

(** * Theorems *)

(** ** Array lemmas *)

Section ArrayLemmas.

Import Np.

Lemma rbind_ok {A B : Type} (c : result A) (k : A -> result B) (b : B) :
  rbind c k = Ok b -> exists a, c = Ok a /\ k a = Ok b.
Proof.
  destruct c as [a | e]; simpl; intros H; [eauto | discriminate].
Qed.

Lemma rbind_assoc {A B C : Type} (c : result A) (k : A -> result B)
      (h : B -> result C) :
  rbind (rbind c k) h = rbind c (fun a => rbind (k a) h).
Proof. destruct c; reflexivity. Qed.

Lemma foldM_ext {A B : Type} (f f' : B -> A -> result B) (l : list A) :
  (forall b a, f b a = f' b a) -> forall b, foldM f l b = foldM f' l b.
Proof.
  intros Hf. induction l as [| a l IH]; intros b; simpl; [reflexivity |].
  rewrite Hf. destruct (f' b a); simpl; auto.
Qed.

Lemma mapM_ok_length {A B : Type} (f : A -> result B) (l : list A) :
  forall out, mapM f l = Ok out -> List.length out = List.length l.
Proof.
  induction l as [| a l IH]; simpl; intros out H.
  - inversion H; reflexivity.
  - apply rbind_ok in H as (b & _ & H).
    apply rbind_ok in H as (bs & Hbs & H).
    inversion H; subst; simpl. f_equal. now apply IH.
Qed.

Lemma mapM_ok_nth {A B : Type} (f : A -> result B) (l : list A) :
  forall out, mapM f l = Ok out ->
  forall i da db, (i < List.length l)%nat -> f (nth i l da) = Ok (nth i out db).
Proof.
  induction l as [| a l IH]; simpl; intros out H i da db Hi; [lia |].
  apply rbind_ok in H as (b & Hb & H).
  apply rbind_ok in H as (bs & Hbs & H).
  inversion H; subst. destruct i as [| i]; simpl; [assumption |].
  apply IH; [assumption | lia].
Qed.

Lemma mapM_all_ok {A B : Type} (f : A -> result B) (g : A -> B) (l : list A) :
  (forall a, In a l -> f a = Ok (g a)) -> mapM f l = Ok (map g l).
Proof.
  induction l as [| a l IH]; simpl; intros H; [reflexivity |].
  rewrite (H a (or_introl eq_refl)). simpl.
  rewrite IH by (intros; apply H; now right). reflexivity.
Qed.

Lemma set_nth_length {A : Type} (j : nat) (x : A) (row : list A) :
  List.length (set_nth j x row) = List.length row.
Proof.
  revert j; induction row as [| a row IH]; intros [| j]; simpl; auto.
Qed.

Lemma nth_set_nth_same {A : Type} (j : nat) (x d : A) (row : list A) :
  (j < List.length row)%nat -> nth j (set_nth j x row) d = x.
Proof.
  revert j; induction row as [| a row IH]; intros [| j]; simpl; intros H;
    try lia; auto. apply IH; lia.
Qed.

Lemma nth_set_nth_other {A : Type} (j j' : nat) (x d : A) (row : list A) :
  j <> j' -> nth j' (set_nth j x row) d = nth j' row d.
Proof.
  revert j j'; induction row as [| a row IH]; intros [| j] [| j'] H; simpl;
    try reflexivity; try congruence. apply IH; congruence.
Qed.

Lemma set_col_shape {A : Type} (r c : nat) (m : list (list A)) j v :
  has_shape r c m -> has_shape r c (set_col m j v).
Proof.
  intros [Hr Hc]. split.
  - rewrite <- Hr. clear Hr Hc. revert v.
    induction m as [| row m IH]; intros [| x v]; simpl; auto.
  - clear Hr. revert v. induction m as [| row m IH]; intros [| x v]; simpl;
      auto. inversion Hc; subst. constructor.
    + now rewrite set_nth_length.
    + now apply IH.
Qed.

Lemma col_set_col_same {A : Type} (d : A) (r c : nat) (m : list (list A)) j v :
  has_shape r c m -> (j < c)%nat -> List.length v = r ->
  col d (set_col m j v) j = v.
Proof.
  intros [Hr Hc] Hj Hv. subst r. revert v Hv.
  induction m as [| row m IH]; intros [| x v] Hv; simpl in *;
    try discriminate; [reflexivity |].
  inversion Hc; subst. f_equal.
  - apply nth_set_nth_same. lia.
  - apply IH; [assumption | lia].
Qed.

Lemma col_set_col_other {A : Type} (d : A) (m : list (list A)) j j' v :
  j <> j' -> col d (set_col m j v) j' = col d m j'.
Proof.
  intros Hj. revert v. induction m as [| row m IH]; intros [| x v]; simpl;
    try reflexivity. f_equal; [now apply nth_set_nth_other | apply IH].
Qed.

Lemma col_length {A : Type} (d : A) (m : list (list A)) j :
  List.length (col d m j) = List.length m.
Proof. unfold col. now rewrite length_map. Qed.

Lemma zeros_shape (r c : nat) : has_shape r c (zeros r c).
Proof.
  unfold zeros; split; [now rewrite repeat_length |].
  apply Forall_forall. intros row Hin. apply repeat_spec in Hin. subst.
  now rewrite repeat_length.
Qed.

Lemma col_zeros (r c j : nat) : col 0 (zeros r c) j = repeat 0 r.
Proof.
  unfold col, zeros. induction r as [| r IH]; simpl; [reflexivity |].
  f_equal; [| exact IH]. clear IH. revert j.
  induction c as [| c IH]; intros [| j]; simpl; auto.
Qed.

(** The column-by-column loops of [batch_process] and [undo_batch_process]:
    each step stores one column, computed from the current content of that
    column alone. *)
Lemma foldM_columns (g : list Q -> nat -> result (list Q)) (r c : nat) :
  (forall old j v, List.length old = r -> g old j = Ok v -> List.length v = r) ->
  forall (l : list nat) (out0 out : matrix),
    has_shape r c out0 ->
    NoDup l ->
    (forall j, In j l -> (j < c)%nat) ->
    foldM (fun output j =>
             column <- g (col 0 output j) j ;; Ok (set_col output j column))
          l out0 = Ok out ->
    has_shape r c out
    /\ (forall j, In j l -> g (col 0 out0 j) j = Ok (col 0 out j))
    /\ (forall j, ~ In j l -> col 0 out j = col 0 out0 j).
Proof.
  intros Hg l. induction l as [| j l IH]; simpl; intros out0 out Hs Hnd Hlt H.
  - inversion H; subst. split; [exact Hs | split; [intros j [] | auto]].
  - apply rbind_ok in H as (out1 & H1 & H).
    apply rbind_ok in H1 as (v & Hv & H1). inversion H1; subst out1; clear H1.
    inversion Hnd; subst.
    assert (Hlen : List.length v = r).
    { eapply Hg; [| exact Hv]. rewrite col_length. apply Hs. }
    destruct (IH (set_col out0 j v) out) as (Hs' & Hin & Hout); auto.
    { now apply set_col_shape. }
    split; [assumption |]. split.
    + intros j' [-> | Hj'].
      * rewrite Hout by assumption.
        rewrite (col_set_col_same 0 r c) by auto. exact Hv.
      * specialize (Hin j' Hj').
        assert (j <> j') by (intros ->; contradiction).
        rewrite col_set_col_other in Hin by assumption. exact Hin.
    + intros j' Hn. rewrite Hout by tauto.
      apply col_set_col_other. intros ->. apply Hn. now left.
Qed.

Lemma get_col_ok {A : Type} (d : A) (m : list (list A)) j c :
  get_col d m j = Ok c -> has_col m j = true /\ c = col d m j.
Proof.
  unfold get_col. destruct (has_col m j); [| discriminate].
  intros H. inversion H. auto.
Qed.

Lemma get_col_has {A : Type} (d : A) (m : list (list A)) j :
  has_col m j = true -> get_col d m j = Ok (col d m j).
Proof. unfold get_col. now intros ->. Qed.

(** On an array of [r] rows and [c] columns, [r] positive, the columns
    are those below [c]. *)
Lemma has_col_shape {A : Type} (r c : nat) (m : list (list A)) j :
  has_shape r c m -> (0 < r)%nat -> has_col m j = (j <? c)%nat.
Proof.
  intros [Hr Hc] Hpos. unfold has_col.
  destruct m as [| row m]; [simpl in Hr; lia |].
  inversion Hc as [| ? ? Hrow Hrest]; subst. simpl.
  destruct (Nat.ltb_spec j (List.length row)); [reflexivity |].
  simpl. apply not_true_iff_false. intros Hex.
  apply existsb_exists in Hex as (row' & Hin & Hlt).
  rewrite Forall_forall in Hrest. rewrite (Hrest row' Hin) in Hlt.
  apply Nat.ltb_lt in Hlt. lia.
Qed.

(** A column that holds a [true] is a column of the array. *)
Lemma has_col_count (mask : list (list bool)) j :
  (1 <= count_true (col false mask j))%nat -> has_col mask j = true.
Proof.
  unfold has_col, count_true, col.
  induction mask as [| row mask IH]; simpl; [lia |].
  destruct (nth j row false) eqn:E.
  - intros _. destruct (Nat.ltb_spec j (List.length row)); [reflexivity |].
    rewrite nth_overflow in E by assumption. discriminate.
  - intros H. rewrite IH by exact H. apply orb_true_r.
Qed.

End ArrayLemmas.

(** ** Resampling *)

Section ResamplingProofs.

Import Np Interp Resample Knots Examples.

Lemma linspace_length (a b : Q) (n : nat) : List.length (linspace a b n) = n.
Proof. unfold linspace. now rewrite length_map, length_seq. Qed.

Lemma call_length (f : interp1d_obj) (x_new out : vector) :
  call f x_new = Ok out -> List.length out = List.length x_new.
Proof. apply mapM_ok_length. Qed.

Lemma sum_scaled (e s : Q) (l : vector) :
  sum (map (fun r => r * e / s) l) == sum l * e / s.
Proof.
  induction l as [| a l IH]; simpl.
  - unfold Qdiv. ring.
  - rewrite IH. unfold Qdiv. ring.
Qed.

Lemma Qltb_lt (a b : Q) : Qltb a b = true <-> a < b.
Proof.
  unfold Qltb. rewrite negb_true_iff. split.
  - intros H. apply Qnot_le_lt. intros Hle.
    apply Qle_bool_iff in Hle. congruence.
  - intros H. destruct (Qle_bool b a) eqn:E; [| reflexivity].
    apply Qle_bool_iff in E. exfalso. apply (Qlt_not_le _ _ H E).
Qed.

Lemma Qltb_false (a b : Q) : Qltb a b = false <-> ~ a < b.
Proof.
  rewrite <- Qltb_lt. destruct (Qltb a b); split; congruence.
Qed.

Lemma resampled_signal_length data mask N j r :
  resampled_signal data mask N j = Ok r -> List.length r = N.
Proof.
  unfold resampled_signal. intros H.
  apply rbind_ok in H as (msk & _ & H).
  apply rbind_ok in H as (ym & _ & H). apply rbind_ok in H as (f & _ & H).
  apply call_length in H. now rewrite linspace_length in H.
Qed.

Lemma batch_column_length data mask N j v :
  batch_column data mask N j = Ok v -> List.length v = N.
Proof.
  unfold batch_column. intros H. apply rbind_ok in H as (r & Hr & H).
  apply resampled_signal_length in Hr.
  destruct (Qltb 0 (sum r)); inversion H; subst.
  - now rewrite length_map.
  - now rewrite repeat_length.
Qed.

(** After the loop, every column holds what the loop body computed for it. *)
Lemma batch_process_columns data mask power out :
  batch_process data mask power = Ok out ->
  has_shape (2 ^ power) (shape1 data) out
  /\ forall j, (j < shape1 data)%nat ->
       batch_column data mask (2 ^ power) j = Ok (col 0 out j).
Proof.
  unfold batch_process. intros H.
  apply (foldM_columns (fun _ j => batch_column data mask (2 ^ power) j)
           (2 ^ power) (shape1 data)) in H.
  - destruct H as (Hs & Hin & _). split; [assumption |].
    intros j Hj. apply Hin. apply in_seq. lia.
  - intros old j v _. apply batch_column_length.
  - apply zeros_shape.
  - apply seq_NoDup.
  - intros j Hj. apply in_seq in Hj. lia.
Qed.

Lemma increasing_tail x xs : increasing (x :: xs) -> increasing xs.
Proof. intros H i Hi. apply (H (S i)). simpl. lia. Qed.

Lemma sort_knots_increasing (xs ys : vector) :
  increasing xs -> List.length xs = List.length ys ->
  sort_knots (combine xs ys) = combine xs ys.
Proof.
  revert ys. induction xs as [| x xs IH]; intros [| y ys] Hinc Hl;
    try discriminate; [reflexivity |].
  simpl. rewrite IH; [| eapply increasing_tail; eauto | simpl in Hl; lia].
  destruct xs as [| x' xs]; [reflexivity |].
  destruct ys as [| y' ys]; [discriminate |]. simpl.
  assert (Hlt : x < x') by (apply (Hinc 0%nat); simpl; lia).
  apply Qlt_le_weak, Qle_bool_iff in Hlt. now rewrite Hlt.
Qed.

Lemma linspace_nth num i :
  (i < num)%nat ->
  nth i (linspace 0 1 num) 0
  = 0 + inject_Z (Z.of_nat i) * ((1 - 0) / inject_Z (Z.of_nat (num - 1))).
Proof.
  intros Hi. unfold linspace.
  rewrite (nth_indep _ 0
             ((fun i => 0 + inject_Z (Z.of_nat i)
                            * ((1 - 0) / inject_Z (Z.of_nat (num - 1))))
                0%nat))
    by (rewrite length_map, length_seq; exact Hi).
  rewrite (map_nth (fun i => 0 + inject_Z (Z.of_nat i)
                                 * ((1 - 0) / inject_Z (Z.of_nat (num - 1))))).
  now rewrite seq_nth.
Qed.

Lemma inject_nat_pos k : (0 < k)%nat -> 0 < inject_Z (Z.of_nat k).
Proof.
  intros H. unfold Qlt, inject_Z. simpl. lia.
Qed.

Lemma inject_nat_le a b :
  (a <= b)%nat -> inject_Z (Z.of_nat a) <= inject_Z (Z.of_nat b).
Proof. intros H. unfold Qle, inject_Z. simpl. lia. Qed.

Lemma inject_nat_lt a b :
  (a < b)%nat -> inject_Z (Z.of_nat a) < inject_Z (Z.of_nat b).
Proof. intros H. unfold Qlt, inject_Z. simpl. lia. Qed.

Lemma step_pos num :
  (2 <= num)%nat -> 0 < (1 - 0) / inject_Z (Z.of_nat (num - 1)).
Proof.
  intros H. apply Qlt_shift_div_l; [apply inject_nat_pos; lia | Lqa.lra].
Qed.

Lemma linspace_increasing num : increasing (linspace 0 1 num).
Proof.
  intros i Hi. rewrite linspace_length in Hi.
  rewrite !linspace_nth by lia.
  pose proof (step_pos num ltac:(lia)) as Hs.
  pose proof (inject_nat_lt i (S i) ltac:(lia)) as Hlt.
  apply Qplus_lt_r. apply Qmult_lt_compat_r; assumption.
Qed.

Lemma linspace_range num x :
  In x (linspace 0 1 num) -> 0 <= x /\ x <= 1.
Proof.
  intros Hin. destruct (In_nth _ _ 0 Hin) as (i & Hi & <-).
  rewrite linspace_length in Hi. rewrite linspace_nth by assumption.
  destruct (Nat.le_gt_cases num 1) as [Hn | Hn].
  - assert (i = 0%nat) by lia. subst i.
    split; unfold Qle; simpl; lia.
  - pose proof (step_pos num ltac:(lia)) as Hs.
    pose proof (inject_nat_le 0 i ltac:(lia)) as H0.
    pose proof (inject_nat_le i (num - 1) ltac:(lia)) as H1.
    pose proof (inject_nat_pos (num - 1) ltac:(lia)) as Hp.
    split.
    + rewrite Qplus_0_l. apply Qmult_le_0_compat; [exact H0 | Lqa.lra].
    + rewrite Qplus_0_l.
      setoid_replace 1 with
        (inject_Z (Z.of_nat (num - 1))
         * ((1 - 0) / inject_Z (Z.of_nat (num - 1)))) at 3
        by (field; Lqa.lra).
      apply Qmult_le_compat_r; [exact H1 | Lqa.lra].
Qed.

Lemma linspace_first num :
  (1 <= num)%nat -> hd 0 (linspace 0 1 num) == 0.
Proof.
  intros H. destruct num as [| num]; [lia |].
  unfold linspace. simpl. ring.
Qed.

Lemma last_as_nth (l : vector) :
  last l 0 = nth (List.length l - 1) l 0.
Proof.
  induction l as [| a [| b l] IH]; try reflexivity.
  change (last (a :: b :: l) 0) with (last (b :: l) 0). rewrite IH.
  simpl. now rewrite Nat.sub_0_r.
Qed.

Lemma linspace_last num :
  (2 <= num)%nat -> last (linspace 0 1 num) 0 == 1.
Proof.
  intros H. rewrite last_as_nth, linspace_length, linspace_nth by lia.
  pose proof (inject_nat_pos (num - 1) ltac:(lia)).
  field. Lqa.lra.
Qed.


Lemma foldM_total {A B : Type} (Inv : B -> Prop) (f : B -> A -> result B)
      (l : list A) :
  (forall b a, In a l -> Inv b -> exists b', f b a = Ok b' /\ Inv b') ->
  forall b, Inv b -> exists b', foldM f l b = Ok b' /\ Inv b'.
Proof.
  induction l as [| a l IH]; intros Hf b Hb; simpl; [eauto |].
  destruct (Hf b a (or_introl eq_refl) Hb) as (b1 & -> & Hb1). simpl.
  apply IH; [| exact Hb1]. intros b2 a2 Hin. apply Hf. now right.
Qed.

Lemma mask_select_length {A : Type} (y : list A) (msk : list bool) :
  List.length y = List.length msk ->
  List.length (mask_select y msk) = count_true msk.
Proof.
  revert msk. induction y as [| a y IH]; intros [| b msk] H;
    try discriminate; [reflexivity |].
  simpl in H. destruct b; simpl; unfold count_true in *; simpl;
    rewrite IH by lia; reflexivity.
Qed.

Lemma fst_last (kn : list (Q * Q)) :
  fst (last kn (0, 0)) = last (map fst kn) 0.
Proof.
  induction kn as [| p kn IH]; [reflexivity |].
  destruct kn as [| q kn]; [reflexivity | exact IH].
Qed.

Lemma fst_hd_combine (xs ys : vector) :
  List.length xs = List.length ys ->
  fst (hd (0, 0) (combine xs ys)) = hd 0 xs.
Proof. destruct xs, ys; simpl; intros H; try discriminate; reflexivity. Qed.

Lemma fst_last_combine (xs ys : vector) :
  List.length xs = List.length ys ->
  fst (last (combine xs ys) (0, 0)) = last xs 0.
Proof.
  intros H. rewrite fst_last. f_equal.
  revert ys H. induction xs as [| x xs IH]; intros [| y ys] H;
    try discriminate; [reflexivity |].
  simpl. f_equal. apply IH. simpl in H. lia.
Qed.

(** An interpolant through [num >= 2] knots spread over [[0, 1]] can be
    evaluated at every grid of [[0, 1]]: no point is out of bounds. *)
Lemma interp_linspace_total (num n_new : nat) (ys : vector) :
  (2 <= num)%nat -> List.length ys = num ->
  exists f out,
    interp1d false (linspace 0 1 num) ys = Ok f
    /\ call f (linspace 0 1 n_new) = Ok out.
Proof.
  intros Hnum Hys. unfold interp1d.
  rewrite linspace_length, Hys, Nat.eqb_refl. simpl.
  destruct (Nat.ltb num 1) eqn:E; [apply Nat.ltb_lt in E; lia |].
  eexists. eexists (map _ (linspace 0 1 n_new)). split; [reflexivity |].
  apply mapM_all_ok. intros x Hx. unfold call1. simpl.
  rewrite sort_knots_increasing
    by (try apply linspace_increasing; now rewrite linspace_length).
  unfold out_of_bounds.
  rewrite fst_hd_combine, fst_last_combine
    by now rewrite linspace_length.
  apply linspace_range in Hx as [H0 H1].
  pose proof (linspace_first num ltac:(lia)) as Hf.
  pose proof (linspace_last num Hnum) as Hl.
  assert (E1 : Qltb x (hd 0 (linspace 0 1 num)) = false).
  { apply Qltb_false. rewrite Hf. now apply Qle_not_lt. }
  assert (E2 : Qltb (last (linspace 0 1 num) 0) x = false).
  { apply Qltb_false. rewrite Hl. now apply Qle_not_lt. }
  rewrite E1, E2. reflexivity.
Qed.

Lemma resampled_signal_total data mask N j :
  shape0 data = shape0 mask ->
  (2 <= count_true (col false mask j))%nat ->
  exists resampled, resampled_signal data mask N j = Ok resampled.
Proof.
  intros Hs Hc. unfold resampled_signal.
  rewrite get_col_has by (apply has_col_count; lia). simpl rbind.
  unfold bool_index.
  rewrite !col_length. unfold shape0 in Hs. rewrite Hs, Nat.eqb_refl. simpl.
  destruct (interp_linspace_total (count_true (col false mask j)) N
              (mask_select (col 0 data j) (col false mask j)) Hc)
    as (f & out & -> & Hout).
  - apply mask_select_length. now rewrite !col_length.
  - simpl. eauto.
Qed.

Lemma batch_column_total data mask N j :
  shape0 data = shape0 mask ->
  (2 <= count_true (col false mask j))%nat ->
  exists column, batch_column data mask N j = Ok column.
Proof.
  intros Hs Hc. unfold batch_column.
  destruct (resampled_signal_total data mask N j Hs Hc) as (r & ->). simpl.
  destruct (Qltb 0 (sum r)); eauto.
Qed.

(** [batch_process] returns whenever the two arrays have as many rows and
    every day has two daytime samples. *)
Lemma batch_process_total data mask power :
  shape0 data = shape0 mask ->
  (forall j, (j < shape1 data)%nat ->
             (2 <= count_true (col false mask j))%nat) ->
  exists out, batch_process data mask power = Ok out.
Proof.
  intros Hs Hc. unfold batch_process.
  destruct (foldM_total (fun _ => True)
              (fun output col_ix =>
                 column <- batch_column data mask (2 ^ power) col_ix ;;
                 Ok (set_col output col_ix column))
              (seq 0 (shape1 data))) with (b := zeros (2 ^ power) (shape1 data))
    as (out & Hout & _); [| exact I | eauto].
  intros b j Hj _. apply in_seq in Hj.
  destruct (batch_column_total data mask (2 ^ power) j Hs) as (v & ->);
    [apply Hc; lia |].
  simpl. eauto.
Qed.

(** What the loop body leaves in a column it has written. *)
Lemma batch_column_energy data mask power out col_ix :
  batch_process data mask power = Ok out ->
  (col_ix < shape1 data)%nat ->
  exists resampled,
    resampled_signal data mask (2 ^ power) col_ix = Ok resampled
    /\ (0 < sum resampled ->
        sum (col 0 out col_ix) == sum (col 0 data col_ix))
    /\ (~ 0 < sum resampled -> col 0 out col_ix = repeat 0 (2 ^ power)).
Proof.
  intros H Hj. apply batch_process_columns in H as [_ H].
  specialize (H col_ix Hj). unfold batch_column in H.
  apply rbind_ok in H as (r & Hr & H). exists r. split; [assumption |].
  destruct (Qltb 0 (sum r)) eqn:E; inversion H as [Hcol]; clear H.
  - apply Qltb_lt in E. split; [| tauto]. intros _.
    rewrite sum_scaled. field. intros Hz. rewrite Hz in E.
    apply (Qlt_irrefl 0 E).
  - apply Qltb_false in E. split; [tauto | reflexivity].
Qed.

(** C2, as the code has it.  On arrays with as many rows, where every day
    has two daytime samples, [batch_process] returns; the column written
    for a day sums to the sum of the day's whole column of [data]
    (night-time samples included) whenever the resampled trace has a
    positive sum, and is zero otherwise. *)
Theorem batch_process_energy data mask power :
  shape0 data = shape0 mask ->
  (forall j, (j < shape1 data)%nat ->
             (2 <= count_true (col false mask j))%nat) ->
  exists out,
    batch_process data mask power = Ok out
    /\ forall col_ix, (col_ix < shape1 data)%nat ->
         exists resampled,
           resampled_signal data mask (2 ^ power) col_ix = Ok resampled
           /\ (0 < sum resampled ->
               sum (col 0 out col_ix) == sum (col 0 data col_ix))
           /\ (~ 0 < sum resampled ->
               col 0 out col_ix = repeat 0 (2 ^ power)).
Proof.
  intros Hs Hc.
  destruct (batch_process_total data mask power Hs Hc) as (out & Hout).
  exists out. split; [exact Hout |].
  intros col_ix Hj. now apply batch_column_energy.
Qed.

Lemma batch_process_energy_witness :
  shape0 day_4samples = shape0 mask_4samples
  /\ (forall j, (j < shape1 day_4samples)%nat ->
                (2 <= count_true (col false mask_4samples j))%nat)
  /\ exists out,
       batch_process day_4samples mask_4samples 1 = Ok out
       /\ forall col_ix, (col_ix < shape1 day_4samples)%nat ->
            exists resampled,
              resampled_signal day_4samples mask_4samples (2 ^ 1) col_ix
              = Ok resampled
              /\ (0 < sum resampled ->
                  sum (col 0 out col_ix) == sum (col 0 day_4samples col_ix))
              /\ (~ 0 < sum resampled ->
                  col 0 out col_ix = repeat 0 (2 ^ 1)).
Proof.
  assert (Hc : forall j, (j < shape1 day_4samples)%nat ->
                         (2 <= count_true (col false mask_4samples j))%nat).
  { intros j Hj. simpl in Hj. assert (j = 0%nat) by lia. subst j.
    vm_compute. lia. }
  split; [reflexivity |]. split; [exact Hc |].
  apply (batch_process_energy day_4samples mask_4samples 1 eq_refl Hc).
Defined.

(** C2 as stated fails twice over.  A day
    whose masked samples are 1, 2, 3 and whose unmasked sample is 10 gets a
    column summing to 16, not 6; and a day whose three masked samples are
    0, 5, 0, resampled onto two points, gets a zero column although its
    masked energy is 5. *)
Lemma batch_process_energy_counterexample :
  (exists out,
      batch_process day_4samples mask_4samples 3 = Ok out
      /\ 0 < sum (mask_select (col 0 day_4samples 0)
                              (col false mask_4samples 0))
      /\ sum (col 0 out 0) == 16
      /\ ~ sum (col 0 out 0)
           == sum (mask_select (col 0 day_4samples 0)
                               (col false mask_4samples 0)))
  /\ (exists out,
        batch_process [[0]; [5]; [0]] [[true]; [true]; [true]] 1 = Ok out
        /\ 0 < sum (mask_select (col 0 [[0]; [5]; [0]] 0) [true; true; true])
        /\ sum (col 0 out 0) == 0).
Proof.
  split.
  - eexists. split; [vm_compute; reflexivity |].
    repeat split; vm_compute; congruence.
  - eexists. split; [vm_compute; reflexivity |].
    split; vm_compute; congruence.
Qed.

(** *** The inverse mapping *)

Lemma mask_put_length column msk vals :
  List.length (mask_put column msk vals) = List.length column.
Proof.
  revert msk vals. induction column as [| c column IH]; intros msk vals;
    [destruct msk; reflexivity |].
  destruct msk as [| [|] msk]; simpl; [reflexivity | |].
  - destruct vals; simpl; now rewrite IH.
  - now rewrite IH.
Qed.

Lemma mask_put_outside column msk vals i d :
  nth i msk false = false ->
  nth i (mask_put column msk vals) d = nth i column d.
Proof.
  revert msk vals i. induction column as [| c column IH]; intros msk vals i H;
    [destruct msk; reflexivity |].
  destruct msk as [| [|] msk]; simpl; [reflexivity | |].
  - destruct i as [| i]; simpl in H; [discriminate |].
    destruct vals; simpl; now apply IH.
  - destruct i as [| i]; simpl; [reflexivity | now apply IH].
Qed.

Lemma mask_select_put column msk vals :
  List.length column = List.length msk ->
  List.length vals = count_true msk ->
  mask_select (mask_put column msk vals) msk = vals.
Proof.
  revert msk vals. induction column as [| c column IH]; intros msk vals Hl Hv.
  - destruct msk; [| discriminate]. destruct vals; [reflexivity | discriminate].
  - destruct msk as [| [|] msk]; [discriminate | |]; simpl in *.
    + destruct vals as [| v vals]; [discriminate |]. simpl. f_equal.
      apply IH; [lia |]. unfold count_true in *. simpl in Hv. lia.
    + apply IH; [lia | exact Hv].
Qed.

Lemma has_shape_shape1 {A : Type} (r c : nat) (m : list (list A)) :
  has_shape r c m -> (0 < r)%nat -> shape1 m = c.
Proof.
  intros [Hr Hc] Hpos. destruct m as [| row m]; simpl in *; [lia |].
  now inversion Hc.
Qed.

Lemma undo_signal_back data mask j :
  has_col mask j = true ->
  undo_signal data mask j
  = back_interpolated (col 0 data j) (count_true (col false mask j)).
Proof.
  intros Hj. unfold undo_signal, back_interpolated.
  rewrite (get_col_has false mask j Hj). simpl rbind. now rewrite col_length.
Qed.

Lemma undo_signal_ok data mask j back :
  undo_signal data mask j = Ok back ->
  has_col mask j = true
  /\ back_interpolated (col 0 data j) (count_true (col false mask j))
     = Ok back.
Proof.
  intros H. destruct (has_col mask j) eqn:Hj.
  - split; [reflexivity |]. now rewrite <- undo_signal_back.
  - unfold undo_signal, get_col in H. rewrite Hj in H. discriminate.
Qed.

Lemma undo_batch_process_columns data mask r c out :
  has_shape r c mask -> (0 < r)%nat -> (shape1 data <= c)%nat ->
  undo_batch_process data mask = Ok out ->
  has_shape r c out
  /\ forall j, (j < shape1 data)%nat ->
       exists back,
         undo_signal data mask j = Ok back
         /\ List.length back = count_true (col false mask j)
         /\ col 0 out j = mask_put (repeat 0 r) (col false mask j) back.
Proof.
  intros Hm Hr Hc H. unfold undo_batch_process in H.
  assert (Hs1 : shape1 mask = c) by (eapply has_shape_shape1; eauto).
  assert (Hs0 : shape0 mask = r) by apply Hm.
  rewrite Hs1, Hs0 in H.
  rewrite (foldM_ext _
             (fun output j =>
                column <- (resampled <- undo_signal data mask j ;;
                           bool_assign (col 0 output j) (col false mask j)
                                       resampled) ;;
                Ok (set_col output j column))) in H
    by (intros; now rewrite rbind_assoc).
  apply (foldM_columns
           (fun old j => resampled <- undo_signal data mask j ;;
                         bool_assign old (col false mask j) resampled)
           r c) in H.
  - destruct H as (Hs & Hin & _). split; [assumption |].
    intros j Hj.
    assert (Hj' : In j (seq 0 (shape1 data))) by (apply in_seq; lia).
    specialize (Hin j Hj'). rewrite col_zeros in Hin.
    apply rbind_ok in Hin as (back & Hb & Ha).
    exists back. split; [assumption |]. unfold bool_assign in Ha.
    destruct (Nat.eqb (List.length (repeat 0 r))
                (List.length (col false mask j))
              && Nat.eqb (List.length back) (count_true (col false mask j)))
      eqn:E; [| discriminate].
    apply andb_true_iff in E as [_ E]. apply Nat.eqb_eq in E.
    inversion Ha. auto.
  - intros old j v Hold Hg. apply rbind_ok in Hg as (back & _ & Ha).
    unfold bool_assign in Ha.
    destruct (_ && _); inversion Ha. now rewrite mask_put_length.
  - apply zeros_shape.
  - apply seq_NoDup.
  - intros j Hj. apply in_seq in Hj. lia.
Qed.

(** Linear interpolation commutes with the rescaling [v * e / s] of the
    ordinates. *)

Lemma combine_scaled e s (x y : vector) :
  combine x (map (fun v => v * e / s) y) = map (scale_knot e s) (combine x y).
Proof.
  revert y. induction x as [| a x IH]; intros [| b y]; simpl; try reflexivity.
  now rewrite IH.
Qed.

Lemma insert_knot_scaled e s p l :
  insert_knot (scale_knot e s p) (map (scale_knot e s) l)
  = map (scale_knot e s) (insert_knot p l).
Proof.
  induction l as [| q l IH]; simpl; [reflexivity |].
  destruct (Qle_bool (fst p) (fst q)); simpl;
    [reflexivity | now rewrite IH].
Qed.

Lemma sort_knots_scaled e s l :
  sort_knots (map (scale_knot e s) l) = map (scale_knot e s) (sort_knots l).
Proof.
  induction l as [| p l IH]; simpl; [reflexivity |].
  rewrite IH. apply insert_knot_scaled.
Qed.

Lemma nth_scaled e s kn i :
  fst (nth i (map (scale_knot e s) kn) (0, 0)) = fst (nth i kn (0, 0))
  /\ snd (nth i (map (scale_knot e s) kn) (0, 0))
     == snd (nth i kn (0, 0)) * e / s.
Proof.
  revert i. induction kn as [| p kn IH]; intros [| i]; simpl;
    try (split; [reflexivity | unfold Qdiv; ring]).
  apply IH.
Qed.

Lemma hd_scaled e s kn :
  fst (hd (0, 0) (map (scale_knot e s) kn)) = fst (hd (0, 0) kn).
Proof. destruct kn; reflexivity. Qed.

Lemma last_scaled e s kn :
  fst (last (map (scale_knot e s) kn) (0, 0)) = fst (last kn (0, 0)).
Proof.
  induction kn as [| p kn IH]; [reflexivity |].
  destruct kn as [| q kn]; [reflexivity |]. exact IH.
Qed.

Lemma interp_value_scaled e s kn x :
  interp_value (map (scale_knot e s) kn) x == interp_value kn x * e / s.
Proof.
  unfold interp_value. rewrite map_map, length_map. simpl.
  set (hi := clip (searchsorted (map (fun p => fst p) kn) x) 1
               (List.length kn - 1)).
  destruct (nth_scaled e s kn (hi - 1)) as [Hx1 Hy1].
  destruct (nth_scaled e s kn hi) as [Hx2 Hy2].
  destruct (nth (hi - 1) (map (scale_knot e s) kn) (0, 0)) as [xl' yl'].
  destruct (nth hi (map (scale_knot e s) kn) (0, 0)) as [xh' yh'].
  destruct (nth (hi - 1) kn (0, 0)) as [xl yl].
  destruct (nth hi kn (0, 0)) as [xh yh]. simpl in *. subst xl' xh'.
  rewrite Hy1, Hy2. unfold Qdiv. ring.
Qed.

Lemma np_interp_scaled e s kn x :
  np_interp (map (scale_knot e s) kn) x == np_interp kn x * e / s.
Proof.
  destruct kn as [| [a b] [| q kn]].
  - apply (interp_value_scaled e s []).
  - reflexivity.
  - apply (interp_value_scaled e s ((a, b) :: q :: kn)).
Qed.

Lemma back_interpolated_scaled e s resampled n_pts back' :
  back_interpolated (map (fun v => v * e / s) resampled) n_pts = Ok back' ->
  exists back,
    back_interpolated resampled n_pts = Ok back
    /\ Forall2 Qeq back' (map (fun v => v * e / s) back).
Proof.
  unfold back_interpolated, interp1d. rewrite length_map, linspace_length.
  rewrite Nat.eqb_refl. simpl negb. cbv iota.
  destruct (Nat.ltb (List.length resampled) 1); simpl rbind; [discriminate |].
  rewrite combine_scaled, sort_knots_scaled.
  set (kn := sort_knots _). unfold call.
  generalize (linspace 0 1 n_pts) as pts. intros pts. revert back'.
  induction pts as [| x pts IH]; cbn [mapM]; intros back' H.
  - inversion H. exists []. split; [reflexivity | constructor].
  - apply rbind_ok in H as (b & Hb & H).
    apply rbind_ok in H as (bs & Hbs & H). inversion H; subst; clear H.
    destruct (IH bs Hbs) as (back & Hback & Hall).
    unfold call1 in *. cbn [knots] in *.
    unfold out_of_bounds in *. rewrite hd_scaled, last_scaled in Hb.
    destruct (_ || _); [discriminate |].
    inversion Hb; subst. rewrite Hback. simpl rbind.
    eexists. split; [reflexivity |]. cbn [map].
    constructor; [| exact Hall].
    apply np_interp_scaled.
Qed.

(** Whether the back-interpolation succeeds depends on the number of
    ordinates only. *)
Lemma insert_knot_fst p p' l l' :
  fst p = fst p' -> map fst l = map fst l' ->
  map fst (insert_knot p l) = map fst (insert_knot p' l').
Proof.
  intros Hp. revert l'. induction l as [| q l IH]; intros [| q' l'] Hl;
    simpl in *; try discriminate; [congruence |].
  inversion Hl as [[Hq Hl1]]. rewrite Hp, Hq.
  destruct (Qle_bool (fst p') (fst q')); simpl;
    [congruence | f_equal; [assumption | now apply IH]].
Qed.

Lemma sort_knots_fst (x y y' : vector) :
  List.length y = List.length y' ->
  map fst (sort_knots (combine x y)) = map fst (sort_knots (combine x y')).
Proof.
  revert y y'. induction x as [| a x IH]; intros [| b y] [| b' y'] Hl;
    simpl in *; try discriminate; try reflexivity.
  apply insert_knot_fst; [reflexivity | apply IH; lia].
Qed.

Lemma call_ok_fst kn kn' pts out' :
  map fst kn = map fst kn' ->
  call {| knots := kn'; extrapolate := false |} pts = Ok out' ->
  exists out, call {| knots := kn; extrapolate := false |} pts = Ok out.
Proof.
  intros Hk. unfold call. revert out'.
  induction pts as [| x pts IH]; cbn [mapM]; intros out' H.
  - eexists; reflexivity.
  - apply rbind_ok in H as (b & Hb & H).
    apply rbind_ok in H as (bs & Hbs & _).
    destruct (IH bs Hbs) as (out & ->).
    unfold call1 in *. cbn [knots] in *. unfold out_of_bounds in *.
    assert (Hhd : fst (hd (0, 0) kn) = fst (hd (0, 0) kn')).
    { destruct kn, kn'; simpl in *; try discriminate; congruence. }
    assert (Hla : fst (last kn (0, 0)) = fst (last kn' (0, 0))).
    { rewrite !fst_last. now rewrite Hk. }
    rewrite Hhd, Hla. destruct (_ || _); [discriminate |].
    simpl rbind. eexists; reflexivity.
Qed.

Lemma back_interpolated_ok_indep (y y' : vector) n_pts back' :
  List.length y' = List.length y ->
  back_interpolated y' n_pts = Ok back' ->
  exists back, back_interpolated y n_pts = Ok back.
Proof.
  intros Hl. unfold back_interpolated, interp1d.
  rewrite !linspace_length, Hl, !Nat.eqb_refl. simpl negb. cbv iota.
  destruct (Nat.ltb (List.length y) 1); simpl rbind; [discriminate |].
  apply call_ok_fst. apply sort_knots_fst. now symmetry.
Qed.

Lemma back_interpolated_total (resampled : vector) n_pts :
  (2 <= List.length resampled)%nat ->
  exists back, back_interpolated resampled n_pts = Ok back.
Proof.
  intros H. unfold back_interpolated.
  destruct (interp_linspace_total (List.length resampled) n_pts resampled H
              eq_refl) as (f & out & -> & Hout).
  simpl. eauto.
Qed.

(** [undo_batch_process] returns on every resampled surface of two rows or
    more and a mask that has its columns. *)
Lemma undo_batch_process_total data mask r c :
  has_shape r c mask -> (0 < r)%nat -> (shape1 data <= c)%nat ->
  (2 <= shape0 data)%nat ->
  exists out, undo_batch_process data mask = Ok out.
Proof.
  intros Hm Hr Hc Hd. unfold undo_batch_process.
  destruct (foldM_total (has_shape (shape0 mask) (shape1 mask))
              (fun output col_ix =>
                 resampled <- undo_signal data mask col_ix ;;
                 column <- bool_assign (col 0 output col_ix)
                             (col false mask col_ix) resampled ;;
                 Ok (set_col output col_ix column))
              (seq 0 (shape1 data)))
    with (b := zeros (shape0 mask) (shape1 mask))
    as (out & Hout & _); [| apply zeros_shape | eauto].
  intros b j Hj Hb. apply in_seq in Hj.
  rewrite undo_signal_back
    by (rewrite (has_col_shape r c mask j Hm Hr); apply Nat.ltb_lt; lia).
  destruct (back_interpolated_total (col 0 data j)
              (count_true (col false mask j))) as (back & Hback);
    [now rewrite col_length |].
  rewrite Hback. simpl. unfold bool_assign.
  rewrite !col_length.
  replace (List.length b) with (List.length mask) by (symmetry; apply Hb).
  rewrite Nat.eqb_refl. simpl.
  assert (Hl : List.length back = count_true (col false mask j)).
  { unfold back_interpolated in Hback.
    apply rbind_ok in Hback as (f & _ & Hcall).
    apply call_length in Hcall. now rewrite linspace_length in Hcall. }
  rewrite Hl, Nat.eqb_refl. simpl. eexists. split; [reflexivity |].
  now apply set_col_shape.
Qed.

(** What the inverse returns on the output of [batch_process]. *)
Lemma undo_batch_process_round_trip X mask power B out r c :
  has_shape r c X -> has_shape r c mask -> (0 < r)%nat ->
  batch_process X mask power = Ok B ->
  undo_batch_process B mask = Ok out ->
  has_shape r c out
  /\ (forall i j, (j < c)%nat ->
        nth i (col false mask j) false = false -> nth i (col 0 out j) 0 = 0)
  /\ (forall j, (j < c)%nat ->
        exists resampled back,
          resampled_signal X mask (2 ^ power) j = Ok resampled
          /\ back_interpolated resampled (count_true (col false mask j))
             = Ok back
          /\ (0 < sum resampled ->
              Forall2 Qeq
                (mask_select (col 0 out j) (col false mask j))
                (map (fun v => v * sum (col 0 X j) / sum resampled) back))).
Proof.
  intros HX Hm Hr Hb Hu.
  assert (HcX : shape1 X = c) by (eapply has_shape_shape1; eauto).
  apply batch_process_columns in Hb as [HsB HB]. rewrite HcX in *.
  assert (HcB : shape1 B = c).
  { eapply has_shape_shape1; [exact HsB |]. apply Nat.neq_0_lt_0.
    apply Nat.pow_nonzero. discriminate. }
  apply (undo_batch_process_columns B mask r c) in Hu as [Hs Hu];
    [| assumption | assumption | lia].
  rewrite HcB in Hu. split; [assumption |]. split.
  - intros i j Hj Hi. destruct (Hu j Hj) as (back & _ & _ & ->).
    rewrite mask_put_outside by assumption.
    destruct (Nat.lt_ge_cases i r) as [Hlt | Hge].
    + apply nth_repeat_lt. exact Hlt.
    + apply nth_overflow. now rewrite repeat_length.
  - intros j Hj. destruct (Hu j Hj) as (back' & Hback' & Hlen & Hcol).
    specialize (HB j Hj). unfold batch_column in HB.
    apply rbind_ok in HB as (resampled & Hres & HB).
    rewrite undo_signal_back in Hback'
      by (rewrite (has_col_shape r c mask j Hm Hr); now apply Nat.ltb_lt).
    destruct (Qltb 0 (sum resampled)) eqn:E; inversion HB as [HBj]; clear HB.
    + rewrite <- HBj in Hback'.
      apply back_interpolated_scaled in Hback' as (back & Hback & Hall).
      exists resampled, back. repeat split; try assumption.
      intros _. rewrite Hcol, mask_select_put; [exact Hall | | exact Hlen].
      rewrite repeat_length, col_length. symmetry. apply Hm.
    + apply Qltb_false in E. rewrite <- HBj in Hback'.
      assert (Hex : exists back,
                 back_interpolated resampled
                   (count_true (col false mask j)) = Ok back).
      { eapply back_interpolated_ok_indep; [| exact Hback'].
        rewrite repeat_length. now apply resampled_signal_length in Hres. }
      destruct Hex as (back & Hback). exists resampled, back.
      repeat split; try assumption. intros Hpos. contradiction.
Qed.

(** C7, as the code has it.  With a resolution of two points or more
    ([power >= 1]) and two daytime samples in every day, both calls return.
    The output of the inverse is exactly zero outside the mask.  At the
    masked positions of a day whose resampled trace has a positive sum it
    holds that trace, interpolated back onto the day's sample count and
    multiplied by the renormalisation factor of [batch_process] (the sum of
    the whole column over the sum of the resampled trace): the day's values
    come back only up to that factor. *)
Theorem undo_batch_process_spec X mask power r c :
  has_shape r c X -> has_shape r c mask -> (0 < r)%nat ->
  (1 <= power)%nat ->
  (forall j, (j < c)%nat -> (2 <= count_true (col false mask j))%nat) ->
  exists B out,
    batch_process X mask power = Ok B
    /\ undo_batch_process B mask = Ok out
    /\ has_shape r c out
    /\ (forall i j, (j < c)%nat ->
          nth i (col false mask j) false = false -> nth i (col 0 out j) 0 = 0)
    /\ (forall j, (j < c)%nat ->
          exists resampled back,
            resampled_signal X mask (2 ^ power) j = Ok resampled
            /\ back_interpolated resampled (count_true (col false mask j))
               = Ok back
            /\ (0 < sum resampled ->
                Forall2 Qeq
                  (mask_select (col 0 out j) (col false mask j))
                  (map (fun v => v * sum (col 0 X j) / sum resampled) back))).
Proof.
  intros HX Hm Hr Hp Hc.
  assert (HcX : shape1 X = c) by (eapply has_shape_shape1; eauto).
  destruct (batch_process_total X mask power) as (B & HB).
  { unfold shape0. destruct HX as [-> _], Hm as [-> _]. reflexivity. }
  { rewrite HcX. exact Hc. }
  assert (HsB : has_shape (2 ^ power) c B).
  { pose proof HB as HB'. apply batch_process_columns in HB' as [HB0 _].
    now rewrite HcX in HB0. }
  assert (Hpow : (2 <= 2 ^ power)%nat).
  { pose proof (Nat.pow_le_mono_r 2 1 power ltac:(lia) Hp) as Hpow.
    simpl in Hpow. simpl. lia. }
  destruct (undo_batch_process_total B mask r c Hm Hr) as (out & Hout).
  { rewrite (has_shape_shape1 _ _ B HsB); lia. }
  { unfold shape0. destruct HsB as [-> _]. exact Hpow. }
  exists B, out. split; [exact HB |]. split; [exact Hout |].
  eapply undo_batch_process_round_trip; eauto.
Qed.

Lemma undo_batch_process_spec_witness :
  has_shape 4 1 day_4samples
  /\ has_shape 4 1 mask_4samples
  /\ (forall j, (j < 1)%nat ->
                (2 <= count_true (col false mask_4samples j))%nat)
  /\ exists B out,
       batch_process day_4samples mask_4samples 2 = Ok B
       /\ undo_batch_process B mask_4samples = Ok out
       /\ has_shape 4 1 out
       /\ (forall i j, (j < 1)%nat ->
             nth i (col false mask_4samples j) false = false ->
             nth i (col 0 out j) 0 = 0)
       /\ (forall j, (j < 1)%nat ->
             exists resampled back,
               resampled_signal day_4samples mask_4samples (2 ^ 2) j
               = Ok resampled
               /\ back_interpolated resampled
                    (count_true (col false mask_4samples j)) = Ok back
               /\ (0 < sum resampled ->
                   Forall2 Qeq
                     (mask_select (col 0 out j) (col false mask_4samples j))
                     (map (fun v => v * sum (col 0 day_4samples j)
                                    / sum resampled) back))).
Proof.
  assert (HX : has_shape 4 1 day_4samples)
    by (split; [reflexivity | repeat constructor]).
  assert (Hm : has_shape 4 1 mask_4samples)
    by (split; [reflexivity | repeat constructor]).
  assert (Hc : forall j, (j < 1)%nat ->
                         (2 <= count_true (col false mask_4samples j))%nat).
  { intros j Hj. assert (j = 0%nat) by lia. subst j. vm_compute. lia. }
  split; [exact HX |]. split; [exact Hm |]. split; [exact Hc |].
  apply (undo_batch_process_spec day_4samples mask_4samples 2 4 1 HX Hm);
    [lia | lia | exact Hc].
Defined.

Lemma Forall2_Qeq_trans (l1 l2 l3 : vector) :
  Forall2 Qeq l1 l2 -> Forall2 Qeq l2 l3 -> Forall2 Qeq l1 l3.
Proof.
  intros H. revert l3. induction H as [| a b l1 l2 Hab _ IH]; intros l3 H3;
    inversion H3; subst; constructor; [| now apply IH].
  now rewrite Hab.
Qed.

(** C7 as stated fails on the smoothest trace there is.  A day with three
    daytime samples, all equal to 1, at the default resolution
    [power = 8]: interpolating the trace onto the 256-point grid and back
    returns 1, 1, 1 exactly, so there is no interpolation error; yet the
    round trip through [batch_process] and [undo_batch_process] returns
    3/256 at every masked position. *)
Lemma undo_batch_process_counterexample :
  (2 <= count_true (col false flat_mask 0))%nat
  /\ exists B out resampled back,
       batch_process flat_day flat_mask 8 = Ok B
       /\ undo_batch_process B flat_mask = Ok out
       /\ resampled_signal flat_day flat_mask (2 ^ 8) 0 = Ok resampled
       /\ back_interpolated resampled 3 = Ok back
       /\ Forall2 Qeq back [1; 1; 1]
       /\ Forall2 Qeq (mask_select (col 0 out 0) (col false flat_mask 0))
                      [3 # 256; 3 # 256; 3 # 256]
       /\ ~ Forall2 Qeq (mask_select (col 0 out 0) (col false flat_mask 0))
                        (mask_select (col 0 flat_day 0)
                                     (col false flat_mask 0)).
Proof.
  assert (HX : has_shape 3 1 flat_day)
    by (split; [reflexivity | repeat constructor]).
  assert (Hm : has_shape 3 1 flat_mask)
    by (split; [reflexivity | repeat constructor]).
  assert (Hc : forall j, (j < shape1 flat_day)%nat ->
                         (2 <= count_true (col false flat_mask j))%nat).
  { intros j Hj. simpl in Hj. assert (j = 0%nat) by lia. subst j.
    vm_compute. lia. }
  split; [vm_compute; lia |].
  destruct (batch_process_total flat_day flat_mask 8 eq_refl Hc) as (B & HB).
  assert (HsB : has_shape (2 ^ 8) 1 B).
  { pose proof HB as HB'. now apply batch_process_columns in HB' as [HB0 _]. }
  destruct (undo_batch_process_total B flat_mask 3 1 Hm ltac:(lia))
    as (out & Hout).
  { rewrite (has_shape_shape1 _ _ B HsB); [lia |].
    apply Nat.neq_0_lt_0, Nat.pow_nonzero. discriminate. }
  { unfold shape0. destruct HsB as [-> _]. simpl. lia. }
  destruct (undo_batch_process_round_trip flat_day flat_mask 8 B out 3 1
              HX Hm ltac:(lia) HB Hout) as (_ & _ & Hcol).
  destruct (Hcol 0%nat ltac:(lia)) as (resampled & back & Hres & Hback & Hmul).
  exists B, out, resampled, back.
  split; [exact HB |]. split; [exact Hout |]. split; [exact Hres |].
  split; [exact Hback |].
  let v := eval vm_compute in (resampled_signal flat_day flat_mask (2 ^ 8) 0)
  in match v with Ok ?r => pose (r0 := r) end.
  assert (Er0 : resampled_signal flat_day flat_mask (2 ^ 8) 0 = Ok r0)
    by (vm_compute; reflexivity).
  assert (Hsum : sum r0 == 256) by (vm_compute; reflexivity).
  rewrite Er0 in Hres. inversion Hres; subst resampled; clear Hres.
  assert (Hpos : 0 < sum r0) by (rewrite Hsum; reflexivity).
  specialize (Hmul Hpos).
  let v := eval vm_compute in (back_interpolated r0 3)
  in match v with Ok ?b => pose (b0 := b) end.
  assert (Eb0 : back_interpolated r0 3 = Ok b0) by (vm_compute; reflexivity).
  assert (Hb0 : Forall2 Qeq b0 [1; 1; 1]).
  { apply Forall2_cons; [vm_compute; reflexivity |].
    apply Forall2_cons; [vm_compute; reflexivity |].
    apply Forall2_cons; [vm_compute; reflexivity | constructor]. }
  assert (Hexp : Forall2 Qeq
                   (map (fun v => v * sum (col 0 flat_day 0) / sum r0) b0)
                   [3 # 256; 3 # 256; 3 # 256]).
  { apply Forall2_cons; [vm_compute; reflexivity |].
    apply Forall2_cons; [vm_compute; reflexivity |].
    apply Forall2_cons; [vm_compute; reflexivity | constructor]. }
  clearbody r0 b0.
  change (count_true (col false flat_mask 0)) with 3%nat in Hback.
  rewrite Eb0 in Hback. inversion Hback; subst back; clear Hback.
  split; [exact Hb0 |].
  remember (mask_select (col 0 out 0) (col false flat_mask 0)) as sel.
  assert (Hout3 : Forall2 Qeq sel [3 # 256; 3 # 256; 3 # 256])
    by (eapply Forall2_Qeq_trans; eauto).
  split; [exact Hout3 |].
  change (mask_select (col 0 flat_day 0) (col false flat_mask 0))
    with [1; 1; 1].
  intros Hbad. destruct sel as [| o1 rest]; [inversion Hout3 |].
  apply Forall2_cons_iff in Hout3 as [F1 _].
  apply Forall2_cons_iff in Hbad as [G1 _].
  rewrite F1 in G1. discriminate G1.
Qed.

End ResamplingProofs.

(** ** The life cycle of a [ShadeAnalysis] *)

Section ShadeRun.

Import Np Pd Cvx Shade Examples.

Variable np_sin : Q -> Q.
Variable np_deg2rad : Q -> Q.

Lemma has_run_true self :
  has_run self = true <->
  exists dn dt p,
    data_normalized self = Some dn /\ data_transformed self = Some dt
    /\ osd_problem self = Some p.
Proof.
  unfold has_run. simpl. split.
  - destruct (data_normalized self), (data_transformed self),
      (osd_problem self); simpl; try discriminate. eauto 7.
  - intros (dn & dt & p & -> & -> & ->). reflexivity.
Qed.

(** The variables of a problem built by [make_osd_problem]. *)
Lemma make_osd_problem_variables self p :
  make_osd_problem self = Ok p ->
  variables p
  = ["residual"; "residual"; "clear-sky"; "clear-sky"; "shade"; "shade";
     "shade"; "residual"; "clear-sky"; "shade"; "clear-sky"; "clear-sky";
     "clear-sky"; "clear-sky"; "clear-sky"; "shade"]%string
  /\ solution p = [] /\ status p = None.
Proof.
  unfold make_osd_problem. destruct (data_transformed self) as [dt |];
    [| discriminate].
  unfold diff, index_col. simpl.
  repeat match goal with
         | |- context [if ?b then _ else _] => destruct b; simpl
         end; try discriminate; intros H; inversion H; subst; auto.
Qed.

Lemma run_cached (solve : Problem -> solver_outcome) power self p cs sh :
  has_run self = true ->
  osd_problem self = Some p ->
  variable_value p "clear-sky" = Ok cs ->
  variable_value p "shade" = Ok sh ->
  run np_sin np_deg2rad solve power self
  = (Ok tt, set_shade_component (Some sh)
              (set_clear_sky_component (Some cs) self), []).
Proof.
  intros Hr Hp Hcs Hsh.
  unfold run, bind, gets, ret, assign, get_variable. rewrite Hr. simpl.
  rewrite Hp, Hcs. simpl. rewrite Hp, Hsh. reflexivity.
Qed.

Lemma run_cached_inv (solve : Problem -> solver_outcome) power self r self' ev :
  has_run self = true ->
  run np_sin np_deg2rad solve power self = (r, self', ev) ->
  ev = []
  /\ data_normalized self' = data_normalized self
  /\ data_transformed self' = data_transformed self
  /\ osd_problem self' = osd_problem self
  /\ (r = Ok tt ->
      exists p cs sh,
        osd_problem self = Some p
        /\ variable_value p "clear-sky" = Ok cs
        /\ variable_value p "shade" = Ok sh
        /\ self' = set_shade_component (Some sh)
                     (set_clear_sky_component (Some cs) self)).
Proof.
  intros Hr. unfold run, bind, gets, ret, assign, get_variable.
  rewrite Hr. simpl.
  destruct (osd_problem self) as [p |] eqn:Hp; simpl.
  - destruct (variable_value p "clear-sky") as [cs | e] eqn:Hcs; simpl.
    + rewrite Hp. destruct (variable_value p "shade") as [sh | e] eqn:Hsh;
        simpl; intros H; inversion H; subst; simpl;
        repeat split; auto; try discriminate.
      intros _. exists p, cs, sh. auto.
    + intros H; inversion H; subst. repeat split; auto; discriminate.
  - intros H; inversion H; subst. repeat split; auto; discriminate.
Qed.

Variable solve : Problem -> solver_outcome.

(** What a first call does, step by step. *)
Lemma run_fresh power self :
  has_run self = false ->
  run np_sin np_deg2rad solve power self
  = match transform_data np_sin np_deg2rad self power with
    | Raise e => (Raise e, self, [TransformCall])
    | Ok (dn, dt) =>
        let self1 :=
          set_data_transformed (Some dt) (set_data_normalized (Some dn) self)
        in
        match make_osd_problem self1 with
        | Raise e => (Raise e, self1, [TransformCall])
        | Ok problem =>
            let self2 := set_osd_problem (Some problem) self1 in
            match solve problem with
            | Raises e => (Raise e, self2, [TransformCall; SolveCall])
            | Returns st vals =>
                let solved :=
                  {| sense := sense problem; objective := objective problem;
                     constraints := constraints problem;
                     status := Some st; solution := vals |} in
                let self3 := set_osd_problem (Some solved) self2 in
                match variable_value solved "clear-sky" with
                | Raise e => (Raise e, self3, [TransformCall; SolveCall])
                | Ok cs =>
                    match variable_value solved "shade" with
                    | Raise e =>
                        (Raise e, set_clear_sky_component (Some cs) self3,
                         [TransformCall; SolveCall])
                    | Ok sh =>
                        (Ok tt,
                         set_shade_component (Some sh)
                           (set_clear_sky_component (Some cs) self3),
                         [TransformCall; SolveCall])
                    end
                end
            end
        end
    end.
Proof.
  intros Hr. unfold run, bind, gets, ret, assign, emit, lift, get_variable,
    solve_problem. rewrite Hr. simpl.
  destruct (transform_data np_sin np_deg2rad self power) as [[dn dt] | e];
    simpl; [| reflexivity].
  destruct (make_osd_problem _) as [problem | e]; simpl; [| reflexivity].
  destruct (solve problem) as [st vals | e]; simpl; [| reflexivity].
  destruct (variable_value _ "clear-sky") as [cs | e]; simpl; [| reflexivity].
  destruct (variable_value _ "shade") as [sh | e]; reflexivity.
Qed.

(** C4, as the code has it.  On a first call the three cached fields are
    assigned before the solve.  When the solver raises, its exception
    leaves [run] as it is and no component is assigned, but [has_run] is
    true afterwards; when the solver returns without values (a status that
    is not optimal), [run] raises nothing and publishes [None] for both
    components. *)
Theorem run_solver_failure power self dn dt problem :
  has_run self = false ->
  transform_data np_sin np_deg2rad self power = Ok (dn, dt) ->
  make_osd_problem
    (set_data_transformed (Some dt) (set_data_normalized (Some dn) self))
  = Ok problem ->
  let cached :=
    set_osd_problem (Some problem)
      (set_data_transformed (Some dt) (set_data_normalized (Some dn) self)) in
  (forall e,
      solve problem = Raises e ->
      run np_sin np_deg2rad solve power self
      = (Raise e, cached, [TransformCall; SolveCall])
      /\ has_run cached = true
      /\ clear_sky_component cached = clear_sky_component self
      /\ shade_component cached = shade_component self)
  /\ (forall st,
        solve problem = Returns st [] ->
        exists self',
          run np_sin np_deg2rad solve power self
          = (Ok tt, self', [TransformCall; SolveCall])
          /\ has_run self' = true
          /\ clear_sky_component self' = Some None
          /\ shade_component self' = Some None).
Proof.
  intros Hr Ht Hm cached. split.
  - intros e Hs. rewrite run_fresh by assumption. rewrite Ht. simpl.
    rewrite Hm, Hs. repeat split; reflexivity.
  - intros st Hs. rewrite run_fresh by assumption. rewrite Ht. simpl.
    rewrite Hm, Hs. apply make_osd_problem_variables in Hm as (Hv & _).
    unfold variable_value, variables in *. simpl. rewrite Hv. simpl.
    eexists. repeat split; reflexivity.
Qed.


Lemma set_components_again cs sh self :
  set_shade_component (Some sh)
    (set_clear_sky_component (Some cs)
       (set_shade_component (Some sh) (set_clear_sky_component (Some cs) self)))
  = set_shade_component (Some sh) (set_clear_sky_component (Some cs) self).
Proof. reflexivity. Qed.

(** C8: once a call of [run] has completed, a further call (whatever its
    arguments and solver) calls neither the transform nor the solver and
    leaves the object, published components included, as it is. *)
Theorem run_again_is_noop power power' solve' self self1 ev :
  run np_sin np_deg2rad solve power self = (Ok tt, self1, ev) ->
  has_run self1 = true
  /\ run np_sin np_deg2rad solve' power' self1 = (Ok tt, self1, []).
Proof.
  intros H. destruct (has_run self) eqn:Hr.
  - apply run_cached_inv in H as (_ & _ & _ & _ & H); [| assumption].
    destruct (H eq_refl) as (p & cs & sh & Hp & Hcs & Hsh & ->).
    split; [exact Hr |].
    rewrite (run_cached solve' power' _ p cs sh); auto.
  - rewrite run_fresh in H by assumption.
    destruct (transform_data np_sin np_deg2rad self power) as [[dn dt] | e];
      [| discriminate].
    simpl in H. destruct (make_osd_problem _) as [problem | e];
      [| discriminate].
    destruct (solve problem) as [st vals | e]; [| discriminate].
    destruct (variable_value _ "clear-sky") as [cs | e] eqn:Hcs;
      [| discriminate].
    destruct (variable_value _ "shade") as [sh | e] eqn:Hsh;
      [| discriminate].
    inversion H; subst; clear H. split; [reflexivity |].
    erewrite run_cached; [| reflexivity | reflexivity | exact Hcs | exact Hsh].
    reflexivity.
Qed.

End ShadeRun.

Section ShadeRunExamples.

Import Np Pd Cvx Shade Examples.

Lemma run_solver_failure_witness :
  exists dn dt problem,
    transform_data sin_approx deg2rad_approx (init three_days) 3 = Ok (dn, dt)
    /\ make_osd_problem
         (set_data_transformed (Some dt)
            (set_data_normalized (Some dn) (init three_days)))
       = Ok problem
    /\ let cached :=
         set_osd_problem (Some problem)
           (set_data_transformed (Some dt)
              (set_data_normalized (Some dn) (init three_days))) in
       (forall e,
           solver_raising problem = Raises e ->
           run sin_approx deg2rad_approx solver_raising 3 (init three_days)
           = (Raise e, cached, [TransformCall; SolveCall])
           /\ has_run cached = true
           /\ clear_sky_component cached
              = clear_sky_component (init three_days)
           /\ shade_component cached = shade_component (init three_days))
       /\ (forall st,
             solver_raising problem = Returns st [] ->
             exists self',
               run sin_approx deg2rad_approx solver_raising 3
                 (init three_days)
               = (Ok tt, self', [TransformCall; SolveCall])
               /\ has_run self' = true
               /\ clear_sky_component self' = Some None
               /\ shade_component self' = Some None).
Proof.
  eexists. eexists. eexists.
  split; [vm_compute; reflexivity |]. split; [vm_compute; reflexivity |].
  match goal with
  | |- let cached := set_osd_problem (Some ?p)
                       (set_data_transformed (Some ?dt)
                          (set_data_normalized (Some ?dn) _)) in _ =>
      refine (run_solver_failure sin_approx deg2rad_approx solver_raising 3
                (init three_days) dn dt p _ _ _)
  end; vm_compute; reflexivity.
Defined.

(** C4 as stated fails both ways.  A fresh object whose solver raises:
    the call fails and [has_run] is true afterwards.  A fresh object whose
    solver reports infeasibility: the call ends normally, no error
    surfaces, and [None] is published for the components. *)
Lemma run_solver_failure_counterexample :
  (exists self',
      has_run (init three_days) = false
      /\ run sin_approx deg2rad_approx solver_raising 3 (init three_days)
         = (Raise (SolverError "Solver 'MOSEK' failed."), self',
            [TransformCall; SolveCall])
      /\ has_run self' = true)
  /\ (exists self',
        run sin_approx deg2rad_approx solver_infeasible 3 (init three_days)
        = (Ok tt, self', [TransformCall; SolveCall])
        /\ has_run self' = true
        /\ clear_sky_component self' = Some None
        /\ shade_component self' = Some None).
Proof.
  split.
  - eexists. split; [reflexivity |]. split; vm_compute; reflexivity.
  - eexists. split; [vm_compute; reflexivity |].
    repeat split; vm_compute; reflexivity.
Qed.

Lemma run_again_is_noop_witness :
  exists self1,
    run sin_approx deg2rad_approx solver_returning 3 (init three_days)
    = (Ok tt, self1, [TransformCall; SolveCall])
    /\ has_run self1 = true
    /\ run sin_approx deg2rad_approx solver_raising 8 self1
       = (Ok tt, self1, []).
Proof.
  eexists. split; [vm_compute; reflexivity |].
  apply (run_again_is_noop sin_approx deg2rad_approx solver_returning 3 8
           solver_raising (init three_days) _ [TransformCall; SolveCall]).
  vm_compute; reflexivity.
Defined.

End ShadeRunExamples.
(** ** The convex program of [make_osd_problem] *)

Section OsdEntries.

Import Np Pd Cvx Shade OsdSpec OsdProblem.

Lemma has_shape_nth {A : Type} (r c : nat) (M : list (list A)) :
  has_shape r c M <->
  List.length M = r
  /\ forall i, (i < r)%nat -> List.length (nth i M []) = c.
Proof.
  unfold has_shape. split; intros [Hr Hc]; split; try assumption.
  - intros i Hi. rewrite Forall_forall in Hc. apply Hc. apply nth_In. lia.
  - apply Forall_forall. intros row Hin.
    destruct (In_nth _ _ [] Hin) as (i & Hi & <-). apply Hc. lia.
Qed.

Lemma entries_self r c M : has_shape r c M -> entries r c (entry M) M.
Proof. intros H. split; [assumption | reflexivity]. Qed.

Lemma entries_ext r c f g M :
  entries r c f M ->
  (forall i j, (i < r)%nat -> (j < c)%nat -> f i j == g i j) ->
  entries r c g M.
Proof.
  intros [Hs Hf] Hfg. split; [assumption |].
  intros i j Hi Hj. rewrite Hf by assumption. now apply Hfg.
Qed.

Lemma zip_with_length {A B C : Type} (f : A -> B -> C) a b :
  List.length (zip_with f a b) = Nat.min (List.length a) (List.length b).
Proof.
  revert b. induction a as [| x a IH]; intros [| y b]; simpl; auto.
Qed.

Lemma nth_zip_with {A B C : Type} (f : A -> B -> C) a b i da db dc :
  (i < List.length a)%nat -> (i < List.length b)%nat ->
  nth i (zip_with f a b) dc = f (nth i a da) (nth i b db).
Proof.
  revert b i. induction a as [| x a IH]; intros [| y b] [| i]; simpl;
    intros Ha Hb; try lia; [reflexivity |]. apply IH; lia.
Qed.

Lemma entries_zip (op : Q -> Q -> Q) r c f g A B :
  entries r c f A -> entries r c g B ->
  (forall a a' b b', a == a' -> b == b' -> op a b == op a' b') ->
  entries r c (fun i j => op (f i j) (g i j)) (zip_with (zip_with op) A B).
Proof.
  intros [HsA Hf] [HsB Hg] Hop.
  apply has_shape_nth in HsA as [HrA HcA].
  apply has_shape_nth in HsB as [HrB HcB].
  assert (Hrow : forall i, (i < r)%nat ->
            nth i (zip_with (zip_with op) A B) []
            = zip_with op (nth i A []) (nth i B [])).
  { intros i Hi. apply nth_zip_with; lia. }
  split.
  - apply has_shape_nth. split.
    + rewrite zip_with_length. lia.
    + intros i Hi. rewrite Hrow by assumption.
      rewrite zip_with_length, HcA, HcB by assumption. lia.
  - intros i j Hi Hj. unfold entry. rewrite Hrow by assumption.
    rewrite (nth_zip_with op _ _ j 0 0 0)
      by (rewrite ?HcA, ?HcB by assumption; assumption).
    apply Hop; [apply Hf | apply Hg]; assumption.
Qed.

Lemma entries_map (h : Q -> Q) r c f A :
  entries r c f A ->
  (forall a a', a == a' -> h a == h a') ->
  entries r c (fun i j => h (f i j)) (map (map h) A).
Proof.
  intros [HsA Hf] Hh. apply has_shape_nth in HsA as [HrA HcA].
  assert (Hrow : forall i, nth i (map (map h) A) [] = map h (nth i A [])).
  { intros i. apply (map_nth (map h) A []). }
  split.
  - apply has_shape_nth. split; [now rewrite length_map |].
    intros i Hi. rewrite Hrow, length_map. now apply HcA.
  - intros i j Hi Hj. unfold entry. rewrite Hrow.
    rewrite (nth_indep _ 0 (h 0)) by (rewrite length_map, HcA; assumption).
    rewrite map_nth. apply Hh. now apply Hf.
Qed.

Lemma nth_tl {A : Type} (l : list A) i d : nth i (tl l) d = nth (S i) l d.
Proof. destruct l; [destruct i |]; reflexivity. Qed.

Lemma length_tl {A : Type} (l : list A) :
  List.length (tl l) = (List.length l - 1)%nat.
Proof. destruct l; simpl; lia. Qed.

Lemma entries_diff1_rows r c f A :
  entries r c f A -> entries (r - 1) c (delta_rows f) (diff1_rows A).
Proof.
  intros [HsA Hf]. apply has_shape_nth in HsA as [HrA HcA].
  unfold diff1_rows.
  assert (Hrow : forall i, (i < r - 1)%nat ->
            nth i (zip_with (zip_with Qminus) (tl A) A) []
            = zip_with Qminus (nth (S i) A []) (nth i A [])).
  { intros i Hi. rewrite (nth_zip_with _ _ _ i [] [] [])
      by (rewrite ?length_tl; lia). now rewrite nth_tl. }
  split.
  - apply has_shape_nth. split.
    + rewrite zip_with_length, length_tl. lia.
    + intros i Hi. rewrite Hrow by assumption.
      rewrite zip_with_length, !HcA by lia. lia.
  - intros i j Hi Hj. unfold entry, delta_rows. rewrite Hrow by assumption.
    rewrite (nth_zip_with Qminus _ _ j 0 0 0) by (rewrite HcA; lia).
    rewrite <- !Hf by lia. reflexivity.
Qed.

Lemma entries_diff1_cols r c f A :
  entries r c f A -> entries r (c - 1) (delta_cols f) (map diff1 A).
Proof.
  intros [HsA Hf]. apply has_shape_nth in HsA as [HrA HcA].
  assert (Hrow : forall i, nth i (map diff1 A) [] = diff1 (nth i A [])).
  { intros i. apply (map_nth diff1 A []). }
  split.
  - apply has_shape_nth. split; [now rewrite length_map |].
    intros i Hi. rewrite Hrow. unfold diff1.
    rewrite zip_with_length, length_tl, HcA by assumption. lia.
  - intros i j Hi Hj. unfold entry, delta_cols. rewrite Hrow. unfold diff1.
    rewrite (nth_zip_with Qminus _ _ j 0 0 0)
      by (rewrite ?length_tl, HcA by assumption; lia).
    rewrite nth_tl. rewrite <- !Hf by lia. reflexivity.
Qed.

Lemma entries_diff_value k axis r c f A :
  entries r c f A ->
  entries (if Nat.eqb axis 0 then r - k else r)%nat
          (if Nat.eqb axis 0 then c else c - k)%nat
          (if Nat.eqb axis 0 then Nat.iter k delta_rows f
           else Nat.iter k delta_cols f)
          (diff_value k axis A).
Proof.
  intros H. unfold diff_value. destruct (Nat.eqb axis 0).
  - induction k as [| k IH]; simpl.
    + now rewrite Nat.sub_0_r.
    + replace (r - S k)%nat with (r - k - 1)%nat by lia.
      now apply entries_diff1_rows.
  - induction k as [| k IH]; simpl.
    + rewrite Nat.sub_0_r, map_id. exact H.
    + replace (c - S k)%nat with (c - k - 1)%nat by lia.
      rewrite <- (map_map (Nat.iter k diff1) diff1).
      now apply entries_diff1_cols.
Qed.

Lemma entries_col j r c f A :
  entries r c f A -> (j < c)%nat ->
  entries r 1 (fun i _ => f i j) (map (fun row => [nth j row 0]) A).
Proof.
  intros [HsA Hf] Hj. apply has_shape_nth in HsA as [HrA HcA].
  assert (Hrow : forall i, (i < r)%nat ->
            nth i (map (fun row => [nth j row 0]) A) []
            = [nth j (nth i A []) 0]).
  { intros i Hi.
    rewrite (nth_indep _ [] ((fun row => [nth j row 0]) []))
      by (rewrite length_map; lia).
    apply (map_nth (fun row => [nth j row 0]) A []). }
  split.
  - apply has_shape_nth. split; [now rewrite length_map |].
    intros i Hi. now rewrite Hrow.
  - intros i j' Hi Hj'. unfold entry. rewrite Hrow by assumption.
    destruct j' as [| j']; [| lia]. simpl. now apply Hf.
Qed.

(** Sums. *)
Lemma sum_over_ext n f g :
  (forall i, (i < n)%nat -> f i == g i) -> sum_over n f == sum_over n g.
Proof.
  unfold sum_over. intros H.
  assert (G : forall s, (forall i, In i s -> (i < n)%nat) ->
            sum (map f s) == sum (map g s)).
  { induction s as [| a s IH]; simpl; intros Hs; [reflexivity |].
    rewrite H, IH; [reflexivity | |]; auto. }
  apply G. intros i Hi. apply in_seq in Hi. lia.
Qed.

Lemma sum_nth (l : vector) :
  sum l == sum_over (List.length l) (fun i => nth i l 0).
Proof.
  unfold sum_over. induction l as [| a l IH]; simpl; [reflexivity |].
  rewrite <- seq_shift, map_map. rewrite IH. reflexivity.
Qed.

Lemma total_entries r c f M :
  entries r c f M ->
  total M == sum_over r (fun i => sum_over c (fun j => f i j)).
Proof.
  intros [Hs Hf]. apply has_shape_nth in Hs as [Hr Hc].
  unfold total. etransitivity; [apply sum_nth |].
  rewrite length_map. unfold vector. rewrite Hr.
  apply sum_over_ext. intros i Hi.
  change (nth i (map sum M) 0) with (nth i (map sum M) (sum [])).
  rewrite (map_nth sum M []).
  etransitivity; [apply sum_nth |]. rewrite Hc by assumption.
  apply sum_over_ext. intros j Hj. now apply Hf.
Qed.

(** Comparisons. *)
Lemma Forall_entries (P : Q -> Prop) r c f M :
  entries r c f M ->
  (forall a a', a == a' -> P a -> P a') ->
  (Forall (Forall P) M <->
   forall i j, (i < r)%nat -> (j < c)%nat -> P (f i j)).
Proof.
  intros [Hs Hf] HP. apply has_shape_nth in Hs as [Hr Hc]. split.
  - intros H i j Hi Hj. apply (HP (entry M i j)); [now apply Hf |].
    rewrite Forall_forall in H.
    assert (Hrow : Forall P (nth i M [])) by (apply H, nth_In; lia).
    rewrite Forall_forall in Hrow. apply Hrow, nth_In. rewrite Hc; lia.
  - intros H. apply Forall_forall. intros row Hin.
    destruct (In_nth _ _ [] Hin) as (i & Hi & <-).
    apply Forall_forall. intros x Hx.
    destruct (In_nth _ _ 0 Hx) as (j & Hj & <-).
    rewrite Hc in Hj by lia.
    apply (HP (f i j)); [symmetry; apply Hf; lia | apply H; lia].
Qed.

Lemma Forall2_nth_iff {A B : Type} (R : A -> B -> Prop) (l : list A)
      (l' : list B) da db :
  Forall2 R l l' <->
  List.length l = List.length l'
  /\ forall i, (i < List.length l)%nat -> R (nth i l da) (nth i l' db).
Proof.
  split.
  - induction 1 as [| x y l l' Hxy H IH]; simpl; [split; [auto | lia] |].
    destruct IH as [Hl Hn]. split; [lia |].
    intros [| i] Hi; [assumption | apply Hn; lia].
  - revert l'. induction l as [| x l IH]; intros [| y l'] [Hl Hn];
      simpl in *; try discriminate; constructor.
    + apply (Hn 0%nat). lia.
    + apply IH. split; [lia |]. intros i Hi. apply (Hn (S i)). lia.
Qed.

Lemma Forall2_entries r c f g A B :
  entries r c f A -> entries r c g B ->
  (Forall2 (Forall2 Qeq) A B <->
   forall i j, (i < r)%nat -> (j < c)%nat -> f i j == g i j).
Proof.
  intros [HsA Hf] [HsB Hg].
  apply has_shape_nth in HsA as [HrA HcA].
  apply has_shape_nth in HsB as [HrB HcB].
  rewrite (Forall2_nth_iff _ A B [] []). split.
  - intros [_ H] i j Hi Hj. rewrite <- Hf, <- Hg by assumption.
    specialize (H i). rewrite HrA in H. specialize (H Hi).
    apply (Forall2_nth_iff _ _ _ 0 0) in H as [_ H]. apply H.
    rewrite HcA; assumption.
  - intros H. split; [lia |]. intros i Hi. rewrite HrA in Hi.
    apply (Forall2_nth_iff _ _ _ 0 0). split; [rewrite HcA, HcB; auto |].
    intros j Hj. rewrite HcA in Hj by assumption.
    change (entry A i j == entry B i j).
    rewrite Hf, Hg by assumption. now apply H.
Qed.

End OsdEntries.

Section OsdConstruction.

Import Np Pd Cvx Shade OsdSpec OsdProblem.

Lemma pinball_abs (u : Q) :
  (5 # 10) * Qabs u + ((85 # 100) - (5 # 10)) * u == pinball (85 # 100) u.
Proof.
  unfold pinball. destruct (Qle_bool 0 u) eqn:E.
  - apply Qle_bool_iff in E. rewrite Qabs_pos by assumption. ring.
  - assert (H : u <= 0).
    { apply Qlt_le_weak. apply Qnot_le_lt. intros H.
      apply Qle_bool_iff in H. congruence. }
    rewrite Qabs_neg by assumption. ring.
Qed.

Lemma make_osd_problem_ok self dt m n :
  data_transformed self = Some dt ->
  has_shape m n (values dt) -> (3 <= m)%nat -> (5 <= n)%nat ->
  make_osd_problem self = Ok (osd_program m n (values dt)).
Proof.
  intros Hdt Hs Hm Hn. unfold make_osd_problem. rewrite Hdt.
  assert (H1 : shape1 (values dt) = n)
    by (eapply has_shape_shape1; [exact Hs | lia]).
  assert (H0 : shape0 (values dt) = m) by apply Hs.
  rewrite H0, H1. unfold diff, index_col. simpl.
  destruct (Nat.leb_spec m 2); [lia |].
  destruct (Nat.leb_spec n 2); [lia |].
  destruct (Nat.leb_spec n 4); [lia |]. simpl.
  destruct (Z.ltb_spec 0 (Z.of_nat n)); [| lia]. simpl.
  destruct (Z.leb_spec (- Z.of_nat n) (-1)); [| lia]. simpl.
  unfold osd_program. repeat f_equal. lia.
Qed.

End OsdConstruction.

Section OsdValues.

Import Np Pd Cvx Shade OsdSpec OsdProblem.

Lemma iter2_delta_rows f i j :
  Nat.iter 2 delta_rows f i j == f (i + 2)%nat j - 2 * f (i + 1)%nat j + f i j.
Proof.
  simpl. unfold delta_rows.
  replace (i + 2)%nat with (S (S i)) by lia.
  replace (i + 1)%nat with (S i) by lia. ring.
Qed.

Lemma iter2_delta_cols f i j :
  Nat.iter 2 delta_cols f i j == f i (j + 2)%nat - 2 * f i (j + 1)%nat + f i j.
Proof.
  simpl. unfold delta_cols.
  replace (j + 2)%nat with (S (S j)) by lia.
  replace (j + 1)%nat with (S j) by lia. ring.
Qed.

Lemma iter4_delta_cols f i j :
  Nat.iter 4 delta_cols f i j
  == f i (j + 4)%nat - 4 * f i (j + 3)%nat + 6 * f i (j + 2)%nat
     - 4 * f i (j + 1)%nat + f i j.
Proof.
  simpl. unfold delta_cols.
  replace (j + 4)%nat with (S (S (S (S j)))) by lia.
  replace (j + 3)%nat with (S (S (S j))) by lia.
  replace (j + 2)%nat with (S (S j)) by lia.
  replace (j + 1)%nat with (S j) by lia. ring.
Qed.

Lemma roughness_eval m n x rho name :
  has_shape m n x -> rho name = x ->
  seval rho (SAdd (SumSquares (Diff 2 0 (Var (m, n) name)))
                  (SumSquares (Diff 2 1 (Var (m, n) name))))
  == roughness m n x.
Proof.
  intros Hx Hrho. simpl. rewrite Hrho. unfold roughness.
  pose proof (entries_self _ _ _ Hx) as E.
  pose proof (entries_diff_value 2 0 _ _ _ _ E) as E0.
  pose proof (entries_diff_value 2 1 _ _ _ _ E) as E1. simpl in E0, E1.
  apply (entries_map (fun v => v * v)) in E0;
    [| intros a a' Ha; now rewrite Ha].
  apply (entries_map (fun v => v * v)) in E1;
    [| intros a a' Ha; now rewrite Ha].
  apply Qplus_comp;
    (etransitivity; [apply (total_entries _ _ _ _ E0)
                     || apply (total_entries _ _ _ _ E1) |]);
    apply sum_over_ext; intros i Hi;
    apply sum_over_ext; intros j Hj; unfold square.
  - unfold second_diff_axis0.
    rewrite <- (iter2_delta_rows (entry x) i j). reflexivity.
  - unfold second_diff_axis1.
    rewrite <- (iter2_delta_cols (entry x) i j). reflexivity.
Qed.

Lemma osd_program_objective m n y x1 x2 x3 :
  has_shape m n x1 -> has_shape m n x2 -> has_shape m n x3 ->
  seval (assignment x1 x2 x3) (Cvx.objective (osd_program m n y))
  == spec_objective m n x1 x2 x3.
Proof.
  intros H1 H2 H3. unfold osd_program, spec_objective.
  cbn [Cvx.objective].
  set (rho := assignment x1 x2 x3).
  set (P1 := Sum _). set (R2 := SAdd (SumSquares (Diff 2 0 (Var _ "clear-sky"))) _).
  set (R3 := SAdd (SumSquares (Diff 2 0 (Var _ "shade"))) _).
  set (P4 := Sum (Var _ "shade")).
  change (20 * seval rho P1 + 10 * seval rho R2 + 100 * seval rho R3
          + (8 # 10) * seval rho P4
          == 20 * phi1 m n x1 + 10 * roughness m n x2
             + 100 * roughness m n x3 + (8 # 10) * phi4 m n x3).
  assert (HR2 : seval rho R2 == roughness m n x2)
    by (apply roughness_eval; [assumption | reflexivity]).
  assert (HR3 : seval rho R3 == roughness m n x3)
    by (apply roughness_eval; [assumption | reflexivity]).
  assert (HP1 : seval rho P1 == phi1 m n x1).
  { subst P1 rho. cbn [seval eval].
    change (assignment x1 x2 x3 "residual"%string) with x1.
    pose proof (entries_self _ _ _ H1) as E.
    pose proof (entries_zip Qplus _ _ _ _ _ _
                  (entries_map (Qmult (5 # 10)) _ _ _ _
                     (entries_map Qabs _ _ _ _ E
                        (fun a a' Ha => Qabs_wd a a' Ha))
                     (fun a a' Ha => Qmult_comp _ _ (Qeq_refl _) _ _ Ha))
                  (entries_map (Qmult ((85 # 100) - (5 # 10))) _ _ _ _ E
                     (fun a a' Ha => Qmult_comp _ _ (Qeq_refl _) _ _ Ha))
                  (fun a a' b b' Ha Hb => Qplus_comp _ _ Ha _ _ Hb)) as Ez.
    etransitivity; [apply (total_entries _ _ _ _ Ez) |]. unfold phi1.
    apply sum_over_ext; intros i Hi; apply sum_over_ext; intros j Hj.
    apply pinball_abs. }
  assert (HP4 : seval rho P4 == phi4 m n x3).
  { subst P4 rho. cbn [seval eval].
    change (assignment x1 x2 x3 "shade"%string) with x3.
    apply total_entries, entries_self, H3. }
  rewrite HR2, HR3, HP1, HP4. reflexivity.
Qed.

Lemma osd_program_constraints m n y x1 x2 x3 :
  has_shape m n y ->
  has_shape m n x1 -> has_shape m n x2 -> has_shape m n x3 ->
  (1 <= n)%nat ->
  feasible (assignment x1 x2 x3) (osd_program m n y)
  <-> spec_constraints m n y x1 x2 x3.
Proof.
  intros Hy H1 H2 H3 Hn. unfold feasible, osd_program, spec_constraints.
  cbn [Cvx.constraints].
  repeat rewrite Forall_cons_iff. rewrite Forall_nil_iff.
  cbn [holds compare eval].
  change (assignment x1 x2 x3 "residual"%string) with x1.
  change (assignment x1 x2 x3 "clear-sky"%string) with x2.
  change (assignment x1 x2 x3 "shade"%string) with x3.
  pose proof (entries_self _ _ _ Hy) as Ey.
  pose proof (entries_self _ _ _ H1) as E1.
  pose proof (entries_self _ _ _ H2) as E2.
  pose proof (entries_self _ _ _ H3) as E3.
  pose proof (entries_zip Qminus _ _ _ _ _ _
                (entries_zip Qplus _ _ _ _ _ _ E1 E2
                   (fun a a' b b' Ha Hb => Qplus_comp _ _ Ha _ _ Hb)) E3
                (fun a a' b b' Ha Hb => Qminus_comp _ _ Ha _ _ Hb)) as Esum.
  rewrite (Forall2_entries _ _ _ _ _ _ Ey Esum).
  rewrite (Forall_entries (fun v => 0 <= v) _ _ _ _ E2)
    by (intros a a' Ha; now rewrite Ha).
  rewrite (Forall_entries (fun v => 0 <= v) _ _ _ _ E3)
    by (intros a a' Ha; now rewrite Ha).
  rewrite (Forall_entries (fun v => v == 0) _ _ _ _
             (entries_col 0 _ _ _ _ E2 ltac:(lia)))
    by (intros a a' Ha; now rewrite Ha).
  rewrite (Forall_entries (fun v => v == 0) _ _ _ _
             (entries_col (n - 1) _ _ _ _ E2 ltac:(lia)))
    by (intros a a' Ha; now rewrite Ha).
  pose proof (entries_diff_value 4 1 _ _ _ _ E2) as E41.
  pose proof (entries_diff_value 2 0 _ _ _ _ E2) as E20.
  cbn [Nat.eqb] in E41, E20.
  rewrite (Forall_entries (fun v => v <= 0) _ _ _ _ E41)
    by (intros a a' Ha; now rewrite Ha).
  rewrite (Forall_entries (fun v => v <= 0) _ _ _ _ E20)
    by (intros a a' Ha; now rewrite Ha).
  split.
  - intros (Ha & Hb & Hc & Hd & He & Hf & Hg & _).
    repeat split; auto.
    + intros i Hi. apply (Hc i 0%nat); lia.
    + intros i Hi. apply (Hd i 0%nat); lia.
    + intros i j Hi Hj. unfold fourth_diff_axis1.
      rewrite <- (iter4_delta_cols (entry x2) i j). now apply He.
    + intros i j Hi Hj. unfold second_diff_axis0.
      rewrite <- (iter2_delta_rows (entry x2) i j). now apply Hf.
  - intros (Ha & Hb & Hc & Hd & He & Hf & Hg).
    repeat split; auto.
    + intros i j Hi Hj. rewrite (iter4_delta_cols (entry x2) i j).
      now apply He.
    + intros i j Hi Hj. rewrite (iter2_delta_rows (entry x2) i j).
      now apply Hf.
Qed.

End OsdValues.

Section OsdSpecification.

Import Np Pd Cvx Shade OsdSpec Examples OsdProblem.

(** C1: for an [m] x [n] surface (at least 3 x 5, so that the differences
    exist) [make_osd_problem] returns a minimisation program of seven
    constraints whose objective is 20 phi1 + 10 phi2 + 100 phi3 + 0.8 phi4
    and whose feasible points are exactly the points the specification
    describes; of two points, the program prefers the one whose
    specification objective is smaller. *)
Theorem make_osd_problem_spec self dt m n :
  data_transformed self = Some dt ->
  has_shape m n (values dt) -> (3 <= m)%nat -> (5 <= n)%nat ->
  exists p,
    make_osd_problem self = Ok p
    /\ Cvx.sense p = Minimize
    /\ List.length (Cvx.constraints p) = 7%nat
    /\ (forall x1 x2 x3,
          has_shape m n x1 -> has_shape m n x2 -> has_shape m n x3 ->
          seval (assignment x1 x2 x3) (Cvx.objective p)
          == spec_objective m n x1 x2 x3
          /\ (feasible (assignment x1 x2 x3) p
              <-> spec_constraints m n (values dt) x1 x2 x3))
    /\ (forall x1 x2 x3 y1 y2 y3,
          has_shape m n x1 -> has_shape m n x2 -> has_shape m n x3 ->
          has_shape m n y1 -> has_shape m n y2 -> has_shape m n y3 ->
          at_least_as_good (Cvx.sense p)
            (seval (assignment x1 x2 x3) (Cvx.objective p))
            (seval (assignment y1 y2 y3) (Cvx.objective p))
          <-> spec_objective m n x1 x2 x3 <= spec_objective m n y1 y2 y3).
Proof.
  intros Hdt Hs Hm Hn. exists (osd_program m n (values dt)).
  split; [now apply make_osd_problem_ok |]. split; [reflexivity |].
  split; [reflexivity |]. split.
  - intros x1 x2 x3 H1 H2 H3. split.
    + now apply osd_program_objective.
    + apply osd_program_constraints; auto. lia.
  - intros x1 x2 x3 y1 y2 y3 H1 H2 H3 K1 K2 K3.
    change (Cvx.sense (osd_program m n (values dt))) with Minimize.
    cbn [at_least_as_good].
    rewrite (osd_program_objective m n (values dt) x1 x2 x3)
      by assumption.
    rewrite (osd_program_objective m n (values dt) y1 y2 y3)
      by assumption.
    reflexivity.
Qed.

End OsdSpecification.

Section OsdExample.

Import Np Pd Cvx Shade OsdSpec Examples OsdProblem.

Lemma make_osd_problem_spec_witness :
  exists p,
    make_osd_problem (set_data_transformed (Some surface_3x5) (init three_days))
    = Ok p
    /\ Cvx.sense p = Minimize
    /\ List.length (Cvx.constraints p) = 7%nat
    /\ (forall x1 x2 x3,
          has_shape 3 5 x1 -> has_shape 3 5 x2 -> has_shape 3 5 x3 ->
          seval (assignment x1 x2 x3) (Cvx.objective p)
          == spec_objective 3 5 x1 x2 x3
          /\ (feasible (assignment x1 x2 x3) p
              <-> spec_constraints 3 5 (values surface_3x5) x1 x2 x3))
    /\ (forall x1 x2 x3 y1 y2 y3,
          has_shape 3 5 x1 -> has_shape 3 5 x2 -> has_shape 3 5 x3 ->
          has_shape 3 5 y1 -> has_shape 3 5 y2 -> has_shape 3 5 y3 ->
          at_least_as_good (Cvx.sense p)
            (seval (assignment x1 x2 x3) (Cvx.objective p))
            (seval (assignment y1 y2 y3) (Cvx.objective p))
          <-> spec_objective 3 5 x1 x2 x3 <= spec_objective 3 5 y1 y2 y3).
Proof.
  apply (make_osd_problem_spec
           (set_data_transformed (Some surface_3x5) (init three_days))
           surface_3x5 3 5).
  - reflexivity.
  - split; [reflexivity | repeat constructor].
  - lia.
  - lia.
Defined.

End OsdExample.

(** ** The yearly energy reconstruction *)

Section YearlyEnergy.

Import Np Interp Pd Cvx Shade.

Variable np_sin : Q -> Q.
Variable np_deg2rad : Q -> Q.
Variable solve : Problem -> solver_outcome.

Lemma interp1d_ok extrap x y f :
  interp1d extrap x y = Ok f ->
  List.length x = List.length y
  /\ knots f = sort_knots (combine x y)
  /\ extrapolate f = extrap.
Proof.
  unfold interp1d.
  destruct (Nat.eqb_spec (List.length x) (List.length y)) as [E |];
    [| discriminate].
  simpl. destruct (Nat.ltb _ _); [discriminate |].
  intros H. inversion H. auto.
Qed.

(** On two knots or more whose abscissas increase, the extrapolating
    interpolant is finite everywhere. *)
Lemma call1_linear_finite kn x :
  (2 <= List.length kn)%nat -> Knots.increasing (map fst kn) ->
  call1_linear kn x = Some (interp_value kn x).
Proof.
  intros H2 Hinc. unfold call1_linear, zero_width.
  set (hi := clip (searchsorted (map fst kn) x) 1 (List.length kn - 1)).
  assert (Hhi : (1 <= hi <= List.length kn - 1)%nat)
    by (unfold hi, clip; lia).
  specialize (Hinc (hi - 1)%nat). rewrite length_map in Hinc.
  replace (S (hi - 1)) with hi in Hinc by lia.
  specialize (Hinc ltac:(lia)).
  change 0 with (fst ((0, 0) : Q * Q)) in Hinc. rewrite !map_nth in Hinc.
  destruct (Qeq_bool _ _) eqn:E; [| reflexivity].
  apply Qeq_bool_iff in E. rewrite E in Hinc.
  exfalso. apply (Qlt_irrefl _ Hinc).
Qed.

(** A sequence of two steps that ends normally: both steps did. *)
Lemma bind_ok {A B : Type} (c : method A) (k : A -> method B) self b self' ev :
  bind c k self = (Ok b, self', ev) ->
  exists a self1 ev1 ev2,
    c self = (Ok a, self1, ev1)
    /\ k a self1 = (Ok b, self', ev2)
    /\ ev = (ev1 ++ ev2)%list.
Proof.
  unfold bind. destruct (c self) as [[[a | e] self1] ev1]; [| discriminate].
  destruct (k a self1) as [[r self2] ev2] eqn:Hk. intros H. inversion H; subst.
  exists a, self1, ev1, ev2. auto.
Qed.

Lemma lift_ok {A : Type} (r : result A) self a self' ev :
  lift r self = (Ok a, self', ev) -> r = Ok a /\ self' = self /\ ev = [].
Proof. unfold lift. intros H. inversion H; auto. Qed.

Lemma zip_with_minus_nth (a b : list (option Q)) i :
  List.length a = List.length b -> (i < List.length a)%nat ->
  nth i (zip_with minus_float a b) None
  = minus_float (nth i a None) (nth i b None).
Proof. intros Hl Hi. apply nth_zip_with; lia. Qed.

Lemma analyze_yearly_energy_ok self self' ev :
  analyze_yearly_energy np_sin np_deg2rad solve self = (Ok tt, self', ev) ->
  exists self1 dt shade clear_sky f_loss f_clear avg,
    data_transformed self1 = Some dt
    /\ shade_component self1 = Some (Some shade)
    /\ clear_sky_component self1 = Some (Some clear_sky)
    /\ interp1d true (index dt)
         (row_sums_scaled shade (data_sampling (dh self1) / 60)) = Ok f_loss
    /\ interp1d true (index dt)
         (row_sums_scaled clear_sky (data_sampling (dh self1) / 60))
       = Ok f_clear
    /\ self' =
       set_yearly
         (call_linear f_loss
            (map (delta_cooper np_sin np_deg2rad) days_of_year))
         (call_linear f_clear
            (map (delta_cooper np_sin np_deg2rad) days_of_year))
         (zip_with minus_float
            (call_linear f_clear
               (map (delta_cooper np_sin np_deg2rad) days_of_year))
            (call_linear f_loss
               (map (delta_cooper np_sin np_deg2rad) days_of_year)))
         avg self1.
Proof.
  unfold analyze_yearly_energy. intros H.
  apply bind_ok in H as (hr & s0 & ev0 & ev0' & _ & H & _).
  apply bind_ok in H as (u & self1 & ev1 & ev1' & _ & H & _).
  apply bind_ok in H as (N & s2 & ev2 & ev2' & HN & H & _).
  unfold gets in HN. inversion HN; subst; clear HN.
  apply bind_ok in H as (dt & s3 & ev3 & ev3' & Hdt & H & _).
  unfold get_data_transformed in Hdt.
  destruct (data_transformed s2) as [dt' |] eqn:Edt; inversion Hdt; subst;
    clear Hdt.
  apply bind_ok in H as (shade & s4 & ev4 & ev4' & Hsh & H & _).
  unfold get_component in Hsh.
  destruct (shade_component s3) as [[shade' |] |] eqn:Esh; inversion Hsh;
    subst; clear Hsh.
  apply bind_ok in H as (f_loss & s5 & ev5 & ev5' & Hfl & H & _).
  apply lift_ok in Hfl as (Hfl & -> & _).
  apply bind_ok in H as (clear_sky & s6 & ev6 & ev6' & Hcs & H & _).
  unfold get_component in Hcs.
  destruct (clear_sky_component s4) as [[cs' |] |] eqn:Ecs; inversion Hcs;
    subst; clear Hcs.
  apply bind_ok in H as (f_clear & s7 & ev7 & ev7' & Hfc & H & _).
  apply lift_ok in Hfc as (Hfc & -> & _).
  apply bind_ok in H as (avg & s8 & ev8 & ev8' & Havg & H & _).
  apply lift_ok in Havg as (Havg & -> & _).
  unfold assign in H. inversion H; subst; clear H.
  exists s6, dt, shade, clear_sky, f_loss, f_clear, avg.
  repeat split; auto.
Qed.

(** The bucket keys of [transform_data] are rounded declinations of days
    of the data set. *)
Lemma insert_key_in k a l : In k (insert_key a l) -> k = a \/ In k l.
Proof.
  induction l as [| b l IH]; simpl.
  - intros [<- | []]. now left.
  - destruct (Qltb a b).
    + intros [<- | H]; [now left | now right].
    + destruct (Qeq_bool a b); [now right |].
      intros [<- | H]; [right; now left |].
      destruct (IH H) as [-> | H']; [now left | right; now right].
Qed.

Lemma group_keys_in k keys : In k (group_keys keys) -> In k keys.
Proof.
  induction keys as [| a keys IH]; simpl; [tauto |].
  intros H. apply insert_key_in in H as [-> | H]; [now left |].
  right. now apply IH.
Qed.

Lemma mask_select_in {A : Type} (x : A) y msk :
  In x (mask_select y msk) -> In x y.
Proof.
  revert msk. induction y as [| a y IH]; intros [| b msk]; simpl; try tauto.
  destruct b; simpl; [intros [<- | H]; [now left | right; eauto] |].
  intros H. right. eauto.
Qed.

Lemma transform_data_index self power dn dt :
  transform_data np_sin np_deg2rad self power = Ok (dn, dt) ->
  forall k, In k (index dt) ->
  exists d, In d (dayofyear (dh self))
            /\ k = my_round (delta_cooper np_sin np_deg2rad d) 1.
Proof.
  unfold transform_data. intros H.
  apply rbind_ok in H as (normalized & _ & H).
  destruct (negb _); [discriminate |].
  apply rbind_ok in H as (sel_rows & _ & H).
  apply rbind_ok in H as (sel_delta & Hd & H).
  inversion H; subst; clear H. simpl. intros k Hk.
  rewrite map_rev in Hk. apply in_rev in Hk.
  unfold groupby_mean in Hk. rewrite map_map in Hk. simpl in Hk.
  rewrite map_id in Hk. apply group_keys_in in Hk.
  unfold bool_index in Hd. destruct (Nat.eqb _ _); [| discriminate].
  inversion Hd; subst; clear Hd. apply mask_select_in in Hk.
  apply in_map_iff in Hk as (d & <- & Hin). eauto.
Qed.

Lemma days_of_year_nth i :
  (i < 365)%nat -> nth i days_of_year 0%Z = Z.of_nat (i + 1).
Proof.
  intros Hi. unfold days_of_year.
  rewrite (nth_indep _ 0%Z ((fun i => Z.of_nat (i + 1)) 0%nat))
    by (rewrite length_map, length_seq; lia).
  rewrite (map_nth (fun i => Z.of_nat (i + 1))). now rewrite seq_nth.
Qed.

Lemma days_of_year_length : List.length days_of_year = 365%nat.
Proof. unfold days_of_year. now rewrite length_map, length_seq. Qed.

Lemma yearly_nth (f : interp1d_obj) i :
  (i < 365)%nat ->
  nth i (call_linear f (map (delta_cooper np_sin np_deg2rad) days_of_year))
      None
  = call1_linear (knots f)
      (delta_cooper np_sin np_deg2rad (Z.of_nat (i + 1))).
Proof.
  intros Hi. unfold call_linear. rewrite map_map.
  rewrite (nth_indep _ None
             ((fun d => call1_linear (knots f)
                          (delta_cooper np_sin np_deg2rad d)) 0%Z))
    by (rewrite length_map, days_of_year_length; lia).
  rewrite (map_nth (fun d => call1_linear (knots f)
                               (delta_cooper np_sin np_deg2rad d))).
  now rewrite days_of_year_nth.
Qed.

Lemma yearly_length (f : interp1d_obj) :
  List.length
    (call_linear f (map (delta_cooper np_sin np_deg2rad) days_of_year))
  = 365%nat.
Proof.
  unfold call_linear. now rewrite !length_map, days_of_year_length.
Qed.

Lemma transpose_length (m : matrix) : List.length (transpose m) = shape1 m.
Proof. unfold transpose. now rewrite length_map, length_seq. Qed.

Lemma interp1d_total extrap (x y : vector) :
  List.length x = List.length y -> (1 <= List.length x)%nat ->
  exists f, interp1d extrap x y = Ok f /\ extrapolate f = extrap.
Proof.
  intros Hl H2. unfold interp1d. rewrite Hl, Nat.eqb_refl. simpl.
  destruct (Nat.ltb_spec (List.length y) 1); [lia |]. eauto.
Qed.

Lemma clear_day_energy_total d scale :
  shape1 (filled_data_matrix d) = List.length (dayofyear d) ->
  List.length (clear d) = List.length (dayofyear d) ->
  exists avg, clear_day_energy d scale = Ok avg.
Proof.
  intros Hs Hc. unfold clear_day_energy.
  rewrite length_map, transpose_length, Hs, Nat.eqb_refl. simpl.
  unfold bool_index.
  rewrite length_combine, length_map, transpose_length, Hs, Nat.min_id, Hc,
    Nat.eqb_refl.
  simpl. eauto.
Qed.

(** Once the analysis has run and published components with as many rows
    as the transformed data (one or more), the yearly analysis returns. *)
Lemma analyze_yearly_energy_total self dt shade clear_sky :
  has_run self = true ->
  data_transformed self = Some dt ->
  shade_component self = Some (Some shade) ->
  clear_sky_component self = Some (Some clear_sky) ->
  List.length shade = List.length (index dt) ->
  List.length clear_sky = List.length (index dt) ->
  (1 <= List.length (index dt))%nat ->
  shape1 (filled_data_matrix (dh self)) = List.length (dayofyear (dh self)) ->
  List.length (clear (dh self)) = List.length (dayofyear (dh self)) ->
  exists self',
    analyze_yearly_energy np_sin np_deg2rad solve self = (Ok tt, self', []).
Proof.
  intros Hr Hdt Hsh Hcs Ls Lc L2 Hshape Hclear.
  set (scale := data_sampling (dh self) / 60).
  destruct (interp1d_total true (index dt) (row_sums_scaled shade scale))
    as (f_loss & Hfl & Hel);
    [unfold row_sums_scaled; rewrite length_map; symmetry; assumption
    | lia |].
  destruct (interp1d_total true (index dt) (row_sums_scaled clear_sky scale))
    as (f_clear & Hfc & Hec);
    [unfold row_sums_scaled; rewrite length_map; symmetry; assumption
    | lia |].
  destruct (clear_day_energy_total (dh self) scale Hshape Hclear)
    as (avg & Havg).
  unfold analyze_yearly_energy, bind, gets, ret, lift, assign,
    get_data_transformed, get_component.
  rewrite Hr. cbn [negb]. rewrite Hdt, Hsh. fold scale. rewrite Hfl, Hcs, Hfc.
  rewrite Havg. eexists. reflexivity.
Qed.

(** C9: after [analyze_yearly_energy] the three daily sequences have 365
    entries.  Entry [i] of the loss and of the clear energy is the
    extrapolating interpolant, evaluated at [delta_cooper (i + 1)],
    through the knots (bucket key of row [r], sum of row [r] of the
    component times [data_sampling / 60]); the modeled energy is their
    difference.  Where the sorted bucket keys increase strictly (two or
    more), every entry is finite and lies on the line of its segment.
    The bucket keys of [transform_data] are roundings of the same
    [delta_cooper]; and the call returns once the analysis has run and
    published components with as many rows (one or more) as the
    transformed data. *)
Theorem analyze_yearly_energy_spec self :
  (forall self' ev,
      analyze_yearly_energy np_sin np_deg2rad solve self = (Ok tt, self', ev) ->
      exists dt shade clear_sky loss clear_e modeled,
        data_transformed self' = Some dt
        /\ shade_component self' = Some (Some shade)
        /\ clear_sky_component self' = Some (Some clear_sky)
        /\ List.length shade = List.length (index dt)
        /\ List.length clear_sky = List.length (index dt)
        /\ daily_shade_loss self' = Some loss
        /\ daily_clear_energy self' = Some clear_e
        /\ daily_modeled_energy self' = Some modeled
        /\ List.length loss = 365%nat
        /\ List.length clear_e = 365%nat
        /\ List.length modeled = 365%nat
        /\ let scale := data_sampling (dh self') / 60 in
           let loss_knots :=
             sort_knots
               (combine (index dt) (map (fun row => sum row * scale) shade)) in
           let clear_knots :=
             sort_knots
               (combine (index dt)
                        (map (fun row => sum row * scale) clear_sky)) in
           (forall i, (i < 365)%nat ->
              nth i loss None
              = call1_linear loss_knots
                  (delta_cooper np_sin np_deg2rad (Z.of_nat (i + 1)))
              /\ nth i clear_e None
                 = call1_linear clear_knots
                     (delta_cooper np_sin np_deg2rad (Z.of_nat (i + 1)))
              /\ nth i modeled None
                 = minus_float (nth i clear_e None) (nth i loss None))
           /\ ((2 <= List.length (index dt))%nat ->
               Knots.increasing (map fst loss_knots) ->
               forall i, (i < 365)%nat ->
                 nth i loss None
                 = Some (interp_value loss_knots
                           (delta_cooper np_sin np_deg2rad (Z.of_nat (i + 1))))
                 /\ nth i clear_e None
                    = Some (interp_value clear_knots
                              (delta_cooper np_sin np_deg2rad
                                 (Z.of_nat (i + 1))))
                 /\ nth i modeled None
                    = Some (interp_value clear_knots
                              (delta_cooper np_sin np_deg2rad
                                 (Z.of_nat (i + 1)))
                            - interp_value loss_knots
                                (delta_cooper np_sin np_deg2rad
                                   (Z.of_nat (i + 1))))))
  /\ (forall d,
        delta_cooper np_sin np_deg2rad d
        = (2345 # 100)
          * np_sin (np_deg2rad (360 * (284 + inject_Z d) / 365)))
  /\ (forall s power dn dt',
        transform_data np_sin np_deg2rad s power = Ok (dn, dt') ->
        forall k, In k (index dt') ->
        exists d, In d (dayofyear (dh s))
                  /\ k = my_round (delta_cooper np_sin np_deg2rad d) 1)
  /\ (forall dt shade clear_sky,
        has_run self = true ->
        data_transformed self = Some dt ->
        shade_component self = Some (Some shade) ->
        clear_sky_component self = Some (Some clear_sky) ->
        List.length shade = List.length (index dt) ->
        List.length clear_sky = List.length (index dt) ->
        (1 <= List.length (index dt))%nat ->
        shape1 (filled_data_matrix (dh self))
        = List.length (dayofyear (dh self)) ->
        List.length (clear (dh self)) = List.length (dayofyear (dh self)) ->
        exists self',
          analyze_yearly_energy np_sin np_deg2rad solve self
          = (Ok tt, self', [])).
Proof.
  split; [| split; [reflexivity | split; [apply transform_data_index |]]];
    [intros self' ev H
    | intros dt shade clear_sky; now apply analyze_yearly_energy_total].
  apply analyze_yearly_energy_ok in H
    as (self1 & dt & shade & clear_sky & f_loss & f_clear & avg
        & Hdt & Hsh & Hcs & Hfl & Hfc & ->).
  apply interp1d_ok in Hfl as (Ll & Kl & _).
  apply interp1d_ok in Hfc as (Lc & Kc & _).
  unfold row_sums_scaled in Ll, Lc, Kl, Kc. rewrite length_map in Ll, Lc.
  exists dt, shade, clear_sky.
  eexists. eexists. eexists.
  cbn [data_transformed shade_component clear_sky_component daily_shade_loss
       daily_clear_energy daily_modeled_energy dh set_yearly].
  do 3 (split; [eassumption |]).
  split; [now symmetry |]. split; [now symmetry |].
  do 3 (split; [reflexivity |]).
  split; [apply yearly_length |]. split; [apply yearly_length |].
  split; [now rewrite zip_with_length, !yearly_length |].
  cbv zeta. rewrite <- Kl, <- Kc.
  assert (Hpt : forall i, (i < 365)%nat ->
             nth i (zip_with minus_float
                      (call_linear f_clear
                         (map (delta_cooper np_sin np_deg2rad) days_of_year))
                      (call_linear f_loss
                         (map (delta_cooper np_sin np_deg2rad) days_of_year)))
                 None
             = minus_float
                 (call1_linear (knots f_clear)
                    (delta_cooper np_sin np_deg2rad (Z.of_nat (i + 1))))
                 (call1_linear (knots f_loss)
                    (delta_cooper np_sin np_deg2rad (Z.of_nat (i + 1))))).
  { intros i Hi.
    rewrite zip_with_minus_nth by (rewrite !yearly_length; auto).
    now rewrite !yearly_nth. }
  split.
  - intros i Hi. rewrite !yearly_nth by assumption.
    split; [reflexivity |]. split; [reflexivity |]. now apply Hpt.
  - intros H2 Hinc i Hi.
    assert (Hlen : forall kn ys,
               List.length (index dt) = List.length ys ->
               kn = sort_knots (combine (index dt) ys) ->
               List.length kn = List.length (index dt)).
    { intros kn ys Hl ->. rewrite <- (length_map fst).
      rewrite (sort_knots_fst (index dt) ys (index dt)) by now symmetry.
      rewrite length_map, <- (length_map fst).
      clear. induction (index dt) as [| a l IH]; [reflexivity |].
      simpl. rewrite <- IH. clear IH.
      generalize (sort_knots (combine l l)). intros kn.
      induction kn as [| q kn IHk]; [reflexivity |]. simpl.
      destruct (Qle_bool _ _); simpl; [reflexivity | now rewrite IHk]. }
    assert (Hinc' : Knots.increasing (map fst (knots f_clear))).
    { rewrite Kc, (sort_knots_fst (index dt) _
                     (map (fun row => sum row * (data_sampling (dh self1) / 60))
                          shade)), <- Kl by (rewrite !length_map; lia).
      exact Hinc. }
    rewrite Hpt, !yearly_nth by assumption.
    rewrite !call1_linear_finite;
      try assumption;
      try (erewrite Hlen; [exact H2 | | eassumption];
           rewrite length_map; assumption).
    repeat split.
Qed.

End YearlyEnergy.

Section YearlyEnergyExample.

Import Np Interp Pd Cvx Shade Examples.

Lemma analyze_yearly_energy_spec_witness :
  exists self',
    analyze_yearly_energy sin_approx deg2rad_approx solver_returning
      solved_three_days = (Ok tt, self', [])
    /\ exists loss clear_e modeled,
         daily_shade_loss self' = Some loss
         /\ daily_clear_energy self' = Some clear_e
         /\ daily_modeled_energy self' = Some modeled
         /\ List.length modeled = 365%nat
         /\ forall i, (i < 365)%nat ->
              nth i modeled None
              = minus_float (nth i clear_e None) (nth i loss None).
Proof.
  destruct (analyze_yearly_energy_spec sin_approx deg2rad_approx
              solver_returning solved_three_days) as (HA & _ & _ & HT).
  assert (Hdt : exists dt,
             data_transformed solved_three_days = Some dt
             /\ List.length (index dt) = 3%nat)
    by (eexists; split; lazy; reflexivity).
  destruct Hdt as (dt & Hdt & Hix).
  assert (E : exists self',
             analyze_yearly_energy sin_approx deg2rad_approx solver_returning
               solved_three_days = (Ok tt, self', [])).
  { apply (HT dt
             [[0; 0; 0; 1; 1; 0; 0; 0]; [0; 0; 1; 1; 0; 0; 0; 0];
              [0; 0; 0; 0; 0; 0; 0; 0]]
             [[0; 2; 3; 4; 4; 3; 2; 0]; [0; 1; 2; 3; 3; 2; 1; 0];
              [0; 1; 1; 2; 2; 1; 1; 0]]);
      try reflexivity; try exact Hdt; rewrite Hix; simpl; lia. }
  destruct E as (self' & E).
  exists self'. split; [exact E |].
  destruct (HA self' [] E)
    as (dt' & shade & clear_sky & loss & clear_e & modeled
        & _ & _ & _ & _ & _ & Hl & Hc & Hm & _ & _ & Hlen & Hn & _).
  exists loss, clear_e, modeled.
  repeat (split; [assumption |]). intros i Hi. apply Hn, Hi.
Defined.

End YearlyEnergyExample.

(** ** The soiling decompositions *)

Section SoilingLoop.

Import Np Cvx1 Soiling.

Lemma iterate_last {S : Type} (body : S -> result S) k s0 s :
  iterate k body s0 = Ok s ->
  (k = 0%nat /\ s = s0) \/ exists s', body s' = Ok s.
Proof.
  revert s0. induction k as [| k IH]; simpl; intros s0 H.
  - left. inversion H. auto.
  - apply rbind_ok in H as (s1 & H1 & H).
    destruct (IH s1 H) as [[-> ->] | Hex]; [| right; exact Hex].
    right. now exists s0.
Qed.

(** An invariant of the loop holds of the final state. *)
Lemma iterate_invariant {S : Type} (body : S -> result S) (P : S -> Prop) :
  (forall s s', P s -> body s = Ok s' -> P s') ->
  forall k s0 s, P s0 -> iterate k body s0 = Ok s -> P s.
Proof.
  intros Hstep k. induction k as [| k IH]; simpl; intros s0 s H0 H.
  - inversion H; subst; assumption.
  - apply rbind_ok in H as (s1 & H1 & H). eauto.
Qed.

Variable solve : Problem -> solver_outcome.

Lemma solve_values_ok p vals :
  solve_values solve p = Ok vals ->
  exists st, solve p = Returns st vals.
Proof.
  unfold solve_values. destruct (solve p) as [st v | e]; [| discriminate].
  intros H. inversion H; subst. eauto.
Qed.

Lemma value_of_ok st name v :
  value_of st name = Ok v -> exists rho, values st = Some rho /\ v = rho name.
Proof.
  unfold value_of. destruct (values st) as [rho |]; [| discriminate].
  intros H. inversion H. eauto.
Qed.

(** What one iteration of [soiling_seperation] leaves behind. *)
Lemma iteration_ok observed degradation_term tau c1 c2 c3 soiling_max ix st st' :
  iteration solve observed degradation_term tau c1 c2 c3 soiling_max ix st
  = Ok st' ->
  exists p status rho,
    build_problem observed degradation_term tau c1 c2 c3 soiling_max ix st
    = Ok p
    /\ solve p = Returns status (Some rho)
    /\ values st' = Some rho
    /\ w st' = reweight (np_diff 2 (rho "s1"%string))
    /\ zero_set st' = nearly_flat (np_diff 1 (rho "s1"%string)).
Proof.
  unfold iteration. intros H.
  apply rbind_ok in H as (p & Hp & H).
  apply rbind_ok in H as (vals & Hs & H).
  apply rbind_ok in H as (v & Hv & H).
  apply solve_values_ok in Hs as (status & Hs).
  apply value_of_ok in Hv as (rho & Hrho & ->). simpl in Hrho. subst vals.
  inversion H; subst; clear H. exists p, status, rho. simpl. auto.
Qed.

(** A call that returns has run the loop at least once; what it returns
    are the values the solver left in the last problem built. *)
Lemma soiling_seperation_ok observed index_set degradation_term tau c1 c2 c3
      iterations soiling_max r1 r2 r3 rr :
  soiling_seperation solve observed index_set degradation_term tau c1 c2 c3
    iterations soiling_max = Ok (r1, r2, r3, rr) ->
  exists ix st p status rho,
    effective_index_set observed index_set = Ok ix
    /\ build_problem observed degradation_term tau c1 c2 c3 soiling_max ix st
       = Ok p
    /\ solve p = Returns status (Some rho)
    /\ r1 = rho "s1"%string
    /\ r2 = firstn (n observed) (rho "s2"%string)
    /\ r3 = rho "s3"%string
    /\ rr = rho "sr"%string.
Proof.
  unfold soiling_seperation. intros H.
  apply rbind_ok in H as (ix & Hix & H).
  destruct (n observed <? 3)%nat; [discriminate |].
  apply rbind_ok in H as (st & Hit & H).
  apply rbind_ok in H as (v1 & H1 & H).
  apply rbind_ok in H as (v2 & H2 & H).
  apply rbind_ok in H as (v3 & H3 & H).
  apply rbind_ok in H as (vr & Hr & H).
  inversion H; subst; clear H.
  apply value_of_ok in H1 as (rho & Hrho & ->).
  apply value_of_ok in H2 as (rho2 & Hrho2 & ->).
  apply value_of_ok in H3 as (rho3 & Hrho3 & ->).
  apply value_of_ok in Hr as (rho4 & Hrho4 & ->).
  rewrite Hrho in Hrho2, Hrho3, Hrho4.
  inversion Hrho2; inversion Hrho3; inversion Hrho4; subst.
  apply iterate_last in Hit as [[_ ->] | (st' & Hbody)];
    [discriminate Hrho |].
  apply iteration_ok in Hbody as (p & status & rho' & Hp & Hs & Hv & _).
  rewrite Hrho in Hv. inversion Hv; subst.
  exists ix, st', p, status, rho'. auto 10.
Qed.

End SoilingLoop.

Section SoilingProblem.

Import Np Cvx1 Soiling SeparationProblem.

Variables (observed : list (option Q)) (degradation_term : bool).
Variables (tau c1 c2 c3 soiling_max : Q).

Local Abbreviation n := (Soiling.n observed).
Local Abbreviation s1 := (Soiling.s1 observed).
Local Abbreviation s2 := (Soiling.s2 observed).
Local Abbreviation s3 := (Soiling.s3 observed).
Local Abbreviation sr := (Soiling.sr observed).
Local Abbreviation reconstruction := (SeparationProblem.reconstruction observed).
Local Abbreviation periodicity := (SeparationProblem.periodicity observed).
Local Abbreviation zero_mean := (SeparationProblem.zero_mean observed).
Local Abbreviation soiling_cap :=
  (SeparationProblem.soiling_cap observed soiling_max).
Local Abbreviation seasonal_off := (SeparationProblem.seasonal_off observed).
Local Abbreviation separation_cost :=
  (SeparationProblem.separation_cost observed tau c1 c2 c3).

Lemma bool_index_ok (x : vexpr) msk e :
  bool_index x msk = Ok e ->
  size x = List.length msk /\ (0 < count_true msk)%nat
  /\ e = BoolIndex msk x.
Proof.
  unfold bool_index.
  destruct (Nat.eqb_spec (size x) (List.length msk)); [| discriminate].
  destruct (Nat.eqb_spec (count_true msk) 0); [discriminate |].
  intros H. inversion H. repeat split; [assumption | lia].
Qed.

Lemma size_s2_slice : size (Slice None (Some (Z.of_nat n)) s2) = n.
Proof.
  simpl. destruct (Z.ltb_spec (Z.of_nat n) 0); [lia |].
  rewrite Nat2Z.id. lia.
Qed.

Lemma build_problem_ok ix st p :
  build_problem observed degradation_term tau c1 c2 c3 soiling_max ix st
  = Ok p ->
  exists known extra,
    (2 < n)%nat
    /\ List.length ix = n
    /\ as_constant (mask_select observed ix) = Ok known
    /\ objective p = separation_cost (w st)
    /\ constraints p
       = ([reconstruction known ix; periodicity; zero_mean; soiling_cap]
          ++ extra)%list
    /\ (Qltb (inject_Z (Z.of_nat n)) ((75 # 100) * 365) = true ->
        In seasonal_off extra).
Proof.
  unfold build_problem, diff. rewrite size_s2_slice.
  change (size s1) with n. change (size s3) with n.
  destruct (Nat.leb_spec n 2) as [| Hn]; [discriminate |]. simpl rbind.
  intros H.
  apply rbind_ok in H as (known0 & Hk0 & H).
  apply rbind_ok in H as (known & Hk & H).
  apply rbind_ok in H as (recon & Hrec & H).
  apply rbind_ok in H as (cs1 & Hcs1 & H).
  apply rbind_ok in H as (cs2 & Hcs2 & H).
  inversion H; subst; clear H.
  unfold Np.bool_index in Hk0.
  destruct (Nat.eqb_spec (List.length observed) (List.length ix)) as [Hl |];
    [| discriminate].
  inversion Hk0; subst; clear Hk0.
  apply bool_index_ok in Hrec as (_ & _ & ->).
  assert (Hcs1' : exists e1,
             cs1 = ([reconstruction known ix; periodicity; zero_mean;
                     soiling_cap] ++ e1)%list).
  { destruct degradation_term.
    - inversion Hcs1. eexists. reflexivity.
    - inversion Hcs1. eexists. reflexivity. }
  destruct Hcs1' as (e1 & ->).
  assert (Hcs2' : exists e2,
             cs2 = ([reconstruction known ix; periodicity; zero_mean;
                     soiling_cap] ++ e2)%list).
  { destruct (0 <? count_true (zero_set st))%nat.
    - destruct (Nat.leb n 1); simpl in Hcs2; [discriminate |].
      apply rbind_ok in Hcs2 as (flat & _ & Hcs2). inversion Hcs2.
      eexists. reflexivity.
    - inversion Hcs2. eexists. reflexivity. }
  destruct Hcs2' as (e2 & ->).
  exists known.
  destruct (Qltb (inject_Z (Z.of_nat n)) ((75 # 100) * 365)) eqn:E.
  - exists (e2 ++ [seasonal_off])%list. simpl.
    repeat split; auto.
    intros _. apply in_or_app. right. now left.
  - exists e2. simpl. repeat split; auto. discriminate.
Qed.

End SoilingProblem.

Section SoilingConstraints.

Import Np Cvx1 Soiling SeparationProblem.

Lemma zip_with_nth_Q (f : Q -> Q -> Q) a b i :
  (i < List.length a)%nat -> (i < List.length b)%nat ->
  nth i (Cvx.zip_with f a b) 0 = f (nth i a 0) (nth i b 0).
Proof. apply nth_zip_with. Qed.

Lemma np_diff_length k v : List.length (np_diff k v) = (List.length v - k)%nat.
Proof.
  unfold np_diff. induction k as [| k IH]; simpl; [lia |].
  unfold diff1 at 1. rewrite zip_with_length, length_tl, IH. lia.
Qed.

Lemma py_slice_from (v : vector) :
  py_slice (Some 365%Z) None v = skipn 365 v.
Proof.
  unfold py_slice, slice_bound. change (365 <? 0)%Z with false. cbv iota.
  replace (Z.to_nat 365) with 365%nat by reflexivity.
  destruct (Nat.le_ge_cases 365 (List.length v)).
  - rewrite Nat.min_l by assumption.
    apply firstn_all2. rewrite length_skipn. lia.
  - rewrite Nat.min_r by assumption.
    rewrite skipn_all, firstn_nil. symmetry. now apply skipn_all2.
Qed.

Lemma py_slice_upto_neg (v : vector) :
  py_slice None (Some (-365)%Z) v = firstn (List.length v - 365) v.
Proof.
  unfold py_slice, slice_bound. change (-365 <? 0)%Z with true. cbv iota.
  cbn [skipn]. f_equal. lia.
Qed.

Lemma py_slice_upto {A : Type} (k : nat) (v : list A) :
  py_slice None (Some (Z.of_nat k)) v = firstn k v.
Proof.
  unfold py_slice, slice_bound. cbn [skipn].
  destruct (Z.ltb_spec (Z.of_nat k) 0); [lia |].
  rewrite Nat2Z.id, Nat.sub_0_r.
  destruct (Nat.le_ge_cases k (List.length v)).
  - now rewrite Nat.min_l.
  - rewrite Nat.min_r by assumption. now rewrite !firstn_all2 by lia.
Qed.

Lemma py_slice_upto_365 (v : vector) :
  py_slice None (Some 365%Z) v = firstn 365 v.
Proof. apply (py_slice_upto 365). Qed.

(** What the periodicity constraint says of the value of [s2]. *)
Lemma periodic_values (v : vector) :
  Forall (fun x => x == 0)
    (Cvx.zip_with Qminus (py_slice (Some 365%Z) None v)
                         (py_slice None (Some (-365)%Z) v)) ->
  forall t, (t + 365 < List.length v)%nat -> nth (t + 365) v 0 == nth t v 0.
Proof.
  rewrite py_slice_from, py_slice_upto_neg. intros H t Ht.
  rewrite Forall_nth in H. specialize (H t 0).
  rewrite zip_with_length, length_skipn, length_firstn in H.
  specialize (H ltac:(lia)).
  rewrite zip_with_nth_Q in H
    by (rewrite ?length_skipn, ?length_firstn; lia).
  rewrite nth_skipn, nth_firstn in H.
  destruct (Nat.ltb_spec t (List.length v - 365)); [| lia].
  replace (365 + t)%nat with (t + 365)%nat in H by lia.
  cbv beta in H. Lqa.lra.
Qed.

Lemma Forall_firstn {A : Type} (P : A -> Prop) k (l : list A) :
  Forall P l -> Forall P (firstn k l).
Proof.
  intros H. rewrite Forall_forall in *. intros x Hx. apply H.
  rewrite <- (firstn_skipn k l). apply in_or_app. now left.
Qed.

Variable solve : Problem -> solver_outcome.
Hypothesis solve_ok : solver_contract solve.

Variables (observed : list (option Q)) (index_set : option (list bool)).
Variables (degradation_term : bool) (tau c1 c2 c3 : Q) (iterations : nat).
Variable soiling_max : Q.

Lemma built_problem_solution ix st p status rho :
  build_problem observed degradation_term tau c1 c2 c3 soiling_max ix st
  = Ok p ->
  solve p = Returns status (Some rho) ->
  List.length (rho "s1"%string) = n observed
  /\ List.length (rho "s2"%string) = Nat.max (n observed) 367
  /\ holds rho (periodicity observed)
  /\ holds rho (zero_mean observed)
  /\ holds rho (soiling_cap observed soiling_max)
  /\ (inject_Z (Z.of_nat (n observed)) < (75 # 100) * 365 ->
      holds rho (seasonal_off observed)).
Proof.
  intros Hp Hs. destruct (solve_ok _ _ _ Hs) as (Hshape & Hfeas & _).
  apply build_problem_ok in Hp
    as (known & extra & Hn & Hlen & Hk & Hobj & Hcs & Hoff).
  unfold feasible in Hfeas. rewrite Hcs in Hfeas.
  rewrite Forall_forall in Hfeas.
  assert (Hin : forall c,
             In c [reconstruction observed known ix; periodicity observed;
                   zero_mean observed; soiling_cap observed soiling_max] ->
             holds rho c).
  { intros c Hc. apply Hfeas. apply in_or_app. now left. }
  assert (Hvar : forall c name k,
             In c (constraints p) -> In (name, k) (constraint_vars c) ->
             List.length (rho name) = k).
  { intros c name k Hc Hv. apply Hshape. unfold variables.
    apply in_or_app. right. apply in_flat_map. eauto. }
  rewrite Hcs in Hvar.
  split; [| split; [| split; [| split; [| split]]]].
  - apply (Hvar (soiling_cap observed soiling_max)); simpl; auto.
  - apply (Hvar (periodicity observed)); simpl; auto.
  - apply Hin. simpl; auto.
  - apply Hin. simpl; auto.
  - apply Hin. simpl; auto 6.
  - intros Hlt. apply Hfeas. apply in_or_app. right. apply Hoff.
    now apply Qltb_lt.
Qed.

(** What a call that returns says of the seasonal component. *)
Lemma seasonal_component_ok r1 r2 r3 rr :
  soiling_seperation solve observed index_set degradation_term tau c1 c2 c3
    iterations soiling_max = Ok (r1, r2, r3, rr) ->
  List.length r2 = n observed
  /\ (forall t, (t + 365 < n observed)%nat ->
        nth (t + 365) r2 0 == nth t r2 0)
  /\ ((365 <= n observed)%nat -> sum (py_slice None (Some 365%Z) r2) == 0)
  /\ (inject_Z (Z.of_nat (n observed)) < (75 # 100) * 365 ->
      Forall (fun x => x == 0) r2).
Proof.
  intros H.
  apply soiling_seperation_ok in H
    as (ix & st & p & status & rho & _ & Hp & Hs & _ & -> & _ & _).
  destruct (built_problem_solution _ _ _ _ _ Hp Hs)
    as (_ & Hl2 & Hper & Hzm & _ & Hoff).
  cbn [holds compare eval periodicity zero_mean Soiling.s2] in Hper, Hzm.
  set (v := rho "s2"%string) in *.
  assert (Hlen : List.length (firstn (n observed) v) = n observed).
  { rewrite length_firstn. lia. }
  split; [exact Hlen |]. split; [| split].
  - intros t Ht. rewrite !nth_firstn.
    destruct (Nat.ltb_spec (t + 365) (n observed)); [| lia].
    destruct (Nat.ltb_spec t (n observed)); [| lia].
    apply periodic_values; [exact Hper | lia].
  - intros Hn. rewrite py_slice_upto_365, firstn_firstn.
    rewrite Nat.min_l by assumption.
    rewrite py_slice_upto_365 in Hzm. exact Hzm.
  - intros Hlt. apply Forall_firstn. apply (Hoff Hlt).
Qed.

End SoilingConstraints.

Section CandidateSolutions.

Import Np Cvx1 Soiling Check SeparationProblem.

Lemma forall2b_Forall2 {A B : Type} (Rb : A -> B -> bool) (R : A -> B -> Prop)
      l l' :
  (forall a b, Rb a b = true -> R a b) ->
  forall2b Rb l l' = true -> Forall2 R l l'.
Proof.
  intros HR. revert l'. induction l as [| a l IH]; intros [| b l']; simpl;
    try discriminate; [constructor |].
  intros H. apply andb_true_iff in H as [Hab H]. constructor; auto.
Qed.

Lemma forallb_Forall_imp {A : Type} (Pb : A -> bool) (P : A -> Prop) l :
  (forall a, Pb a = true -> P a) -> forallb Pb l = true -> Forall P l.
Proof.
  intros HP H. apply Forall_forall. intros x Hx. apply HP.
  rewrite forallb_forall in H. now apply H.
Qed.

Lemma compare_b_compare (Rb : Q -> Q -> bool) (R : Q -> Q -> Prop) rho l r :
  (forall a b, Rb a b = true -> R a b) ->
  compare_b Rb rho l r = true -> compare R rho l r.
Proof.
  intros HR. destruct l, r; simpl; auto;
    try (apply forallb_Forall_imp; intros; now apply HR).
  now apply forall2b_Forall2.
Qed.

Lemma holds_b_holds rho c : holds_b rho c = true -> holds rho c.
Proof.
  destruct c; simpl; apply compare_b_compare.
  - intros a b. apply Qeq_bool_iff.
  - intros a b. apply Qle_bool_iff.
Qed.

Lemma feasible_b_feasible rho p : feasible_b rho p = true -> feasible rho p.
Proof. apply forallb_Forall_imp, holds_b_holds. Qed.

Lemma well_shaped_b_well_shaped rho p :
  well_shaped_b rho p = true -> well_shaped rho p.
Proof.
  unfold well_shaped_b, well_shaped. intros H name k Hin.
  rewrite forallb_forall in H. specialize (H _ Hin). now apply Nat.eqb_eq in H.
Qed.

Lemma Q2R_zero q : q == 0 -> Q2R q = 0%R.
Proof. intros H. rewrite (Qeq_eqR _ _ H). apply RMicromega.Q2R_0. Qed.

Lemma zero_cost_b_zero rho t :
  zero_cost_b rho t = true -> cost_value rho t = 0%R.
Proof.
  induction t as [e | e | e | e | c t IH | a IHa b IHb]; simpl; intros H;
    try (apply Qeq_bool_iff in H; rewrite (Q2R_zero _ H));
    try reflexivity.
  - apply sqrt_0.
  - rewrite IH by assumption. apply Rmult_0_r.
  - apply andb_true_iff in H as [Ha Hb]. rewrite IHa, IHb by assumption.
    apply Rplus_0_r.
Qed.

(** *** Objectives that cannot be negative *)

Lemma sum_nonneg (l : vector) : Forall (fun x => 0 <= x) l -> 0 <= sum l.
Proof.
  induction 1 as [| x l Hx Hl IH]; simpl; [apply Qle_refl |].
  change 0 with (0 + 0). now apply Qplus_le_compat.
Qed.

Lemma Q2R_nonneg q : 0 <= q -> (0 <= Q2R q)%R.
Proof. intros H. rewrite <- RMicromega.Q2R_0. now apply Qle_Rle. Qed.

Lemma Forall_zip_with (P Q' R : Q -> Prop) (f : Q -> Q -> Q) a b :
  (forall x y, P x -> Q' y -> R (f x y)) ->
  Forall P a -> Forall Q' b -> Forall R (Cvx.zip_with f a b).
Proof.
  intros Hf Ha. revert b. induction Ha as [| x a Hx Ha IH];
    intros b Hb; [constructor |].
  destruct Hb as [| y b Hy Hb]; [constructor |]. simpl.
  constructor; auto.
Qed.

Lemma Forall_map_all {A : Type} (P : Q -> Prop) (f : A -> Q) l :
  (forall x, P (f x)) -> Forall P (map f l).
Proof. intros H. apply Forall_forall. intros y Hy.
  apply in_map_iff in Hy as (x & <- & _). apply H. Qed.

Lemma squares_nonneg (l : vector) : 0 <= sum (map (fun x => x * x) l).
Proof.
  apply sum_nonneg, Forall_map_all. intros x.
  destruct (Qlt_le_dec x 0) as [Hx | Hx].
  - setoid_replace (x * x) with ((- x) * (- x)) by ring.
    apply Qmult_le_0_compat; Lqa.lra.
  - now apply Qmult_le_0_compat.
Qed.

Lemma abs_sum_nonneg (l : vector) : 0 <= sum (map Qabs l).
Proof. apply sum_nonneg, Forall_map_all, Qabs_nonneg. Qed.

Lemma pos_part_nonneg x : 0 <= pos_part x.
Proof. apply Q.le_max_r. Qed.

Lemma neg_part_nonneg x : 0 <= neg_part x.
Proof. apply Q.le_max_r. Qed.

(** The objective of [soiling_seperation] is not negative where the cap
    [s1 <= soiling_max] holds, for weights in the usual ranges. *)
Lemma separation_cost_nonneg observed tau c1 c2 c3 soiling_max w rho :
  0 <= tau -> tau <= 1 -> 0 <= c1 -> 0 <= c2 -> 0 <= c3 -> soiling_max <= 1 ->
  holds rho (soiling_cap observed soiling_max) ->
  (0 <= cost_value rho (separation_cost observed tau c1 c2 c3 w))%R.
Proof.
  intros Ht0 Ht1 H1 H2 H3 Hmax Hcap.
  unfold separation_cost. cbn [cost_value].
  repeat apply Rplus_le_le_0_compat.
  - apply Q2R_nonneg, sum_nonneg. cbn [eval]. rewrite !map_map.
    apply (Forall_zip_with (fun x => 0 <= x) (fun x => 0 <= x));
      [intros; Lqa.lra | |]; apply Forall_map_all; intros x;
      apply Qmult_le_0_compat;
      solve [Lqa.lra | apply pos_part_nonneg | apply neg_part_nonneg].
  - apply Rmult_le_pos; [now apply Q2R_nonneg | apply sqrt_pos].
  - apply Rmult_le_pos; apply Q2R_nonneg;
      [assumption | apply abs_sum_nonneg].
  - apply Rmult_le_pos; apply Q2R_nonneg; [assumption |].
    apply sum_nonneg. cbn [eval Soiling.s1].
    cbn [holds compare soiling_cap eval Soiling.s1] in Hcap.
    apply (Forall_zip_with (fun x => x = 1) (fun y => y <= soiling_max));
      [intros x y -> Hy; Lqa.lra | | exact Hcap].
    apply Forall_forall. intros x Hx. now apply repeat_spec in Hx.
Qed.

(** A candidate of zero cost that satisfies the constraints of a problem
    of [soiling_seperation] solves it. *)
Lemma zero_cost_solution observed degradation_term tau c1 c2 c3 soiling_max
      ix st p rho :
  0 <= tau -> tau <= 1 -> 0 <= c1 -> 0 <= c2 -> 0 <= c3 -> soiling_max <= 1 ->
  build_problem observed degradation_term tau c1 c2 c3 soiling_max ix st
  = Ok p ->
  well_shaped_b rho p = true ->
  feasible_b rho p = true ->
  zero_cost_b rho (objective p) = true ->
  is_solution p rho.
Proof.
  intros Ht0 Ht1 H1 H2 H3 Hmax Hp Hw Hf Hz.
  split; [now apply well_shaped_b_well_shaped |].
  split; [now apply feasible_b_feasible |].
  intros rho' _ Hf'. rewrite (zero_cost_b_zero _ _ Hz).
  apply build_problem_ok in Hp
    as (known & extra & _ & _ & _ & Hobj & Hcs & _).
  rewrite Hobj.
  apply (separation_cost_nonneg observed tau c1 c2 c3 soiling_max);
    try assumption.
  unfold feasible in Hf'. rewrite Hcs, Forall_forall in Hf'.
  apply Hf'. apply in_or_app. left. simpl. auto.
Qed.

Lemma table_solver_contract table :
  Forall (fun qr => is_solution (fst qr) (snd qr)) table ->
  solver_contract (table_solver table).
Proof.
  intros H p st rho. induction H as [| [q r] table Hq _ IH]; simpl;
    [discriminate |].
  destruct (problem_eq_dec p q) as [-> |]; [| exact IH].
  intros E. inversion E; subst. exact Hq.
Qed.

End CandidateSolutions.

Section SoilingV2.

Import Np Cvx1 Soiling Check SeparationProblem.

Variable solve : Problem -> solver_outcome.
Variable np_log10 : Q -> option Q.

Variables (observed : list (option Q)) (weights : option vector).
Variables (known_set : option (list bool)) (lmbda3 : Q).

Local Abbreviation soiling_sign := (SeparationProblem.soiling_sign observed).

Lemma build_problem_v2_ok lam1 lam2 w_cur p :
  build_problem_v2 np_log10 observed weights known_set lmbda3 lam1 lam2 w_cur
  = Ok p ->
  In soiling_sign (constraints p)
  /\ l1_penalty_variable (objective p) = Some "s3"%string
  /\ exists weighted,
       multiply_const (Var (n_v2 observed) "s1") (weights_v2 observed weights)
       = Ok weighted
       /\ objective p
          = CAdd (CAdd (CAdd
              (Norm2 weighted)
              (CScale lam1 (SumSquares (Diff 2 (Var (n_v2 observed) "s2")))))
              (CScale lam2
                 (Norm1 (Multiply (Const w_cur)
                                  (Diff 2 (Var (n_v2 observed) "s3"))))))
              (CScale lmbda3 (Norm1 (Var (n_v2 observed) "s3"))).
Proof.
  unfold build_problem_v2, diff. cbn [size]. intros H.
  apply rbind_ok in H as (weighted & Hw & H).
  destruct (Nat.leb (n_v2 observed) 2); [discriminate |]. simpl rbind in H.
  apply rbind_ok in H as (known0 & _ & H).
  apply rbind_ok in H as (known & _ & H).
  apply rbind_ok in H as (k1 & _ & H).
  apply rbind_ok in H as (k2 & _ & H).
  apply rbind_ok in H as (k3 & _ & H).
  apply rbind_ok in H as (k4 & _ & H).
  apply rbind_ok in H as (s2_late & _ & H).
  apply rbind_ok in H as (s2_early & _ & H).
  apply rbind_ok in H as (s2_year & _ & H).
  inversion H; subst; clear H. cbn [constraints objective].
  split; [simpl; auto 8 |]. split; [reflexivity |].
  exists weighted. split; [exact Hw | reflexivity].
Qed.

Lemma iteration_v2_ok lam1 lam2 st st' :
  iteration_v2 solve np_log10 observed weights known_set lmbda3 lam1 lam2 st
  = Ok st' ->
  exists p status rho,
    build_problem_v2 np_log10 observed weights known_set lmbda3 lam1 lam2
      (w st) = Ok p
    /\ solve p = Returns status (Some rho)
    /\ values st' = Some rho
    /\ w st' = reweight_v2 (np_diff 2 (rho "s1"%string)).
Proof.
  unfold iteration_v2. intros H.
  apply rbind_ok in H as (p & Hp & H).
  apply rbind_ok in H as (vals & Hs & H).
  apply rbind_ok in H as (v & Hv & H).
  apply solve_values_ok in Hs as (status & Hs).
  apply value_of_ok in Hv as (rho & Hrho & ->). simpl in Hrho. subst vals.
  inversion H; subst; clear H. exists p, status, rho. simpl. auto.
Qed.

Lemma soiling_seperation_algorithm_v2_ok iterations lmbda1 lmbda2 r1 r2 r3 r4 :
  soiling_seperation_algorithm_v2 solve np_log10 observed iterations weights
    known_set lmbda1 lmbda2 lmbda3 = Ok (r1, r2, r3, r4) ->
  exists lam1 lam2 w_cur p status rho,
    build_problem_v2 np_log10 observed weights known_set lmbda3 lam1 lam2
      w_cur = Ok p
    /\ solve p = Returns status (Some rho)
    /\ r1 = rho "s1"%string /\ r2 = rho "s2"%string
    /\ r3 = rho "s3"%string /\ r4 = rho "s4"%string.
Proof.
  unfold soiling_seperation_algorithm_v2. intros H.
  destruct (negb _); [discriminate |].
  destruct (n_v2 observed <? 2)%nat; [discriminate |].
  apply rbind_ok in H as (lam1 & _ & H).
  apply rbind_ok in H as (lam2 & _ & H).
  destruct (Nat.eqb iterations 0); [discriminate |].
  apply rbind_ok in H as (st & Hit & H).
  apply rbind_ok in H as (v1 & H1 & H).
  apply rbind_ok in H as (v2 & H2 & H).
  apply rbind_ok in H as (v3 & H3 & H).
  apply rbind_ok in H as (v4 & H4 & H).
  inversion H; subst; clear H.
  apply value_of_ok in H1 as (rho & Hrho & ->).
  apply value_of_ok in H2 as (rho2 & Hrho2 & ->).
  apply value_of_ok in H3 as (rho3 & Hrho3 & ->).
  apply value_of_ok in H4 as (rho4 & Hrho4 & ->).
  rewrite Hrho in Hrho2, Hrho3, Hrho4.
  inversion Hrho2; inversion Hrho3; inversion Hrho4; subst.
  apply iterate_last in Hit as [[_ ->] | (st' & Hbody)];
    [discriminate Hrho |].
  apply iteration_v2_ok in Hbody as (p & status & rho' & Hp & Hs & Hv & _).
  rewrite Hrho in Hv. inversion Hv; subst.
  exists lam1, lam2, (w st'), p, status, rho'. auto 10.
Qed.

End SoilingV2.

Section SoilingTrend.

Import Np Cvx1 Soiling Check SeparationProblem.

Variable solve : Problem -> solver_outcome.

(** C3, as the code has it.  In [soiling_seperation] the weights of the
    next iteration are [1 / (eps + 100 |d|)] for [d] the second differences
    of the value of [s1], the variable under the weighted L1 norm.  In
    [soiling_seperation_algorithm_v2] the variable under the weighted L1
    norm is [s3] (the soiling trend), and the weights of the next
    iteration are [1 / (eps + |d|)] for [d] the second differences of the
    value of [s1], the error term. *)
Theorem reweighting_variables :
  (forall observed degradation_term tau c1 c2 c3 soiling_max ix st st',
      iteration solve observed degradation_term tau c1 c2 c3 soiling_max ix st
      = Ok st' ->
      exists p rho,
        build_problem observed degradation_term tau c1 c2 c3 soiling_max ix st
        = Ok p
        /\ values st' = Some rho
        /\ l1_penalty_variable (objective p) = Some "s1"%string
        /\ w st' = map (fun d => 1 / ((1 # 100) + 100 * Qabs d))
                       (np_diff 2 (rho "s1"%string)))
  /\ (forall np_log10 observed weights known_set lmbda3 lam1 lam2 st st',
        iteration_v2 solve np_log10 observed weights known_set lmbda3
          lam1 lam2 st = Ok st' ->
        exists p rho,
          build_problem_v2 np_log10 observed weights known_set lmbda3
            lam1 lam2 (w st) = Ok p
          /\ values st' = Some rho
          /\ l1_penalty_variable (objective p) = Some "s3"%string
          /\ w st' = map (fun d => 1 / ((1 # 100000) + Qabs d))
                         (np_diff 2 (rho "s1"%string))).
Proof.
  split.
  - intros observed degradation_term tau c1 c2 c3 soiling_max ix st st' H.
    apply iteration_ok in H as (p & status & rho & Hp & _ & Hv & Hw & _).
    exists p, rho. repeat split; try assumption.
    apply build_problem_ok in Hp as (known & extra & _ & _ & _ & -> & _).
    reflexivity.
  - intros np_log10 observed weights known_set lmbda3 lam1 lam2 st st' H.
    apply iteration_v2_ok in H as (p & status & rho & Hp & _ & Hv & Hw).
    exists p, rho. repeat split; try assumption.
    now apply build_problem_v2_ok in Hp.
Qed.

Hypothesis solve_ok : solver_contract solve.

(** C6, as the code has it: the soiling trend [soiling_seperation] returns
    is at most [soiling_max] everywhere, and the soiling trend
    [soiling_seperation_algorithm_v2] returns (its third component) is
    nowhere positive. *)
Theorem soiling_trend_bounds :
  (forall observed index_set degradation_term tau c1 c2 c3 iterations
          soiling_max r1 r2 r3 rr,
      soiling_seperation solve observed index_set degradation_term tau c1 c2
        c3 iterations soiling_max = Ok (r1, r2, r3, rr) ->
      Forall (fun x => x <= soiling_max) r1)
  /\ (forall np_log10 observed iterations weights known_set lmbda1 lmbda2
             lmbda3 r1 r2 r3 r4,
        soiling_seperation_algorithm_v2 solve np_log10 observed iterations
          weights known_set lmbda1 lmbda2 lmbda3 = Ok (r1, r2, r3, r4) ->
        Forall (fun x => x <= 0) r3).
Proof.
  split.
  - intros observed index_set degradation_term tau c1 c2 c3 iterations
      soiling_max r1 r2 r3 rr H.
    apply soiling_seperation_ok in H
      as (ix & st & p & status & rho & _ & Hp & Hs & -> & _).
    destruct (built_problem_solution solve solve_ok _ _ _ _ _ _ _ _ _ _ _ _
                Hp Hs) as (_ & _ & _ & _ & Hcap & _).
    exact Hcap.
  - intros np_log10 observed iterations weights known_set lmbda1 lmbda2
      lmbda3 r1 r2 r3 r4 H.
    apply soiling_seperation_algorithm_v2_ok in H
      as (lam1 & lam2 & w_cur & p & status & rho & Hp & Hs & _ & _ & -> & _).
    destruct (solve_ok _ _ _ Hs) as (_ & Hfeas & _).
    apply build_problem_v2_ok in Hp as (Hin & _).
    unfold feasible in Hfeas. rewrite Forall_forall in Hfeas.
    apply (Hfeas _ Hin).
Qed.

End SoilingTrend.

Section IndexSet.

Import Np Cvx1 Soiling Check SeparationProblem.

Lemma not_nan_length observed :
  List.length (not_nan observed) = List.length observed.
Proof. unfold not_nan. apply length_map. Qed.

Lemma not_nan_nth observed i :
  nth i (not_nan observed) false = true <->
  exists q, nth i observed None = Some q.
Proof.
  revert i. induction observed as [| o observed IH]; intros [| i]; simpl.
  - split; [discriminate | intros [q H]; discriminate].
  - split; [discriminate | intros [q H]; discriminate].
  - destruct o as [q |]; split; eauto; try discriminate.
    intros [q H]; discriminate.
  - apply IH.
Qed.

Lemma zip_with_andb_nth a b i :
  nth i (Cvx.zip_with andb a b) false = nth i a false && nth i b false.
Proof.
  revert b i. induction a as [| x a IH]; intros [| y b] [| i]; simpl;
    try reflexivity; try (now rewrite ?andb_false_r); apply IH.
Qed.

(** The data of the reconstruction constraint, and what the constraint
    says, index by index. *)
Lemma reconstruction_pointwise (obs : list (option Q)) :
  forall (vals : vector) (ix : list bool) (known : vector),
    List.length vals = List.length obs ->
    List.length ix = List.length obs ->
    as_constant (mask_select obs ix) = Ok known ->
    (Forall2 Qeq known (mask_select vals ix) <->
     forall i, (i < List.length obs)%nat -> nth i ix false = true ->
       exists q, nth i obs None = Some q /\ q == nth i vals 0).
Proof.
  induction obs as [| o obs IH]; intros vals ix known Hv Hi Hk.
  - destruct vals; [| discriminate]. destruct ix; [| discriminate].
    simpl in Hk. inversion Hk; subst. simpl. split.
    + intros _ i Hlt. inversion Hlt.
    + constructor.
  - destruct vals as [| v vals]; [discriminate |].
    destruct ix as [| b ix]; [discriminate |].
    simpl in Hv, Hi. destruct b.
    + simpl in Hk. destruct o as [q |]; [| discriminate].
      apply rbind_ok in Hk as (known' & Hk' & Hk). inversion Hk; subst.
      simpl. specialize (IH vals ix known' ltac:(lia) ltac:(lia) Hk').
      split.
      * intros H. inversion H; subst. intros [| i] Hlt Hb; simpl.
        -- eauto.
        -- apply IH; [assumption | lia | assumption].
      * intros H. constructor.
        -- destruct (H 0%nat ltac:(lia) eq_refl) as (q' & Hq' & Hv').
           simpl in Hq', Hv'. inversion Hq'; subst. exact Hv'.
        -- apply IH. intros i Hlt Hb. apply (H (S i)); [lia | exact Hb].
    + simpl in Hk. simpl.
      specialize (IH vals ix known ltac:(lia) ltac:(lia) Hk). split.
      * intros H [| i] Hlt Hb; simpl in *; [discriminate |].
        apply IH; [assumption | lia | assumption].
      * intros H. apply IH. intros i Hlt Hb.
        apply (H (S i)); [lia | exact Hb].
Qed.

Lemma as_constant_known (obs : list (option Q)) :
  forall ix,
    (forall i, nth i ix false = true -> exists q, nth i obs None = Some q) ->
    exists known, as_constant (mask_select obs ix) = Ok known.
Proof.
  induction obs as [| o obs IH]; intros ix H.
  - exists []. destruct ix; reflexivity.
  - destruct ix as [| b ix]; [exists []; reflexivity |].
    destruct (IH ix (fun i Hi => H (S i) Hi)) as (known & Hk).
    destruct b; simpl; [| eauto].
    destruct (H 0%nat eq_refl) as (q & Hq). simpl in Hq. subst o.
    rewrite Hk. simpl. eauto.
Qed.

(** The reconstruction constraint heads the constraints of every problem
    built and says [observed = s1 + s2 + s3 + sr] at the indices of the
    index set. *)
Lemma reconstruction_spec observed degradation_term tau c1 c2 c3 soiling_max
      ix st p :
  build_problem observed degradation_term tau c1 c2 c3 soiling_max ix st
  = Ok p ->
  exists known rest,
    constraints p = reconstruction observed known ix :: rest
    /\ forall rho,
         well_shaped rho p ->
         (holds rho (reconstruction observed known ix) <->
          forall i, (i < n observed)%nat -> nth i ix false = true ->
            exists q,
              nth i observed None = Some q
              /\ q == nth i (rho "s1"%string) 0
                      + nth i (rho "s2"%string) 0
                      + nth i (rho "s3"%string) 0
                      + nth i (rho "sr"%string) 0).
Proof.
  intros Hp.
  apply build_problem_ok in Hp
    as (known & extra & Hn & Hlen & Hk & Hobj & Hcs & _).
  exists known. eexists. split; [exact Hcs |].
  intros rho Hshape.
  assert (Hvar : forall name k,
             In (name, k)
               (constraint_vars (reconstruction observed known ix)) ->
             List.length (rho name) = k).
  { intros name k Hin. apply Hshape. unfold variables.
    apply in_or_app. right. rewrite Hcs. apply in_flat_map.
    exists (reconstruction observed known ix).
    split; [apply in_or_app; left; now left | exact Hin]. }
  assert (L1 : List.length (rho "s1"%string) = n observed)
    by (apply Hvar; simpl; auto).
  assert (L2 : List.length (rho "s2"%string) = Nat.max (n observed) 367)
    by (apply Hvar; simpl; auto).
  assert (L3 : List.length (rho "s3"%string) = n observed)
    by (apply Hvar; simpl; auto).
  assert (Lr : List.length (rho "sr"%string) = n observed)
    by (apply Hvar; simpl; auto 6).
  unfold reconstruction. cbn [holds compare eval Soiling.s1 Soiling.s2
                              Soiling.s3 Soiling.sr].
  rewrite py_slice_upto.
  set (total := Cvx.zip_with Qplus _ _).
  assert (Lt : List.length total = List.length observed).
  { subst total. rewrite !zip_with_length, length_firstn, L1, L2, L3, Lr.
    unfold n. lia. }
  rewrite (reconstruction_pointwise observed total ix known Lt Hlen Hk).
  assert (Ht : forall i, (i < List.length observed)%nat ->
             nth i total 0
             = nth i (rho "s1"%string) 0 + nth i (rho "s2"%string) 0
               + nth i (rho "s3"%string) 0 + nth i (rho "sr"%string) 0).
  { intros i Hi. subst total. unfold n in *.
    rewrite !zip_with_nth_Q
      by (rewrite ?zip_with_length, ?length_firstn, ?L1, ?L2, ?L3, ?Lr; lia).
    rewrite nth_firstn. destruct (Nat.ltb_spec i (List.length observed));
      [reflexivity | lia]. }
  split; intros Hall i Hi Hb; destruct (Hall i Hi Hb) as (q & Hq & Hv);
    exists q; (split; [exact Hq |]).
  - rewrite <- Ht by assumption. exact Hv.
  - rewrite Ht by assumption. exact Hv.
Qed.

(** What [np.logical_and] returns when it returns. *)
Lemma logical_and_ok a b ix :
  logical_and a b = Ok ix ->
  (List.length a = List.length b /\ List.length ix = List.length b
   /\ forall i, nth i ix false = nth i a false && nth i b false)
  \/ (List.length a = 1%nat /\ List.length ix = List.length b
      /\ forall i, (i < List.length b)%nat ->
                   nth i ix false = nth 0 a false && nth i b false)
  \/ (List.length b = 1%nat /\ List.length ix = List.length a
      /\ forall i, (i < List.length a)%nat ->
                   nth i ix false = nth i a false && nth 0 b false).
Proof.
  unfold logical_and.
  destruct (Nat.eqb_spec (List.length a) (List.length b)) as [E | E].
  - intros H. inversion H; subst. left. split; [exact E |].
    split; [rewrite zip_with_length; lia |].
    intros i. apply zip_with_andb_nth.
  - intros H.
    assert (Hmap : forall (f : bool -> bool) (l : list bool) i,
               (i < List.length l)%nat ->
               nth i (map f l) false = f (nth i l false)).
    { intros f l i Hi. rewrite (nth_indep _ false (f false))
        by now rewrite length_map.
      apply map_nth. }
    destruct a as [| x [| x' a]].
    + destruct b as [| y [| y' b]]; try discriminate.
      injection H as <-. right. right. repeat split. intros i Hi.
      simpl in Hi. lia.
    + injection H as <-. right. left.
      split; [reflexivity |]. split; [apply length_map |].
      intros i Hi. now apply (Hmap (andb x)).
    + destruct b as [| y [| y' b]]; try discriminate.
      injection H as <-. right. right.
      split; [reflexivity |].
      split; [apply (length_map (fun x0 => x0 && y) (x :: x' :: a)) |].
      intros i Hi. now apply (Hmap (fun x0 => x0 && y) (x :: x' :: a)).
Qed.

(** On a series that is not of a single entry, the index set in use has
    the length of the series and selects numbers only. *)
Lemma effective_index_set_ok observed index_set ix :
  effective_index_set observed index_set = Ok ix ->
  n observed <> 1%nat ->
  List.length ix = n observed
  /\ forall i, nth i ix false = true ->
               nth i (not_nan observed) false = true.
Proof.
  intros H Hn1. unfold effective_index_set in H.
  destruct index_set as [given |].
  - apply logical_and_ok in H
      as [(E & L & Hnth) | [(E & L & Hnth) | (E & L & Hnth)]];
      rewrite not_nan_length in *.
    + split; [exact L |].
      intros i Hi. rewrite Hnth in Hi. now apply andb_true_iff in Hi.
    + split; [exact L |]. intros i Hi.
      destruct (Nat.lt_ge_cases i (n observed)) as [Hlt | Hge].
      * rewrite Hnth in Hi by exact Hlt. now apply andb_true_iff in Hi.
      * rewrite nth_overflow in Hi by (rewrite L; exact Hge). discriminate.
    + unfold n in Hn1. contradiction.
  - inversion H; subst. split; [apply not_nan_length | auto].
Qed.

End IndexSet.

(** ** The optimum of a problem of [soiling_seperation] *)

Section SeparationOptimum.

Import Np Cvx1 Soiling SeparationProblem Check.

Variable observed : list (option Q).
Variables tau c1 c2 c3 soiling_max : Q.

Local Abbreviation n := (Soiling.n observed).
Local Abbreviation s1 := (Soiling.s1 observed).
Local Abbreviation s2 := (Soiling.s2 observed).
Local Abbreviation s3 := (Soiling.s3 observed).
Local Abbreviation sr := (Soiling.sr observed).

(** The whole problem built when there is no degradation term. *)
Lemma build_problem_plain ix st p :
  build_problem observed false tau c1 c2 c3 soiling_max ix st = Ok p ->
  exists known,
    as_constant (mask_select observed ix) = Ok known
    /\ List.length ix = n
    /\ p = {| objective := separation_cost observed tau c1 c2 c3 (w st);
              constraints :=
                [reconstruction observed known ix; periodicity observed;
                 zero_mean observed; soiling_cap observed soiling_max;
                 no_degradation observed]
                ++ flat_regions observed (zero_set st)
                ++ short_series observed |}.
Proof.
  unfold build_problem, diff. rewrite size_s2_slice.
  change (size s1) with n.
  destruct (Nat.leb_spec n 2) as [| Hn]; [discriminate |]. simpl rbind.
  intros H.
  apply rbind_ok in H as (known0 & Hk0 & H).
  apply rbind_ok in H as (known & Hk & H).
  apply rbind_ok in H as (recon & Hrec & H).
  apply rbind_ok in H as (cs2 & Hcs2 & H).
  inversion H; subst; clear H.
  unfold Np.bool_index in Hk0.
  destruct (Nat.eqb_spec (List.length observed) (List.length ix)) as [Hl |];
    [| discriminate].
  inversion Hk0; subst; clear Hk0.
  apply bool_index_ok in Hrec as (_ & _ & ->).
  exists known. split; [exact Hk |]. split; [now symmetry |].
  unfold flat_regions, short_series.
  destruct (0 <? count_true (zero_set st))%nat.
  - destruct (Nat.leb n 1); simpl in Hcs2; [discriminate |].
    apply rbind_ok in Hcs2 as (flat & Hflat & Hcs2).
    apply bool_index_ok in Hflat as (_ & _ & ->). inversion Hcs2; subst.
    destruct (Qltb _ _); reflexivity.
  - inversion Hcs2; subst. destruct (Qltb _ _); reflexivity.
Qed.


Lemma sum_zero_nonneg (l : vector) :
  Forall (fun x => 0 <= x) l -> sum l == 0 -> Forall (fun x => x == 0) l.
Proof.
  induction 1 as [| x l Hx Hl IH]; simpl; intros Hs; [constructor |].
  pose proof (sum_nonneg l Hl) as Hn.
  constructor; [Lqa.lra | apply IH; Lqa.lra].
Qed.

Lemma Q2R_zero_inv q : Q2R q = 0%R -> q == 0.
Proof. intros H. apply eqR_Qeq. now rewrite RMicromega.Q2R_0. Qed.

Lemma zip_with_map2 {A : Type} (f : Q -> Q -> Q) (g h : A -> Q) (l : list A) :
  Cvx.zip_with f (map g l) (map h l) = map (fun x => f (g x) (h x)) l.
Proof. induction l as [| a l IH]; simpl; [reflexivity | now rewrite IH]. Qed.

Lemma pinball_zero (t x : Q) :
  0 < t -> t < 1 ->
  t * pos_part x + (1 - t) * neg_part x == 0 -> x == 0.
Proof.
  intros Ht0 Ht1 H.
  pose proof (pos_part_nonneg x) as Hp. pose proof (neg_part_nonneg x) as Hn.
  assert (Hpx : x <= pos_part x) by apply Q.le_max_l.
  assert (Hnx : - x <= neg_part x) by apply Q.le_max_l.
  assert (H1 : 0 <= t * pos_part x) by (apply Qmult_le_0_compat; Lqa.lra).
  assert (H2 : 0 <= (1 - t) * neg_part x)
    by (apply Qmult_le_0_compat; Lqa.lra).
  assert (E1 : t * pos_part x == 0) by Lqa.lra.
  assert (E2 : (1 - t) * neg_part x == 0) by Lqa.lra.
  apply Qmult_integral in E1 as [E1 | E1]; [Lqa.lra |].
  apply Qmult_integral in E2 as [E2 | E2]; [Lqa.lra |].
  Lqa.lra.
Qed.

Lemma pinball_nonneg (t x : Q) :
  0 <= t -> t <= 1 -> 0 <= t * pos_part x + (1 - t) * neg_part x.
Proof.
  intros Ht0 Ht1.
  pose proof (pos_part_nonneg x) as Hp. pose proof (neg_part_nonneg x) as Hn.
  assert (H1 : 0 <= t * pos_part x) by (apply Qmult_le_0_compat; Lqa.lra).
  assert (H2 : 0 <= (1 - t) * neg_part x)
    by (apply Qmult_le_0_compat; Lqa.lra).
  Lqa.lra.
Qed.

Lemma ones_minus_zero (l : vector) :
  Forall (fun x => x == 0) (Cvx.zip_with Qminus (repeat 1 (List.length l)) l) ->
  Forall (fun x => x == 1) l.
Proof.
  induction l as [| a l IH]; simpl; intros H; [constructor |].
  inversion H; subst. constructor; [Lqa.lra | now apply IH].
Qed.

Lemma ones_minus_nonneg (k : nat) (l : vector) (cap : Q) :
  cap <= 1 -> Forall (fun x => x <= cap) l ->
  Forall (fun x => 0 <= x) (Cvx.zip_with Qminus (repeat 1 k) l).
Proof.
  intros Hc Hl.
  apply (Forall_zip_with (fun x => x = 1) (fun y => y <= cap));
    [intros x y -> Hy; Lqa.lra | | exact Hl].
  apply Forall_forall. intros x Hx. now apply repeat_spec in Hx.
Qed.

(** Where some point that satisfies the constraints has cost zero, every
    solution has its soiling term at 1 and no residual. *)
Lemma optimum_values ix st p rho cand :
  0 < tau -> tau < 1 -> 0 <= c1 -> 0 < c2 -> 0 <= c3 -> soiling_max <= 1 ->
  build_problem observed false tau c1 c2 c3 soiling_max ix st = Ok p ->
  is_solution p rho ->
  well_shaped cand p -> feasible cand p ->
  cost_value cand (objective p) = 0%R ->
  Forall (fun x => x == 1) (rho "s1"%string)
  /\ Forall (fun x => x == 0) (rho "s3"%string)
  /\ Forall (fun x => x == 0) (rho "sr"%string).
Proof.
  intros Ht0 Ht1 H1 H2 H3 Hmax Hp (Hw & Hf & Hopt) Hcw Hcf Hc0.
  specialize (Hopt cand Hcw Hcf). rewrite Hc0 in Hopt.
  apply build_problem_plain in Hp as (known & _ & _ & ->).
  unfold feasible in Hf. cbn [constraints] in Hf.
  rewrite Forall_forall in Hf.
  assert (Hcap : holds rho (soiling_cap observed soiling_max))
    by (apply Hf; simpl; auto).
  assert (Hs3 : holds rho (no_degradation observed))
    by (apply Hf; simpl; auto 6).
  assert (L1 : List.length (rho "s1"%string) = n).
  { apply Hw. unfold variables. apply in_or_app. right.
    apply in_flat_map. exists (soiling_cap observed soiling_max).
    split; simpl; auto. }
  cbn [objective] in Hopt. unfold separation_cost in Hopt.
  cbn [cost_value] in Hopt.
  cbn [holds compare eval soiling_cap no_degradation Soiling.s1 Soiling.s3]
    in Hcap, Hs3.
  set (A := sum (eval rho (Add (Scale tau (Pos sr))
                               (Scale (1 - tau) (Neg sr))))) in *.
  set (B := sqrt _) in Hopt.
  set (C := sum (map Qabs _)) in Hopt.
  set (D := sum (eval rho (Sub (Promote 1 n) s1))) in *.
  assert (EA : eval rho (Add (Scale tau (Pos sr)) (Scale (1 - tau) (Neg sr)))
               = map (fun x => tau * pos_part x + (1 - tau) * neg_part x)
                     (rho "sr"%string)).
  { cbn [eval Soiling.sr]. rewrite !map_map. apply zip_with_map2. }
  assert (HA : Forall (fun x => 0 <= x)
                 (eval rho (Add (Scale tau (Pos sr))
                                (Scale (1 - tau) (Neg sr))))).
  { rewrite EA. apply Forall_map_all. intros x.
    apply pinball_nonneg; Lqa.lra. }
  assert (HD : Forall (fun x => 0 <= x) (eval rho (Sub (Promote 1 n) s1))).
  { cbn [eval Soiling.s1]. now apply (ones_minus_nonneg _ _ soiling_max). }
  assert (A0 : (0 <= Q2R A)%R) by (apply Q2R_nonneg, sum_nonneg, HA).
  assert (B0 : (0 <= Q2R c3 * B)%R)
    by (apply Rmult_le_pos; [apply Q2R_nonneg; Lqa.lra | apply sqrt_pos]).
  assert (C0 : (0 <= Q2R c1 * Q2R C)%R)
    by (apply Rmult_le_pos; apply Q2R_nonneg;
        [assumption | apply abs_sum_nonneg]).
  assert (D0 : (0 <= Q2R D)%R) by (apply Q2R_nonneg, sum_nonneg, HD).
  assert (c2pos : (0 < Q2R c2)%R)
    by (rewrite <- RMicromega.Q2R_0; now apply Qlt_Rlt).
  assert (D1 : (0 <= Q2R c2 * Q2R D)%R) by (apply Rmult_le_pos; Lra.lra).
  assert (EA0 : Q2R A = 0%R) by Lra.lra.
  assert (ED0 : (Q2R c2 * Q2R D = 0)%R) by Lra.lra.
  apply Rmult_integral in ED0 as [ED0 | ED0]; [Lra.lra |].
  apply Q2R_zero_inv in EA0, ED0.
  split; [| split].
  - apply ones_minus_zero. rewrite L1.
    apply sum_zero_nonneg; assumption.
  - exact Hs3.
  - pose proof (sum_zero_nonneg _ HA EA0) as Hz. rewrite EA in Hz.
    rewrite Forall_forall in *. intros x Hx.
    apply (pinball_zero tau); try assumption.
    apply Hz. apply in_map_iff. eauto.
Qed.


Lemma sum_all_zero (l : vector) : Forall (fun x => x == 0) l -> sum l == 0.
Proof.
  induction 1 as [| x l Hx _ IH]; simpl; [reflexivity |].
  rewrite Hx, IH. reflexivity.
Qed.

Lemma Forall_mask_select {A : Type} (P : A -> Prop) (l : list A) msk :
  Forall P l -> Forall P (mask_select l msk).
Proof.
  intros H. revert msk. induction H as [| a l Ha _ IH]; intros [| b msk];
    simpl; try constructor. destruct b; [constructor; auto | auto].
Qed.

Lemma weighted_zero (wt d : vector) :
  Forall (fun x => x == 0) d ->
  sum (map Qabs (Cvx.zip_with Qmult wt d)) == 0.
Proof.
  intros H. apply sum_all_zero. revert d H.
  induction wt as [| a wt IH]; intros d H; [constructor |].
  destruct H as [| x d Hx H]; [constructor |].
  cbn [Cvx.zip_with map]. constructor; [| now apply IH].
  rewrite Hx. setoid_replace (a * 0) with 0 by ring. reflexivity.
Qed.

(** A candidate whose soiling term has no slope, when it suits the problem
    of the first iteration at cost zero, suits the problem of every
    iteration at cost zero. *)
Lemma flat_candidate ix st st0 p p0 cand :
  build_problem observed false tau c1 c2 c3 soiling_max ix st = Ok p ->
  build_problem observed false tau c1 c2 c3 soiling_max ix st0 = Ok p0 ->
  Forall (fun x => x == 0) (np_diff 1 (cand "s1"%string)) ->
  Forall (fun x => x == 0) (np_diff 2 (cand "s1"%string)) ->
  well_shaped cand p0 -> feasible cand p0 ->
  cost_value cand (objective p0) = 0%R ->
  well_shaped cand p /\ feasible cand p
  /\ cost_value cand (objective p) = 0%R.
Proof.
  intros Hp Hp0 Hd1 Hd2 Hw0 Hf0 Hc0.
  apply build_problem_plain in Hp as (known & Hk & _ & ->).
  apply build_problem_plain in Hp0 as (known0 & Hk0 & _ & ->).
  rewrite Hk in Hk0. inversion Hk0; subst known0; clear Hk0.
  unfold feasible in *. cbn [constraints objective] in *.
  rewrite !Forall_app in *.
  destruct Hf0 as (Hbase & _ & Hshort).
  assert (Hcap : In (soiling_cap observed soiling_max)
                   [reconstruction observed known ix; periodicity observed;
                    zero_mean observed; soiling_cap observed soiling_max;
                    no_degradation observed]) by (simpl; auto).
  split; [| split].
  - intros name k Hin. apply Hw0. unfold variables in *.
    cbn [constraints objective] in *.
    rewrite !flat_map_app, !in_app_iff in *.
    destruct Hin as [Hin | [Hin | [Hin | Hin]]]; auto.
    right. left. unfold flat_regions in Hin.
    destruct (0 <? count_true (zero_set st))%nat; simpl in Hin;
      [| contradiction].
    destruct Hin as [<- | []]. apply in_flat_map.
    exists (soiling_cap observed soiling_max). split; [exact Hcap |].
    simpl. auto.
  - split; [exact Hbase |]. split; [| exact Hshort].
    unfold flat_regions. destruct (0 <? count_true (zero_set st))%nat;
      constructor; [| constructor].
    cbn [holds compare eval Soiling.s1]. now apply Forall_mask_select.
  - unfold separation_cost in *. cbn [cost_value eval Soiling.s1] in *.
    rewrite (Q2R_zero _ (weighted_zero (w st) _ Hd2)).
    rewrite (Q2R_zero _ (weighted_zero (w st0) _ Hd2)) in Hc0.
    exact Hc0.
Qed.


Lemma sum_all_equal (c : Q) (l : vector) :
  Forall (fun x => x == c) l ->
  sum l == inject_Z (Z.of_nat (List.length l)) * c.
Proof.
  induction 1 as [| x l Hx _ IH].
  - simpl. ring.
  - cbn [sum fold_right List.length]. fold (sum l). rewrite Hx, IH.
    rewrite Nat2Z.inj_succ. unfold Z.succ. rewrite inject_Z_plus. ring.
Qed.

(** With no index set given and no degradation term, a problem that has a
    flat candidate of cost zero leaves the solver no choice: the soiling
    term returned is 1 throughout, the residual and the degradation term
    are zero, and the seasonal term is the series less 1. *)
Lemma separation_forced (solve : Problem -> solver_outcome) iterations
      st0 p0 cand r1 r2 r3 rr :
  solver_contract solve ->
  0 < tau -> tau < 1 -> 0 <= c1 -> 0 < c2 -> 0 <= c3 -> soiling_max <= 1 ->
  build_problem observed false tau c1 c2 c3 soiling_max (not_nan observed) st0
  = Ok p0 ->
  well_shaped cand p0 -> feasible cand p0 ->
  cost_value cand (objective p0) = 0%R ->
  Forall (fun x => x == 0) (np_diff 1 (cand "s1"%string)) ->
  Forall (fun x => x == 0) (np_diff 2 (cand "s1"%string)) ->
  soiling_seperation solve observed None false tau c1 c2 c3 iterations
    soiling_max = Ok (r1, r2, r3, rr) ->
  Forall (fun x => x == 1) r1
  /\ List.length r1 = n
  /\ List.length r2 = n
  /\ (forall i q, nth i observed None = Some q -> nth i r2 0 == q - 1)
  /\ Forall (fun x => x == 0) r3
  /\ Forall (fun x => x == 0) rr.
Proof.
  intros Hsolve Ht0 Ht1 H1 H2 H3 Hmax Hp0 Hw0 Hf0 Hc0 Hd1 Hd2 H.
  apply soiling_seperation_ok in H
    as (ix & st & p & status & rho & Hix & Hp & Hs & -> & -> & -> & ->).
  simpl in Hix. inversion Hix; subst ix; clear Hix.
  pose proof (Hsolve _ _ _ Hs) as Hsol.
  destruct (flat_candidate _ _ _ _ _ cand Hp Hp0 Hd1 Hd2 Hw0 Hf0 Hc0)
    as (Hw & Hf & Hc).
  destruct (optimum_values _ _ _ _ _ Ht0 Ht1 H1 H2 H3 Hmax Hp Hsol Hw Hf Hc)
    as (E1 & E3 & Er).
  destruct Hsol as (Hshape & Hfeas & _).
  destruct (built_problem_solution solve Hsolve _ _ _ _ _ _ _ _ _ _ _ _ Hp Hs)
    as (L1 & L2 & _).
  destruct (reconstruction_spec _ _ _ _ _ _ _ _ _ _ Hp)
    as (known & rest & Hcs & Hrec).
  assert (Hhold : holds rho (reconstruction observed known (not_nan observed))).
  { unfold feasible in Hfeas. rewrite Hcs in Hfeas. now inversion Hfeas. }
  pose proof (proj1 (Hrec rho Hshape) Hhold) as Hpt. clear Hhold.
  split; [exact E1 |]. split; [exact L1 |].
  split; [rewrite length_firstn, L2; lia |].
  split; [| split; assumption].
  intros i q Hq.
  assert (Hi : (i < n)%nat).
  { destruct (Nat.lt_ge_cases i n) as [Hlt | Hge]; [exact Hlt |].
    rewrite nth_overflow in Hq by exact Hge. discriminate. }
  destruct (Hpt i Hi) as (q' & Hq' & Hsum).
  { apply not_nan_nth. eauto. }
  rewrite Hq in Hq'. inversion Hq'; subst q'; clear Hq'.
  rewrite nth_firstn. destruct (Nat.ltb_spec i n); [| lia].
  assert (V1 : nth i (rho "s1"%string) 0 == 1).
  { rewrite Forall_forall in E1. apply E1, nth_In. lia. }
  assert (V3 : nth i (rho "s3"%string) 0 == 0).
  { destruct (Nat.lt_ge_cases i (List.length (rho "s3"%string))).
    - rewrite Forall_forall in E3. now apply E3, nth_In.
    - now rewrite nth_overflow. }
  assert (Vr : nth i (rho "sr"%string) 0 == 0).
  { destruct (Nat.lt_ge_cases i (List.length (rho "sr"%string))).
    - rewrite Forall_forall in Er. now apply Er, nth_In.
    - now rewrite nth_overflow. }
  rewrite V1, V3, Vr in Hsum. Lqa.lra.
Qed.

End SeparationOptimum.

(** ** [soiling_seperation] returns *)

Section SeparationTotal.

Import Np Cvx1 Soiling SeparationProblem Check.

Lemma iterate_total {S : Type} (body : S -> result S) (Inv : S -> Prop) :
  (forall s, Inv s -> exists s', body s = Ok s' /\ Inv s') ->
  forall k s0, Inv s0 -> exists s, iterate k body s0 = Ok s /\ Inv s.
Proof.
  intros Hbody k. induction k as [| k IH]; intros s0 H0; simpl; [eauto |].
  destruct (Hbody s0 H0) as (s1 & -> & H1). simpl. now apply IH.
Qed.

Variable solve : Problem -> solver_outcome.
Hypothesis solve_ok : solver_contract solve.

Variables (observed : list (option Q)) (index_set : option (list bool)).
Variables (degradation_term : bool) (tau c1 c2 c3 : Q) (iterations : nat).
Variable soiling_max : Q.

(** Building the problem raises nothing on a series of three entries or
    more, short ones included, when the index set in use is not empty. *)
Lemma build_problem_total ix st :
  (3 <= n observed)%nat ->
  effective_index_set observed index_set = Ok ix ->
  (0 < count_true ix)%nat ->
  List.length (zero_set st) = (n observed - 1)%nat ->
  exists p,
    build_problem observed degradation_term tau c1 c2 c3 soiling_max ix st
    = Ok p.
Proof.
  intros Hn Hix Hne Hzs.
  destruct (effective_index_set_ok _ _ _ Hix ltac:(lia)) as (Hlen & Hnth).
  unfold build_problem, diff. rewrite size_s2_slice.
  change (size (s1 observed)) with (n observed).
  change (size (s3 observed)) with (n observed).
  destruct (Nat.leb_spec (n observed) 2) as [| _]; [lia |]. simpl rbind.
  unfold Np.bool_index. fold (n observed). rewrite Hlen, Nat.eqb_refl.
  simpl rbind.
  destruct (as_constant_known observed ix) as (known & ->).
  { intros i Hi. now apply not_nan_nth, Hnth. }
  simpl rbind. unfold bool_index at 1.
  change (size (Add (Add (Add (s1 observed)
                              (Slice None (Some (Z.of_nat (n observed)))
                                     (s2 observed)))
                         (s3 observed)) (sr observed))) with (n observed).
  rewrite Hlen, Nat.eqb_refl.
  destruct (Nat.eqb_spec (count_true ix) 0) as [| _]; [lia |]. simpl rbind.
  destruct degradation_term; simpl rbind;
    (destruct (Nat.ltb_spec 0 (count_true (zero_set st))) as [Hz |];
     [| simpl; eauto]);
    (destruct (Nat.leb_spec (n observed) 1) as [| _]; [lia |]);
    simpl rbind; unfold bool_index;
    change (size (Diff 1 (s1 observed))) with (n observed - 1)%nat;
    rewrite Hzs, Nat.eqb_refl;
    (destruct (Nat.eqb_spec (count_true (zero_set st)) 0) as [| _];
     [lia |]); simpl; eauto.
Qed.

Lemma nearly_flat_length d : List.length (nearly_flat d) = List.length d.
Proof. unfold nearly_flat. apply length_map. Qed.

(** The call returns when the series has three entries or more, the
    index set in use is not empty, the loop runs at least once and the
    solver returns values for every problem built. *)
Lemma soiling_seperation_total ix :
  (3 <= n observed)%nat -> (1 <= iterations)%nat ->
  effective_index_set observed index_set = Ok ix ->
  (0 < count_true ix)%nat ->
  (forall st p,
      build_problem observed degradation_term tau c1 c2 c3 soiling_max ix st
      = Ok p ->
      exists status rho, solve p = Returns status (Some rho)) ->
  exists r1 r2 r3 rr,
    soiling_seperation solve observed index_set degradation_term tau c1 c2 c3
      iterations soiling_max = Ok (r1, r2, r3, rr).
Proof.
  intros Hn Hit Hix Hne Hret.
  set (body := iteration solve observed degradation_term tau c1 c2 c3
                 soiling_max ix).
  assert (Hbody : forall st,
             List.length (zero_set st) = (n observed - 1)%nat ->
             exists st', body st = Ok st'
                         /\ List.length (zero_set st') = (n observed - 1)%nat).
  { intros st Hzs. unfold body, iteration.
    destruct (build_problem_total ix st Hn Hix Hne Hzs) as (p & Hp).
    rewrite Hp. simpl rbind.
    destruct (Hret st p Hp) as (status & rho & Hs).
    unfold solve_values. rewrite Hs. cbn [rbind value_of values].
    eexists. split; [reflexivity |]. cbn [zero_set].
    rewrite nearly_flat_length.
    change (diff1 (rho "s1"%string)) with (np_diff 1 (rho "s1"%string)).
    rewrite np_diff_length.
    destruct (built_problem_solution solve solve_ok _ _ _ _ _ _ _ _ _ _ _ _
                Hp Hs) as (L1 & _).
    now rewrite L1. }
  destruct (iterate_total body _ Hbody iterations
              {| w := repeat 1 (n observed - 2);
                 zero_set := repeat false (n observed - 1);
                 values := None |}) as (st & Hst & _).
  { simpl. apply repeat_length. }
  assert (Hval : exists rho, values st = Some rho).
  { apply iterate_last in Hst as [[-> _] | (st' & Hb)]; [lia |].
    apply iteration_ok in Hb as (p & status & rho & _ & _ & Hv & _). eauto. }
  destruct Hval as (rho & Hrho).
  unfold soiling_seperation. rewrite Hix. simpl rbind.
  destruct (Nat.ltb_spec (n observed) 3) as [| _]; [lia |].
  fold body. rewrite Hst. simpl rbind. unfold value_of. rewrite Hrho.
  simpl. eauto.
Qed.

End SeparationTotal.

(** ** A solver that certifies its answer *)

Section CertifyingSolver.

Import Np Cvx1 Soiling SeparationProblem Check.

Lemma Forall2_forall2b {A B : Type} (Rb : A -> B -> bool) (R : A -> B -> Prop)
      l l' :
  (forall a b, R a b -> Rb a b = true) ->
  Forall2 R l l' -> forall2b Rb l l' = true.
Proof.
  intros HR. induction 1 as [| a b l l' Hab _ IH]; simpl; [reflexivity |].
  now rewrite (HR _ _ Hab), IH.
Qed.

Lemma Forall_forallb_imp {A : Type} (Pb : A -> bool) (P : A -> Prop) l :
  (forall a, P a -> Pb a = true) -> Forall P l -> forallb Pb l = true.
Proof.
  intros HP H. apply forallb_forall. rewrite Forall_forall in H. auto.
Qed.

Lemma compare_compare_b (Rb : Q -> Q -> bool) (R : Q -> Q -> Prop) rho l r :
  (forall a b, R a b -> Rb a b = true) ->
  compare R rho l r -> compare_b Rb rho l r = true.
Proof.
  intros HR. destruct l, r; simpl; auto;
    try (apply Forall_forallb_imp; intros; now apply HR).
  now apply Forall2_forall2b.
Qed.

Lemma holds_holds_b rho c : holds rho c -> holds_b rho c = true.
Proof.
  destruct c; simpl; apply compare_compare_b.
  - intros a b. apply Qeq_bool_iff.
  - intros a b. apply Qle_bool_iff.
Qed.

Lemma feasible_feasible_b rho p : feasible rho p -> feasible_b rho p = true.
Proof. apply Forall_forallb_imp, holds_holds_b. Qed.

Lemma well_shaped_well_shaped_b rho p :
  well_shaped rho p -> well_shaped_b rho p = true.
Proof.
  unfold well_shaped_b, well_shaped. intros H.
  apply forallb_forall. intros [name k] Hin. apply Nat.eqb_eq. now apply H.
Qed.

Variable observed : list (option Q).
Variables tau c1 c2 c3 soiling_max : Q.
Variable cand : assignment.

Lemma certifying_solver_contract :
  0 <= tau -> tau <= 1 -> 0 <= c1 -> 0 <= c2 -> 0 <= c3 -> soiling_max <= 1 ->
  solver_contract (certifying_solver observed tau c1 c2 c3 soiling_max cand).
Proof.
  intros Ht0 Ht1 H1 H2 H3 Hmax p status rho. unfold certifying_solver.
  destruct (cost_eq_dec _ _) as [Hobj |]; [| discriminate].
  destruct (in_dec _ _ _) as [Hcap |]; [| discriminate].
  destruct (well_shaped_b cand p && feasible_b cand p
            && zero_cost_b cand (objective p)) eqn:E; [| discriminate].
  intros H. inversion H; subst rho; clear H.
  apply andb_true_iff in E as [E Hz]. apply andb_true_iff in E as [Hw Hf].
  split; [now apply well_shaped_b_well_shaped |].
  split; [now apply feasible_b_feasible |].
  intros rho' _ Hf'. rewrite (zero_cost_b_zero _ _ Hz), Hobj.
  apply (separation_cost_nonneg observed tau c1 c2 c3 soiling_max);
    try assumption.
  unfold feasible in Hf'. rewrite Forall_forall in Hf'. now apply Hf'.
Qed.

(** The solver answers every problem [soiling_seperation] builds, when the
    candidate has no slope and suits the problem of the first iteration. *)
Lemma certifying_solver_returns ix st st0 p p0 :
  build_problem observed false tau c1 c2 c3 soiling_max ix st = Ok p ->
  build_problem observed false tau c1 c2 c3 soiling_max ix st0 = Ok p0 ->
  Forall (fun x => x == 0) (np_diff 1 (cand "s1"%string)) ->
  Forall (fun x => x == 0) (np_diff 2 (cand "s1"%string)) ->
  well_shaped_b cand p0 = true -> feasible_b cand p0 = true ->
  zero_cost_b cand (objective p0) = true ->
  certifying_solver observed tau c1 c2 c3 soiling_max cand p
  = Returns "optimal" (Some cand).
Proof.
  intros Hp Hp0 Hd1 Hd2 Hw0 Hf0 Hz0.
  destruct (flat_candidate observed tau c1 c2 c3 soiling_max ix st st0 p p0
              cand Hp Hp0 Hd1 Hd2
              (well_shaped_b_well_shaped _ _ Hw0)
              (feasible_b_feasible _ _ Hf0)
              (zero_cost_b_zero _ _ Hz0)) as (Hw & Hf & _).
  apply well_shaped_well_shaped_b in Hw. apply feasible_feasible_b in Hf.
  apply build_problem_plain in Hp as (known & _ & _ & ->).
  apply build_problem_plain in Hp0 as (known0 & _ & _ & ->).
  assert (Hz : zero_cost_b cand
                 (separation_cost observed tau c1 c2 c3 (w st)) = true).
  { cbn [objective] in Hz0. unfold separation_cost in *.
    cbn [zero_cost_b eval Soiling.s1] in *.
    apply andb_true_iff in Hz0 as [Hz0 Z4].
    apply andb_true_iff in Hz0 as [Hz0 _].
    apply andb_true_iff in Hz0 as [Z1 Z2].
    rewrite Z1, Z2, Z4, !andb_true_r. apply Qeq_bool_iff.
    now apply weighted_zero. }
  unfold certifying_solver. cbn [objective constraints] in *.
  change (l1_weights (separation_cost observed tau c1 c2 c3 (w st)))
    with (w st).
  destruct (cost_eq_dec _ _) as [_ | Hne]; [| now contradiction Hne].
  destruct (in_dec _ _ _) as [_ | Hni];
    [| contradiction Hni; simpl; auto].
  now rewrite Hw, Hf, Hz.
Qed.

End CertifyingSolver.

(** ** The seasonal component *)

Section SeasonalComponent.

Import Np Cvx1 Soiling SeparationProblem Check.

Variable solve : Problem -> solver_outcome.
Hypothesis solve_ok : solver_contract solve.

Variables (observed : list (option Q)) (index_set : option (list bool)).
Variables (degradation_term : bool) (tau c1 c2 c3 : Q) (iterations : nat).
Variable soiling_max : Q.

(** C5, as the code has it.  The seasonal component a call returns has the
    length of the series and repeats with period 365; it is zero throughout
    when the series is shorter than 0.75 x 365; its first 365 entries sum
    to zero when the series has at least 365 entries.  And the call does
    return, short series included, when the series has three entries or
    more, the index set in use selects at least one entry, the loop runs
    at least once and the solver returns values for every problem
    built. *)
Theorem soiling_seasonal_component :
  (forall r1 r2 r3 rr,
      soiling_seperation solve observed index_set degradation_term tau c1 c2
        c3 iterations soiling_max = Ok (r1, r2, r3, rr) ->
      List.length r2 = n observed
      /\ (forall t, (t + 365 < n observed)%nat ->
            nth (t + 365) r2 0 == nth t r2 0)
      /\ ((365 <= n observed)%nat ->
          sum (py_slice None (Some 365%Z) r2) == 0)
      /\ (inject_Z (Z.of_nat (n observed)) < (75 # 100) * 365 ->
          Forall (fun x => x == 0) r2))
  /\ (forall ix,
        (3 <= n observed)%nat -> (1 <= iterations)%nat ->
        effective_index_set observed index_set = Ok ix ->
        (0 < count_true ix)%nat ->
        (forall st p,
            build_problem observed degradation_term tau c1 c2 c3 soiling_max
              ix st = Ok p ->
            exists status rho, solve p = Returns status (Some rho)) ->
        exists r1 r2 r3 rr,
          soiling_seperation solve observed index_set degradation_term tau c1
            c2 c3 iterations soiling_max = Ok (r1, r2, r3, rr)).
Proof.
  split.
  - intros r1 r2 r3 rr H.
    exact (seasonal_component_ok solve solve_ok _ _ _ _ _ _ _ _ _ _ _ _ _ H).
  - intros ix Hn Hit Hix Hne Hret.
    exact (soiling_seperation_total solve solve_ok _ _ _ _ _ _ _ _ _ ix
             Hn Hit Hix Hne Hret).
Qed.

End SeasonalComponent.

(** ** The index set [soiling_seperation] uses *)

Section IndexSetUse.

Import Np Cvx1 Soiling SeparationProblem Check.

Lemma iterate_ext {S : Type} (body body' : S -> result S) :
  (forall s, body s = body' s) ->
  forall k s, iterate k body s = iterate k body' s.
Proof.
  intros H k. induction k as [| k IH]; intros s; simpl; [reflexivity |].
  rewrite H. destruct (body' s); simpl; [apply IH | reflexivity].
Qed.

Variables (observed : list (option Q)) (index_set : option (list bool)).

(** An iteration consults the solver on the problem it has built, whose
    first constraint is the reconstruction over the index set it was
    given. *)
Lemma iteration_solver_ext degradation_term tau c1 c2 c3 soiling_max ix
      solve solve' st :
  (forall p known rest,
      constraints p = reconstruction observed known ix :: rest ->
      solve p = solve' p) ->
  iteration solve observed degradation_term tau c1 c2 c3 soiling_max ix st
  = iteration solve' observed degradation_term tau c1 c2 c3 soiling_max ix st.
Proof.
  intros H. unfold iteration.
  destruct (build_problem observed degradation_term tau c1 c2 c3 soiling_max
              ix st) as [p | e] eqn:Hp; [| reflexivity].
  apply build_problem_ok in Hp as (known & extra & _ & _ & _ & _ & Hcs & _).
  simpl rbind. unfold solve_values. now rewrite (H p known _ Hcs).
Qed.

(** C10: on a series that is not refused for its length, the index set
    [soiling_seperation] uses is the caller's (an index set of a single
    entry is broadcast), intersected with the positions where [observed]
    is a number, and those positions themselves when the caller gives
    none; it selects no NaN.  The call consults the solver on no problem
    but those whose reconstruction constraint is over this index set: two
    solvers that agree on these problems give the same outcome.  It does
    reach the solver with such a problem when the index set selects an
    entry and an iteration is asked for, even if the caller marked a NaN
    as valid.  And the reconstruction constraint of every problem built
    says [observed = s1 + s2 + s3 + sr] at the indices of the set and
    nothing at the others. *)
Theorem index_set_excludes_nan ix :
  effective_index_set observed index_set = Ok ix ->
  (3 <= n observed)%nat ->
  List.length ix = n observed
  /\ (forall i, nth i observed None = None -> nth i ix false = false)
  /\ (index_set = None -> ix = not_nan observed)
  /\ (forall given, index_set = Some given ->
        forall i, (i < n observed)%nat ->
          nth i ix false
          = nth (if Nat.eqb (List.length given) 1 then 0%nat else i) given
                false
            && nth i (not_nan observed) false)
  /\ (forall degradation_term tau c1 c2 c3 iterations soiling_max
             solve solve',
        (forall p known rest,
            constraints p = reconstruction observed known ix :: rest ->
            solve p = solve' p) ->
        soiling_seperation solve observed index_set degradation_term tau c1
          c2 c3 iterations soiling_max
        = soiling_seperation solve' observed index_set degradation_term tau
            c1 c2 c3 iterations soiling_max)
  /\ (forall degradation_term tau c1 c2 c3 iterations soiling_max,
        (1 <= iterations)%nat -> (0 < count_true ix)%nat ->
        exists p0 known rest,
          constraints p0 = reconstruction observed known ix :: rest
          /\ forall solve e,
               solve p0 = Raises e ->
               soiling_seperation solve observed index_set degradation_term
                 tau c1 c2 c3 iterations soiling_max = Raise e)
  /\ (forall degradation_term tau c1 c2 c3 soiling_max st p,
        build_problem observed degradation_term tau c1 c2 c3 soiling_max ix st
        = Ok p ->
        exists known rest,
          constraints p = reconstruction observed known ix :: rest
          /\ forall rho,
               well_shaped rho p ->
               (holds rho (reconstruction observed known ix) <->
                forall i, (i < n observed)%nat -> nth i ix false = true ->
                  exists q,
                    nth i observed None = Some q
                    /\ q == nth i (rho "s1"%string) 0
                            + nth i (rho "s2"%string) 0
                            + nth i (rho "s3"%string) 0
                            + nth i (rho "sr"%string) 0)).
Proof.
  intros H Hn.
  destruct (effective_index_set_ok _ _ _ H ltac:(lia)) as (Hlen & Hnth).
  split; [exact Hlen |].
  split; [| split; [| split; [| split; [| split]]]].
  - intros i Hi. destruct (nth i ix false) eqn:E; [| reflexivity].
    apply Hnth, not_nan_nth in E as (q & Hq). congruence.
  - intros ->. simpl in H. now inversion H.
  - intros given ->. simpl in H.
    apply logical_and_ok in H
      as [(E & _ & Hz) | [(E & _ & Hz) | (E & _ & _)]];
      rewrite not_nan_length in *; fold (n observed) in *.
    + intros i Hi. rewrite E.
      destruct (Nat.eqb_spec (n observed) 1); [lia | apply Hz].
    + intros i Hi. rewrite E. simpl. now apply Hz.
    + lia.
  - intros degradation_term tau c1 c2 c3 iterations soiling_max solve solve'
      Hagree.
    unfold soiling_seperation. rewrite H. simpl rbind.
    destruct (n observed <? 3)%nat; [reflexivity |].
    now rewrite (iterate_ext _ _
                   (fun st =>
                      iteration_solver_ext degradation_term tau c1 c2 c3
                        soiling_max ix solve solve' st Hagree)).
  - intros degradation_term tau c1 c2 c3 iterations soiling_max Hit Hne.
    destruct (build_problem_total observed index_set degradation_term tau c1
                c2 c3 soiling_max ix
                {| w := repeat 1 (n observed - 2);
                   zero_set := repeat false (n observed - 1);
                   values := None |} Hn H Hne) as (p0 & Hp0);
      [apply repeat_length |].
    pose proof Hp0 as Hp0'.
    apply build_problem_ok in Hp0'
      as (known & extra & _ & _ & _ & _ & Hcs & _).
    exists p0, known. eexists. split; [exact Hcs |].
    intros solve e Hs. unfold soiling_seperation. rewrite H. simpl rbind.
    destruct (Nat.ltb_spec (n observed) 3); [lia |].
    destruct iterations as [| k]; [lia |].
    cbn [iterate]. unfold iteration at 1. rewrite Hp0. simpl rbind.
    unfold solve_values. rewrite Hs. reflexivity.
  - intros degradation_term tau c1 c2 c3 soiling_max st p Hp.
    exact (reconstruction_spec _ _ _ _ _ _ _ _ _ _ Hp).
Qed.

End IndexSetUse.

Section SoilingExampleProofs.

Import Np Cvx1 Soiling Check SoilingExamples SeparationProblem.

Lemma nonneg_form_nonneg t rho :
  nonneg_form t = true -> (0 <= cost_value rho t)%R.
Proof.
  induction t as [e | e | e | e | c t IH | a IHa b IHb]; simpl; intros H;
    try discriminate.
  - apply Q2R_nonneg, squares_nonneg.
  - apply Q2R_nonneg, abs_sum_nonneg.
  - apply sqrt_pos.
  - apply andb_true_iff in H as [Hc Ht]. apply Qle_bool_iff in Hc.
    apply Rmult_le_pos; [now apply Q2R_nonneg | now apply IH].
  - apply andb_true_iff in H as [Ha Hb].
    apply Rplus_le_le_0_compat; auto.
Qed.

Lemma nonneg_zero_cost_solution p rho :
  nonneg_form (objective p) = true ->
  well_shaped_b rho p = true ->
  feasible_b rho p = true ->
  zero_cost_b rho (objective p) = true ->
  is_solution p rho.
Proof.
  intros Hn Hw Hf Hz.
  split; [now apply well_shaped_b_well_shaped |].
  split; [now apply feasible_b_feasible |].
  intros rho' _ _. rewrite (zero_cost_b_zero _ _ Hz).
  now apply nonneg_form_nonneg.
Qed.

(** The default arguments are in the ranges [zero_cost_solution] asks. *)
Lemma default_zero_cost_solution observed st rho :
  build_problem observed false (85 # 100) 2 (1 # 100) 100 1
    (not_nan observed) st = Ok (default_problem observed st) ->
  well_shaped_b rho (default_problem observed st) = true ->
  feasible_b rho (default_problem observed st) = true ->
  zero_cost_b rho (objective (default_problem observed st)) = true ->
  is_solution (default_problem observed st) rho.
Proof.
  apply zero_cost_solution; unfold Qle; simpl; lia.
Qed.

Lemma solver_examples_contract : solver_contract solver_examples.
Proof.
  apply table_solver_contract.
  repeat (apply Forall_cons || apply Forall_nil); cbn [fst snd].
  - apply default_zero_cost_solution; vm_compute; reflexivity.
  - apply default_zero_cost_solution; vm_compute; reflexivity.
  - apply nonneg_zero_cost_solution; vm_compute; reflexivity.
  - apply nonneg_zero_cost_solution; vm_compute; reflexivity.
Qed.

Lemma solver_outlier_contract : solver_contract solver_outlier.
Proof.
  apply table_solver_contract.
  repeat (apply Forall_cons || apply Forall_nil); cbn [fst snd].
  - apply nonneg_zero_cost_solution; vm_compute; reflexivity.
  - apply nonneg_zero_cost_solution; vm_compute; reflexivity.
Qed.

Lemma solver_300_days_contract :
  solver_contract (default_solver pi_300_days solution_300_days).
Proof.
  apply table_solver_contract.
  repeat (apply Forall_cons || apply Forall_nil); cbn [fst snd].
  - apply default_zero_cost_solution; vm_compute; reflexivity.
  - apply default_zero_cost_solution; vm_compute; reflexivity.
Qed.

Lemma all_zero_b (l : vector) :
  forallb (fun x => Qeq_bool x 0) l = true -> Forall (fun x => x == 0) l.
Proof.
  apply forallb_Forall_imp. intros a. apply Qeq_bool_iff.
Qed.

Lemma certifying_three_days_contract : solver_contract certifying_three_days.
Proof.
  apply certifying_solver_contract; unfold Qle; simpl; lia.
Qed.

(** [certifying_three_days] answers every problem built for
    [pi_three_days]. *)
Lemma certifying_three_days_returns st p :
  build_problem pi_three_days false (85 # 100) 2 (1 # 100) 100 1
    (not_nan pi_three_days) st = Ok p ->
  certifying_three_days p = Returns "optimal" (Some solution_three_days).
Proof.
  intros Hp.
  apply (certifying_solver_returns pi_three_days (85 # 100) 2 (1 # 100) 100 1
           solution_three_days (not_nan pi_three_days) st (state_before 3) p
           (default_problem pi_three_days (state_before 3)) Hp);
    try (vm_compute; reflexivity); apply all_zero_b; vm_compute; reflexivity.
Qed.

Lemma certifying_366_days_contract : solver_contract certifying_366_days.
Proof.
  apply certifying_solver_contract; unfold Qle; simpl; lia.
Qed.

(** [certifying_366_days] answers every problem built for
    [pi_366_days]. *)
Lemma certifying_366_days_returns st p :
  build_problem pi_366_days false (85 # 100) 2 (1 # 100) 100 1
    (not_nan pi_366_days) st = Ok p ->
  certifying_366_days p = Returns "optimal" (Some solution_366_days).
Proof.
  intros Hp.
  apply (certifying_solver_returns pi_366_days (85 # 100) 2 (1 # 100) 100 1
           solution_366_days (not_nan pi_366_days) st (state_before 366) p
           (default_problem pi_366_days (state_before 366)) Hp);
    try (vm_compute; reflexivity); apply all_zero_b; vm_compute; reflexivity.
Qed.

(** Whatever the solver, as long as it meets its contract: on
    [pi_three_days] the soiling term returned is 1. *)
Lemma three_days_forced solve iterations r1 r2 r3 rr :
  solver_contract solve ->
  soiling_seperation solve pi_three_days None false (85 # 100) 2 (1 # 100)
    100 iterations 1 = Ok (r1, r2, r3, rr) ->
  Forall (fun x => x == 1) r1 /\ List.length r1 = 3%nat.
Proof.
  intros Hsolve H.
  assert (Hforced :
            Forall (fun x => x == 1) r1
            /\ List.length r1 = n pi_three_days
            /\ List.length r2 = n pi_three_days
            /\ (forall i q, nth i pi_three_days None = Some q ->
                            nth i r2 0 == q - 1)
            /\ Forall (fun x => x == 0) r3
            /\ Forall (fun x => x == 0) rr).
  { apply (separation_forced pi_three_days (85 # 100) 2 (1 # 100) 100 1
             solve iterations (state_before 3)
             (default_problem pi_three_days (state_before 3))
             solution_three_days r1 r2 r3 rr Hsolve);
      try (unfold Qle, Qlt; simpl; lia); try exact H;
      try (vm_compute; reflexivity);
      try (apply well_shaped_b_well_shaped; vm_compute; reflexivity);
      try (apply feasible_b_feasible; vm_compute; reflexivity);
      try (apply zero_cost_b_zero; vm_compute; reflexivity);
      apply all_zero_b; vm_compute; reflexivity. }
  destruct Hforced as (E1 & L1 & _).
  split; [exact E1 | exact L1].
Qed.

(** On [pi_300_days] the seasonal term returned is 1 on all 300 days. *)
Lemma days_300_forced solve iterations r1 r2 r3 rr :
  solver_contract solve ->
  soiling_seperation solve pi_300_days None false (85 # 100) 2 (1 # 100)
    100 iterations 1 = Ok (r1, r2, r3, rr) ->
  Forall (fun x => x == 1) r2 /\ List.length r2 = 300%nat.
Proof.
  intros Hsolve H.
  assert (Hforced :
            Forall (fun x => x == 1) r1
            /\ List.length r1 = n pi_300_days
            /\ List.length r2 = n pi_300_days
            /\ (forall i q, nth i pi_300_days None = Some q ->
                            nth i r2 0 == q - 1)
            /\ Forall (fun x => x == 0) r3
            /\ Forall (fun x => x == 0) rr).
  { apply (separation_forced pi_300_days (85 # 100) 2 (1 # 100) 100 1
             solve iterations (state_before 300)
             (default_problem pi_300_days (state_before 300))
             solution_300_days r1 r2 r3 rr Hsolve);
      try (unfold Qle, Qlt; simpl; lia); try exact H;
      try (vm_compute; reflexivity);
      try (apply well_shaped_b_well_shaped; vm_compute; reflexivity);
      try (apply feasible_b_feasible; vm_compute; reflexivity);
      try (apply zero_cost_b_zero; vm_compute; reflexivity);
      apply all_zero_b; vm_compute; reflexivity. }
  destruct Hforced as (_ & _ & L2 & E2 & _).
  change (n pi_300_days) with 300%nat in L2. split; [| exact L2].
  apply Forall_forall. intros x Hx.
  destruct (In_nth _ _ 0 Hx) as (i & Hi & <-).
  rewrite (E2 i 2); [reflexivity |].
  unfold pi_300_days. apply nth_repeat_lt. lia.
Qed.

End SoilingExampleProofs.

Section SoilingWitnesses.

Import Np Cvx1 Soiling Check SoilingExamples SeparationProblem.

Lemma soiling_seasonal_component_witness :
  solver_contract certifying_366_days
  /\ soiling_seperation certifying_366_days pi_366_days None false
       (85 # 100) 2 (1 # 100) 100 5 1
     = Ok (repeat 1 366, repeat 0 366, repeat 0 366, repeat 0 366)
  /\ (0 + 365 < n pi_366_days)%nat
  /\ (365 <= n pi_366_days)%nat
  /\ (List.length (repeat 0 366) = n pi_366_days
      /\ (forall t, (t + 365 < n pi_366_days)%nat ->
            nth (t + 365) (repeat 0 366) 0 == nth t (repeat 0 366) 0)
      /\ ((365 <= n pi_366_days)%nat ->
          sum (py_slice None (Some 365%Z) (repeat 0 366)) == 0)
      /\ (inject_Z (Z.of_nat (n pi_366_days)) < (75 # 100) * 365 ->
          Forall (fun x => x == 0) (repeat 0 366)))
  /\ (0 < count_true (not_nan pi_366_days))%nat
  /\ (forall st p,
        build_problem pi_366_days false (85 # 100) 2 (1 # 100) 100 1
          (not_nan pi_366_days) st = Ok p ->
        exists status rho,
          certifying_366_days p = Returns status (Some rho))
  /\ exists r1 r2 r3 rr,
       soiling_seperation certifying_366_days pi_366_days None false
         (85 # 100) 2 (1 # 100) 100 5 1 = Ok (r1, r2, r3, rr).
Proof.
  assert (Hrun : soiling_seperation certifying_366_days pi_366_days None
                   false (85 # 100) 2 (1 # 100) 100 5 1
                 = Ok (repeat 1 366, repeat 0 366, repeat 0 366,
                       repeat 0 366))
    by (vm_compute; reflexivity).
  assert (Hret : forall st p,
             build_problem pi_366_days false (85 # 100) 2 (1 # 100) 100 1
               (not_nan pi_366_days) st = Ok p ->
             exists status rho,
               certifying_366_days p = Returns status (Some rho)).
  { intros st p Hp. rewrite (certifying_366_days_returns st p Hp). eauto. }
  assert (Hne : (0 < count_true (not_nan pi_366_days))%nat)
    by (vm_compute; lia).
  assert (Hn : (3 <= n pi_366_days)%nat) by (vm_compute; lia).
  destruct (soiling_seasonal_component certifying_366_days
              certifying_366_days_contract pi_366_days None false
              (85 # 100) 2 (1 # 100) 100 5 1) as [HA HB].
  split; [exact certifying_366_days_contract |].
  split; [exact Hrun |].
  split; [vm_compute; lia |]. split; [vm_compute; lia |].
  split; [exact (HA _ _ _ _ Hrun) |].
  split; [exact Hne |].
  split; [exact Hret |].
  apply (HB (not_nan pi_366_days) Hn); [lia | reflexivity | exact Hne |].
  exact Hret.
Defined.

(** C5 as stated fails for a series of 300 days (between 0.75 x 365 and
    365).  With a performance index of 2 throughout and the default
    arguments, a solver that meets its contract returns a seasonal
    component equal to 1 on all 300 days: the zero-sum constraint is over
    the first 365 entries of a variable of 367, of which only 300 are
    returned.  No solver that meets its contract can return anything else
    on this series. *)
Lemma soiling_seasonal_component_counterexample :
  solver_contract (default_solver pi_300_days solution_300_days)
  /\ soiling_seperation (default_solver pi_300_days solution_300_days)
       pi_300_days None false (85 # 100) 2 (1 # 100) 100 5 1
     = Ok (repeat 1 300, repeat 1 300, repeat 0 300, repeat 0 300)
  /\ ~ inject_Z (Z.of_nat (n pi_300_days)) < (75 # 100) * 365
  /\ sum (py_slice None (Some 365%Z) (repeat 1 300)) == 300 # 1
  /\ ~ sum (py_slice None (Some 365%Z) (repeat 1 300)) == 0
  /\ (forall solve iterations r1 r2 r3 rr,
        solver_contract solve ->
        soiling_seperation solve pi_300_days None false (85 # 100) 2
          (1 # 100) 100 iterations 1 = Ok (r1, r2, r3, rr) ->
        sum (py_slice None (Some 365%Z) r2) == 300 # 1).
Proof.
  split; [exact solver_300_days_contract |].
  split; [vm_compute; reflexivity |].
  split; [vm_compute; discriminate |].
  split; [vm_compute; reflexivity |].
  split; [vm_compute; discriminate |].
  intros solve iterations r1 r2 r3 rr Hsolve H.
  destruct (days_300_forced solve iterations r1 r2 r3 rr Hsolve H)
    as (E2 & L2).
  rewrite py_slice_upto_365, firstn_all2 by lia.
  rewrite (sum_all_equal 1 r2 E2), L2. reflexivity.
Qed.

(** C3 as stated fails in [soiling_seperation_algorithm_v2].  On a year
    and a day of a performance index of 1 with an outlier of 10 on day
    100 that the caller weights with zero, a solver that meets its
    contract returns the outlier in the error term [s1] and a soiling
    trend [s3] equal to zero.  The weights of the next iteration are
    [1 / (eps + |d|)] for [d] the second differences of [s1]: around the
    outlier they are about 1, 1/2 and 1, where the second differences of
    the soiling trend would give 100000 everywhere; and they are the
    weights of the L1 norm of the second differences of [s3] in the
    problem of the second iteration. *)
Lemma reweighting_variables_counterexample :
  solver_contract solver_outlier
  /\ (exists st' p rho,
        iteration_v2 solver_outlier log10_exact pi_outlier
          (Some weights_outlier) None (1 # 100000) 500 (1 # 10)
          (state_before 366) = Ok st'
        /\ build_problem_v2 log10_exact pi_outlier (Some weights_outlier)
             None (1 # 100000) 500 (1 # 10) (w (state_before 366)) = Ok p
        /\ values st' = Some rho
        /\ is_solution p rho
        /\ l1_penalty_variable (objective p) = Some "s3"%string
        /\ w st' = map (fun d => 1 / ((1 # 100000) + Qabs d))
                       (np_diff 2 (rho "s1"%string))
        /\ nth 98 (w st') 0 == 100000 # 100001
        /\ nth 99 (w st') 0 == 100000 # 200001
        /\ nth 100 (w st') 0 == 100000 # 100001
        /\ Forall (fun x => x == 100000 # 1)
             (map (fun d => 1 / ((1 # 100000) + Qabs d))
                  (np_diff 2 (rho "s3"%string)))
        /\ w st' <> map (fun d => 1 / ((1 # 100000) + Qabs d))
                        (np_diff 2 (rho "s3"%string))
        /\ exists p2,
             build_problem_v2 log10_exact pi_outlier (Some weights_outlier)
               None (1 # 100000) 500 (1 # 10) (w st') = Ok p2
             /\ exists rest,
                  objective p2
                  = CAdd (CAdd rest
                      (CScale (1 # 10)
                         (Norm1 (Multiply (Const (w st'))
                                          (Diff 2 (Var 366 "s3"))))))
                      (CScale (1 # 100000) (Norm1 (Var 366 "s3"))))
  /\ soiling_seperation_algorithm_v2 solver_outlier log10_exact pi_outlier
       2 (Some weights_outlier) None 500 (1 # 10) (1 # 100000)
     = Ok (solution_outlier "s1"%string, repeat 0 366, repeat 0 366,
           repeat 0 366).
Proof.
  split; [exact solver_outlier_contract |].
  split; [| vm_compute; reflexivity].
  exists {| w := reweight_v2 (np_diff 2 (solution_outlier "s1"%string));
            zero_set := repeat false 365;
            values := Some solution_outlier |},
    (problem_outlier (repeat 1 364)), solution_outlier.
  split; [vm_compute; reflexivity |].
  split; [vm_compute; reflexivity |].
  split; [reflexivity |].
  split; [apply nonneg_zero_cost_solution; vm_compute; reflexivity |].
  split; [reflexivity |].
  split; [reflexivity |].
  split; [vm_compute; reflexivity |].
  split; [vm_compute; reflexivity |].
  split; [vm_compute; reflexivity |].
  split;
    [apply (forallb_Forall_imp (fun x => Qeq_bool x (100000 # 1)));
     [intros a; apply Qeq_bool_iff | vm_compute; reflexivity] |].
  split.
  - intros H. apply (f_equal (fun l => nth 99 l 0)) in H.
    vm_compute in H. discriminate H.
  - exists (problem_outlier
              (reweight_v2 (np_diff 2 (solution_outlier "s1"%string)))).
    split; [vm_compute; reflexivity |].
    eexists. vm_compute. reflexivity.
Qed.

Lemma soiling_trend_bounds_witness :
  solver_contract solver_examples
  /\ soiling_seperation solver_examples pi_three_days None false (85 # 100) 2
       (1 # 100) 100 5 1 = Ok ([1; 1; 1], [0; 0; 0], [0; 0; 0], [0; 0; 0])
  /\ soiling_seperation_algorithm_v2 solver_examples log10_exact pi_366_days
       5 None None 500 (1 # 10) (1 # 100000)
     = Ok (repeat 0 366, repeat 0 366, repeat 0 366, repeat 0 366)
  /\ Forall (fun x => x <= 1) [1; 1; 1]
  /\ Forall (fun x => x <= 0) (repeat 0 366).
Proof.
  assert (H1 : soiling_seperation solver_examples pi_three_days None false
                 (85 # 100) 2 (1 # 100) 100 5 1
               = Ok ([1; 1; 1], [0; 0; 0], [0; 0; 0], [0; 0; 0]))
    by (vm_compute; reflexivity).
  assert (H2 : soiling_seperation_algorithm_v2 solver_examples log10_exact
                 pi_366_days 5 None None 500 (1 # 10) (1 # 100000)
               = Ok (repeat 0 366, repeat 0 366, repeat 0 366, repeat 0 366))
    by (vm_compute; reflexivity).
  destruct (soiling_trend_bounds solver_examples solver_examples_contract)
    as [B1 B2].
  split; [exact solver_examples_contract |].
  split; [exact H1 |]. split; [exact H2 |]. split.
  - exact (B1 _ _ _ _ _ _ _ _ _ _ _ _ _ H1).
  - exact (B2 _ _ _ _ _ _ _ _ _ _ _ _ H2).
Defined.

(** C6 as stated fails in [soiling_seperation]: with a performance index
    of 1 on three days and the default arguments, a solver that meets its
    contract returns a soiling trend equal to 1, which is positive; and no
    solver that meets its contract can return anything else on this
    series. *)
Lemma soiling_trend_bounds_counterexample :
  solver_contract solver_examples
  /\ soiling_seperation solver_examples pi_three_days None false (85 # 100)
       2 (1 # 100) 100 5 1
     = Ok ([1; 1; 1], [0; 0; 0], [0; 0; 0], [0; 0; 0])
  /\ Forall (fun x => 0 < x) [1; 1; 1]
  /\ ~ Forall (fun x => x <= 0) [1; 1; 1]
  /\ (forall solve iterations r1 r2 r3 rr,
        solver_contract solve ->
        soiling_seperation solve pi_three_days None false (85 # 100) 2
          (1 # 100) 100 iterations 1 = Ok (r1, r2, r3, rr) ->
        Forall (fun x => x == 1) r1 /\ ~ Forall (fun x => x <= 0) r1).
Proof.
  split; [exact solver_examples_contract |].
  split; [vm_compute; reflexivity |]. split; [| split].
  - repeat constructor.
  - intros H. inversion H as [| x l Hx _]. vm_compute in Hx. now apply Hx.
  - intros solve iterations r1 r2 r3 rr Hsolve H.
    destruct (three_days_forced solve iterations r1 r2 r3 rr Hsolve H)
      as (E1 & L1).
    split; [exact E1 |]. intros Hneg.
    destruct r1 as [| x r1]; [discriminate L1 |].
    inversion E1 as [| ? ? Hx1 _]; subst.
    inversion Hneg as [| ? ? Hx0 _]; subst.
    rewrite Hx1 in Hx0. vm_compute in Hx0. now apply Hx0.
Qed.

Lemma index_set_excludes_nan_witness :
  effective_index_set pi_with_nan (Some given_index_set)
  = Ok [true; false; false; true]
  /\ (3 <= n pi_with_nan)%nat
  /\ (forall i, nth i pi_with_nan None = None ->
                nth i [true; false; false; true] false = false)
  /\ soiling_seperation (table_solver []) pi_with_nan (Some given_index_set)
       false (85 # 100) 2 (1 # 100) 100 5 1
     = Raise (SolverError "Solver 'MOSEK' failed.").
Proof.
  assert (H : effective_index_set pi_with_nan (Some given_index_set)
              = Ok [true; false; false; true]) by reflexivity.
  assert (Hn : (3 <= n pi_with_nan)%nat) by (vm_compute; lia).
  destruct (index_set_excludes_nan pi_with_nan (Some given_index_set) _ H Hn)
    as (_ & Hnan & _ & _ & _ & Hreach & _).
  split; [exact H |]. split; [exact Hn |]. split; [exact Hnan |].
  destruct (Hreach false (85 # 100) 2 (1 # 100) 100 5%nat 1 ltac:(lia)
              ltac:(vm_compute; lia)) as (p0 & known & rest & _ & Hraise).
  apply Hraise. reflexivity.
Defined.

End SoilingWitnesses.

(** * Further properties of the code *)

(** ** More on resampling *)

Section ResamplingEdges.

Import Np Interp Resample Knots Examples.

Lemma foldM_raise {A B : Type} (f : B -> A -> result B) (e : exn)
      (l : list A) :
  (forall b a, In a l -> (exists b', f b a = Ok b') \/ f b a = Raise e) ->
  (exists a, In a l /\ forall b, f b a = Raise e) ->
  forall b, foldM f l b = Raise e.
Proof.
  induction l as [| a l IH]; intros Hall (a0 & Hin & Ha0) b;
    [destruct Hin |].
  simpl. destruct (Hall b a (or_introl eq_refl)) as [(b' & Hb) | Hb];
    rewrite Hb; simpl; [| reflexivity].
  apply IH.
  - intros b2 a2 H2. apply Hall. now right.
  - destruct Hin as [-> | Hin].
    + rewrite Ha0 in Hb. discriminate.
    + exists a0. auto.
Qed.

(** The resampled trace of a day is its masked samples interpolated onto
    the grid. *)
Lemma resampled_signal_back data mask N j :
  shape0 data = shape0 mask -> has_col mask j = true ->
  resampled_signal data mask N j
  = back_interpolated (mask_select (col 0 data j) (col false mask j)) N.
Proof.
  intros Hs Hc. unfold resampled_signal, back_interpolated.
  rewrite get_col_has by exact Hc. simpl rbind. unfold bool_index.
  rewrite !col_length. unfold shape0 in Hs. rewrite Hs, Nat.eqb_refl.
  simpl rbind.
  rewrite mask_select_length by now rewrite !col_length. reflexivity.
Qed.

(** Without a knot [interp1d] refuses to build the interpolant. *)
Lemma back_interpolated_empty n_pts :
  back_interpolated [] n_pts = Raise ValueError.
Proof. reflexivity. Qed.

(** A single knot sits at 0: the interpolant can be evaluated there and
    nowhere else. *)
Lemma back_interpolated_single v n_pts :
  back_interpolated [v] n_pts
  = if (n_pts <=? 1)%nat then Ok (repeat v n_pts) else Raise ValueError.
Proof.
  destruct n_pts as [| [| k]]; reflexivity.
Qed.

Lemma pow2_le_1 power : (2 ^ power <=? 1)%nat = (power =? 0)%nat.
Proof.
  destruct power as [| k]; [reflexivity |].
  simpl Nat.eqb. apply Nat.leb_gt.
  change (2 ^ S k)%nat with (2 * 2 ^ k)%nat.
  pose proof (Nat.pow_nonzero 2 k ltac:(lia)). lia.
Qed.

Lemma batch_column_outcome data mask power j :
  shape0 data = shape0 mask -> has_col mask j = true ->
  if (2 <=? count_true (col false mask j))%nat
     || ((count_true (col false mask j) =? 1)%nat && (power =? 0)%nat)
  then exists column, batch_column data mask (2 ^ power) j = Ok column
  else batch_column data mask (2 ^ power) j = Raise ValueError.
Proof.
  intros Hs Hc. unfold batch_column.
  rewrite resampled_signal_back by assumption.
  assert (Hl : List.length (mask_select (col 0 data j) (col false mask j))
               = count_true (col false mask j))
    by (apply mask_select_length; rewrite !col_length; exact Hs).
  destruct (mask_select (col 0 data j) (col false mask j)) as [| v [| v' y]].
  - rewrite <- Hl. reflexivity.
  - rewrite <- Hl. cbn [List.length Nat.leb Nat.eqb orb andb].
    rewrite back_interpolated_single, pow2_le_1.
    destruct (power =? 0)%nat; [| reflexivity].
    simpl rbind. destruct (Qltb 0 _); eauto.
  - destruct (back_interpolated_total (v :: v' :: y) (2 ^ power))
      as (back & ->); [simpl; lia |].
    rewrite <- Hl. cbn [List.length Nat.leb orb]. simpl rbind.
    destruct (Qltb 0 _); eauto.
Qed.

Lemma forallb_false_exists {A : Type} (f : A -> bool) (l : list A) :
  forallb f l = false -> exists a, In a l /\ f a = false.
Proof.
  induction l as [| a l IH]; [discriminate |]. simpl.
  destruct (f a) eqn:E; simpl; intros H.
  - destruct (IH H) as (a' & Hin & Ha'). eauto.
  - eauto.
Qed.

Lemma has_col_data_shape (data : matrix) (mask : bmatrix) j :
  has_shape (shape0 data) (shape1 data) mask -> (j < shape1 data)%nat ->
  has_col mask j = true.
Proof.
  intros Hm Hj.
  rewrite (has_col_shape (shape0 data) (shape1 data) mask j Hm).
  - now apply Nat.ltb_lt.
  - destruct data; simpl in *; lia.
Qed.

(** [batch_process] returns when every day has two daytime samples or
    more, or has one and [power] is 0. *)
Lemma batch_process_returns data mask power :
  has_shape (shape0 data) (shape1 data) mask ->
  forallb (fun j =>
             (2 <=? count_true (col false mask j))%nat
             || ((count_true (col false mask j) =? 1)%nat
                 && (power =? 0)%nat))
    (seq 0 (shape1 data)) = true ->
  exists out, batch_process data mask power = Ok out.
Proof.
  intros Hm E.
  assert (Hs : shape0 data = shape0 mask) by (symmetry; apply Hm).
  rewrite forallb_forall in E. unfold batch_process.
  destruct (foldM_total (fun _ => True)
              (fun output col_ix =>
                 column <- batch_column data mask (2 ^ power) col_ix ;;
                 Ok (set_col output col_ix column))
              (seq 0 (shape1 data)))
    with (b := zeros (2 ^ power) (shape1 data))
    as (out & Hout & _); [| exact I | eauto].
  intros b j Hj _. apply in_seq in Hj.
  pose proof (batch_column_outcome data mask power j Hs
                (has_col_data_shape data mask j Hm ltac:(lia))) as Hc.
  pose proof (E j ltac:(apply in_seq; lia)) as Ej. cbv beta in Ej.
  rewrite Ej in Hc. destruct Hc as (v & ->). simpl. eauto.
Qed.

(** Otherwise it raises [ValueError] at the first day that cannot be
    resampled. *)
Lemma batch_process_raises data mask power :
  has_shape (shape0 data) (shape1 data) mask ->
  forallb (fun j =>
             (2 <=? count_true (col false mask j))%nat
             || ((count_true (col false mask j) =? 1)%nat
                 && (power =? 0)%nat))
    (seq 0 (shape1 data)) = false ->
  batch_process data mask power = Raise ValueError.
Proof.
  intros Hm E.
  assert (Hs : shape0 data = shape0 mask) by (symmetry; apply Hm).
  apply forallb_false_exists in E as (j & Hj & Hbad).
  unfold batch_process. apply foldM_raise.
  - intros b a Ha. apply in_seq in Ha.
    pose proof (batch_column_outcome data mask power a Hs
                  (has_col_data_shape data mask a Hm ltac:(lia))) as Hc.
    clear Hbad. destruct (orb _ _).
    + left. destruct Hc as (v & ->). simpl. eauto.
    + right. now rewrite Hc.
  - exists j. split; [exact Hj |]. intros b. apply in_seq in Hj.
    pose proof (batch_column_outcome data mask power j Hs
                  (has_col_data_shape data mask j Hm ltac:(lia))) as Hc.
    cbv beta in Hbad. rewrite Hbad in Hc. now rewrite Hc.
Qed.

(** X1: on a mask of the shape of the data, [batch_process] returns an
    array of [2 ^ power] rows and one column per day when every day has
    two daytime samples or more, or has one and [power] is 0 (the grid is
    then the single point 0, where the single knot sits); otherwise it
    raises [ValueError]: from [interp1d] for a day without a daytime
    sample, from the evaluation of the interpolant off its single knot
    for a day with one. *)
Theorem batch_process_returns_or_raises data mask power :
  has_shape (shape0 data) (shape1 data) mask ->
  if forallb (fun j =>
                (2 <=? count_true (col false mask j))%nat
                || ((count_true (col false mask j) =? 1)%nat
                    && (power =? 0)%nat))
       (seq 0 (shape1 data))
  then exists out,
         batch_process data mask power = Ok out
         /\ has_shape (2 ^ power) (shape1 data) out
  else batch_process data mask power = Raise ValueError.
Proof.
  intros Hm. destruct (forallb _ _) eqn:E.
  - destruct (batch_process_returns data mask power Hm E) as (out & Hout).
    exists out. split; [exact Hout |].
    now apply batch_process_columns in Hout.
  - now apply batch_process_raises.
Qed.

Lemma batch_process_returns_or_raises_witness :
  has_shape (shape0 day_4samples) (shape1 day_4samples) mask_4samples
  /\ (exists out,
         batch_process day_4samples mask_4samples 8 = Ok out
         /\ has_shape (2 ^ 8) 1 out)
  /\ batch_process [[1; 1]; [2; 0]] [[true; true]; [true; false]] 8
     = Raise ValueError
  /\ (exists out,
         batch_process [[1; 1]; [2; 0]] [[true; true]; [true; false]] 0
         = Ok out
         /\ has_shape (2 ^ 0) 2 out)
  /\ batch_process [[1; 1]; [2; 0]] [[true; true]; [true; false]] 0
     = Ok [[3; 1]].
Proof.
  assert (H1 : has_shape (shape0 day_4samples) (shape1 day_4samples)
                 mask_4samples)
    by (split; [reflexivity | repeat constructor]).
  assert (H2 : has_shape (shape0 [[1; 1]; [2; 0]]) (shape1 [[1; 1]; [2; 0]])
                 [[true; true]; [true; false]])
    by (split; [reflexivity | repeat constructor]).
  split; [exact H1 |]. split; [| split; [| split]].
  - exact (batch_process_returns_or_raises day_4samples mask_4samples 8 H1).
  - exact (batch_process_returns_or_raises [[1; 1]; [2; 0]]
             [[true; true]; [true; false]] 8 H2).
  - exact (batch_process_returns_or_raises [[1; 1]; [2; 0]]
             [[true; true]; [true; false]] 0 H2).
  - vm_compute. reflexivity.
Defined.

Lemma undo_batch_process_untouched data mask r c out :
  has_shape r c mask -> (0 < r)%nat -> (shape1 data <= c)%nat ->
  undo_batch_process data mask = Ok out ->
  forall j, (shape1 data <= j)%nat -> col 0 out j = repeat 0 r.
Proof.
  intros Hm Hr Hc H. unfold undo_batch_process in H.
  assert (Hs1 : shape1 mask = c) by (eapply has_shape_shape1; eauto).
  assert (Hs0 : shape0 mask = r) by apply Hm.
  rewrite Hs1, Hs0 in H.
  rewrite (foldM_ext _
             (fun output j =>
                column <- (resampled <- undo_signal data mask j ;;
                           bool_assign (col 0 output j) (col false mask j)
                                       resampled) ;;
                Ok (set_col output j column))) in H
    by (intros; now rewrite rbind_assoc).
  apply (foldM_columns
           (fun old j => resampled <- undo_signal data mask j ;;
                         bool_assign old (col false mask j) resampled)
           r c) in H.
  - destruct H as (_ & _ & Hout). intros j Hj.
    rewrite Hout by (rewrite in_seq; lia). apply col_zeros.
  - intros old j v Hold Hg. apply rbind_ok in Hg as (back & _ & Ha).
    unfold bool_assign in Ha.
    destruct (_ && _); inversion Ha. now rewrite mask_put_length.
  - apply zeros_shape.
  - apply seq_NoDup.
  - intros j Hj. apply in_seq in Hj. lia.
Qed.

(** What [undo_batch_process] leaves in the columns of the surface, once
    it has returned. *)
Lemma undo_batch_process_written data mask r c out :
  has_shape r c mask -> (0 < r)%nat -> (shape1 data <= c)%nat ->
  undo_batch_process data mask = Ok out ->
  forall j, (j < shape1 data)%nat ->
    back_interpolated (col 0 data j) (count_true (col false mask j))
    = Ok (mask_select (col 0 out j) (col false mask j))
    /\ forall i, nth i (col false mask j) false = false ->
                 nth i (col 0 out j) 0 = 0.
Proof.
  intros Hm Hr Hc Hout j Hj.
  destruct (undo_batch_process_columns data mask r c out Hm Hr Hc Hout)
    as (Hs & Hcols).
  destruct (Hcols j Hj) as (back & Hback & Hlen & Hcol).
  apply undo_signal_ok in Hback as (_ & Hback). rewrite Hcol. split.
  - rewrite mask_select_put; [exact Hback | | exact Hlen].
    rewrite repeat_length, col_length. symmetry. apply Hm.
  - intros i Hi. rewrite mask_put_outside by assumption.
    destruct (Nat.lt_ge_cases i r) as [Hlt | Hge].
    + now apply nth_repeat_lt.
    + apply nth_overflow. now rewrite repeat_length.
Qed.

(** X2: on a surface of two rows or more and a mask with at least as many
    columns, [undo_batch_process] returns an array of the shape of the
    mask.  In a column of the surface, the masked positions hold, in order,
    the column's linear interpolant on [n_pts] evenly spaced points, and
    the other positions are zero; the columns of the mask beyond the
    surface's are zero. *)
Theorem undo_batch_process_layout data mask r c :
  has_shape r c mask -> (0 < r)%nat -> (shape1 data <= c)%nat ->
  (2 <= shape0 data)%nat ->
  exists out,
    undo_batch_process data mask = Ok out
    /\ has_shape r c out
    /\ (forall j, (j < shape1 data)%nat ->
          back_interpolated (col 0 data j) (count_true (col false mask j))
          = Ok (mask_select (col 0 out j) (col false mask j))
          /\ forall i, nth i (col false mask j) false = false ->
                       nth i (col 0 out j) 0 = 0)
    /\ (forall j, (shape1 data <= j)%nat -> col 0 out j = repeat 0 r).
Proof.
  intros Hm Hr Hc Hd.
  destruct (undo_batch_process_total data mask r c Hm Hr Hc Hd)
    as (out & Hout).
  exists out. split; [exact Hout |].
  split; [now apply (undo_batch_process_columns data mask r c out) |].
  split.
  - now apply (undo_batch_process_written data mask r c out).
  - now apply (undo_batch_process_untouched data mask r c out).
Qed.

Lemma undo_batch_process_layout_witness :
  has_shape 4 1 mask_4samples
  /\ exists out,
       undo_batch_process [[1]; [2]; [4]] mask_4samples = Ok out
       /\ has_shape 4 1 out
       /\ (forall j, (j < 1)%nat ->
             back_interpolated (col 0 [[1]; [2]; [4]] j)
               (count_true (col false mask_4samples j))
             = Ok (mask_select (col 0 out j) (col false mask_4samples j))
             /\ forall i, nth i (col false mask_4samples j) false = false ->
                          nth i (col 0 out j) 0 = 0)
       /\ (forall j, (1 <= j)%nat -> col 0 out j = repeat 0 4).
Proof.
  assert (Hm : has_shape 4 1 mask_4samples)
    by (split; [reflexivity | repeat constructor]).
  split; [exact Hm |].
  apply (undo_batch_process_layout [[1]; [2]; [4]] mask_4samples 4 1 Hm);
    simpl; lia.
Defined.

(** The loop body of [undo_batch_process] on a surface of a single row:
    the single knot serves a day of at most one daytime sample. *)
Lemma undo_signal_single_row (data : matrix) (mask : bmatrix) j :
  shape0 data = 1%nat -> has_col mask j = true ->
  undo_signal data mask j
  = if (count_true (col false mask j) <=? 1)%nat
    then Ok (repeat (nth j (hd [] data) 0) (count_true (col false mask j)))
    else Raise ValueError.
Proof.
  intros Hd Hc. rewrite undo_signal_back by exact Hc.
  destruct data as [| row [| row' data]]; try discriminate.
  apply back_interpolated_single.
Qed.

(** X3: on a surface of a single row (the output of [batch_process] with
    [power = 0]) and a mask with at least as many columns,
    [undo_batch_process] returns when every day of the surface has at
    most one daytime sample: the masked position of a day holds the day's
    entry of the row, every other position is zero.  As soon as one day
    has two daytime samples or more it raises [ValueError], the
    interpolant being evaluated off its single knot. *)
Theorem undo_batch_process_single_row data mask r c :
  shape0 data = 1%nat ->
  has_shape r c mask -> (0 < r)%nat -> (shape1 data <= c)%nat ->
  if forallb (fun j => (count_true (col false mask j) <=? 1)%nat)
       (seq 0 (shape1 data))
  then exists out,
         undo_batch_process data mask = Ok out
         /\ has_shape r c out
         /\ (forall j, (j < shape1 data)%nat ->
               mask_select (col 0 out j) (col false mask j)
               = repeat (nth j (hd [] data) 0)
                        (count_true (col false mask j))
               /\ forall i, nth i (col false mask j) false = false ->
                            nth i (col 0 out j) 0 = 0)
         /\ (forall j, (shape1 data <= j)%nat -> col 0 out j = repeat 0 r)
  else undo_batch_process data mask = Raise ValueError.
Proof.
  intros Hd Hm Hr Hc.
  assert (Hcol : forall j, (j < shape1 data)%nat -> has_col mask j = true).
  { intros j Hj. rewrite (has_col_shape r c mask j Hm Hr).
    apply Nat.ltb_lt. lia. }
  assert (Hbody : forall (b : matrix) j,
             (j < shape1 data)%nat ->
             undo_signal data mask j
             = if (count_true (col false mask j) <=? 1)%nat
               then Ok (repeat (nth j (hd [] data) 0)
                               (count_true (col false mask j)))
               else Raise ValueError).
  { intros b j Hj. apply undo_signal_single_row; auto. }
  destruct (forallb _ _) eqn:E.
  - assert (Hout : exists out, undo_batch_process data mask = Ok out).
    { unfold undo_batch_process.
      destruct (foldM_total (has_shape (shape0 mask) (shape1 mask))
                  (fun output col_ix =>
                     resampled <- undo_signal data mask col_ix ;;
                     column <- bool_assign (col 0 output col_ix)
                                 (col false mask col_ix) resampled ;;
                     Ok (set_col output col_ix column))
                  (seq 0 (shape1 data)))
        with (b := zeros (shape0 mask) (shape1 mask))
        as (out & Hout & _); [| apply zeros_shape | eauto].
      intros b j Hj Hb. rewrite forallb_forall in E.
      rewrite (Hbody b j) by (apply in_seq in Hj; lia).
      rewrite (E j Hj). simpl rbind. unfold bool_assign.
      rewrite !col_length.
      replace (List.length b) with (List.length mask) by (symmetry; apply Hb).
      rewrite Nat.eqb_refl, repeat_length, Nat.eqb_refl. simpl.
      eexists. split; [reflexivity |]. now apply set_col_shape. }
    destruct Hout as (out & Hout). exists out. split; [exact Hout |].
    split; [now apply (undo_batch_process_columns data mask r c out) |].
    split; [| now apply (undo_batch_process_untouched data mask r c out)].
    intros j Hj.
    destruct (undo_batch_process_written data mask r c out Hm Hr Hc Hout
                j Hj) as (Hback & Hzero).
    split; [| exact Hzero].
    rewrite <- undo_signal_back, (Hbody out j Hj) in Hback by auto.
    rewrite forallb_forall in E.
    rewrite (E j) in Hback by (apply in_seq; lia).
    injection Hback as <-. reflexivity.
  - apply forallb_false_exists in E as (j & Hj & Hbad).
    unfold undo_batch_process. apply foldM_raise.
    + intros b a Ha. rewrite (Hbody b a) by (apply in_seq in Ha; lia).
      destruct (count_true (col false mask a) <=? 1)%nat;
        [| right; reflexivity].
      simpl rbind. unfold bool_assign. destruct (_ && _); simpl; eauto.
    + exists j. split; [exact Hj |]. intros b.
      rewrite (Hbody b j) by (apply in_seq in Hj; lia).
      now rewrite Hbad.
Qed.

Lemma undo_batch_process_single_row_witness :
  shape0 [[16]] = 1%nat
  /\ has_shape 4 1 [[true]; [false]; [false]; [false]]
  /\ (exists B,
        batch_process day_4samples mask_4samples 0 = Ok B
        /\ shape0 B = 1%nat
        /\ has_shape 4 1 mask_4samples
        /\ undo_batch_process B mask_4samples = Raise ValueError)
  /\ undo_batch_process [[16]] [[true]; [false]; [false]; [false]]
     = Ok [[16]; [0]; [0]; [0]]
  /\ exists out,
       undo_batch_process [[16]] [[true]; [false]; [false]; [false]] = Ok out
       /\ has_shape 4 1 out
       /\ (forall j, (j < 1)%nat ->
             mask_select (col 0 out j)
               (col false [[true]; [false]; [false]; [false]] j)
             = repeat (nth j (hd [] [[16]]) 0)
                 (count_true
                    (col false [[true]; [false]; [false]; [false]] j))
             /\ forall i,
                  nth i (col false [[true]; [false]; [false]; [false]] j)
                      false = false ->
                  nth i (col 0 out j) 0 = 0)
       /\ (forall j, (1 <= j)%nat -> col 0 out j = repeat 0 4).
Proof.
  assert (Hm : has_shape 4 1 [[true]; [false]; [false]; [false]])
    by (split; [reflexivity | repeat constructor]).
  assert (Hm' : has_shape 4 1 mask_4samples)
    by (split; [reflexivity | repeat constructor]).
  split; [reflexivity |]. split; [exact Hm |]. split; [| split].
  - eexists. split; [vm_compute; reflexivity |].
    split; [reflexivity |]. split; [exact Hm' |].
    match goal with
    | |- undo_batch_process ?B _ = _ =>
        exact (undo_batch_process_single_row B mask_4samples 4 1 eq_refl
                 Hm' ltac:(lia) ltac:(simpl; lia))
    end.
  - vm_compute. reflexivity.
  - exact (undo_batch_process_single_row [[16]]
             [[true]; [false]; [false]; [false]] 4 1 eq_refl Hm
             ltac:(lia) ltac:(simpl; lia)).
Defined.

End ResamplingEdges.

(** ** Linear interpolation stays between its knots *)

Section InterpolationBounds.

Import Np Interp Resample Knots Examples.

Lemma searchsorted_le (xs : vector) x :
  (searchsorted xs x <= List.length xs)%nat.
Proof.
  induction xs as [| a xs IH]; simpl; [lia |].
  destruct (Qltb a x); simpl; lia.
Qed.

Lemma searchsorted_before (xs : vector) x k :
  (k < searchsorted xs x)%nat -> nth k xs 0 < x.
Proof.
  revert k. induction xs as [| a xs IH]; simpl; intros k Hk; [lia |].
  destruct (Qltb a x) eqn:E; [| lia].
  destruct k as [| k]; [now apply Qltb_lt | apply IH; lia].
Qed.

Lemma searchsorted_at (xs : vector) x :
  (searchsorted xs x < List.length xs)%nat ->
  x <= nth (searchsorted xs x) xs 0.
Proof.
  induction xs as [| a xs IH]; simpl; intros H; [lia |].
  destruct (Qltb a x) eqn:E.
  - apply IH. lia.
  - apply Qltb_false in E. now apply Qnot_lt_le.
Qed.

Lemma increasing_lt (xs : vector) i j :
  increasing xs -> (i < j)%nat -> (j < List.length xs)%nat ->
  nth i xs 0 < nth j xs 0.
Proof.
  intros Hinc Hij Hj. induction j as [| j IH]; [lia |].
  destruct (Nat.eq_dec i j) as [-> | Hne].
  - apply Hinc. exact Hj.
  - apply Qlt_trans with (nth j xs 0); [apply IH; lia | apply Hinc; exact Hj].
Qed.

(** The segment [interp_value] picks for a point within the knots
    holds the point. *)
Lemma segment_holds_point (xs : vector) x :
  increasing xs -> (2 <= List.length xs)%nat ->
  nth 0 xs 0 <= x -> x <= nth (List.length xs - 1) xs 0 ->
  let hi := clip (searchsorted xs x) 1 (List.length xs - 1) in
  (1 <= hi)%nat /\ (hi < List.length xs)%nat
  /\ nth (hi - 1) xs 0 <= x /\ x <= nth hi xs 0
  /\ nth (hi - 1) xs 0 < nth hi xs 0.
Proof.
  intros Hinc Hlen H0 H1. cbv zeta. unfold clip.
  pose proof (searchsorted_le xs x) as Hle.
  assert (Hlt : (searchsorted xs x < List.length xs)%nat).
  { destruct (Nat.eq_dec (searchsorted xs x) (List.length xs)) as [E |];
      [| lia].
    exfalso.
    assert (Hb : nth (List.length xs - 1) xs 0 < x)
      by (apply searchsorted_before; lia).
    apply (Qlt_not_le _ _ Hb H1). }
  destruct (Nat.eq_dec (searchsorted xs x) 0) as [E0 | E0].
  - rewrite E0. replace (Nat.min (Nat.max 0 1) (List.length xs - 1)) with 1%nat
      by lia.
    pose proof (searchsorted_at xs x Hlt) as Hat. rewrite E0 in Hat.
    assert (H01 : nth 0 xs 0 < nth 1 xs 0) by (apply Hinc; lia).
    simpl Nat.sub. repeat split; try lia; try assumption.
    apply Qle_trans with (nth 0 xs 0); [exact Hat | now apply Qlt_le_weak].
  - replace (Nat.min (Nat.max (searchsorted xs x) 1) (List.length xs - 1))
      with (searchsorted xs x) by lia.
    repeat split; try lia.
    + apply Qlt_le_weak, searchsorted_before. lia.
    + now apply searchsorted_at.
    + apply increasing_lt; [exact Hinc | lia | exact Hlt].
Qed.

Lemma map_fst_combine (xs ys : vector) :
  List.length xs = List.length ys -> map fst (combine xs ys) = xs.
Proof.
  revert ys. induction xs as [| x xs IH]; intros [| y ys] H;
    try discriminate; [reflexivity |].
  simpl. f_equal. apply IH. simpl in H. lia.
Qed.

Lemma nth_combine (xs ys : vector) i :
  List.length xs = List.length ys ->
  nth i (combine xs ys) (0, 0) = (nth i xs 0, nth i ys 0).
Proof.
  revert ys i. induction xs as [| x xs IH]; intros [| y ys] [| i] H;
    try discriminate; try reflexivity.
  simpl. apply IH. simpl in H. lia.
Qed.

Lemma between_knots (a b y_lo y_hi x_lo x_hi x : Q) :
  a <= y_lo -> y_lo <= b -> a <= y_hi -> y_hi <= b ->
  x_lo <= x -> x <= x_hi -> x_lo < x_hi ->
  a <= (y_hi - y_lo) / (x_hi - x_lo) * (x - x_lo) + y_lo
  /\ (y_hi - y_lo) / (x_hi - x_lo) * (x - x_lo) + y_lo <= b.
Proof.
  intros Ha1 Hb1 Ha2 Hb2 Hx1 Hx2 Hlt.
  set (t := (x - x_lo) / (x_hi - x_lo)).
  assert (Hd : 0 < x_hi - x_lo) by Lqa.lra.
  assert (Ht0 : 0 <= t).
  { unfold t. apply Qle_shift_div_l; [exact Hd | Lqa.lra]. }
  assert (Ht1 : t <= 1).
  { unfold t. apply Qle_shift_div_r; [exact Hd | Lqa.lra]. }
  assert (E : (y_hi - y_lo) / (x_hi - x_lo) * (x - x_lo) + y_lo
              == (1 - t) * y_lo + t * y_hi).
  { unfold t. field. Lqa.lra. }
  rewrite E.
  assert (P1 : 0 <= (1 - t) * (y_lo - a))
    by (apply Qmult_le_0_compat; Lqa.lra).
  assert (P2 : 0 <= t * (y_hi - a)) by (apply Qmult_le_0_compat; Lqa.lra).
  assert (P3 : 0 <= (1 - t) * (b - y_lo))
    by (apply Qmult_le_0_compat; Lqa.lra).
  assert (P4 : 0 <= t * (b - y_hi)) by (apply Qmult_le_0_compat; Lqa.lra).
  split.
  - setoid_replace ((1 - t) * y_lo + t * y_hi)
      with ((1 - t) * (y_lo - a) + t * (y_hi - a) + a) by ring.
    Lqa.lra.
  - setoid_replace ((1 - t) * y_lo + t * y_hi)
      with (b - ((1 - t) * (b - y_lo) + t * (b - y_hi))) by ring.
    Lqa.lra.
Qed.

(** Between knots whose abscissae increase, the interpolant takes no value
    outside the range of the ordinates. *)
Lemma interp_value_bounds (xs ys : vector) (a b x : Q) :
  increasing xs -> List.length xs = List.length ys ->
  (2 <= List.length xs)%nat ->
  nth 0 xs 0 <= x -> x <= nth (List.length xs - 1) xs 0 ->
  Forall (fun y => a <= y /\ y <= b) ys ->
  a <= interp_value (combine xs ys) x /\ interp_value (combine xs ys) x <= b.
Proof.
  intros Hinc Hl H2 H0 H1 Hy. unfold interp_value.
  rewrite map_fst_combine by exact Hl.
  rewrite length_combine, <- Hl, Nat.min_id.
  destruct (segment_holds_point xs x Hinc H2 H0 H1)
    as (Hhi1 & Hhi2 & Hlo & Hup & Hlt).
  set (hi := clip (searchsorted xs x) 1 (List.length xs - 1)) in *.
  rewrite !nth_combine by exact Hl.
  rewrite Forall_forall in Hy.
  assert (Hylo : a <= nth (hi - 1) ys 0 /\ nth (hi - 1) ys 0 <= b)
    by (apply Hy, nth_In; lia).
  assert (Hyhi : a <= nth hi ys 0 /\ nth hi ys 0 <= b)
    by (apply Hy, nth_In; lia).
  apply between_knots; tauto.
Qed.


Lemma call_values f pts out :
  call f pts = Ok out -> out = map (np_interp (knots f)) pts.
Proof.
  unfold call. revert out. induction pts as [| x pts IH]; simpl; intros out H.
  - now inversion H.
  - apply rbind_ok in H as (b & Hb & H).
    apply rbind_ok in H as (bs & Hbs & H). inversion H; subst; clear H.
    rewrite (IH bs Hbs). f_equal. unfold call1 in Hb.
    destruct (out_of_bounds _ _); [discriminate | now inversion Hb].
Qed.

(** With two knots or more [np.interp] is the line of the segment. *)
Lemma np_interp_value (kn : list (Q * Q)) x :
  (2 <= List.length kn)%nat -> np_interp kn x = interp_value kn x.
Proof.
  destruct kn as [| p [| q kn]]; simpl List.length; intros H; try lia.
  destruct p. reflexivity.
Qed.

(** What [back_interpolated] returns for two knots or more. *)
Lemma back_interpolated_values (ys out : vector) n_pts :
  (2 <= List.length ys)%nat ->
  back_interpolated ys n_pts = Ok out ->
  out = map (interp_value (combine (linspace 0 1 (List.length ys)) ys))
            (linspace 0 1 n_pts).
Proof.
  unfold back_interpolated. intros H2 H.
  apply rbind_ok in H as (f & Hf & H). apply call_values in H. subst out.
  unfold interp1d in Hf. rewrite linspace_length, Nat.eqb_refl in Hf.
  simpl in Hf. destruct (Nat.ltb_spec (List.length ys) 1) as [| H1];
    [discriminate |].
  injection Hf as <-. cbn [knots].
  rewrite sort_knots_increasing
    by (try apply linspace_increasing; now rewrite linspace_length).
  apply map_ext. intros x. apply np_interp_value.
  rewrite length_combine, linspace_length. lia.
Qed.

Lemma hd_as_nth (l : vector) : hd 0 l = nth 0 l 0.
Proof. destruct l; reflexivity. Qed.

(** An interpolant through ordinates within [[a, b]], over knots spread
    on [[0, 1]], stays within [[a, b]] on every grid of [[0, 1]]. *)
Lemma back_interpolated_bounds (ys : vector) n_pts out a b :
  back_interpolated ys n_pts = Ok out ->
  Forall (fun y => a <= y /\ y <= b) ys ->
  Forall (fun y => a <= y /\ y <= b) out.
Proof.
  intros H Hy.
  destruct (Nat.le_gt_cases 2 (List.length ys)) as [H2 | H2].
  2:{ destruct ys as [| y [| y' ys]]; [discriminate | | simpl in H2; lia].
      rewrite back_interpolated_single in H.
      destruct (n_pts <=? 1)%nat; [| discriminate]. injection H as <-.
      apply Forall_forall. intros v Hv. apply repeat_spec in Hv. subst v.
      now inversion Hy. }
  apply back_interpolated_values in H; [| exact H2]. subst out.
  apply Forall_forall. intros v Hv.
  apply in_map_iff in Hv as (x & <- & Hx).
  apply linspace_range in Hx as [H0 H1].
  apply interp_value_bounds; try assumption.
  - apply linspace_increasing.
  - now rewrite linspace_length.
  - now rewrite linspace_length.
  - rewrite <- hd_as_nth, linspace_first by lia. exact H0.
  - rewrite <- last_as_nth, linspace_last by lia. exact H1.
Qed.

Lemma resampled_signal_ok data mask N j r :
  shape0 data = shape0 mask ->
  resampled_signal data mask N j = Ok r ->
  back_interpolated (mask_select (col 0 data j) (col false mask j)) N = Ok r.
Proof.
  intros Hs H. rewrite <- (resampled_signal_back data mask N j Hs);
    [exact H |].
  unfold resampled_signal in H. apply rbind_ok in H as (msk & Hmsk & _).
  now apply get_col_ok in Hmsk.
Qed.

Lemma le_sum_nonneg (l : vector) :
  Forall (fun x => 0 <= x) l -> Forall (fun x => 0 <= x /\ x <= sum l) l.
Proof.
  induction 1 as [| x l Hx Hl IH]; [constructor |].
  assert (Hs : 0 <= sum l) by now apply sum_nonneg.
  simpl. constructor; [split; Lqa.lra |].
  rewrite Forall_forall in *. intros y Hy. specialize (IH y Hy). Lqa.lra.
Qed.

(** X4: power data that is nowhere negative gives a resampled surface
    that is nowhere negative. *)
Theorem batch_process_nonneg data mask power out :
  shape0 data = shape0 mask ->
  (forall j, (j < shape1 data)%nat -> Forall (fun x => 0 <= x) (col 0 data j)) ->
  batch_process data mask power = Ok out ->
  forall j, (j < shape1 data)%nat -> Forall (fun x => 0 <= x) (col 0 out j).
Proof.
  intros Hs Hpos H j Hj.
  apply batch_process_columns in H as [_ H]. specialize (H j Hj).
  unfold batch_column in H. apply rbind_ok in H as (r & Hr & H).
  apply (resampled_signal_ok data mask _ j r Hs) in Hr.
  assert (Hy : Forall (fun x => 0 <= x)
                 (mask_select (col 0 data j) (col false mask j)))
    by (apply Forall_mask_select, Hpos, Hj).
  pose proof (back_interpolated_bounds _ _ _ _ _ Hr (le_sum_nonneg _ Hy))
    as Hrb.
  pose proof (sum_nonneg _ (Hpos j Hj)) as He.
  destruct (Qltb 0 (sum r)) eqn:E; inversion H as [Hcol]; clear H.
  - apply Qltb_lt in E. apply Forall_forall. intros v Hv.
    apply in_map_iff in Hv as (x & <- & Hx).
    rewrite Forall_forall in Hrb. destruct (Hrb x Hx) as [Hx0 _].
    apply Qle_shift_div_l; [exact E |]. rewrite Qmult_0_l.
    now apply Qmult_le_0_compat.
  - apply Forall_forall. intros v Hv. apply repeat_spec in Hv. subst v.
    apply Qle_refl.
Qed.

Lemma batch_process_nonneg_witness :
  exists out,
    batch_process day_4samples mask_4samples 2 = Ok out
    /\ forall j, (j < shape1 day_4samples)%nat ->
                 Forall (fun x => 0 <= x) (col 0 out j).
Proof.
  eexists. split; [vm_compute; reflexivity |].
  apply (batch_process_nonneg day_4samples mask_4samples 2);
    [reflexivity | | vm_compute; reflexivity].
  intros j Hj. simpl in Hj. assert (j = 0%nat) by lia. subst j.
  repeat constructor; unfold Qle; simpl; lia.
Defined.


Lemma searchsorted_is (xs : vector) x k :
  (k < List.length xs)%nat ->
  (forall i, (i < k)%nat -> nth i xs 0 < x) ->
  ~ nth k xs 0 < x ->
  searchsorted xs x = k.
Proof.
  revert k. induction xs as [| a xs IH]; simpl; intros k Hk Hb Ha; [lia |].
  destruct k as [| k].
  - apply Qltb_false in Ha. now rewrite Ha.
  - assert (E : Qltb a x = true) by (apply Qltb_lt, (Hb 0%nat); lia).
    rewrite E. f_equal. apply IH; [lia | | exact Ha].
    intros i Hi. apply (Hb (S i)). lia.
Qed.

(** The interpolant passes through its first and its last knot. *)
Lemma interp_value_first (xs ys : vector) x :
  List.length xs = List.length ys -> (2 <= List.length xs)%nat ->
  x == nth 0 xs 0 ->
  interp_value (combine xs ys) x == nth 0 ys 0.
Proof.
  intros Hl H2 Hx. unfold interp_value.
  rewrite map_fst_combine by exact Hl.
  rewrite length_combine, <- Hl, Nat.min_id.
  rewrite (searchsorted_is xs x 0); [| lia | intros i Hi; lia |].
  - unfold clip. replace (Nat.min (Nat.max 0 1) (List.length xs - 1))
      with 1%nat by lia.
    simpl Nat.sub. rewrite !nth_combine by exact Hl.
    rewrite Hx. setoid_replace (nth 0 xs 0 - nth 0 xs 0) with 0 by ring.
    ring.
  - rewrite Hx. apply Qlt_irrefl.
Qed.

Lemma interp_value_last (xs ys : vector) x :
  increasing xs -> List.length xs = List.length ys ->
  (2 <= List.length xs)%nat ->
  x == nth (List.length xs - 1) xs 0 ->
  interp_value (combine xs ys) x == nth (List.length xs - 1) ys 0.
Proof.
  intros Hinc Hl H2 Hx. unfold interp_value.
  rewrite map_fst_combine by exact Hl.
  rewrite length_combine, <- Hl, Nat.min_id.
  rewrite (searchsorted_is xs x (List.length xs - 1)); [| lia | |].
  - unfold clip.
    replace (Nat.min (Nat.max (List.length xs - 1) 1) (List.length xs - 1))
      with (List.length xs - 1)%nat by lia.
    rewrite !nth_combine by exact Hl.
    assert (Hlt : nth (List.length xs - 1 - 1) xs 0
                  < nth (List.length xs - 1) xs 0)
      by (apply increasing_lt; [exact Hinc | lia | lia]).
    rewrite Hx. field. Lqa.lra.
  - intros i Hi. rewrite Hx. apply increasing_lt; [exact Hinc | lia | lia].
  - rewrite Hx. apply Qlt_irrefl.
Qed.

Lemma back_interpolated_ends (ys out : vector) n_pts :
  back_interpolated ys n_pts = Ok out ->
  List.length out = n_pts
  /\ ((1 <= n_pts)%nat -> nth 0 out 0 == nth 0 ys 0)
  /\ ((2 <= n_pts)%nat ->
      nth (n_pts - 1) out 0 == nth (List.length ys - 1) ys 0).
Proof.
  intros H.
  destruct (Nat.le_gt_cases 2 (List.length ys)) as [H2 | H2].
  2:{ destruct ys as [| y [| y' ys]]; [discriminate | | simpl in H2; lia].
      rewrite back_interpolated_single in H.
      destruct (Nat.leb_spec n_pts 1) as [Hn |]; [| discriminate].
      injection H as <-.
      split; [apply repeat_length |]. split; [| lia].
      intros H1. assert (n_pts = 1%nat) as -> by lia. reflexivity. }
  apply back_interpolated_values in H; [| exact H2]. subst out.
  split; [now rewrite length_map, linspace_length |].
  assert (Hnth : forall i, (i < n_pts)%nat ->
             nth i (map (interp_value
                           (combine (linspace 0 1 (List.length ys)) ys))
                        (linspace 0 1 n_pts)) 0
             = interp_value (combine (linspace 0 1 (List.length ys)) ys)
                 (nth i (linspace 0 1 n_pts) 0)).
  { intros i Hi.
    rewrite (nth_indep _ 0
               (interp_value (combine (linspace 0 1 (List.length ys)) ys) 0))
      by (now rewrite length_map, linspace_length).
    apply map_nth. }
  split.
  - intros H1. rewrite Hnth by lia. apply interp_value_first.
    + now rewrite linspace_length.
    + now rewrite linspace_length.
    + rewrite <- !hd_as_nth, !linspace_first by lia. reflexivity.
  - intros Hn. rewrite Hnth by lia.
    rewrite <- (linspace_length 0 1 (List.length ys)) at 2.
    apply interp_value_last.
    + apply linspace_increasing.
    + now rewrite linspace_length.
    + now rewrite linspace_length.
    + rewrite <- (linspace_length 0 1 n_pts) at 1.
      rewrite <- !last_as_nth, !linspace_last by lia. reflexivity.
Qed.

(** X5: the inverse mapping keeps the ends of every day: the first
    daytime position of a day receives the first row of the surface, and,
    when the day has two daytime samples or more, the last daytime
    position receives the last row. *)
Theorem undo_batch_process_ends data mask r c out j :
  has_shape r c mask -> (0 < r)%nat -> (shape1 data <= c)%nat ->
  undo_batch_process data mask = Ok out ->
  (j < shape1 data)%nat ->
  let day := mask_select (col 0 out j) (col false mask j) in
  let n_pts := count_true (col false mask j) in
  List.length day = n_pts
  /\ ((1 <= n_pts)%nat -> nth 0 day 0 == nth 0 (col 0 data j) 0)
  /\ ((2 <= n_pts)%nat ->
      nth (n_pts - 1) day 0 == nth (shape0 data - 1) (col 0 data j) 0).
Proof.
  intros Hm Hr Hc Hout Hj. cbv zeta.
  destruct (undo_batch_process_columns data mask r c out Hm Hr Hc Hout)
    as (_ & Hcols).
  destruct (Hcols j Hj) as (back & Hback & Hlen & Hcol).
  apply undo_signal_ok in Hback as (_ & Hback). rewrite Hcol.
  rewrite mask_select_put; [| | exact Hlen].
  - pose proof (back_interpolated_ends _ _ _ Hback) as H.
    rewrite col_length in H. exact H.
  - rewrite repeat_length, col_length. symmetry. apply Hm.
Qed.

Lemma undo_batch_process_ends_witness :
  exists out,
    undo_batch_process [[1]; [2]; [4]] mask_4samples = Ok out
    /\ List.length (mask_select (col 0 out 0) (col false mask_4samples 0))
       = 3%nat
    /\ nth 0 (mask_select (col 0 out 0) (col false mask_4samples 0)) 0 == 1
    /\ nth 2 (mask_select (col 0 out 0) (col false mask_4samples 0)) 0 == 4.
Proof.
  eexists. split; [vm_compute; reflexivity |].
  assert (Hm : has_shape 4 1 mask_4samples)
    by (split; [reflexivity | repeat constructor]).
  destruct (undo_batch_process_ends [[1]; [2]; [4]] mask_4samples 4 1 _ 0
              Hm ltac:(lia) ltac:(simpl; lia) eq_refl ltac:(simpl; lia))
    as (H1 & H2 & H3).
  split; [exact H1 |].
  split; [apply H2; vm_compute; lia | apply H3; vm_compute; lia].
Defined.

End InterpolationBounds.

(** ** More on the life cycle of a [ShadeAnalysis] *)

Section ShadeRunEdges.

Import Np Interp Resample Pd Cvx Shade Examples MoreExamples.

Variable np_sin : Q -> Q.
Variable np_deg2rad : Q -> Q.
Variable solve : Problem -> solver_outcome.

Lemma variable_value_solved p st vals name :
  existsb (String.eqb name) (variables p) = true ->
  variable_value
    {| sense := sense p; objective := objective p; constraints := constraints p;
       status := Some st; solution := vals |} name
  = Ok (assoc name vals).
Proof.
  intros H. unfold variable_value, variables in *. cbn [objective constraints
    solution]. now rewrite H.
Qed.

(** X6: a first call of [run] whose solver returns calls the transform
    and the solver once each, in this order, raises nothing (the problem
    has variables of both names), caches the normalized and the
    transformed data and the solved problem, and publishes what the solver
    left under the names clear-sky and shade. *)
Theorem run_first_call power self dn dt problem st vals :
  has_run self = false ->
  transform_data np_sin np_deg2rad self power = Ok (dn, dt) ->
  make_osd_problem
    (set_data_transformed (Some dt) (set_data_normalized (Some dn) self))
  = Ok problem ->
  solve problem = Returns st vals ->
  exists self',
    run np_sin np_deg2rad solve power self
    = (Ok tt, self', [TransformCall; SolveCall])
    /\ has_run self' = true
    /\ data_normalized self' = Some dn
    /\ data_transformed self' = Some dt
    /\ osd_problem self'
       = Some {| sense := sense problem; objective := objective problem;
                 constraints := constraints problem;
                 status := Some st; solution := vals |}
    /\ clear_sky_component self' = Some (assoc "clear-sky" vals)
    /\ shade_component self' = Some (assoc "shade" vals)
    /\ dh self' = dh self.
Proof.
  intros Hr Ht Hp Hs. rewrite run_fresh by exact Hr.
  rewrite Ht. cbv zeta. rewrite Hp, Hs.
  apply make_osd_problem_variables in Hp as (Hv & _ & _).
  rewrite !variable_value_solved by (rewrite Hv; reflexivity).
  eexists. split; [reflexivity |]. repeat split.
Qed.


Lemma run_short_day_raises power self :
  has_run self = false ->
  has_shape (shape0 (filled_data_matrix (dh self)))
    (shape1 (filled_data_matrix (dh self))) (daytime (dh self)) ->
  forallb (fun j =>
             (2 <=? count_true (col false (daytime (dh self)) j))%nat
             || ((count_true (col false (daytime (dh self)) j) =? 1)%nat
                 && (power =? 0)%nat))
    (seq 0 (shape1 (filled_data_matrix (dh self)))) = false ->
  run np_sin np_deg2rad solve power self
  = (Raise ValueError, self, [TransformCall]).
Proof.
  intros Hr Hm Hshort. rewrite run_fresh by exact Hr.
  unfold transform_data.
  now rewrite (batch_process_raises _ _ power Hm Hshort).
Qed.

(** X7: when the daytime mask has the shape of the data and some day
    cannot be resampled (it has no daytime sample, or it has a single one
    and [power] is not 0), a first call of [run] raises [ValueError] out
    of the transform; the object is left as it was (nothing cached,
    nothing published) and the solver is not called. *)
Theorem run_short_day power self :
  has_run self = false ->
  has_shape (shape0 (filled_data_matrix (dh self)))
    (shape1 (filled_data_matrix (dh self))) (daytime (dh self)) ->
  forallb (fun j =>
             (2 <=? count_true (col false (daytime (dh self)) j))%nat
             || ((count_true (col false (daytime (dh self)) j) =? 1)%nat
                 && (power =? 0)%nat))
    (seq 0 (shape1 (filled_data_matrix (dh self)))) = false ->
  run np_sin np_deg2rad solve power self
  = (Raise ValueError, self, [TransformCall])
    /\ exists j,
         (j < shape1 (filled_data_matrix (dh self)))%nat
         /\ (count_true (col false (daytime (dh self)) j) = 0%nat
             \/ (count_true (col false (daytime (dh self)) j) = 1%nat
                 /\ (1 <= power)%nat)).
Proof.
  intros Hr Hm Hshort.
  split; [now apply run_short_day_raises |].
  apply forallb_false_exists in Hshort as (j & Hj & Hbad).
  apply in_seq in Hj. exists j. split; [lia |].
  apply orb_false_iff in Hbad as [H2 H1]. apply Nat.leb_gt in H2.
  apply andb_false_iff in H1 as [H1 | H1]; apply Nat.eqb_neq in H1; lia.
Qed.

Lemma run_ok_has_run power self self1 ev :
  run np_sin np_deg2rad solve power self = (Ok tt, self1, ev) ->
  has_run self1 = true.
Proof.
  intros H. destruct (has_run self) eqn:Hr.
  - apply run_cached_inv in H as (_ & _ & _ & _ & H); [| assumption].
    destruct (H eq_refl) as (p & cs & sh & _ & _ & _ & ->). exact Hr.
  - rewrite run_fresh in H by assumption.
    destruct (transform_data np_sin np_deg2rad self power) as [[dn dt] | e];
      [| discriminate].
    simpl in H. destruct (make_osd_problem _) as [problem | e];
      [| discriminate].
    destruct (solve problem) as [st vals | e]; [| discriminate].
    destruct (variable_value _ "clear-sky") as [cs | e]; [| discriminate].
    destruct (variable_value _ "shade") as [sh | e]; [| discriminate].
    inversion H; subst. reflexivity.
Qed.


(** After a run the yearly analysis calls neither the transform nor the
    solver. *)
Lemma analyze_yearly_energy_quiet self :
  has_run self = true ->
  snd (analyze_yearly_energy np_sin np_deg2rad solve self) = [].
Proof.
  intros Hr. unfold analyze_yearly_energy, bind, gets, ret, lift, assign,
    get_data_transformed, get_component.
  rewrite Hr. cbn [negb].
  destruct (data_transformed self) as [dt |]; [| reflexivity].
  destruct (shade_component self) as [[shade |] |]; try reflexivity.
  destruct (interp1d true (index dt) _) as [f_loss | e]; [| reflexivity].
  destruct (clear_sky_component self) as [[clear_sky |] |]; try reflexivity.
  destruct (interp1d true (index dt) _) as [f_clear | e]; [| reflexivity].
  destruct (clear_day_energy _ _) as [avg | e]; [| reflexivity].
  reflexivity.
Qed.

Lemma bind_gets {A B : Type} (f : ShadeAnalysis -> A) (k : A -> method B) s :
  bind (gets f) k s = k (f s) s.
Proof.
  unfold bind, gets. destruct (k (f s) s) as [[r s'] ev]. reflexivity.
Qed.

Lemma bind_ret {A B : Type} (a : A) (k : A -> method B) s :
  bind (ret a) k s = k a s.
Proof.
  unfold bind, ret. destruct (k a s) as [[r s'] ev]. reflexivity.
Qed.

(** X8: on an object that has not run, [analyze_yearly_energy] first
    runs with the default [power = 8]: an exception of that run ends the
    call; otherwise the call goes on as it does on the object the run
    left, and makes no further call of the transform or the solver. *)
Theorem analyze_yearly_energy_fresh self r self1 ev :
  has_run self = false ->
  run np_sin np_deg2rad solve 8 self = (r, self1, ev) ->
  match r with
  | Raise e =>
      analyze_yearly_energy np_sin np_deg2rad solve self = (Raise e, self1, ev)
  | Ok _ =>
      has_run self1 = true
      /\ ev = [TransformCall; SolveCall]
      /\ snd (analyze_yearly_energy np_sin np_deg2rad solve self1) = []
      /\ analyze_yearly_energy np_sin np_deg2rad solve self
         = (fst (fst (analyze_yearly_energy np_sin np_deg2rad solve self1)),
            snd (fst (analyze_yearly_energy np_sin np_deg2rad solve self1)),
            ev)
  end.
Proof.
  intros Hr Hrun. destruct r as [[] | e].
  - pose proof (run_ok_has_run 8 self self1 ev Hrun) as Hr1.
    pose proof (analyze_yearly_energy_quiet self1 Hr1) as Hq.
    split; [exact Hr1 |]. split; [| split; [exact Hq |]].
    + rewrite run_fresh in Hrun by exact Hr.
      destruct (transform_data np_sin np_deg2rad self 8) as [[dn dt] | e];
        [| discriminate].
      cbv zeta in Hrun.
      destruct (make_osd_problem _) as [problem | e]; [| discriminate].
      destruct (solve problem) as [st vals | e]; [| discriminate].
      destruct (variable_value _ "clear-sky") as [cs | e]; [| discriminate].
      destruct (variable_value _ "shade") as [sh | e]; [| discriminate].
      now inversion Hrun.
    + unfold analyze_yearly_energy in *.
      rewrite bind_gets in Hq. rewrite !bind_gets. cbv beta in *.
      rewrite Hr1 in *. rewrite Hr. cbn [negb] in *.
      rewrite bind_ret in *. unfold bind at 1. rewrite Hrun.
      match goal with
      | H : snd ?X = [] |- _ => destruct X as [[r s2] ev2]
      end.
      cbn [fst snd] in *. subst ev2. now rewrite app_nil_r.
  - unfold analyze_yearly_energy. rewrite bind_gets. cbv beta.
    rewrite Hr. cbn [negb]. unfold bind at 1. rewrite Hrun. reflexivity.
Qed.


End ShadeRunEdges.

Section ShadeRunEdgesExamples.

Import Np Interp Resample Pd Cvx Shade Examples MoreExamples.

Lemma run_first_call_witness :
  has_run (init three_days) = false
  /\ exists self',
       run sin_approx deg2rad_approx solver_returning 3 (init three_days)
       = (Ok tt, self', [TransformCall; SolveCall])
       /\ has_run self' = true
       /\ clear_sky_component self'
          = Some (Some [[0; 2; 3; 4; 4; 3; 2; 0]; [0; 1; 2; 3; 3; 2; 1; 0];
                        [0; 1; 1; 2; 2; 1; 1; 0]])
       /\ shade_component self'
          = Some (Some [[0; 0; 0; 1; 1; 0; 0; 0]; [0; 0; 1; 1; 0; 0; 0; 0];
                        [0; 0; 0; 0; 0; 0; 0; 0]]).
Proof.
  split; [reflexivity |].
  let v := eval vm_compute in
             (transform_data sin_approx deg2rad_approx (init three_days) 3) in
  match v with Ok (?a, ?b) => pose (dn := a); pose (dt := b) end.
  assert (Ht : transform_data sin_approx deg2rad_approx (init three_days) 3
               = Ok (dn, dt)) by (vm_compute; reflexivity).
  let v := eval vm_compute in
             (make_osd_problem
                (set_data_transformed (Some dt)
                   (set_data_normalized (Some dn) (init three_days)))) in
  match v with Ok ?a => pose (problem := a) end.
  assert (Hp : make_osd_problem
                 (set_data_transformed (Some dt)
                    (set_data_normalized (Some dn) (init three_days)))
               = Ok problem) by (vm_compute; reflexivity).
  destruct (run_first_call sin_approx deg2rad_approx solver_returning 3
              (init three_days) dn dt problem "optimal"%string _
              eq_refl Ht Hp eq_refl)
    as (self' & Hrun & Hhr & _ & _ & _ & Hcs & Hsh & _).
  exists self'. repeat split; assumption.
Defined.

Lemma run_short_day_witness :
  has_run (init short_day) = false
  /\ has_shape 3 2 (daytime short_day)
  /\ count_true (col false (daytime short_day) 1) = 1%nat
  /\ run sin_approx deg2rad_approx solver_returning 8 (init short_day)
     = (Raise ValueError, init short_day, [TransformCall]).
Proof.
  assert (Hm : has_shape 3 2 (daytime short_day))
    by (split; [reflexivity | repeat constructor]).
  split; [reflexivity |]. split; [exact Hm |]. split; [reflexivity |].
  apply (run_short_day sin_approx deg2rad_approx solver_returning 8
           (init short_day) eq_refl Hm eq_refl).
Defined.

Lemma analyze_yearly_energy_fresh_witness :
  has_run (init short_day) = false
  /\ analyze_yearly_energy sin_approx deg2rad_approx solver_returning
       (init short_day)
     = (Raise ValueError, init short_day, [TransformCall]).
Proof.
  split; [reflexivity |].
  apply (analyze_yearly_energy_fresh sin_approx deg2rad_approx
           solver_returning (init short_day) (Raise ValueError)
           (init short_day) [TransformCall] eq_refl).
  apply run_short_day_raises;
    [reflexivity | split; [reflexivity | repeat constructor] | reflexivity].
Defined.

End ShadeRunEdgesExamples.

(** ** The declination-indexed frame of [transform_data] *)

Section TransformedFrame.

Import Np Interp Resample Pd Cvx Shade Examples MoreExamples.

Lemma insert_key_sorted k l :
  StronglySorted Qlt l -> StronglySorted Qlt (insert_key k l).
Proof.
  induction 1 as [| a l Hl IH Ha]; simpl; [repeat constructor |].
  destruct (Qltb k a) eqn:E1.
  - apply Qltb_lt in E1. constructor; [now constructor |].
    constructor; [exact E1 |]. rewrite Forall_forall in *. intros x Hx.
    apply Qlt_trans with a; auto.
  - destruct (Qeq_bool k a) eqn:E2; [now constructor |].
    apply Qltb_false in E1.
    assert (Hak : a < k).
    { destruct (Qlt_le_dec a k) as [H | H]; [exact H |].
      destruct (Qle_lt_or_eq _ _ H) as [H' | H']; [contradiction |].
      apply Qeq_bool_iff in H'. congruence. }
    constructor; [exact IH |]. rewrite Forall_forall in *. intros x Hx.
    apply insert_key_in in Hx as [-> | Hx]; auto.
Qed.

Lemma group_keys_sorted keys : StronglySorted Qlt (group_keys keys).
Proof.
  induction keys as [| k keys IH]; simpl; [constructor |].
  now apply insert_key_sorted.
Qed.

Lemma StronglySorted_snoc {A : Type} (R : A -> A -> Prop) l a :
  StronglySorted R l -> Forall (fun x => R x a) l ->
  StronglySorted R (l ++ [a]).
Proof.
  induction 1 as [| b l Hl IH Hb]; intros Ha; simpl;
    [repeat constructor |].
  inversion Ha; subst. constructor; [now apply IH |].
  apply Forall_app. split; [exact Hb | now repeat constructor].
Qed.

Lemma StronglySorted_rev {A : Type} (R : A -> A -> Prop) l :
  StronglySorted R l -> StronglySorted (fun a b => R b a) (rev l).
Proof.
  induction 1 as [| a l Hl IH Ha]; simpl; [constructor |].
  apply StronglySorted_snoc; [exact IH |].
  apply Forall_forall. intros x Hx. apply in_rev in Hx.
  rewrite Forall_forall in Ha. now apply Ha.
Qed.

Lemma groupby_mean_keys keys rows ncols :
  map fst (groupby_mean keys rows ncols) = group_keys keys.
Proof.
  unfold groupby_mean. rewrite map_map. simpl. apply map_id.
Qed.

Lemma groupby_mean_rows keys rows ncols :
  Forall (fun row => List.length row = ncols)
    (map snd (groupby_mean keys rows ncols)).
Proof.
  unfold groupby_mean. rewrite map_map. simpl.
  apply Forall_forall. intros row Hrow.
  apply in_map_iff in Hrow as (k & <- & _).
  now rewrite length_map, length_seq.
Qed.

Lemma mask_select_In {A : Type} (d : A) (l : list A) msk x :
  In x (mask_select l msk) <->
  exists i, (i < List.length l)%nat /\ nth i msk false = true
            /\ nth i l d = x.
Proof.
  revert msk. induction l as [| a l IH]; intros [| b msk]; simpl.
  - split; [tauto | intros (i & Hi & _); lia].
  - split; [tauto | intros (i & Hi & _); lia].
  - split; [tauto |]. intros (i & _ & Hb & _). destruct i; discriminate.
  - destruct b; simpl; rewrite IH; split.
    + intros [<- | (i & Hi & Hb & Hx)].
      * exists 0%nat. split; [lia | auto].
      * exists (S i). split; [lia | auto].
    + intros ([| i] & Hi & Hb & Hx); [now left |].
      right. exists i. split; [lia | auto].
    + intros (i & Hi & Hb & Hx). exists (S i). split; [lia | auto].
    + intros ([| i] & Hi & Hb & Hx); [discriminate |].
      exists i. split; [lia | auto].
Qed.

Lemma insert_key_keeps k a l : In k l -> In k (insert_key a l).
Proof.
  induction l as [| b l IH]; simpl; [tauto |].
  intros Hk. destruct (Qltb a b); [now right |].
  destruct (Qeq_bool a b); [exact Hk |].
  destruct Hk as [<- | Hk]; [now left | right; auto].
Qed.

Lemma insert_key_has a l : exists k, In k (insert_key a l) /\ k == a.
Proof.
  induction l as [| b l IH]; simpl.
  - exists a. split; [now left | reflexivity].
  - destruct (Qltb a b); [exists a; split; [now left | reflexivity] |].
    destruct (Qeq_bool a b) eqn:E.
    + apply Qeq_bool_iff in E. exists b. split; [now left | now symmetry].
    + destruct IH as (k & Hk & Hka). exists k. split; [now right | exact Hka].
Qed.

Lemma group_keys_has k keys :
  In k keys -> exists k', In k' (group_keys keys) /\ k' == k.
Proof.
  induction keys as [| a keys IH]; simpl; [tauto |].
  intros [-> | Hk]; [apply insert_key_has |].
  destruct (IH Hk) as (k' & Hk' & E). exists k'.
  split; [now apply insert_key_keeps | exact E].
Qed.

(** A rounded declination is an integer. *)
Lemma np_round_int x : exists z, np_round x = inject_Z z.
Proof.
  unfold np_round. destruct (Qltb _ _); [eauto |].
  destruct (Qltb _ _); [eauto |]. destruct (Z.even _); eauto.
Qed.

Lemma my_round_int x : exists z, my_round x 1 = inject_Z z.
Proof.
  unfold my_round. destruct (np_round_int (x / 1)) as (z & ->).
  exists z. unfold Qmult, inject_Z. simpl. f_equal.
  destruct z; reflexivity.
Qed.

Lemma inject_Z_eq a b : inject_Z a == inject_Z b -> inject_Z a = inject_Z b.
Proof.
  unfold Qeq, inject_Z. simpl. intros H. f_equal. lia.
Qed.

Lemma group_keys_subset k keys : In k (group_keys keys) -> In k keys.
Proof.
  induction keys as [| a keys IH]; simpl; [intros [] |].
  intros H. apply insert_key_in in H as [-> | H]; [now left |].
  right. now apply IH.
Qed.

(** Rounding a value between -23.45 and 23.45 gives an integer between
    -23 and 23. *)
Lemma np_round_range x :
  - (2345 # 100) <= x -> x <= 2345 # 100 ->
  exists z, np_round x = inject_Z z /\ (-23 <= z <= 23)%Z.
Proof.
  intros Hlo Hhi. unfold np_round.
  pose proof (Qfloor_le x) as Hf1. pose proof (Qlt_floor x) as Hf2.
  set (f := Qfloor x) in *.
  rewrite inject_Z_plus in Hf2. change (inject_Z 1) with 1 in Hf2.
  assert (Hup : (f <= 23)%Z).
  { assert (H : inject_Z f <= 2345 # 100) by Lqa.lra.
    unfold Qle, inject_Z in H. simpl in H. lia. }
  assert (Hdn : (-24 <= f)%Z).
  { assert (H : - (2445 # 100) < inject_Z f) by Lqa.lra.
    unfold Qlt, inject_Z in H. simpl in H. lia. }
  destruct (Qltb (x - inject_Z f) (1 # 2)) eqn:E1.
  - exists f. split; [reflexivity |]. apply Qltb_lt in E1.
    assert (H : - (2395 # 100) < inject_Z f) by Lqa.lra.
    unfold Qlt, inject_Z in H. simpl in H. lia.
  - apply Qltb_false in E1.
    destruct (Qltb (1 # 2) (x - inject_Z f)) eqn:E2.
    + exists (f + 1)%Z. split; [reflexivity |].
      assert (H : inject_Z f <= 2295 # 100) by Lqa.lra.
      unfold Qle, inject_Z in H. simpl in H. lia.
    + apply Qltb_false in E2.
      assert (H1 : inject_Z f <= 2295 # 100) by Lqa.lra.
      assert (H2 : - (2395 # 100) <= inject_Z f) by Lqa.lra.
      unfold Qle, inject_Z in H1, H2. simpl in H1, H2.
      destruct (Z.even f); [exists f | exists (f + 1)%Z];
        (split; [reflexivity | lia]).
Qed.

Lemma my_round_range x :
  Qabs x <= 2345 # 100 ->
  exists z, my_round x 1 = inject_Z z /\ (-23 <= z <= 23)%Z.
Proof.
  intros H. apply Qabs_Qle_condition in H as [Hlo Hhi].
  assert (E : x / 1 == x) by (field).
  destruct (np_round_range (x / 1)) as (z & Hz & Hr);
    [rewrite E; exact Hlo | rewrite E; exact Hhi |].
  exists z. split; [| exact Hr].
  unfold my_round. rewrite Hz. unfold Qmult, inject_Z. simpl. f_equal.
  destruct z; reflexivity.
Qed.

(** A strictly decreasing sequence of integers between [lo] and [hi] has
    at most [hi - lo + 1] entries. *)
Lemma decreasing_integers_length (lo : Z) (l : list Q) :
  StronglySorted (fun a b => b < a) l ->
  forall hi,
    Forall (fun k => exists z, k = inject_Z z /\ (lo <= z <= hi)%Z) l ->
    (Z.of_nat (List.length l) <= Z.max 0 (hi - lo + 1))%Z.
Proof.
  induction 1 as [| k l Hl IH Hk]; intros hi Hall; simpl List.length;
    [lia |].
  inversion Hall as [| ? ? (z & -> & Hz) Hrest]; subst.
  assert (Hall' : Forall (fun k => exists z', k = inject_Z z'
                                              /\ (lo <= z' <= z - 1)%Z) l).
  { rewrite Forall_forall in *. intros k' Hk'.
    destruct (Hrest k' Hk') as (z' & -> & Hz').
    specialize (Hk _ Hk'). exists z'. split; [reflexivity |].
    unfold Qlt, inject_Z in Hk. simpl in Hk. lia. }
  specialize (IH (z - 1)%Z Hall'). lia.
Qed.

Lemma transpose_length_shape1 (m : matrix) :
  List.length (transpose m) = shape1 m.
Proof. unfold transpose. now rewrite length_map, length_seq. Qed.

Variable np_sin : Q -> Q.
Variable np_deg2rad : Q -> Q.

(** What [transform_data] returns, step by step. *)
Lemma transform_data_ok self power dn dt :
  transform_data np_sin np_deg2rad self power = Ok (dn, dt) ->
  batch_process (filled_data_matrix (dh self)) (daytime (dh self)) power
  = Ok dn
  /\ List.length (dayofyear (dh self)) = List.length (transpose dn)
  /\ List.length (clear (dh self)) = List.length (dayofyear (dh self))
  /\ index dt
     = rev (group_keys
              (mask_select
                 (map (fun d => my_round (delta_cooper np_sin np_deg2rad d) 1)
                      (dayofyear (dh self)))
                 (clear (dh self))))
  /\ columns dt = linspace 0 1 (2 ^ power)
  /\ values dt
     = map snd
         (rev (groupby_mean
                 (mask_select
                    (map (fun d =>
                            my_round (delta_cooper np_sin np_deg2rad d) 1)
                         (dayofyear (dh self)))
                    (clear (dh self)))
                 (mask_select (transpose dn) (clear (dh self)))
                 (2 ^ power))).
Proof.
  unfold transform_data. intros H.
  apply rbind_ok in H as (normalized & Hb & H).
  destruct (Nat.eqb_spec
              (List.length
                 (map (fun d => my_round (delta_cooper np_sin np_deg2rad d) 1)
                      (dayofyear (dh self))))
              (List.length (transpose normalized))) as [El |];
    [| discriminate].
  cbn [negb] in H.
  apply rbind_ok in H as (sel_rows & Hr & H).
  apply rbind_ok in H as (sel_delta & Hd & H).
  unfold bool_index in Hr, Hd.
  destruct (Nat.eqb_spec (List.length (transpose normalized))
              (List.length (clear (dh self)))) as [Er |]; [| discriminate].
  destruct (Nat.eqb _ _); [| discriminate].
  inversion Hr; inversion Hd; inversion H; subst; clear Hr Hd H.
  cbn [index columns values]. rewrite length_map in El.
  rewrite linspace_length.
  repeat split; try assumption; try reflexivity; try congruence.
  now rewrite map_rev, groupby_mean_keys.
Qed.

(** X9: the frame [transform_data] returns has one row per index entry
    and [2 ^ power] columns, labelled by the grid on [[0, 1]]; its index
    decreases strictly from one row to the next, so no declination bucket
    appears twice. *)
Theorem transform_data_frame self power dn dt :
  transform_data np_sin np_deg2rad self power = Ok (dn, dt) ->
  has_shape (List.length (index dt)) (2 ^ power) (values dt)
  /\ columns dt = linspace 0 1 (2 ^ power)
  /\ StronglySorted (fun a b => b < a) (index dt).
Proof.
  intros H.
  apply transform_data_ok in H as (_ & _ & _ & Hi & Hc & Hv).
  split; [split |]; [| | split; [exact Hc |]].
  - rewrite Hv, Hi, length_map, !length_rev, <- groupby_mean_keys
      with (rows := mask_select (transpose dn) (clear (dh self)))
           (ncols := (2 ^ power)%nat).
    now rewrite length_map.
  - rewrite Hv, map_rev. apply Forall_rev, groupby_mean_rows.
  - rewrite Hi. apply (StronglySorted_rev Qlt), group_keys_sorted.
Qed.


(** X10: the index of the frame holds exactly the rounded declinations of
    the clear days: every entry is [my_round (delta_cooper d) 1] for the
    day of the year [d] of some clear day, and every clear day's rounded
    declination is an entry. *)
Theorem transform_data_buckets self power dn dt :
  transform_data np_sin np_deg2rad self power = Ok (dn, dt) ->
  forall k,
    In k (index dt) <->
    exists i, (i < List.length (dayofyear (dh self)))%nat
              /\ nth i (clear (dh self)) false = true
              /\ k = my_round
                       (delta_cooper np_sin np_deg2rad
                          (nth i (dayofyear (dh self)) 0%Z)) 1.
Proof.
  intros H k.
  apply transform_data_ok in H as (_ & _ & _ & Hi & _ & _).
  rewrite Hi, <- in_rev.
  set (rounded := fun d => my_round (delta_cooper np_sin np_deg2rad d) 1).
  assert (Hsel : forall x,
             In x (mask_select (map rounded (dayofyear (dh self)))
                               (clear (dh self))) <->
             exists i, (i < List.length (dayofyear (dh self)))%nat
                       /\ nth i (clear (dh self)) false = true
                       /\ x = rounded (nth i (dayofyear (dh self)) 0%Z)).
  { intros x. rewrite (mask_select_In (rounded 0%Z)), length_map.
    split; intros (i & Hlt & Hb & Hx); exists i;
      (split; [exact Hlt |]); (split; [exact Hb |]).
    - rewrite <- Hx. apply (map_nth rounded).
    - rewrite Hx. apply (map_nth rounded). }
  split.
  - intros Hk. apply group_keys_subset in Hk. exact (proj1 (Hsel k) Hk).
  - intros Hex. pose proof (proj2 (Hsel k) Hex) as Hin.
    destruct (group_keys_has _ _ Hin) as (k' & Hk' & E).
    destruct (proj1 (Hsel k') (group_keys_subset _ _ Hk'))
      as (i' & _ & _ & Hform').
    destruct Hex as (i & _ & _ & Hform).
    unfold rounded in Hform, Hform'.
    destruct (my_round_int (delta_cooper np_sin np_deg2rad
                              (nth i (dayofyear (dh self)) 0%Z))) as (z & Ez).
    destruct (my_round_int (delta_cooper np_sin np_deg2rad
                              (nth i' (dayofyear (dh self)) 0%Z)))
      as (z' & Ez').
    rewrite Ez in Hform. rewrite Ez' in Hform'. subst k k'.
    apply inject_Z_eq in E. rewrite <- E. exact Hk'.
Qed.


(** X11: when the sine stays within [[-1, 1]] on the days of the record,
    every index entry of the frame is an integer between -23 and 23, and
    the frame has at most 47 rows, whatever the number of days. *)
Theorem transform_data_at_most_47_rows self power dn dt :
  Forall (fun d =>
            Qabs (np_sin (np_deg2rad (360 * (284 + inject_Z d) / 365))) <= 1)
         (dayofyear (dh self)) ->
  transform_data np_sin np_deg2rad self power = Ok (dn, dt) ->
  Forall (fun k => exists z, k = inject_Z z /\ (-23 <= z <= 23)%Z) (index dt)
  /\ (List.length (index dt) <= 47)%nat
  /\ (List.length (values dt) <= 47)%nat.
Proof.
  intros Hsin H.
  assert (Hkeys : Forall (fun k => exists z, k = inject_Z z
                                             /\ (-23 <= z <= 23)%Z)
                         (index dt)).
  { apply Forall_forall. intros k Hk.
    apply (transform_data_index _ _ _ _ _ _ H) in Hk as (d & Hd & ->).
    apply my_round_range. rewrite Forall_forall in Hsin.
    specialize (Hsin d Hd). unfold delta_cooper. rewrite Qabs_Qmult.
    change (Qabs (2345 # 100)) with (2345 # 100).
    set (a := Qabs _) in *. Lqa.lra. }
  pose proof H as Hshape.
  apply transform_data_ok in H as (_ & _ & _ & Hi & _ & _).
  assert (Hsorted : StronglySorted (fun a b => b < a) (index dt)).
  { rewrite Hi. apply (StronglySorted_rev Qlt), group_keys_sorted. }
  pose proof (decreasing_integers_length (-23) _ Hsorted 23 Hkeys) as Hlen.
  split; [exact Hkeys |]. split; [lia |].
  apply transform_data_ok in Hshape as (_ & _ & _ & Hi' & _ & Hv).
  rewrite Hv, length_map, length_rev.
  rewrite <- (length_map fst), groupby_mean_keys.
  rewrite Hi', length_rev in Hlen. lia.
Qed.


(** X12: once the resampling has returned, [transform_data] raises
    [ValueError] when the days of the year are not as many as the days of
    the matrix, [IndexError] when the clear-day flags are not, and returns
    otherwise, with the resampled matrix as its first component. *)
Theorem transform_data_outcome self power dn :
  batch_process (filled_data_matrix (dh self)) (daytime (dh self)) power
  = Ok dn ->
  let days := shape1 (filled_data_matrix (dh self)) in
  if negb (List.length (dayofyear (dh self)) =? days)%nat
  then transform_data np_sin np_deg2rad self power = Raise ValueError
  else if negb (List.length (clear (dh self)) =? days)%nat
  then transform_data np_sin np_deg2rad self power = Raise IndexError
  else exists dt, transform_data np_sin np_deg2rad self power = Ok (dn, dt).
Proof.
  intros Hb. cbv zeta. unfold transform_data. rewrite Hb. simpl rbind.
  apply batch_process_columns in Hb as [Hs _].
  assert (Hc : shape1 dn = shape1 (filled_data_matrix (dh self))).
  { eapply has_shape_shape1; [exact Hs |]. apply Nat.neq_0_lt_0.
    apply Nat.pow_nonzero. discriminate. }
  rewrite length_map, transpose_length_shape1, Hc.
  destruct (Nat.eqb_spec (List.length (dayofyear (dh self)))
              (shape1 (filled_data_matrix (dh self)))) as [E1 | E1];
    cbn [negb]; [| reflexivity].
  unfold bool_index. rewrite transpose_length_shape1, length_map, Hc, E1.
  rewrite (Nat.eqb_sym (shape1 _)).
  destruct (Nat.eqb_spec (List.length (clear (dh self)))
              (shape1 (filled_data_matrix (dh self)))) as [E2 | E2];
    cbn [negb]; [| reflexivity].
  simpl. eauto.
Qed.

End TransformedFrame.

Section TransformedFrameExamples.

Import Np Interp Resample Pd Cvx Shade Examples MoreExamples.

Lemma transform_data_frame_witness :
  exists dn dt,
    transform_data sin_approx deg2rad_approx (init three_days) 3 = Ok (dn, dt)
    /\ has_shape (List.length (index dt)) (2 ^ 3) (values dt)
    /\ columns dt = linspace 0 1 (2 ^ 3)
    /\ StronglySorted (fun a b => b < a) (index dt).
Proof.
  let v := eval vm_compute in
             (transform_data sin_approx deg2rad_approx (init three_days) 3) in
  match v with Ok (?a, ?b) => pose (dn := a); pose (dt := b) end.
  assert (Ht : transform_data sin_approx deg2rad_approx (init three_days) 3
               = Ok (dn, dt)) by (vm_compute; reflexivity).
  exists dn, dt. split; [exact Ht |].
  exact (transform_data_frame sin_approx deg2rad_approx (init three_days) 3
           dn dt Ht).
Defined.

Lemma transform_data_buckets_witness :
  exists dn dt,
    transform_data sin_approx deg2rad_approx (init three_days) 3 = Ok (dn, dt)
    /\ forall k,
         In k (index dt) <->
         exists i, (i < 3)%nat
                   /\ nth i (clear three_days) false = true
                   /\ k = my_round
                            (delta_cooper sin_approx deg2rad_approx
                               (nth i (dayofyear three_days) 0%Z)) 1.
Proof.
  let v := eval vm_compute in
             (transform_data sin_approx deg2rad_approx (init three_days) 3) in
  match v with Ok (?a, ?b) => pose (dn := a); pose (dt := b) end.
  assert (Ht : transform_data sin_approx deg2rad_approx (init three_days) 3
               = Ok (dn, dt)) by (vm_compute; reflexivity).
  exists dn, dt. split; [exact Ht |].
  exact (transform_data_buckets sin_approx deg2rad_approx (init three_days) 3
           dn dt Ht).
Defined.

Lemma transform_data_at_most_47_rows_witness :
  Forall (fun d =>
            Qabs (sin_approx
                    (deg2rad_approx (360 * (284 + inject_Z d) / 365))) <= 1)
         (dayofyear three_days)
  /\ exists dn dt,
       transform_data sin_approx deg2rad_approx (init three_days) 3
       = Ok (dn, dt)
       /\ Forall (fun k => exists z, k = inject_Z z /\ (-23 <= z <= 23)%Z)
                 (index dt)
       /\ (List.length (index dt) <= 47)%nat
       /\ (List.length (values dt) <= 47)%nat.
Proof.
  assert (Hsin : Forall
                   (fun d =>
                      Qabs (sin_approx
                              (deg2rad_approx
                                 (360 * (284 + inject_Z d) / 365))) <= 1)
                   (dayofyear three_days)).
  { repeat constructor; apply Qle_bool_iff; vm_compute; reflexivity. }
  split; [exact Hsin |].
  let v := eval vm_compute in
             (transform_data sin_approx deg2rad_approx (init three_days) 3) in
  match v with Ok (?a, ?b) => pose (dn := a); pose (dt := b) end.
  assert (Ht : transform_data sin_approx deg2rad_approx (init three_days) 3
               = Ok (dn, dt)) by (vm_compute; reflexivity).
  exists dn, dt. split; [exact Ht |].
  exact (transform_data_at_most_47_rows sin_approx deg2rad_approx
           (init three_days) 3 dn dt Hsin Ht).
Defined.

Lemma transform_data_outcome_witness :
  exists dn,
    batch_process (filled_data_matrix three_days) (daytime three_days) 3
    = Ok dn
    /\ exists dt,
         transform_data sin_approx deg2rad_approx (init three_days) 3
         = Ok (dn, dt).
Proof.
  let v := eval vm_compute in
             (batch_process (filled_data_matrix three_days)
                (daytime three_days) 3) in
  match v with Ok ?a => pose (dn := a) end.
  assert (Hb : batch_process (filled_data_matrix three_days)
                 (daytime three_days) 3 = Ok dn) by (vm_compute; reflexivity).
  exists dn. split; [exact Hb |].
  exact (transform_data_outcome sin_approx deg2rad_approx (init three_days) 3
           dn Hb).
Defined.

End TransformedFrameExamples.

(** ** More on the soiling decompositions *)

Section SeparationBuilt.

Import Np Cvx1 Soiling SeparationProblem SeparationParts Check.

Variable observed : list (option Q).
Variable degradation_term : bool.
Variables tau c1 c2 c3 soiling_max : Q.

(** Every constraint of a problem built, in order. *)
Lemma build_problem_constraints ix st p :
  build_problem observed degradation_term tau c1 c2 c3 soiling_max ix st
  = Ok p ->
  exists known,
    as_constant (mask_select observed ix) = Ok known
    /\ constraints p
       = [reconstruction observed known ix; periodicity observed;
          zero_mean observed; soiling_cap observed soiling_max]
         ++ degradation_part observed degradation_term
         ++ flat_regions observed (zero_set st)
         ++ short_series observed.
Proof.
  unfold build_problem, diff. rewrite size_s2_slice.
  change (size (s1 observed)) with (n observed).
  change (size (s3 observed)) with (n observed).
  destruct (Nat.leb_spec (n observed) 2) as [| Hn]; [discriminate |].
  simpl rbind. intros H.
  apply rbind_ok in H as (known0 & Hk0 & H).
  apply rbind_ok in H as (known & Hk & H).
  apply rbind_ok in H as (recon & Hrec & H).
  apply rbind_ok in H as (cs1 & Hcs1 & H).
  apply rbind_ok in H as (cs2 & Hcs2 & H).
  inversion H; subst; clear H.
  unfold Np.bool_index in Hk0.
  destruct (Nat.eqb_spec (List.length observed) (List.length ix)) as [Hl |];
    [| discriminate].
  inversion Hk0; subst; clear Hk0.
  apply bool_index_ok in Hrec as (_ & _ & ->).
  exists known. split; [exact Hk |]. cbn [constraints].
  assert (E1 : cs1 = [reconstruction observed known ix; periodicity observed;
                      zero_mean observed; soiling_cap observed soiling_max]
                     ++ degradation_part observed degradation_term).
  { unfold degradation_part. destruct degradation_term; now inversion Hcs1. }
  subst cs1.
  assert (E2 : cs2 = ([reconstruction observed known ix; periodicity observed;
                       zero_mean observed; soiling_cap observed soiling_max]
                      ++ degradation_part observed degradation_term)
                     ++ flat_regions observed (zero_set st)).
  { unfold flat_regions. destruct (0 <? count_true (zero_set st))%nat.
    - destruct (Nat.leb (n observed) 1); simpl in Hcs2; [discriminate |].
      apply rbind_ok in Hcs2 as (flat & Hflat & Hcs2).
      apply bool_index_ok in Hflat as (_ & _ & ->). now inversion Hcs2.
    - inversion Hcs2. now rewrite app_nil_r. }
  subst cs2. unfold short_series.
  destruct (Qltb _ _); rewrite <- ?app_assoc; [reflexivity |].
  now rewrite app_nil_r.
Qed.

End SeparationBuilt.

Section DifferenceFacts.

Import Np Cvx1 Soiling SeparationProblem SeparationParts Check.

Lemma diff1_nth (v : vector) i :
  (S i < List.length v)%nat ->
  nth i (diff1 v) 0 = nth (S i) v 0 - nth i v 0.
Proof.
  intros Hi. unfold diff1. rewrite zip_with_nth_Q by (rewrite ?length_tl; lia).
  now rewrite nth_tl.
Qed.

Lemma diff1_length (v : vector) :
  List.length (diff1 v) = (List.length v - 1)%nat.
Proof. apply (np_diff_length 1). Qed.

Lemma Forall_nth_Q (P : Q -> Prop) (l : vector) i :
  Forall P l -> (i < List.length l)%nat -> P (nth i l 0).
Proof. intros H Hi. rewrite Forall_forall in H. now apply H, nth_In. Qed.

(** A sequence whose second differences vanish is a line. *)
Lemma zero_second_differences (v : vector) :
  Forall (fun x => x == 0) (np_diff 2 v) ->
  forall t, (t < List.length v)%nat ->
    nth t v 0 == nth 0 v 0 + inject_Z (Z.of_nat t) * (nth 1 v 0 - nth 0 v 0).
Proof.
  intros H.
  assert (Hstep : forall i, (S (S i) < List.length v)%nat ->
             nth (S (S i)) v 0 - nth (S i) v 0 == nth (S i) v 0 - nth i v 0).
  { intros i Hi.
    assert (Hz : nth i (np_diff 2 v) 0 == 0).
    { apply Forall_nth_Q; [exact H |]. rewrite np_diff_length. lia. }
    change (np_diff 2 v) with (diff1 (diff1 v)) in Hz.
    rewrite diff1_nth in Hz by (rewrite diff1_length; lia).
    rewrite !diff1_nth in Hz by lia. Lqa.lra. }
  assert (Hboth : forall t, (S t < List.length v)%nat ->
             nth t v 0
             == nth 0 v 0 + inject_Z (Z.of_nat t) * (nth 1 v 0 - nth 0 v 0)
             /\ nth (S t) v 0
                == nth 0 v 0
                   + inject_Z (Z.of_nat (S t)) * (nth 1 v 0 - nth 0 v 0)).
  { induction t as [| t IH]; intros Ht.
    - split; simpl; ring.
    - destruct (IH ltac:(lia)) as [E0 E1]. split; [exact E1 |].
      specialize (Hstep t Ht).
      rewrite !Nat2Z.inj_succ in *. unfold Z.succ in *.
      rewrite !inject_Z_plus in *. Lqa.lra. }
  intros t Ht. destruct t as [| t].
  - simpl. ring.
  - apply (Hboth t). exact Ht.
Qed.

Lemma count_true_none (msk : list bool) i :
  count_true msk = 0%nat -> nth i msk false = false.
Proof.
  revert i. unfold count_true.
  induction msk as [| b msk IH]; intros [| i]; simpl; try reflexivity.
  - destruct b; [discriminate | reflexivity].
  - destruct b; simpl; [discriminate | apply IH].
Qed.

Lemma mask_select_Forall (P : Q -> Prop) (l : vector) msk i :
  Forall P (mask_select l msk) ->
  (i < List.length l)%nat -> nth i msk false = true -> P (nth i l 0).
Proof.
  revert msk i. induction l as [| a l IH]; intros [| b msk] i H Hi Hb;
    simpl in *; try lia.
  - destruct i; discriminate.
  - destruct i as [| i].
    + subst b. now inversion H.
    + destruct b; [inversion H; subst |]; apply (IH msk i); auto; lia.
Qed.

End DifferenceFacts.

Section SeparationResults.

Import Np Cvx1 Soiling SeparationProblem SeparationParts Check.

Variable solve : Problem -> solver_outcome.
Hypothesis solve_ok : solver_contract solve.

Variables (observed : list (option Q)) (index_set : option (list bool)).
Variables (degradation_term : bool) (tau c1 c2 c3 : Q) (iterations : nat).
Variable soiling_max : Q.

(** The values a solver leaves in a problem built have the length of the
    series (the seasonal term: [max n 367]). *)
Lemma built_problem_lengths ix st p status rho :
  build_problem observed degradation_term tau c1 c2 c3 soiling_max ix st
  = Ok p ->
  solve p = Returns status (Some rho) ->
  List.length (rho "s1"%string) = n observed
  /\ List.length (rho "s2"%string) = Nat.max (n observed) 367
  /\ List.length (rho "s3"%string) = n observed
  /\ List.length (rho "sr"%string) = n observed.
Proof.
  intros Hp Hs. destruct (solve_ok _ _ _ Hs) as (Hshape & _ & _).
  destruct (build_problem_constraints _ _ _ _ _ _ _ _ _ _ Hp)
    as (known & _ & Hcs).
  assert (Hvar : forall name k,
             In (name, k)
               (constraint_vars (reconstruction observed known ix)) ->
             List.length (rho name) = k).
  { intros name k Hin. apply Hshape. unfold variables.
    apply in_or_app. right. rewrite Hcs. apply in_flat_map.
    exists (reconstruction observed known ix).
    split; [now left | exact Hin]. }
  repeat split; apply Hvar; simpl; auto 6.
Qed.

(** X13: the four sequences [soiling_seperation] returns have the length
    of the series and add up to the observed value at every index of the
    index set in use (the caller's, restricted to the entries of
    [observed] that are numbers). *)
Theorem soiling_seperation_adds_up ix r1 r2 r3 rr :
  effective_index_set observed index_set = Ok ix ->
  soiling_seperation solve observed index_set degradation_term tau c1 c2 c3
    iterations soiling_max = Ok (r1, r2, r3, rr) ->
  List.length r1 = n observed /\ List.length r2 = n observed
  /\ List.length r3 = n observed /\ List.length rr = n observed
  /\ forall i, (i < n observed)%nat -> nth i ix false = true ->
       exists q, nth i observed None = Some q
                 /\ q == nth i r1 0 + nth i r2 0 + nth i r3 0 + nth i rr 0.
Proof.
  intros Hix H.
  apply soiling_seperation_ok in H
    as (ix' & st & p & status & rho & Hix' & Hp & Hs & -> & -> & -> & ->).
  rewrite Hix in Hix'. inversion Hix'; subst ix'; clear Hix'.
  destruct (built_problem_lengths _ _ _ _ _ Hp Hs) as (L1 & L2 & L3 & Lr).
  destruct (solve_ok _ _ _ Hs) as (Hshape & Hfeas & _).
  destruct (reconstruction_spec _ _ _ _ _ _ _ _ _ _ Hp)
    as (known & rest & Hcs & Hrec).
  assert (Hhold : holds rho (reconstruction observed known ix)).
  { unfold feasible in Hfeas. rewrite Hcs in Hfeas. now inversion Hfeas. }
  pose proof (proj1 (Hrec rho Hshape) Hhold) as Hpt.
  repeat split; try assumption; [rewrite length_firstn, L2; lia |].
  intros i Hi Hb. destruct (Hpt i Hi Hb) as (q & Hq & Hsum).
  exists q. split; [exact Hq |].
  rewrite nth_firstn. destruct (Nat.ltb_spec i (n observed)); [| lia].
  exact Hsum.
Qed.

(** X14: without a degradation term the degradation component returned
    is zero throughout; with one it is a line through the origin,
    [s3[t] = t * s3[1]]. *)
Theorem soiling_seperation_degradation r1 r2 r3 rr :
  soiling_seperation solve observed index_set degradation_term tau c1 c2 c3
    iterations soiling_max = Ok (r1, r2, r3, rr) ->
  if degradation_term
  then forall t, (t < n observed)%nat ->
         nth t r3 0 == inject_Z (Z.of_nat t) * nth 1 r3 0
  else Forall (fun x => x == 0) r3.
Proof.
  intros H.
  apply soiling_seperation_ok in H
    as (ix & st & p & status & rho & _ & Hp & Hs & _ & _ & -> & _).
  destruct (built_problem_lengths _ _ _ _ _ Hp Hs) as (_ & _ & L3 & _).
  destruct (solve_ok _ _ _ Hs) as (_ & Hfeas & _).
  destruct (build_problem_constraints _ _ _ _ _ _ _ _ _ _ Hp)
    as (known & _ & Hcs).
  unfold feasible in Hfeas. rewrite Hcs in Hfeas.
  rewrite !Forall_app in Hfeas. destruct Hfeas as (_ & Hdeg & _).
  unfold degradation_part in Hdeg. destruct degradation_term.
  - inversion Hdeg as [| ? ? Hd2 Hrest]; subst.
    inversion Hrest as [| ? ? H0 _]; subst.
    cbn [holds compare eval Soiling.s3] in Hd2, H0.
    inversion H0 as [| ? ? Hz _]; subst.
    intros t Ht. rewrite (zero_second_differences _ Hd2 t) by lia.
    rewrite Hz. ring.
  - inversion Hdeg as [| ? ? Hz _]; subst. exact Hz.
Qed.


(** X15: a stretch of the soiling term that one iteration leaves nearly
    flat (first difference within 5e-5 of zero) is exactly flat in the
    solution of the next iteration. *)
Theorem nearly_flat_made_flat ix st0 st1 st2 rho1 rho2 i :
  iteration solve observed degradation_term tau c1 c2 c3 soiling_max ix st0
  = Ok st1 ->
  iteration solve observed degradation_term tau c1 c2 c3 soiling_max ix st1
  = Ok st2 ->
  values st1 = Some rho1 -> values st2 = Some rho2 ->
  (S i < n observed)%nat ->
  Qabs (nth (S i) (rho1 "s1"%string) 0 - nth i (rho1 "s1"%string) 0)
  <= 5 # 100000 ->
  nth (S i) (rho2 "s1"%string) 0 == nth i (rho2 "s1"%string) 0.
Proof.
  intros H1 H2 Hv1 Hv2 Hi Hflat.
  apply iteration_ok in H1
    as (p1 & status1 & rho1' & Hp1 & Hs1 & Hv1' & _ & Hz1).
  apply iteration_ok in H2
    as (p2 & status2 & rho2' & Hp2 & Hs2 & Hv2' & _ & _).
  rewrite Hv1 in Hv1'. inversion Hv1'; subst rho1'; clear Hv1'.
  rewrite Hv2 in Hv2'. inversion Hv2'; subst rho2'; clear Hv2'.
  destruct (built_problem_lengths _ _ _ _ _ Hp1 Hs1) as (L1 & _).
  destruct (built_problem_lengths _ _ _ _ _ Hp2 Hs2) as (L1' & _).
  destruct (solve_ok _ _ _ Hs2) as (_ & Hfeas & _).
  destruct (build_problem_constraints _ _ _ _ _ _ _ _ _ _ Hp2)
    as (known & _ & Hcs).
  unfold feasible in Hfeas. rewrite Hcs in Hfeas.
  rewrite !Forall_app in Hfeas. destruct Hfeas as (_ & _ & Hfl & _).
  assert (Hzi : nth i (zero_set st1) false = true).
  { rewrite Hz1. unfold nearly_flat.
    rewrite (nth_indep _ false
               ((fun x => Qle_bool (Qabs x) (5 # 100000)) 0))
      by (rewrite length_map, np_diff_length; lia).
    rewrite (map_nth (fun x => Qle_bool (Qabs x) (5 # 100000))).
    apply Qle_bool_iff.
    change (np_diff 1 (rho1 "s1"%string)) with (diff1 (rho1 "s1"%string)).
    rewrite diff1_nth by lia. exact Hflat. }
  unfold flat_regions in Hfl.
  destruct (Nat.ltb_spec 0 (count_true (zero_set st1))) as [_ | Hc].
  - inversion Hfl as [| ? ? Hc0 _]; subst.
    cbn [holds compare eval Soiling.s1] in Hc0.
    assert (Hd : nth i (np_diff 1 (rho2 "s1"%string)) 0 == 0).
    { apply (mask_select_Forall (fun x => x == 0) _ (zero_set st1));
        [exact Hc0 | rewrite np_diff_length; lia | exact Hzi]. }
    change (np_diff 1 (rho2 "s1"%string)) with (diff1 (rho2 "s1"%string))
      in Hd.
    rewrite diff1_nth in Hd by lia. Lqa.lra.
  - rewrite (count_true_none _ i) in Hzi by lia. discriminate.
Qed.

(** X16: after every iteration the weight vector has [n - 2] entries, all
    positive and at most [1 / eps = 100], and the zero set has [n - 1]
    entries: the next problem can be built. *)
Theorem iteration_keeps_weights ix st st' :
  iteration solve observed degradation_term tau c1 c2 c3 soiling_max ix st
  = Ok st' ->
  List.length (w st') = (n observed - 2)%nat
  /\ Forall (fun x => 0 < x /\ x <= 100) (w st')
  /\ List.length (zero_set st') = (n observed - 1)%nat.
Proof.
  intros H.
  apply iteration_ok in H as (p & status & rho & Hp & Hs & _ & Hw & Hz).
  destruct (built_problem_lengths _ _ _ _ _ Hp Hs) as (L1 & _).
  rewrite Hw, Hz. unfold reweight, nearly_flat.
  rewrite !length_map, !np_diff_length, L1.
  split; [reflexivity |]. split; [| reflexivity].
  apply Forall_forall. intros x Hx.
  apply in_map_iff in Hx as (d & <- & _).
  pose proof (Qabs_nonneg d) as Hd. unfold eps.
  assert (Hpos : 0 < (1 # 100) + 100 * Qabs d) by Lqa.lra.
  split.
  - apply Qlt_shift_div_l; [exact Hpos | Lqa.lra].
  - apply Qle_shift_div_r; [exact Hpos | Lqa.lra].
Qed.

End SeparationResults.

Section SeparationFailures.

Import Np Cvx1 Soiling SeparationProblem SeparationParts Check.

Variable solve : Problem -> solver_outcome.

Variables (observed : list (option Q)) (index_set : option (list bool)).
Variables (degradation_term : bool) (tau c1 c2 c3 : Q) (iterations : nat).
Variable soiling_max : Q.

(** Without an entry in the index set the reconstruction constraint
    cannot be built. *)
Lemma build_problem_empty ix st :
  (3 <= n observed)%nat ->
  effective_index_set observed index_set = Ok ix ->
  count_true ix = 0%nat ->
  build_problem observed degradation_term tau c1 c2 c3 soiling_max ix st
  = Raise ValueError.
Proof.
  intros Hn Hix Hempty.
  destruct (effective_index_set_ok _ _ _ Hix ltac:(lia)) as (Hlen & Hnth).
  unfold build_problem, diff. rewrite size_s2_slice.
  change (size (s1 observed)) with (n observed).
  destruct (Nat.leb_spec (n observed) 2) as [| _]; [lia |]. simpl rbind.
  unfold Np.bool_index. fold (n observed). rewrite Hlen, Nat.eqb_refl.
  simpl rbind.
  destruct (as_constant_known observed ix) as (known & ->).
  { intros i Hi. now apply not_nan_nth, Hnth. }
  simpl rbind. unfold bool_index at 1.
  change (size (Add (Add (Add (s1 observed)
                              (Slice None (Some (Z.of_nat (n observed)))
                                     (s2 observed)))
                         (s3 observed)) (sr observed))) with (n observed).
  rewrite Hlen, Nat.eqb_refl, Hempty. reflexivity.
Qed.

(** X17: on a series of three entries or more, with at least one
    iteration asked for, [soiling_seperation] raises [ValueError] before
    the solver is reached when the index set in use selects no entry (an
    all-NaN series, for one): the reconstruction constraint would have no
    entry.  Otherwise the first problem is built: when the solver raises
    on it, its exception leaves [soiling_seperation] as it is; when it
    returns without values (a status that is not optimal), the call
    raises [TypeError] at the reweighting step. *)
Theorem soiling_seperation_solver_failure ix :
  effective_index_set observed index_set = Ok ix ->
  (3 <= n observed)%nat -> (1 <= iterations)%nat ->
  if (count_true ix =? 0)%nat
  then soiling_seperation solve observed index_set degradation_term tau c1
         c2 c3 iterations soiling_max = Raise ValueError
  else exists p0,
         build_problem observed degradation_term tau c1 c2 c3 soiling_max ix
           {| w := repeat 1 (n observed - 2);
              zero_set := repeat false (n observed - 1);
              values := None |} = Ok p0
         /\ (forall e,
               solve p0 = Raises e ->
               soiling_seperation solve observed index_set degradation_term
                 tau c1 c2 c3 iterations soiling_max = Raise e)
         /\ (forall status,
               solve p0 = Returns status None ->
               soiling_seperation solve observed index_set degradation_term
                 tau c1 c2 c3 iterations soiling_max = Raise TypeError).
Proof.
  intros Hix Hn Hit. destruct iterations as [| k]; [lia |].
  destruct (Nat.eqb_spec (count_true ix) 0) as [Hempty | Hne].
  - unfold soiling_seperation. rewrite Hix. simpl rbind.
    destruct (Nat.ltb_spec (n observed) 3); [lia |].
    cbn [iterate]. unfold iteration at 1.
    now rewrite (build_problem_empty ix _ Hn Hix Hempty).
  - destruct (build_problem_total observed index_set degradation_term tau c1
                c2 c3 soiling_max ix
                {| w := repeat 1 (n observed - 2);
                   zero_set := repeat false (n observed - 1);
                   values := None |} Hn Hix ltac:(lia)) as (p0 & Hp);
      [apply repeat_length |].
    exists p0. split; [exact Hp |].
    split; intros x Hs; unfold soiling_seperation; rewrite Hix; simpl rbind;
      (destruct (Nat.ltb_spec (n observed) 3); [lia |]);
      cbn [iterate]; unfold iteration at 1; rewrite Hp; simpl rbind;
      unfold solve_values; rewrite Hs; reflexivity.
Qed.

(** X18: a series of fewer than three entries is refused with
    [ValueError] (the weights of the second differences cannot be
    formed), and on a longer series a call with [iterations = 0] raises
    [TypeError]: no problem was solved, so the variables hold no value. *)
Theorem soiling_seperation_degenerate_calls :
  ((n observed <= 2)%nat -> (1 <= iterations)%nat ->
   soiling_seperation solve observed index_set degradation_term tau c1 c2 c3
     iterations soiling_max = Raise ValueError)
  /\ ((3 <= n observed)%nat -> iterations = 0%nat ->
      forall ix, effective_index_set observed index_set = Ok ix ->
      soiling_seperation solve observed index_set degradation_term tau c1 c2
        c3 iterations soiling_max = Raise TypeError).
Proof.
  split.
  - intros Hn Hit. unfold soiling_seperation.
    destruct (effective_index_set observed index_set) as [ix | e] eqn:Hix.
    + simpl rbind. destruct (Nat.ltb_spec (n observed) 3); [reflexivity |].
      lia.
    + unfold effective_index_set in Hix. destruct index_set as [given |];
        [| discriminate].
      unfold logical_and in Hix. destruct (Nat.eqb _ _); [discriminate |].
      destruct given as [| g [| g' given]];
        destruct (not_nan observed) as [| b [| b' l]];
        try discriminate; now inversion Hix.
  - intros Hn -> ix Hix. unfold soiling_seperation. rewrite Hix.
    simpl rbind. destruct (Nat.ltb_spec (n observed) 3); [lia |].
    reflexivity.
Qed.

End SeparationFailures.

(** ** More on the second decomposition *)

Section AlgorithmV2Built.

Import Np Cvx1 Soiling SeparationProblem SeparationParts Check.

Lemma mask_select_zip_with (f : Q -> Q -> Q) (a b : vector) msk :
  Cvx.zip_with f (mask_select a msk) (mask_select b msk)
  = mask_select (Cvx.zip_with f a b) msk.
Proof.
  revert b msk. induction a as [| x a IH]; intros b msk; [reflexivity |].
  destruct b as [| y b]; destruct msk as [| m msk]; try reflexivity.
  - simpl. now destruct m, (mask_select a msk).
  - simpl. destruct m; simpl; [f_equal |]; apply IH.
Qed.

Variable np_log10 : Q -> option Q.

Variables (observed : list (option Q)) (weights : option vector).
Variables (known_set : option (list bool)) (lmbda3 : Q).

Local Abbreviation n := (n_v2 observed).
Local Abbreviation ks := (known_set_v2 observed known_set).
Local Abbreviation data := (data_v2 np_log10 observed known_set).

Lemma data_v2_nth i :
  (i < n)%nat -> (i < List.length ks)%nat ->
  nth i data None
  = if nth i ks false
    then match nth i observed None with
         | Some q => np_log10 q
         | None => None
         end
    else None.
Proof.
  unfold data_v2, n_v2. generalize ks. revert i.
  induction observed as [| o obs IH]; intros i msk Hi Hm;
    [inversion Hi |].
  destruct msk as [| b msk]; [inversion Hm |].
  destruct i as [| i]; [reflexivity |].
  simpl in *. apply IH; lia.
Qed.

(** Every constraint of a problem of the second algorithm, in order. *)
Lemma build_problem_v2_constraints lam1 lam2 w_cur p :
  build_problem_v2 np_log10 observed weights known_set lmbda3 lam1 lam2 w_cur
  = Ok p ->
  (2 < n)%nat /\ List.length ks = n
  /\ exists known,
      as_constant (mask_select data ks) = Ok known
      /\ constraints p
         = [Equality (Vec (Const known))
              (Vec (Add (Add (Add (BoolIndex ks (Var n "s1"))
                                  (BoolIndex ks (Var n "s2")))
                             (BoolIndex ks (Var n "s3")))
                        (BoolIndex ks (Var n "s4"))));
            Equality (Vec (Sub (Slice (Some 365%Z) None (Var n "s2"))
                               (Slice None (Some (-365)%Z) (Var n "s2"))))
                     (Num 0);
            Equality (SumOf (Slice None (Some 365%Z) (Var n "s2"))) (Num 0);
            soiling_sign observed;
            Equality (Vec (Diff 2 (Var n "s4"))) (Num 0);
            Equality (Vec (Index 0 (Var n "s4"))) (Num 0)].
Proof.
  unfold build_problem_v2, diff. cbn [size]. intros H.
  apply rbind_ok in H as (weighted & _ & H).
  destruct (Nat.leb_spec n 2) as [| Hn]; [discriminate |]. simpl rbind in H.
  apply rbind_ok in H as (known0 & Hk0 & H).
  apply rbind_ok in H as (known & Hk & H).
  apply rbind_ok in H as (k1 & Hk1 & H).
  apply rbind_ok in H as (k2 & Hk2 & H).
  apply rbind_ok in H as (k3 & Hk3 & H).
  apply rbind_ok in H as (k4 & Hk4 & H).
  apply rbind_ok in H as (s2_late & Hlate & H).
  apply rbind_ok in H as (s2_early & Hearly & H).
  apply rbind_ok in H as (s2_year & Hyear & H).
  injection H as <-.
  unfold Np.bool_index in Hk0. destruct (Nat.eqb _ _); [| discriminate].
  injection Hk0 as <-.
  apply bool_index_ok in Hk1 as (Hl & _ & ->).
  apply bool_index_ok in Hk2 as (_ & _ & ->).
  apply bool_index_ok in Hk3 as (_ & _ & ->).
  apply bool_index_ok in Hk4 as (_ & _ & ->).
  unfold slice in Hlate, Hearly, Hyear.
  destruct (Nat.eqb _ 0); [discriminate |]. injection Hlate as <-.
  destruct (Nat.eqb _ 0); [discriminate |]. injection Hearly as <-.
  destruct (Nat.eqb _ 0); [discriminate |]. injection Hyear as <-.
  cbn [size] in Hl.
  split; [exact Hn |]. split; [now symmetry |].
  exists known. split; [exact Hk | reflexivity].
Qed.

End AlgorithmV2Built.

Section AlgorithmV2Results.

Import Np Cvx1 Soiling SeparationProblem SeparationParts Check.

Variable solve : Problem -> solver_outcome.
Hypothesis solve_ok : solver_contract solve.

Variable np_log10 : Q -> option Q.

Variables (observed : list (option Q)) (iterations : nat).
Variables (weights : option vector) (known_set : option (list bool)).
Variables (lmbda1 lmbda2 lmbda3 : Q).

Local Abbreviation n := (n_v2 observed).
Local Abbreviation ks := (known_set_v2 observed known_set).
Local Abbreviation data := (data_v2 np_log10 observed known_set).

(** The values a solver leaves in a problem of the second algorithm have
    the length of the series. *)
Lemma built_problem_v2_lengths lam1 lam2 w_cur p status rho :
  build_problem_v2 np_log10 observed weights known_set lmbda3 lam1 lam2 w_cur
  = Ok p ->
  solve p = Returns status (Some rho) ->
  List.length (rho "s1"%string) = n
  /\ List.length (rho "s2"%string) = n
  /\ List.length (rho "s3"%string) = n
  /\ List.length (rho "s4"%string) = n.
Proof.
  intros Hp Hs. destruct (solve_ok _ _ _ Hs) as (Hshape & _ & _).
  destruct (build_problem_v2_constraints _ _ _ _ _ _ _ _ _ Hp)
    as (_ & _ & known & _ & Hcs).
  assert (Hvar : forall name k,
             In (name, k) (flat_map constraint_vars (constraints p)) ->
             List.length (rho name) = k).
  { intros name k Hin. apply Hshape. unfold variables.
    apply in_or_app. now right. }
  rewrite Hcs in Hvar.
  repeat split; apply Hvar; simpl; auto 6.
Qed.

(** X19: the four sequences [soiling_seperation_algorithm_v2] returns have
    the length of the series, and at every index of the known set they
    add up to [log10] of the observed value. *)
Theorem soiling_seperation_algorithm_v2_adds_up r1 r2 r3 r4 :
  soiling_seperation_algorithm_v2 solve np_log10 observed iterations weights
    known_set lmbda1 lmbda2 lmbda3 = Ok (r1, r2, r3, r4) ->
  List.length r1 = n /\ List.length r2 = n
  /\ List.length r3 = n /\ List.length r4 = n
  /\ forall i, (i < n)%nat -> nth i ks false = true ->
       exists q l,
         nth i observed None = Some q /\ np_log10 q = Some l
         /\ l == nth i r1 0 + nth i r2 0 + nth i r3 0 + nth i r4 0.
Proof.
  intros H.
  apply soiling_seperation_algorithm_v2_ok in H
    as (lam1 & lam2 & w_cur & p & status & rho & Hp & Hs
        & -> & -> & -> & ->).
  destruct (built_problem_v2_lengths _ _ _ _ _ _ Hp Hs)
    as (L1 & L2 & L3 & L4).
  destruct (solve_ok _ _ _ Hs) as (_ & Hfeas & _).
  destruct (build_problem_v2_constraints _ _ _ _ _ _ _ _ _ Hp)
    as (Hn & Hks & known & Hk & Hcs).
  repeat (split; [assumption |]).
  unfold feasible in Hfeas. rewrite Hcs in Hfeas.
  inversion Hfeas as [| ? ? Hrec _]; subst.
  cbn [holds compare eval] in Hrec.
  rewrite !mask_select_zip_with in Hrec.
  set (total := Cvx.zip_with Qplus _ _) in Hrec.
  assert (Ld : List.length data = n).
  { unfold data_v2. rewrite zip_with_length, Hks. apply Nat.min_id. }
  assert (Lt : List.length total = List.length data).
  { subst total. rewrite !zip_with_length, L1, L2, L3, L4, Ld. lia. }
  assert (Lk : List.length ks = List.length data) by congruence.
  pose proof (proj1 (reconstruction_pointwise data total ks known Lt Lk Hk)
                Hrec) as Hpt.
  intros i Hi Hb. rewrite Ld in Hpt.
  destruct (Hpt i Hi Hb) as (l & Hl & Hsum).
  rewrite data_v2_nth in Hl by lia. rewrite Hb in Hl.
  destruct (nth i observed None) as [q |]; [| discriminate].
  exists q, l. split; [reflexivity |]. split; [exact Hl |].
  rewrite Hsum. subst total.
  rewrite !zip_with_nth_Q
    by (rewrite ?zip_with_length, ?L1, ?L2, ?L3, ?L4; lia).
  reflexivity.
Qed.

(** X20: the seasonal component [soiling_seperation_algorithm_v2] returns
    repeats after 365 entries and its first 365 entries (all of them, in
    a shorter series) sum to zero; the degradation component is a line
    through the origin, [s4[t] = t * s4[1]]. *)
Theorem soiling_seperation_algorithm_v2_structure r1 r2 r3 r4 :
  soiling_seperation_algorithm_v2 solve np_log10 observed iterations weights
    known_set lmbda1 lmbda2 lmbda3 = Ok (r1, r2, r3, r4) ->
  (forall t, (t + 365 < n)%nat -> nth (t + 365) r2 0 == nth t r2 0)
  /\ sum (firstn 365 r2) == 0
  /\ forall t, (t < n)%nat -> nth t r4 0 == inject_Z (Z.of_nat t) * nth 1 r4 0.
Proof.
  intros H.
  apply soiling_seperation_algorithm_v2_ok in H
    as (lam1 & lam2 & w_cur & p & status & rho & Hp & Hs
        & _ & -> & _ & ->).
  destruct (built_problem_v2_lengths _ _ _ _ _ _ Hp Hs)
    as (_ & L2 & _ & L4).
  destruct (solve_ok _ _ _ Hs) as (_ & Hfeas & _).
  destruct (build_problem_v2_constraints _ _ _ _ _ _ _ _ _ Hp)
    as (Hn & _ & known & _ & Hcs).
  unfold feasible in Hfeas. rewrite Hcs in Hfeas.
  inversion Hfeas as [| ? ? _ Hf1]; subst.
  inversion Hf1 as [| ? ? Hper Hf2]; subst.
  inversion Hf2 as [| ? ? Hzm Hf3]; subst.
  inversion Hf3 as [| ? ? _ Hf4]; subst.
  inversion Hf4 as [| ? ? Hd2 Hf5]; subst.
  inversion Hf5 as [| ? ? H0 _]; subst.
  cbn [holds compare eval] in Hper, Hzm, Hd2, H0.
  split; [| split].
  - intros t Ht. apply periodic_values; [exact Hper | lia].
  - rewrite py_slice_upto_365 in Hzm. exact Hzm.
  - inversion H0 as [| ? ? Hz _]; subst.
    intros t Ht. rewrite (zero_second_differences _ Hd2 t) by lia.
    rewrite Hz. ring.
Qed.

End AlgorithmV2Results.

Section AlgorithmV2Failures.

Import Np Cvx1 Soiling SeparationProblem SeparationParts Check.

Variable solve : Problem -> solver_outcome.
Variable np_log10 : Q -> option Q.

Variables (observed : list (option Q)) (iterations : nat).
Variables (weights : option vector) (lmbda1 lmbda2 lmbda3 : Q).

Lemma multiply_const_raises x ws e :
  multiply_const x ws = Raise e -> e = ValueError.
Proof.
  unfold multiply_const. destruct (Nat.eqb _ _); [discriminate |].
  destruct ws as [| c [| c' ws]]; intros H; now inversion H.
Qed.

(** X21: with the default known set, [soiling_seperation_algorithm_v2] raises
    [ValueError] when the series has fewer than two entries, when
    [lmbda1] or [lmbda2] is negative, and when the series has two entries
    and an iteration is asked for: whatever the solver, it is not
    reached. *)
Theorem soiling_seperation_algorithm_v2_rejects :
  (n_v2 observed < 2)%nat \/ lmbda1 < 0 \/ lmbda2 < 0
  \/ (n_v2 observed = 2%nat /\ (1 <= iterations)%nat) ->
  soiling_seperation_algorithm_v2 solve np_log10 observed iterations weights
    None lmbda1 lmbda2 lmbda3 = Raise ValueError.
Proof.
  intros H. unfold soiling_seperation_algorithm_v2.
  change (known_set_v2 observed None) with (not_nan observed).
  unfold not_nan at 1, n_v2 at 1. rewrite length_map, Nat.eqb_refl.
  cbn [negb].
  destruct (Nat.ltb_spec (n_v2 observed) 2) as [| Hn]; [reflexivity |].
  unfold nonneg_parameter.
  destruct (Qle_bool 0 lmbda1) eqn:E1; [| reflexivity].
  destruct (Qle_bool 0 lmbda2) eqn:E2; [| reflexivity].
  apply Qle_bool_iff in E1, E2.
  destruct H as [H | [H | [H | [H2 Hit]]]]; try lia; try Lqa.lra.
  simpl rbind. destruct iterations as [| k]; [lia |].
  cbn [Nat.eqb iterate]. unfold iteration_v2 at 1, build_problem_v2, diff.
  cbn [size]. rewrite H2.
  destruct (multiply_const _ _) as [weighted | e] eqn:Em; [reflexivity |].
  apply multiply_const_raises in Em as ->. reflexivity.
Qed.

End AlgorithmV2Failures.

Section SeparationWitnesses.

Import Np Cvx1 Soiling Check SoilingExamples SeparationProblem SeparationParts.

Lemma soiling_seperation_adds_up_witness :
  effective_index_set pi_three_days None = Ok [true; true; true]
  /\ soiling_seperation solver_examples pi_three_days None false (85 # 100) 2
       (1 # 100) 100 5 1 = Ok ([1; 1; 1], [0; 0; 0], [0; 0; 0], [0; 0; 0])
  /\ forall i, (i < 3)%nat -> nth i [true; true; true] false = true ->
       exists q, nth i pi_three_days None = Some q
                 /\ q == nth i [1; 1; 1] 0 + nth i [0; 0; 0] 0
                         + nth i [0; 0; 0] 0 + nth i [0; 0; 0] 0.
Proof.
  assert (Hix : effective_index_set pi_three_days None
                = Ok [true; true; true]) by reflexivity.
  assert (Hrun : soiling_seperation solver_examples pi_three_days None false
                   (85 # 100) 2 (1 # 100) 100 5 1
                 = Ok ([1; 1; 1], [0; 0; 0], [0; 0; 0], [0; 0; 0]))
    by (vm_compute; reflexivity).
  split; [exact Hix |]. split; [exact Hrun |].
  apply (soiling_seperation_adds_up solver_examples solver_examples_contract
           pi_three_days None false (85 # 100) 2 (1 # 100) 100 5 1
           _ _ _ _ _ Hix Hrun).
Defined.

Lemma soiling_seperation_degradation_witness :
  soiling_seperation certifying_three_days pi_three_days None true
    (85 # 100) 2 (1 # 100) 100 5 1
  = Ok ([1; 1; 1], [0; 0; 0], [0; 0; 0], [0; 0; 0])
  /\ forall t, (t < 3)%nat ->
       nth t [0; 0; 0] 0 == inject_Z (Z.of_nat t) * nth 1 [0; 0; 0] 0.
Proof.
  assert (Hrun : soiling_seperation certifying_three_days pi_three_days None
                   true (85 # 100) 2 (1 # 100) 100 5 1
                 = Ok ([1; 1; 1], [0; 0; 0], [0; 0; 0], [0; 0; 0]))
    by (vm_compute; reflexivity).
  split; [exact Hrun |].
  apply (soiling_seperation_degradation certifying_three_days
           certifying_three_days_contract pi_three_days None true
           (85 # 100) 2 (1 # 100) 100 5 1 _ _ _ _ Hrun).
Defined.

Lemma nearly_flat_made_flat_witness :
  iteration certifying_three_days pi_three_days false (85 # 100) 2 (1 # 100)
    100 1 (not_nan pi_three_days) (state_before 3)
  = Ok (state_after solution_three_days)
  /\ iteration certifying_three_days pi_three_days false (85 # 100) 2
       (1 # 100) 100 1 (not_nan pi_three_days)
       (state_after solution_three_days)
     = Ok (state_after solution_three_days)
  /\ nth 1 (solution_three_days "s1"%string) 0
     == nth 0 (solution_three_days "s1"%string) 0.
Proof.
  assert (H1 : iteration certifying_three_days pi_three_days false
                 (85 # 100) 2 (1 # 100) 100 1 (not_nan pi_three_days)
                 (state_before 3)
               = Ok (state_after solution_three_days))
    by (vm_compute; reflexivity).
  assert (H2 : iteration certifying_three_days pi_three_days false
                 (85 # 100) 2 (1 # 100) 100 1 (not_nan pi_three_days)
                 (state_after solution_three_days)
               = Ok (state_after solution_three_days))
    by (vm_compute; reflexivity).
  split; [exact H1 |]. split; [exact H2 |].
  apply (nearly_flat_made_flat certifying_three_days
           certifying_three_days_contract pi_three_days false (85 # 100) 2
           (1 # 100) 100 1 (not_nan pi_three_days) (state_before 3)
           (state_after solution_three_days)
           (state_after solution_three_days)
           solution_three_days solution_three_days 0 H1 H2 eq_refl eq_refl).
  - simpl. lia.
  - vm_compute. discriminate.
Defined.

Lemma iteration_keeps_weights_witness :
  iteration certifying_three_days pi_three_days false (85 # 100) 2 (1 # 100)
    100 1 (not_nan pi_three_days) (state_before 3)
  = Ok (state_after solution_three_days)
  /\ List.length (w (state_after solution_three_days)) = 1%nat
  /\ Forall (fun x => 0 < x /\ x <= 100) (w (state_after solution_three_days))
  /\ List.length (zero_set (state_after solution_three_days)) = 2%nat.
Proof.
  assert (H1 : iteration certifying_three_days pi_three_days false
                 (85 # 100) 2 (1 # 100) 100 1 (not_nan pi_three_days)
                 (state_before 3)
               = Ok (state_after solution_three_days))
    by (vm_compute; reflexivity).
  split; [exact H1 |].
  apply (iteration_keeps_weights certifying_three_days
           certifying_three_days_contract pi_three_days false (85 # 100) 2
           (1 # 100) 100 1 (not_nan pi_three_days) _ _ H1).
Defined.

Lemma soiling_seperation_solver_failure_witness :
  effective_index_set pi_three_days None = Ok [true; true; true]
  /\ effective_index_set [None; None; None] None = Ok [false; false; false]
  /\ soiling_seperation (table_solver []) pi_three_days None false (85 # 100) 2
       (1 # 100) 100 5 1 = Raise (SolverError "Solver 'MOSEK' failed.")
  /\ soiling_seperation (fun _ => Returns "infeasible" None) pi_three_days
       None false (85 # 100) 2 (1 # 100) 100 5 1 = Raise TypeError
  /\ soiling_seperation solver_examples [None; None; None] None false
       (85 # 100) 2 (1 # 100) 100 5 1 = Raise ValueError.
Proof.
  assert (Hn : (3 <= 3)%nat) by lia.
  assert (Hit : (1 <= 5)%nat) by lia.
  split; [reflexivity |]. split; [reflexivity |]. split; [| split].
  - destruct (soiling_seperation_solver_failure (table_solver [])
                pi_three_days None false (85 # 100) 2 (1 # 100) 100 5 1
                [true; true; true] eq_refl Hn Hit) as (p0 & Hp & Hr & _).
    apply Hr. injection Hp as <-. reflexivity.
  - destruct (soiling_seperation_solver_failure
                (fun _ => Returns "infeasible" None)
                pi_three_days None false (85 # 100) 2 (1 # 100) 100 5 1
                [true; true; true] eq_refl Hn Hit) as (p0 & _ & _ & Hv).
    apply (Hv "infeasible"%string). reflexivity.
  - exact (soiling_seperation_solver_failure solver_examples
             [None; None; None] None false (85 # 100) 2 (1 # 100) 100 5 1
             [false; false; false] eq_refl Hn Hit).
Defined.

Lemma soiling_seperation_degenerate_calls_witness :
  soiling_seperation solver_examples [Some 1; Some 1] None false (85 # 100) 2
    (1 # 100) 100 5 1 = Raise ValueError
  /\ soiling_seperation solver_examples pi_three_days None false (85 # 100) 2
       (1 # 100) 100 0 1 = Raise TypeError.
Proof.
  split.
  - apply (proj1 (soiling_seperation_degenerate_calls solver_examples
                    [Some 1; Some 1] None false (85 # 100) 2 (1 # 100) 100 5
                    1)); simpl; lia.
  - apply (proj2 (soiling_seperation_degenerate_calls solver_examples
                    pi_three_days None false (85 # 100) 2 (1 # 100) 100 0 1)
             ltac:(simpl; lia) eq_refl (not_nan pi_three_days) eq_refl).
Defined.

Lemma soiling_seperation_algorithm_v2_adds_up_witness :
  soiling_seperation_algorithm_v2 solver_examples log10_exact pi_366_days 5
    None None 500 (1 # 10) (1 # 100000)
  = Ok (repeat 0 366, repeat 0 366, repeat 0 366, repeat 0 366)
  /\ forall i, (i < 366)%nat ->
       nth i (known_set_v2 pi_366_days None) false = true ->
       exists q l,
         nth i pi_366_days None = Some q /\ log10_exact q = Some l
         /\ l == nth i (repeat 0 366) 0 + nth i (repeat 0 366) 0
                 + nth i (repeat 0 366) 0 + nth i (repeat 0 366) 0.
Proof.
  assert (Hrun : soiling_seperation_algorithm_v2 solver_examples log10_exact
                   pi_366_days 5 None None 500 (1 # 10) (1 # 100000)
                 = Ok (repeat 0 366, repeat 0 366, repeat 0 366,
                       repeat 0 366))
    by (vm_compute; reflexivity).
  split; [exact Hrun |].
  apply (soiling_seperation_algorithm_v2_adds_up solver_examples
           solver_examples_contract log10_exact pi_366_days 5 None None 500
           (1 # 10) (1 # 100000) _ _ _ _ Hrun).
Defined.

Lemma soiling_seperation_algorithm_v2_structure_witness :
  soiling_seperation_algorithm_v2 solver_examples log10_exact pi_366_days 5
    None None 500 (1 # 10) (1 # 100000)
  = Ok (repeat 0 366, repeat 0 366, repeat 0 366, repeat 0 366)
  /\ (forall t, (t + 365 < 366)%nat ->
        nth (t + 365) (repeat 0 366) 0 == nth t (repeat 0 366) 0)
  /\ sum (firstn 365 (repeat 0 366)) == 0.
Proof.
  assert (Hrun : soiling_seperation_algorithm_v2 solver_examples log10_exact
                   pi_366_days 5 None None 500 (1 # 10) (1 # 100000)
                 = Ok (repeat 0 366, repeat 0 366, repeat 0 366,
                       repeat 0 366))
    by (vm_compute; reflexivity).
  split; [exact Hrun |].
  destruct (soiling_seperation_algorithm_v2_structure solver_examples
              solver_examples_contract log10_exact pi_366_days 5 None None
              500 (1 # 10) (1 # 100000) _ _ _ _ Hrun) as (Hper & Hzm & _).
  split; [exact Hper | exact Hzm].
Defined.

Lemma soiling_seperation_algorithm_v2_rejects_witness :
  soiling_seperation_algorithm_v2 solver_examples log10_exact pi_366_days 5
    None None (- (1)) (1 # 10) (1 # 100000) = Raise ValueError.
Proof.
  apply soiling_seperation_algorithm_v2_rejects.
  right. left. reflexivity.
Defined.

End SeparationWitnesses.
